(* ===== verification/_CoqProject ===== *)
-Q . S2P
Prelude.v
GoStrings.v
GoNet.v
Base64.v
Json.v
Router.v
Stats.v
StatsProps.v
StatsTime.v
StatsView.v
StatsViewProps.v
StatsPersist.v
StatsPersistProps.v
Dns.v
DnsProps.v
Float64.v
Spp.v
SppClient.v
SppProps.v
Http.v
HttpProps.v
Conn.v
ConnProps.v
Udp.v
UdpProps.v
Relay.v
RelayProps.v
Api.v
ApiProps.v
ApiView.v
ApiViewProps.v
Launch.v
Flag.v
Config.v
ConfigFile.v
Listener.v
ListenerProps.v
Engine.v
EngineProps.v
Cli.v
CliProps.v
