(* ===== verification/Prelude.v ===== *)
(** * yellowsocks: verification of the program

    yellowsocks is a local proxy.  Clients reach it by SOCKS5 (TCP and UDP), by HTTP or as
    their DNS server; it decides for every destination whether to connect directly or
    through one of several upstream nodes, keeps those nodes running and healthy, counts
    what it carries, and reports it over an HTTP API.  This library models the Go code
    under src/core and src/cmd as executable definitions and proves what makes it correct.

    ** The parts and how they meet

    [Engine.Start] (core/engine.go) builds the router, the statistics collector, the node
    manager, the DNS server, the two proxies and the API, in this order, and hands each
    the ones it uses.  A connection handler asks the DNS server's reverse map for the name
    behind an address, the router for a decision, the manager for a node, opens a session
    with the collector, relays, reports the node's traffic or failure and gives the node
    back.  The DNS server asks the router which upstream may see a name.  The API reads the
    collector and the engine.  [Cli.run] (cmd/yellowsocks-cli) is the program around the
    engine.

    ** Which file models what

    - [Prelude]: records and their update, results, machine integers, time, sorting.
    - [GoStrings], [GoNet], [Base64], [Json], [Flag]: what the program uses of Go's standard
      library: strings and strconv, net's addresses, base64, documents and codecs of
      encoding/json, the flag parser.  They are definitions, with their own theorems.
    - [Float64]: the order of the Standard Library's binary64 arithmetic: quotients are
      canonical, and taking a positive number away makes nothing larger.
    - [Router]: core/router.  [HostSet] is the copy-on-write suffix set, [Router.Router] the
      table and [Decide], [Rules] the policies; [RouterProps] relates [Decide] to a
      declarative policy.
    - [Stats], [StatsView], [StatsPersist]: core/stats.  The collector's writers
      (stats.go), what it reports (stats.go), and the snapshot file with the collector's
      construction, saver and end (persist.go, stats.go).  Sessions are shared objects and
      live in a store by identifier.  [StatsProps] (totals and tables over any sequence of
      calls), [StatsTime] (bucket ring and rates), [StatsViewProps], [StatsPersistProps].
    - [Dns]: core/dns, the caching resolver; [DnsProps].
    - [Spp], [SppClient]: core/sppclient, the node manager and the clients it runs;
      [SppProps].
    - [Http], [Conn], [Udp], [Relay], [Listener]: core/proxy: addresses and the HTTP head
      (addr.go, http.go), the connection handlers, the UDP associations, the relay of one
      connection, and the listeners of both servers (socks5.go, http.go); each with its
      properties.  The handlers use the nodes through the interface [Conn.SmartUpstream],
      which the manager implements.
    - [Api], [ApiView]: core/api: routes, access control and parameters; the handlers'
      bodies and their payloads.
    - [Config], [ConfigFile], [Engine], [Launch], [Cli]: the configuration and its file, the
      engine, the working directory, the program.

    State is a record per component, an operation is a function on it with the name of the
    Go function, and an error is a value.  What the outside world answers (the network, the
    clock, the file system) is an argument of the operation that asks.  Goroutines that
    share state are a type of events with a step function ([Relay], [Udp], [Listener], and
    the histories of [SppProps], [DnsProps] and [StatsProps]): a history is any list of
    events, so a theorem over all lists covers every interleaving at the granularity of
    the source's critical sections.

    ** What the theorems show

    - Connections: every handled connection answers its client once, is counted exactly and
      gives its node back, whatever the network does; what is dialled follows the routing
      decision; a relay delivers in order and unchanged, the bytes the HTTP parser read
      ahead first, and is cut only when idle (or past the grace time, half-closed); a UDP
      client hears its own peers only; the head forwarded of an HTTP request is exactly
      known and carries no injected line and no proxy credentials.
    - Routing: [Decide] is the one decision a declarative policy prescribes.
    - DNS: the cache is never poisoned or stale under any interleaving; the requests a
      lookup sends are exactly known, so that direct names do not leak to the DoH server;
      the one way a truncated answer reaches a stream client is named.
    - Nodes: the pick has the least cost of the best live tier, up to the tolerance of the
      comparison; connection counts are exact; after shutdown nothing runs or starts.
    - Statistics: totals are the sums over sessions and over the retained history; the
      capped tables stay within their caps; every point of a series is the sum of its
      buckets; live lists are exact; the snapshot survives crashes, and a restart, of the
      collector or of a whole engine, restores it.
    - API: who may call what; reading changes nothing; every list of an answer is capped.
    - The program: the whole configuration the engine gets, from the flags and the file;
      the one reason a run ends for and its code; listeners, engine and program release
      what they acquire, whatever fails.

    The properties proper carry an identifier (C and a number) in their comments; other
    theorems are lemmas they share, or examples of a behaviour worth knowing.

    ** Bounds and fuel

    Loops that are not structural carry a bound that is proved sufficient or is the loop's
    own: [Stats.rotate_fuel] is the number of seconds passed, which the loop cannot
    exceed; [StatsView.series_fuel] is the 2000 points after which the source itself
    stops, and [Series_terminates] shows the loop ends by its own condition within it;
    [Router.match_fuel] is the length of the name, of which each turn drops a label;
    [Flag.Parse] takes a turn per argument and one more ([parse_loop_fuel]: more turns
    change nothing); the digits of a number are bounded by its logarithm.  Integers are
    mathematical where the source cannot leave 64 bits; where it can, the wrap-around is
    written out ([Prelude.int64], [Api.scaled]).  Node costs are IEEE doubles of the
    Standard Library's [SpecFloat].

    ** Outside the model

    Parameters with stated laws: the DNS message library ([Dns.DNSLib]), the SPP,
    pingtunnel and network libraries ([Spp.SppLib], [Udp]'s datagram format), the GeoIP
    database and the built-in lists ([Router.RouterEnv]), the text of a JSON document and
    of a time ([Json.JSONText], [Json.TimeJSON]), YAML ([ConfigFile.YamlLib]), the log
    library ([Cli.LogLib]), case mapping beyond ASCII ([GoStrings.UnicodeCase]), the order
    [sort.Slice] leaves equal elements in ([Prelude.GoSort]), the capacity [append]
    chooses ([StatsPersist.GoAppend]) and the status of [ServeMux]'s redirects
    ([ApiView.MuxRedirect]).  Each theorem over them has a witness with a
    concrete instance.

    Not modelled: log messages, which nothing reads back; net/http's server and the writing
    of response bodies, since the handlers' results are values; the embedded dashboard page
    and the pprof handlers, which are data and library code; the usage text of the flags;
    deadlines of single socket operations, which appear as the failures they cause; data
    races below a critical section, where the findings of the manifest name one.

    ** Still open

    The SOCKS5 handshake of the network library as an interface with laws (its outcome is
    an event of [Conn.Env] now); the writing of an API answer as the text of its document;
    the accept loops and the connections they start in one interleaved history. *)

From Stdlib Require Export ZArith Lia Ascii.
From stdpp Require Export base tactics numbers list strings gmap sorting.

#[global] Open Scope Z_scope.
#[global] Set Warnings "-clear-no-such-hyp".

(** ** Record update

    [r <| f := v |>] is [r] with field [f] replaced, [r <| f ::= g |>] applies
    [g] to it.  A record declares its eta expansion once ([Eta]); the setter of
    a field is computed from it. *)

Class Eta (R : Type) := eta : R → R.

Class Setter {R E : Type} (proj : R → E) := set_with : (E → E) → R → R.

Arguments set_with {R E} proj {_} _ _ /.
#[global] Hint Mode Setter - - ! : typeclass_instances.

Ltac build_setter proj :=
  let g := fresh "g" in
  let r := fresh "r" in
  intros g r;
  let R := type of r in
  let inst := constr:(_ : Eta R) in
  let e := eval cbv [eta] in (inst r) in
  let e := eval red in e in
  let p := eval pattern (proj r) in e in
  lazymatch p with ?h _ => let b := eval cbv beta in (h (g (proj r))) in exact b end.

#[global] Hint Extern 1 (Setter ?proj) => build_setter proj : typeclass_instances.

Declare Scope record_scope.
Delimit Scope record_scope with rec.
#[global] Open Scope record_scope.

Notation "r <| f := v |>" := (set_with f (λ _, v) r)
  (at level 1, f at next level, v at level 200, left associativity,
   format "r  <| f  :=  v |>") : record_scope.
Notation "r <| f ::= g |>" := (set_with f g r)
  (at level 1, f at next level, g at level 200, left associativity,
   format "r  <| f  ::=  g |>") : record_scope.

(** ** Results of fallible Go code

    [(T, error)] pairs of which exactly one side is meaningful. *)

Inductive result (E A : Type) :=
  | Ok (a : A)
  | Err (e : E).
Arguments Ok {E A} a.
Arguments Err {E A} e.

Definition is_ok {E A} (r : result E A) : bool :=
  match r with Ok _ => true | Err _ => false end.

(** ** Machine integers

    Go's fixed-width arithmetic wraps around; division and remainder truncate
    towards zero ([Z.quot], [Z.rem]). *)

Definition int64 (z : Z) : Z := (z + 2 ^ 63) `mod` 2 ^ 64 - 2 ^ 63.
Definition uint32 (z : Z) : Z := z `mod` 2 ^ 32.

Lemma int64_range z : - 2 ^ 63 ≤ int64 z < 2 ^ 63.
Proof. unfold int64. pose proof (Z.mod_pos_bound (z + 2 ^ 63) (2 ^ 64)). lia. Qed.

Lemma int64_id z : - 2 ^ 63 ≤ z < 2 ^ 63 → int64 z = z.
Proof. intros. unfold int64. rewrite Z.mod_small; lia. Qed.

Lemma uint32_range z : 0 ≤ uint32 z < 2 ^ 32.
Proof. apply Z.mod_pos_bound. lia. Qed.

Lemma uint32_id z : 0 ≤ z < 2 ^ 32 → uint32 z = z.
Proof. apply Z.mod_small. Qed.

(** ** Time

    An instant is a count of nanoseconds since the Unix epoch, a duration a
    count of nanoseconds.  The clock is an argument of every operation that
    reads it. *)

Abbreviation time := Z (only parsing).
Abbreviation duration := Z (only parsing).

Definition nanosecond : duration := 1.
Definition millisecond : duration := 1000000.
Definition second : duration := 1000000000.
Definition minute : duration := 60 * second.
Definition hour : duration := 60 * minute.

(** [t.Unix()]: whole seconds, rounded down. *)
Definition unix (t : time) : Z := t `div` second.

Lemma unix_mono t1 t2 : t1 ≤ t2 → unix t1 ≤ unix t2.
Proof. unfold unix, second. intros. apply Z.div_le_mono; lia. Qed.

(** ** [sort.Slice]

    The sort is not stable and the slices it is applied to are filled in Go's
    random map order, so all a caller may rely on is that the result is a
    permutation in which no element is less than one before it. *)

Record strict_weak {A} (less : A → A → bool) : Prop := {
  sw_asym x y : less x y = true → less y x = false;
  sw_cotrans x y z : less x y = true → less x z = true ∨ less z y = true;
}.

Class GoSort := {
  sort_slice {A} (less : A → A → bool) : list A → list A;
  sort_slice_perm {A} (less : A → A → bool) l : sort_slice less l ≡ₚ l;
  sort_slice_sorted {A} (less : A → A → bool) l :
    strict_weak less →
    StronglySorted (λ x y, less y x = false) (sort_slice less l);
}.

Section merge.
  Context {A : Type} (less : A → A → bool).

Definition not_after (x y : A) : Prop := less y x = false.

#[local] Instance not_after_dec x y : Decision (not_after x y).
  Proof. unfold not_after. apply _. Defined.

Lemma not_after_trans : strict_weak less → Transitive not_after.
  Proof.
    intros [? Hco] x y z Hxy Hyz. unfold not_after in *.
    destruct (less z x) eqn:E; [|done]. destruct (Hco _ _ y E); congruence.
  Qed.

Lemma not_after_total : strict_weak less → Total not_after.
  Proof.
    intros [Hasym _] x y. unfold not_after.
    destruct (less y x) eqn:E; [right; by apply Hasym | by left].
  Qed.

Definition merge_slice (l : list A) : list A := merge_sort not_after l.
End merge.

(** Merge sort is one implementation of the contract. *)
#[program] Definition merge_GoSort : GoSort := {|
  sort_slice A less l := merge_slice less l;
|}.
Next Obligation. intros. apply merge_sort_Permutation. Qed.
Next Obligation.
  intros. apply StronglySorted_merge_sort;
    [by apply not_after_trans | by apply not_after_total].
Qed.

(** Ordering by a decreasing integer key, as all the tables are sorted. *)
Lemma strict_weak_gtb {A} (f : A → Z) : strict_weak (λ x y, f y <? f x).
Proof. split; intros *; rewrite ?Z.ltb_lt, ?Z.ltb_ge; lia. Qed.

(** Ordering by a primary key, then a secondary one. *)
Lemma strict_weak_lex {A} (f g : A → Z) :
  strict_weak (λ x y, if f x =? f y then g y <? g x else f y <? f x).
Proof.
  split; intros *; repeat case_match; rewrite ?Z.eqb_eq, ?Z.eqb_neq, ?Z.ltb_lt, ?Z.ltb_ge in *; lia.
Qed.

(** ** [sort.SliceStable]

    A stable sort is determined by its contract: elements that compare equal keep
    their order.  [insert_stable] puts an element that precedes the list in front of
    everything it is not greater than. *)

Section stable.
  Context {A : Type} (less : A → A → bool).

Fixpoint insert_stable (x : A) (l : list A) : list A :=
    match l with
    | [] => [x]
    | y :: l' => if less y x then y :: insert_stable x l' else x :: l
    end.

Definition sort_stable (l : list A) : list A := foldr insert_stable [] l.

Lemma insert_stable_perm x l : insert_stable x l ≡ₚ x :: l.
  Proof.
    induction l as [|y l IH]; [done|]. cbn. destruct (less y x); [|done].
    rewrite IH. apply Permutation_swap.
  Qed.

Lemma sort_stable_perm l : sort_stable l ≡ₚ l.
  Proof. induction l as [|x l IH]; [done|]. cbn. by rewrite insert_stable_perm, IH. Qed.

Lemma insert_stable_sorted x l :
    strict_weak less →
    StronglySorted (not_after less) l → StronglySorted (not_after less) (insert_stable x l).
  Proof.
    intros Hw Hl. induction Hl as [|y l Hl IH Hy]; [repeat constructor|]. cbn.
    destruct (less y x) eqn:E.
    - constructor; [done|]. rewrite insert_stable_perm. constructor; [|done].
      unfold not_after. by apply (sw_asym _ Hw).
    - constructor; [by constructor|]. constructor; [done|].
      eapply List.Forall_impl; [|exact Hy]. intros z Hz.
      by apply (not_after_trans less Hw) with y.
  Qed.

Lemma sort_stable_sorted l : strict_weak less → StronglySorted (not_after less) (sort_stable l).
  Proof. intros Hw. induction l; [constructor|]. by apply insert_stable_sorted. Qed.
End stable.

(** ** The first [k] of a sorted slice

    What is cut off is not before anything that is kept. *)

Lemma take_sorted_top {A} (less : A → A → bool) (k : nat) (l : list A) x y :
  StronglySorted (not_after less) l → x ∈ take k l → y ∈ drop k l → less y x = false.
Proof.
  intros Hl. revert k. induction Hl as [|z l Hl IH Hz]; intros k Hx Hy.
  - rewrite take_nil in Hx. by apply not_elem_of_nil in Hx.
  - destruct k as [|k]; [by apply not_elem_of_nil in Hx|]. cbn in Hx, Hy.
    apply elem_of_cons in Hx as [->|Hx]; [|by eapply IH].
    rewrite List.Forall_forall in Hz. apply Hz, list_elem_of_In.
    rewrite <- (take_drop k l). apply elem_of_app. by right.
Qed.

Lemma StronglySorted_take {A} (R : A → A → Prop) k (l : list A) :
  StronglySorted R l → StronglySorted R (take k l).
Proof.
  intros Hl. revert k. induction Hl as [|z l Hl IH Hz]; intros [|k]; cbn; try constructor; [done|].
  by apply Forall_take.
Qed.
