(* ===== verification/GoStrings.v ===== *)
(** * Go's [strings] and [strconv]

    Go strings are byte sequences: Rocq's [string], whose characters are 8-bit.
    The functions below are the ones the program calls, with Go's behaviour on
    every byte sequence.  Case mapping of ASCII text is defined; of text with
    bytes above 0x7f it follows the Unicode tables, which are an interface
    ([UnicodeCase]) here. *)

From S2P Require Import Prelude.

#[global] Open Scope Z_scope.

(** ** Bytes *)

Definition byte_val (c : ascii) : Z := Z.of_N (N_of_ascii c).
Definition byte_of (z : Z) : ascii := ascii_of_N (Z.to_N z).

Definition in_range (lo hi : Z) (c : ascii) : bool :=
  (lo <=? byte_val c) && (byte_val c <=? hi).

Definition is_digit : ascii → bool := in_range 48 57.
Definition is_upper : ascii → bool := in_range 65 90.
Definition is_lower : ascii → bool := in_range 97 122.
Definition is_ascii_byte (c : ascii) : bool := byte_val c <? 128.

Definition lower_byte (c : ascii) : ascii :=
  if is_upper c then byte_of (byte_val c + 32) else c.
Definition upper_byte (c : ascii) : ascii :=
  if is_lower c then byte_of (byte_val c - 32) else c.

(** ** Slicing *)

Fixpoint sdrop (n : nat) (s : string) : string :=
  match n, s with
  | O, _ => s
  | S _, EmptyString => EmptyString
  | S n, String _ s => sdrop n s
  end.

Fixpoint stake (n : nat) (s : string) : string :=
  match n, s with
  | O, _ => EmptyString
  | S _, EmptyString => EmptyString
  | S n, String c s => String c (stake n s)
  end.

Fixpoint smap (f : ascii → ascii) (s : string) : string :=
  match s with
  | EmptyString => EmptyString
  | String c s => String (f c) (smap f s)
  end.

Fixpoint sforallb (f : ascii → bool) (s : string) : bool :=
  match s with
  | EmptyString => true
  | String c s => f c && sforallb f s
  end.

Definition sexistsb (f : ascii → bool) (s : string) : bool :=
  negb (sforallb (λ c, negb (f c)) s).

(** [s[len(s)-1]] *)
Fixpoint slast (s : string) : option ascii :=
  match s with
  | EmptyString => None
  | String c EmptyString => Some c
  | String _ s => slast s
  end.

Definition is_empty (s : string) : bool :=
  match s with EmptyString => true | _ => false end.

(** ** Searching *)

Fixpoint IndexByte (s : string) (c : ascii) : option nat :=
  match s with
  | EmptyString => None
  | String d s' => if Ascii.eqb d c then Some O else S <$> IndexByte s' c
  end.

Fixpoint LastIndexByte (s : string) (c : ascii) : option nat :=
  match s with
  | EmptyString => None
  | String d s' =>
      match LastIndexByte s' c with
      | Some i => Some (S i)
      | None => if Ascii.eqb d c then Some O else None
      end
  end.

Definition HasPrefix (s p : string) : bool := String.prefix p s.

Definition HasSuffix (s p : string) : bool :=
  Nat.leb (String.length p) (String.length s) &&
  String.eqb (sdrop (String.length s - String.length p) s) p.

Fixpoint Contains (s sub : string) : bool :=
  HasPrefix s sub || match s with EmptyString => false | String _ s' => Contains s' sub end.

Definition CutPrefix (s p : string) : option string :=
  if HasPrefix s p then Some (sdrop (String.length p) s) else None.

Definition TrimPrefix (s p : string) : string := default s (CutPrefix s p).

Definition TrimSuffix (s p : string) : string :=
  if HasSuffix s p then stake (String.length s - String.length p) s else s.

(** [strings.Cut(s, c)] for a one-byte separator. *)
Definition Cut (s : string) (c : ascii) : option (string * string) :=
  match IndexByte s c with
  | Some i => Some (stake i s, sdrop (S i) s)
  | None => None
  end.

(** [strings.Split(s, c)] for a one-byte separator: always at least one field. *)
Fixpoint Split (s : string) (c : ascii) : list string :=
  match s with
  | EmptyString => [EmptyString]
  | String d s' =>
      if Ascii.eqb d c then EmptyString :: Split s' c
      else match Split s' c with
           | f :: fs => String d f :: fs
           | [] => [String d EmptyString]
           end
  end.

(** ** Trimming *)

(** [strings.TrimLeft]/[TrimRight]/[Trim] for a cutset of ASCII bytes. *)
Fixpoint TrimLeft (cut : ascii → bool) (s : string) : string :=
  match s with
  | String c s' => if cut c then TrimLeft cut s' else s
  | EmptyString => EmptyString
  end.

Fixpoint TrimRight (cut : ascii → bool) (s : string) : string :=
  match s with
  | EmptyString => EmptyString
  | String c s' => let t := TrimRight cut s' in
                   if cut c && is_empty t then EmptyString else String c t
  end.

Definition Trim (cut : ascii → bool) (s : string) : string :=
  TrimRight cut (TrimLeft cut s).

Definition is_dot (c : ascii) : bool := Ascii.eqb c ".".
Definition is_crlf (c : ascii) : bool := (byte_val c =? 13) || (byte_val c =? 10).

(** The UTF-8 encodings of [unicode.IsSpace]: the number of bytes of the white
    space character [s] starts with, 0 when it starts with none. *)
Definition space_len (s : string) : nat :=
  match s with
  | EmptyString => 0%nat
  | String a s1 =>
      let x := byte_val a in
      if (x =? 32) || ((9 <=? x) && (x <=? 13)) then 1%nat
      else
        match s1 with
        | EmptyString => 0%nat
        | String b s2 =>
            let y := byte_val b in
            if (x =? 194) && ((y =? 133) || (y =? 160)) then 2%nat
            else
              match s2 with
              | EmptyString => 0%nat
              | String c _ =>
                  let z := byte_val c in
                  if ((x =? 225) && (y =? 154) && (z =? 128))
                     || ((x =? 226) && (y =? 128)
                         && (((128 <=? z) && (z <=? 138))
                             || (z =? 168) || (z =? 169) || (z =? 175)))
                     || ((x =? 226) && (y =? 129) && (z =? 159))
                     || ((x =? 227) && (y =? 128) && (z =? 128))
                  then 3%nat else 0%nat
              end
        end
  end.

(** Leading white space; the fuel is the length, each round drops a byte or
    more. *)
Fixpoint trim_space_left (fuel : nat) (s : string) : string :=
  match fuel with
  | O => s
  | S fuel => match space_len s with
              | O => s
              | n => trim_space_left fuel (sdrop n s)
              end
  end.

Definition all_space (s : string) : bool :=
  is_empty (trim_space_left (String.length s) s).

(** Trailing white space: cut at the first position from which only white
    space follows. *)
Fixpoint trim_space_right (s : string) : string :=
  if all_space s then EmptyString
  else match s with
       | EmptyString => EmptyString
       | String c s' => String c (trim_space_right s')
       end.

Definition TrimSpace (s : string) : string :=
  trim_space_right (trim_space_left (String.length s) s).

(** ** Case *)

Definition is_ascii (s : string) : bool := sforallb is_ascii_byte s.
Definition ascii_lower : string → string := smap lower_byte.
Definition ascii_upper : string → string := smap upper_byte.

(** The Unicode case tables, used when some byte is not ASCII. *)
Class UnicodeCase := {
  unicode_lower : string → string;
  unicode_upper : string → string;
  unicode_fold_eq : string → string → bool;
}.

Section case.
  Context `{UnicodeCase}.

Definition ToLower (s : string) : string :=
    if is_ascii s then ascii_lower s else unicode_lower s.

Definition ToUpper (s : string) : string :=
    if is_ascii s then ascii_upper s else unicode_upper s.

Definition EqualFold (s t : string) : bool :=
    if is_ascii s && is_ascii t then String.eqb (ascii_lower s) (ascii_lower t)
    else unicode_fold_eq s t.
End case.

(** An instance that leaves text with non-ASCII bytes alone, to run the model. *)
Definition ascii_case : UnicodeCase := {|
  unicode_lower s := s; unicode_upper s := s; unicode_fold_eq := String.eqb |}.

(** ** Numbers *)

Definition digit_val (c : ascii) : Z := byte_val c - 48.
Definition digit_char (d : Z) : ascii := byte_of (d + 48).

Fixpoint parse_digits (acc : Z) (s : string) : option Z :=
  match s with
  | EmptyString => Some acc
  | String c s' => if is_digit c then parse_digits (acc * 10 + digit_val c) s' else None
  end.

(** [strconv.Atoi] on a 64-bit platform: an optional sign, then one or more
    decimal digits, in the range of [int64]. *)
Definition parse_uint (s : string) : option Z :=
  if is_empty s then None else parse_digits 0 s.

Definition in_int64 (z : Z) : bool := (- 2 ^ 63 <=? z) && (z <? 2 ^ 63).

Definition Atoi (s : string) : option Z :=
  let v := match s with
           | String "-" s' => Z.opp <$> parse_uint s'
           | String "+" s' => parse_uint s'
           | _ => parse_uint s
           end in
  match v with
  | Some z => if in_int64 z then Some z else None
  | None => None
  end.

(** [strconv.Itoa].  The fuel bounds the number of digits. *)
Fixpoint show_digits (fuel : nat) (n : Z) (acc : string) : string :=
  match fuel with
  | O => acc
  | S fuel =>
      let acc := String (digit_char (n `mod` 10)) acc in
      if n <? 10 then acc else show_digits fuel (n `div` 10) acc
  end.

Definition show_uint (n : Z) : string := show_digits (S (Z.to_nat (Z.log2 n))) n EmptyString.

Definition Itoa (n : Z) : string :=
  if n <? 0 then String "-" (show_uint (- n)) else show_uint n.

(** [hex.EncodeToString], and [fmt]'s %x of an integer. *)
Definition hex_char (d : Z) : ascii := if d <? 10 then digit_char d else byte_of (d + 87).

Fixpoint HexEncode (s : string) : string :=
  match s with
  | EmptyString => EmptyString
  | String c s => String (hex_char (byte_val c `div` 16)) (String (hex_char (byte_val c `mod` 16)) (HexEncode s))
  end.

Fixpoint hex_digits (fuel : nat) (n : Z) (acc : string) : string :=
  match fuel with
  | O => acc
  | S fuel =>
      let acc := String (hex_char (n `mod` 16)) acc in
      if n <? 16 then acc else hex_digits fuel (n `div` 16) acc
  end.

Definition show_hex (n : Z) : string :=
  let digits m := hex_digits (S (Z.to_nat (Z.log2 m))) m EmptyString in
  if n <? 0 then String "-" (digits (- n)) else digits n.

(** * Lemmas *)

Create HintDb gostr.

#[global] Arguments String.append !_ _ / : simpl nomatch.

(** ** Append and slices *)

Lemma sapp_nil_r s : s +:+ "" = s.
Proof. induction s as [|c s IH]; simpl; [done|]. by rewrite IH. Qed.

Lemma sapp_assoc s t u : (s +:+ t) +:+ u = s +:+ t +:+ u.
Proof. induction s as [|c s IH]; simpl; [done|]. by rewrite IH. Qed.

Lemma slen_app s t : String.length (s +:+ t) = (String.length s + String.length t)%nat.
Proof. induction s; simpl; lia. Qed.

Lemma stake_sdrop n s : stake n s +:+ sdrop n s = s.
Proof. revert n. induction s; intros [|n]; simpl; [done..|]. by rewrite IHs. Qed.

Lemma slen_sdrop n s : String.length (sdrop n s) = (String.length s - n)%nat.
Proof. revert n. induction s; intros [|n]; simpl; auto. Qed.

Lemma slen_stake n s : String.length (stake n s) = Nat.min n (String.length s).
Proof. revert n. induction s; intros [|n]; simpl; auto. Qed.

Lemma sdrop_sdrop n m s : sdrop n (sdrop m s) = sdrop (m + n) s.
Proof.
  revert s. induction m; intros s; simpl; [done|]. destruct s; simpl; [by destruct n|auto].
Qed.

Lemma sdrop_app s t : sdrop (String.length s) (s +:+ t) = t.
Proof. induction s; simpl; auto. Qed.

Lemma stake_app s t : stake (String.length s) (s +:+ t) = s.
Proof. induction s; simpl; [by destruct t|congruence]. Qed.

Lemma sdrop_all n s : (String.length s ≤ n)%nat → sdrop n s = "".
Proof. revert n. induction s; intros [|n] ?; simpl in *; auto with lia. Qed.

Lemma is_empty_true s : is_empty s = true ↔ s = "".
Proof. by destruct s. Qed.

Lemma is_empty_false s : is_empty s = false ↔ s ≠ "".
Proof. by destruct s. Qed.

(** ** Byte values *)

Lemma byte_val_range c : 0 ≤ byte_val c < 256.
Proof.
  unfold byte_val. pose proof (N_ascii_bounded c). lia.
Qed.

Lemma byte_val_of z : 0 ≤ z < 256 → byte_val (byte_of z) = z.
Proof. intros. unfold byte_val, byte_of. rewrite N_ascii_embedding; lia. Qed.

Lemma byte_of_val c : byte_of (byte_val c) = c.
Proof. unfold byte_val, byte_of. by rewrite N2Z.id, ascii_N_embedding. Qed.

Lemma byte_val_inj c d : byte_val c = byte_val d → c = d.
Proof. intros E. by rewrite <- (byte_of_val c), <- (byte_of_val d), E. Qed.

Lemma in_range_spec lo hi c : in_range lo hi c = true ↔ lo ≤ byte_val c ≤ hi.
Proof. unfold in_range. rewrite andb_true_iff, !Z.leb_le. lia. Qed.

Lemma in_range_spec_false lo hi c : in_range lo hi c = false ↔ ¬ (lo ≤ byte_val c ≤ hi).
Proof. rewrite <- in_range_spec. by destruct in_range. Qed.

(** ** Predicates on all bytes *)

Lemma sforallb_app f s t : sforallb f (s +:+ t) = sforallb f s && sforallb f t.
Proof. induction s; simpl; [done|]. by rewrite IHs, andb_assoc. Qed.

(** A list of strings, one after the other. *)
Definition joined (l : list string) : string := foldr String.append "" l.

Lemma joined_snoc l s : joined (l ++ [s]) = joined l +:+ s.
Proof. induction l as [|x l IH]; [apply sapp_nil_r|]. cbn [joined foldr app]. fold (joined (l ++ [s])). by rewrite IH, <- sapp_assoc. Qed.

Lemma sforallb_impl (f g : ascii → bool) s :
  (∀ c, f c = true → g c = true) → sforallb f s = true → sforallb g s = true.
Proof.
  intros Hfg. induction s; simpl; [done|]. rewrite !andb_true_iff. intros []. auto.
Qed.

Lemma sforallb_sdrop f n s : sforallb f s = true → sforallb f (sdrop n s) = true.
Proof.
  intros E. rewrite <- (stake_sdrop n s), sforallb_app, andb_true_iff in E. tauto.
Qed.

Lemma sforallb_stake f n s : sforallb f s = true → sforallb f (stake n s) = true.
Proof.
  intros E. rewrite <- (stake_sdrop n s), sforallb_app, andb_true_iff in E. tauto.
Qed.

(** ** [IndexByte] *)

Definition no_byte (c : ascii) : string → bool := sforallb (λ d, negb (Ascii.eqb d c)).

Lemma IndexByte_Some s c i :
  IndexByte s c = Some i →
  s = stake i s +:+ String c (sdrop (S i) s) ∧ no_byte c (stake i s) = true
  ∧ (i < String.length s)%nat.
Proof.
  revert i. induction s as [|d s IH]; intros i; simpl; [done|].
  destruct (Ascii.eqb_spec d c) as [->|Hne].
  - intros [= <-]. simpl. split_and!; auto with lia.
  - intros (j & Hj & ->)%fmap_Some. apply IH in Hj as (E & Hn & ?). simpl.
    split_and!; [by f_equal| |lia].
    unfold no_byte in *. simpl. rewrite Hn, andb_true_r.
    by destruct (Ascii.eqb_spec d c).
Qed.

Lemma IndexByte_None s c : IndexByte s c = None ↔ no_byte c s = true.
Proof.
  induction s as [|d s IH]; simpl; [done|]. unfold no_byte in *. simpl.
  destruct (Ascii.eqb_spec d c); simpl; [done|].
  rewrite <- IH. destruct (IndexByte s c); simpl; split; congruence.
Qed.

Lemma IndexByte_app_no s t c :
  no_byte c s = true → IndexByte (s +:+ String c t) c = Some (String.length s).
Proof.
  unfold no_byte. induction s as [|d s IH]; simpl; [by rewrite Ascii.eqb_refl|].
  rewrite andb_true_iff, negb_true_iff. intros [-> Hs]. by rewrite IH.
Qed.

(** ** Trimming *)

Definition head_ok (cut : ascii → bool) (s : string) : Prop :=
  match s with EmptyString => True | String c _ => cut c = false end.

Definition last_ok (cut : ascii → bool) (s : string) : Prop :=
  match slast s with None => True | Some c => cut c = false end.

Lemma TrimLeft_head_ok cut s : head_ok cut (TrimLeft cut s).
Proof. induction s; simpl; [done|]. by case_match. Qed.

Lemma TrimRight_last_ok cut s : last_ok cut (TrimRight cut s).
Proof.
  unfold last_ok. induction s as [|c s IH]; simpl; [done|].
  destruct (TrimRight cut s) as [|d t] eqn:E; simpl.
  - destruct (cut c) eqn:Ec; simpl; [done|]. by rewrite Ec.
  - rewrite andb_false_r. simpl in IH. done.
Qed.

Lemma TrimRight_head_ok cut s : head_ok cut s → head_ok cut (TrimRight cut s).
Proof. destruct s; simpl; [done|]. intros Hc. by rewrite Hc. Qed.

Lemma Trim_head_ok cut s : head_ok cut (Trim cut s).
Proof. apply TrimRight_head_ok, TrimLeft_head_ok. Qed.

Lemma Trim_last_ok cut s : last_ok cut (Trim cut s).
Proof. apply TrimRight_last_ok. Qed.

Lemma TrimLeft_id cut s : head_ok cut s → TrimLeft cut s = s.
Proof. destruct s; simpl; [done|]. by intros ->. Qed.

Lemma TrimRight_id cut s : last_ok cut s → TrimRight cut s = s.
Proof.
  unfold last_ok. induction s as [|c s IH]; simpl; [done|]. destruct s as [|d s'].
  - simpl. by intros ->.
  - intros E. rewrite (IH E). by rewrite andb_false_r.
Qed.

Lemma Trim_id cut s : head_ok cut s → last_ok cut s → Trim cut s = s.
Proof. intros ??. unfold Trim. by rewrite TrimLeft_id, TrimRight_id. Qed.

Lemma Trim_idemp cut s : Trim cut (Trim cut s) = Trim cut s.
Proof. apply Trim_id; [apply Trim_head_ok|apply Trim_last_ok]. Qed.

(** ** Case *)

Lemma smap_app f s t : smap f (s +:+ t) = smap f s +:+ smap f t.
Proof. induction s as [|c s IH]; simpl; [done|]. by rewrite IH. Qed.

Lemma slen_smap f s : String.length (smap f s) = String.length s.
Proof. induction s; simpl; auto. Qed.

Lemma lower_byte_val c :
  byte_val (lower_byte c) = if is_upper c then byte_val c + 32 else byte_val c.
Proof.
  unfold lower_byte. destruct (is_upper c) eqn:E; [|done].
  apply in_range_spec in E. rewrite byte_val_of; lia.
Qed.

Lemma lower_byte_not_upper c : is_upper (lower_byte c) = false.
Proof.
  apply in_range_spec_false. rewrite lower_byte_val.
  destruct (is_upper c) eqn:E; [apply in_range_spec in E|apply in_range_spec_false in E]; lia.
Qed.

Lemma lower_byte_idemp c : lower_byte (lower_byte c) = lower_byte c.
Proof. unfold lower_byte at 1. by rewrite lower_byte_not_upper. Qed.

Lemma lower_byte_ascii c : is_ascii_byte c = true → is_ascii_byte (lower_byte c) = true.
Proof.
  unfold is_ascii_byte. rewrite !Z.ltb_lt, lower_byte_val.
  destruct (is_upper c) eqn:E; [apply in_range_spec in E|]; lia.
Qed.

(** Lower-casing neither creates nor destroys a byte outside the letters. *)
Lemma lower_byte_eqb c d :
  is_upper d = false → is_lower d = false → Ascii.eqb (lower_byte c) d = Ascii.eqb c d.
Proof.
  intros Hu Hl. apply in_range_spec_false in Hu, Hl.
  destruct (Ascii.eqb_spec c d) as [->|Hne].
  - unfold lower_byte, is_upper. replace (in_range 65 90 d) with false; [apply Ascii.eqb_refl|].
    symmetry. by apply in_range_spec_false.
  - apply Ascii.eqb_neq. intros <-. apply Hl. rewrite lower_byte_val in *.
    unfold lower_byte in Hne.
    destruct (is_upper c) eqn:E; [apply in_range_spec in E; lia|done].
Qed.

Lemma ascii_lower_idemp s : ascii_lower (ascii_lower s) = ascii_lower s.
Proof.
  unfold ascii_lower. induction s as [|c s IH]; simpl; [done|].
  by rewrite lower_byte_idemp, IH.
Qed.

Lemma is_ascii_lower s : is_ascii s = true → is_ascii (ascii_lower s) = true.
Proof.
  unfold is_ascii, ascii_lower. induction s as [|c s IH]; simpl; [done|].
  rewrite !andb_true_iff. intros []. auto using lower_byte_ascii.
Qed.

Lemma TrimLeft_lower s : TrimLeft is_dot (ascii_lower s) = ascii_lower (TrimLeft is_dot s).
Proof.
  unfold ascii_lower, is_dot. induction s as [|c s IH]; simpl; [done|].
  rewrite lower_byte_eqb by done. by destruct (Ascii.eqb c "."); simpl.
Qed.

Lemma is_empty_smap f s : is_empty (smap f s) = is_empty s.
Proof. by destruct s. Qed.

Lemma TrimRight_lower s : TrimRight is_dot (ascii_lower s) = ascii_lower (TrimRight is_dot s).
Proof.
  unfold ascii_lower, is_dot. induction s as [|c s IH]; simpl; [done|].
  rewrite IH, is_empty_smap, lower_byte_eqb by done.
  by destruct (Ascii.eqb c "." && _).
Qed.

Lemma Trim_lower s : Trim is_dot (ascii_lower s) = ascii_lower (Trim is_dot s).
Proof. unfold Trim. by rewrite TrimLeft_lower, TrimRight_lower. Qed.

Lemma is_ascii_TrimLeft cut s : is_ascii s = true → is_ascii (TrimLeft cut s) = true.
Proof.
  unfold is_ascii. induction s as [|c s IH]; simpl; [done|]. intros E.
  destruct (cut c); [|done]. apply andb_true_iff in E as []. auto.
Qed.

Lemma is_ascii_TrimRight cut s : is_ascii s = true → is_ascii (TrimRight cut s) = true.
Proof.
  unfold is_ascii. induction s as [|c s IH]; simpl; [done|].
  rewrite andb_true_iff. intros [].
  destruct (cut c && _); simpl; [done|]. rewrite andb_true_iff. auto.
Qed.

Lemma is_ascii_Trim cut s : is_ascii s = true → is_ascii (Trim cut s) = true.
Proof. intros. by apply is_ascii_TrimRight, is_ascii_TrimLeft. Qed.

Lemma ToLower_ascii `{UnicodeCase} s : is_ascii s = true → ToLower s = ascii_lower s.
Proof. unfold ToLower. by intros ->. Qed.

Lemma EqualFold_ascii `{UnicodeCase} s t :
  is_ascii s = true → is_ascii t = true →
  EqualFold s t = true ↔ ascii_lower s = ascii_lower t.
Proof. unfold EqualFold. intros -> ->. simpl. apply String.eqb_eq. Qed.

(** ** Decimal numbers *)

Lemma digit_char_val d : 0 ≤ d < 10 → byte_val (digit_char d) = d + 48.
Proof. intros. unfold digit_char. apply byte_val_of. lia. Qed.

Lemma digit_char_digit d : 0 ≤ d < 10 → is_digit (digit_char d) = true.
Proof. intros. apply in_range_spec. rewrite digit_char_val; lia. Qed.

Lemma parse_digits_show fuel n acc acc0 :
  0 ≤ n → n < 10 ^ Z.of_nat fuel →
  ∃ k, 0 ≤ k ∧ parse_digits acc0 (show_digits fuel n acc) = parse_digits (acc0 * 10 ^ k + n) acc.
Proof.
  revert n acc. induction fuel as [|fuel IH]; intros n acc Hn Hf.
  - exists 0. split; [done|]. simpl. f_equal. rewrite Z.pow_0_r in *. lia.
  - cbn [show_digits]. set (d := digit_char (n `mod` 10)).
    pose proof (Z.mod_pos_bound n 10 ltac:(lia)) as Hm.
    assert (Hd : is_digit d = true) by by apply digit_char_digit.
    assert (Hv : digit_val d = n `mod` 10)
      by (unfold digit_val, d; rewrite digit_char_val by done; lia).
    destruct (Z.ltb_spec n 10).
    + exists 1. split; [lia|]. simpl. rewrite Hd, Hv, Z.mod_small by lia. f_equal; lia.
    + destruct (IH (n `div` 10) (String d acc)) as (k & Hk & E).
      { apply Z.div_pos; lia. }
      { apply Z.div_lt_upper_bound; [lia|].
        rewrite Nat2Z.inj_succ, Z.pow_succ_r in Hf; lia. }
      exists (k + 1). split; [lia|]. rewrite E. simpl. rewrite Hd, Hv. f_equal.
      rewrite Z.pow_add_r by lia. pose proof (Z.div_mod n 10). lia.
Qed.

Lemma show_uint_fuel n : 0 ≤ n → n < 10 ^ Z.of_nat (S (Z.to_nat (Z.log2 n))).
Proof.
  intros Hn. pose proof (Z.log2_nonneg n).
  rewrite Nat2Z.inj_succ, Z2Nat.id by done.
  destruct (Z.eq_dec n 0) as [->|]; [done|].
  pose proof (Z.log2_spec n ltac:(lia)) as [_ Hlt].
  eapply Z.lt_le_trans; [exact Hlt|]. apply Z.pow_le_mono_l. lia.
Qed.

Lemma show_digits_nonempty fuel n acc : is_empty (show_digits (S fuel) n acc) = false.
Proof.
  revert n acc. induction fuel as [|fuel IH]; intros n acc; cbn [show_digits];
    destruct (n <? 10); try done. apply IH.
Qed.

Lemma parse_show_uint n : 0 ≤ n → parse_uint (show_uint n) = Some n.
Proof.
  intros Hn. unfold parse_uint, show_uint. rewrite show_digits_nonempty.
  destruct (parse_digits_show (S (Z.to_nat (Z.log2 n))) n EmptyString 0) as (k & _ & ->);
    auto using show_uint_fuel.
Qed.

Lemma show_digits_digits fuel n acc :
  0 ≤ n → sforallb is_digit acc = true → sforallb is_digit (show_digits fuel n acc) = true.
Proof.
  revert n acc. induction fuel as [|fuel IH]; intros n acc Hn Ha; cbn [show_digits]; [done|].
  pose proof (Z.mod_pos_bound n 10 ltac:(lia)).
  assert (sforallb is_digit (String (digit_char (n `mod` 10)) acc) = true).
  { simpl. by rewrite digit_char_digit. }
  destruct (n <? 10); [done|]. apply IH; [apply Z.div_pos; lia|done].
Qed.

Definition is_hex (c : ascii) : bool := is_digit c || in_range 97 102 c.

Lemma hex_char_hex d : 0 ≤ d < 16 → is_hex (hex_char d) = true.
Proof.
  intros Hd. unfold is_hex, hex_char. destruct (Z.ltb_spec d 10); [rewrite digit_char_digit; [done|lia]|].
  apply orb_true_intro. right. apply in_range_spec. rewrite byte_val_of; lia.
Qed.

Lemma hex_char_inj d e : 0 ≤ d < 16 → 0 ≤ e < 16 → hex_char d = hex_char e → d = e.
Proof.
  intros Hd He E. apply (f_equal byte_val) in E. revert E. unfold hex_char, digit_char.
  destruct (Z.ltb_spec d 10), (Z.ltb_spec e 10); rewrite !byte_val_of by lia; lia.
Qed.

Lemma nibbles c : 0 ≤ byte_val c `div` 16 < 16 ∧ 0 ≤ byte_val c `mod` 16 < 16.
Proof.
  pose proof (byte_val_range c). split; [|apply Z.mod_pos_bound; lia].
  split; [apply Z.div_pos; lia|apply Z.div_lt_upper_bound; lia].
Qed.

(** Two hexadecimal digits a byte, and nothing is lost. *)
Lemma HexEncode_spec s :
  String.length (HexEncode s) = (2 * String.length s)%nat ∧ sforallb is_hex (HexEncode s) = true.
Proof.
  induction s as [|c s [IH1 IH2]]; [done|]. cbn [HexEncode String.length sforallb]. destruct (nibbles c) as [Hd Hm].
  split; [lia|]. by rewrite !hex_char_hex.
Qed.

Lemma HexEncode_inj s t : HexEncode s = HexEncode t → s = t.
Proof.
  revert t. induction s as [|c s IH]; intros [|d t]; try done. cbn [HexEncode]. intros E.
  injection E as E1 E2 E3. apply hex_char_inj in E1, E2; [|apply nibbles..].
  f_equal; [|by apply IH]. apply byte_val_inj.
  rewrite (Z.div_mod (byte_val c) 16), (Z.div_mod (byte_val d) 16) by lia. congruence.
Qed.

Lemma hex_digits_nonempty fuel n acc : hex_digits (S fuel) n acc ≠ "".
Proof. revert n acc. induction fuel as [|fuel IH]; intros n acc; cbn [hex_digits]; destruct (n <? 16); try done. apply IH. Qed.

Lemma show_hex_nonempty n : show_hex n ≠ "".
Proof. unfold show_hex. cbv zeta. destruct (n <? 0); [done|apply hex_digits_nonempty]. Qed.

Lemma show_uint_digits n : 0 ≤ n → sforallb is_digit (show_uint n) = true.
Proof. intros. by apply show_digits_digits. Qed.

Lemma show_uint_nonempty n : show_uint n ≠ "".
Proof. apply is_empty_false, show_digits_nonempty. Qed.

Lemma show_uint_inj n m : 0 ≤ n → 0 ≤ m → show_uint n = show_uint m → n = m.
Proof.
  intros Hn Hm E. apply (f_equal parse_uint) in E. rewrite !parse_show_uint in E by done.
  congruence.
Qed.

Lemma show_uint_no_minus n s : 0 ≤ n → show_uint n ≠ String "-" s.
Proof. intros Hn E. pose proof (show_uint_digits n Hn) as Hd. rewrite E in Hd. done. Qed.

Lemma Itoa_inj n m : Itoa n = Itoa m → n = m.
Proof.
  unfold Itoa. destruct (Z.ltb_spec n 0), (Z.ltb_spec m 0); intros E.
  - injection E as E. apply show_uint_inj in E; lia.
  - symmetry in E. by apply show_uint_no_minus in E.
  - by apply show_uint_no_minus in E.
  - by apply show_uint_inj in E.
Qed.

Lemma Atoi_uint s : sforallb is_digit s = true →
  Atoi s = match parse_uint s with Some z => if in_int64 z then Some z else None | None => None end.
Proof.
  destruct s as [|c s]; [done|]. cbn [sforallb]. rewrite andb_true_iff. intros [Hc _].
  unfold Atoi. by destruct c as [[] [] [] [] [] [] [] []].
Qed.

(** [Atoi] inverts [Itoa] on every [int]. *)
Lemma Atoi_Itoa n : - 2 ^ 63 ≤ n < 2 ^ 63 → Atoi (Itoa n) = Some n.
Proof.
  intros Hn. assert (in_int64 n = true) as Hi.
  { unfold in_int64. rewrite andb_true_iff, Z.leb_le, Z.ltb_lt. done. }
  unfold Itoa. destruct (Z.ltb_spec n 0).
  - unfold Atoi. rewrite parse_show_uint by lia. simpl. by rewrite Z.opp_involutive, Hi.
  - rewrite Atoi_uint by by apply show_uint_digits. rewrite parse_show_uint by lia. by rewrite Hi.
Qed.
