(* ===== verification/GoNet.v ===== *)
(** * Go's [net] package: addresses

    [net.IP], [net.IPNet], [ParseIP], [ParseCIDR], [SplitHostPort] and
    [JoinHostPort] as the Go standard library implements them (the address
    parsers are those of [net/netip], which [net] calls).  An IP is its byte
    list; the nil IP is the empty list. *)

From S2P Require Import Prelude GoStrings.

Abbreviation IP := (list Z) (only parsing).

Definition nilIP : IP := [].
Definition is_nil (ip : IP) : bool := match ip with [] => true | _ => false end.

Definition v4InV6Prefix : IP := replicate 10 0 ++ [255; 255].
Definition IPv4zero : IP := v4InV6Prefix ++ [0; 0; 0; 0].
Definition IPv6unspecified : IP := replicate 16 0.

(** ** Parsing *)

(** [netip.parseIPv4Fields]: [first] is [i == 0], [dot] is [s[i-1] == '.'],
    [val]/[digLen] the current octet, [fields] the octets so far. *)
Fixpoint v4_fields (first dot : bool) (val digLen : Z) (fields : list Z) (s : string)
    : option (list Z) :=
  match s with
  | EmptyString => if Nat.ltb (length fields) 3 then None else Some (fields ++ [val])
  | String c s' =>
      if is_digit c then
        if (digLen =? 1) && (val =? 0) then None
        else
          let val := val * 10 + digit_val c in
          if 255 <? val then None else v4_fields false false val (digLen + 1) fields s'
      else if Ascii.eqb c "." then
        if first || is_empty s' || dot then None
        else if Nat.eqb (length fields) 3 then None
        else v4_fields false true 0 0 (fields ++ [val]) s'
      else None
  end.

Definition parseIPv4 (s : string) : option (list Z) := v4_fields true false 0 0 [] s.

Definition hex_val (c : ascii) : option Z :=
  let x := byte_val c in
  if (48 <=? x) && (x <=? 57) then Some (x - 48)
  else if (97 <=? x) && (x <=? 102) then Some (x - 97 + 10)
  else if (65 <=? x) && (x <=? 70) then Some (x - 65 + 10)
  else None.

(** One group of hexadecimal digits: its length, its value and what follows. *)
Fixpoint hex_group (off : nat) (acc : Z) (s : string) : option (nat * Z * string) :=
  match s with
  | EmptyString => Some (off, acc, s)
  | String c s' =>
      match hex_val c with
      | None => Some (off, acc, s)
      | Some v =>
          let acc := acc * 16 + v in
          if Nat.ltb 3 off then None
          else if 65535 <? acc then None
          else hex_group (S off) acc s'
      end
  end.

(** The group loop of [netip.parseIPv6]; [ip] holds the bytes parsed so far and
    [ell] the position of the ellipsis.  The loop runs while fewer than 16
    bytes are filled, 2 per round, hence the fuel 8. *)
Fixpoint v6_groups (fuel : nat) (ip : list Z) (ell : option nat) (s : string)
    : option (list Z * option nat * string) :=
  match fuel with
  | O => Some (ip, ell, s)
  | S fuel =>
      match hex_group 0 0 s with
      | None => None
      | Some (off, acc, rest) =>
          if Nat.eqb off 0 then None
          else if HasPrefix rest "." then
            if (match ell with None => negb (Nat.eqb (length ip) 12) | Some _ => false end)
               || Nat.ltb 16 (length ip + 4) then None
            else match v4_fields true false 0 0 [] s with
                 | None => None
                 | Some f => Some (ip ++ f, ell, EmptyString)
                 end
          else
            let ip := ip ++ [acc `div` 256; acc `mod` 256] in
            match rest with
            | EmptyString => Some (ip, ell, EmptyString)
            | String c r1 =>
                if negb (Ascii.eqb c ":") then None
                else match r1 with
                     | EmptyString => None
                     | String d r2 =>
                         if Ascii.eqb d ":" then
                           match ell with
                           | Some _ => None
                           | None => if is_empty r2 then Some (ip, Some (length ip), EmptyString)
                                     else v6_groups fuel ip (Some (length ip)) r2
                           end
                         else v6_groups fuel ip ell r1
                     end
            end
      end
  end.

Definition v6_finish (ip : list Z) (ell : option nat) (s : string) : option (list Z) :=
  if negb (is_empty s) then None
  else if Nat.ltb (length ip) 16 then
    match ell with
    | None => None
    | Some e => Some (take e ip ++ replicate (16 - length ip) 0 ++ drop e ip)
    end
  else match ell with Some _ => None | None => Some ip end.

(** [netip.parseIPv6] of a string without a zone. *)
Definition parseIPv6 (s : string) : option (list Z) :=
  let '(ell, s) := if HasPrefix s "::" then (Some 0%nat, sdrop 2 s) else (None, s) in
  if is_empty s && bool_decide (ell = Some 0%nat) then Some (replicate 16 0)
  else match v6_groups 8 [] ell s with
       | None => None
       | Some (ip, ell, s) => v6_finish ip ell s
       end.

Inductive addr := Addr4 (b : list Z) | Addr6 (b : list Z).

(** [netip.ParseAddr], scanning for the first of '.', ':' and '%'.  Callers
    reject an address with a zone, so a '%' is a failure here. *)
Fixpoint addr_kind (s : string) : option ascii :=
  match s with
  | EmptyString => None
  | String c s' =>
      if Ascii.eqb c "." || Ascii.eqb c ":" || Ascii.eqb c "%" then Some c else addr_kind s'
  end.

Definition ParseAddr (s : string) : option addr :=
  if negb (no_byte "%" s) then None
  else match addr_kind s with
       | Some c => if Ascii.eqb c "." then Addr4 <$> parseIPv4 s else Addr6 <$> parseIPv6 s
       | None => None
       end.

Definition as16 (a : addr) : IP :=
  match a with Addr4 b => v4InV6Prefix ++ b | Addr6 b => b end.

Definition ParseIP (s : string) : IP :=
  match ParseAddr s with Some a => as16 a | None => nilIP end.

(** ** Operations on addresses *)

Definition is_v4in6 (ip : IP) : bool :=
  Nat.eqb (length ip) 16 && bool_decide (take 12 ip = v4InV6Prefix).

Definition To4 (ip : IP) : IP :=
  if Nat.eqb (length ip) 4 then ip
  else if is_v4in6 ip then drop 12 ip else nilIP.

Definition ip_equal (a b : IP) : bool :=
  if Nat.eqb (length a) (length b) then bool_decide (a = b)
  else if Nat.eqb (length a) 4 && Nat.eqb (length b) 16
       then bool_decide (take 12 b = v4InV6Prefix ∧ a = drop 12 b)
  else if Nat.eqb (length a) 16 && Nat.eqb (length b) 4
       then bool_decide (take 12 a = v4InV6Prefix ∧ drop 12 a = b)
  else false.

Definition IsUnspecified (ip : IP) : bool :=
  ip_equal ip IPv4zero || ip_equal ip IPv6unspecified.

(** ** Printing *)

Definition v4_string (b : list Z) : string :=
  String.concat "." (map Itoa b).

Definition v6_group (ip : IP) (i : nat) : Z :=
  default 0 (ip !! (2 * i)%nat) * 256 + default 0 (ip !! (2 * i + 1)%nat).

(** Length of the run of zero groups starting at group [i]. *)
Fixpoint zero_run (fuel : nat) (ip : IP) (i : nat) : nat :=
  match fuel with
  | O => 0
  | S fuel => if Nat.ltb i 8 && (v6_group ip i =? 0) then S (zero_run fuel ip (S i)) else 0
  end.

(** The first longest run of at least two zero groups. *)
Definition longest_run (ip : IP) : nat * nat :=
  foldl (λ '(st, l) i, let l' := zero_run 8 ip i in
           if Nat.leb 2 l' && Nat.ltb l l' then (i, l') else (st, l))
        (8%nat, 0%nat) (seq 0 8).

Fixpoint v6_print (fuel : nat) (ip : IP) (zs zl i : nat) : string :=
  match fuel with
  | O => ""
  | S fuel =>
      if Nat.leb 8 i then ""
      else if Nat.eqb i zs && Nat.ltb 0 zl then
        let i := (zs + zl)%nat in
        if Nat.leb 8 i then "::"
        else "::" +:+ hex_digits 4 (v6_group ip i) "" +:+ v6_print fuel ip zs zl (S i)
      else (if Nat.ltb 0 i then ":" else "") +:+ hex_digits 4 (v6_group ip i) ""
           +:+ v6_print fuel ip zs zl (S i)
  end.

Definition v6_string (ip : IP) : string :=
  let '(zs, zl) := longest_run ip in v6_print 8 ip zs zl 0.

Definition hex_bytes (ip : IP) : string :=
  foldr (λ b s, String (hex_char (b `div` 16)) (String (hex_char (b `mod` 16)) s)) "" ip.

(** [IP.String]. *)
Definition ip_string (ip : IP) : string :=
  if is_nil ip then "<nil>"
  else if negb (is_nil (To4 ip)) then v4_string (To4 ip)
  else if Nat.eqb (length ip) 16 then v6_string ip
  else "?" +:+ hex_bytes ip.

(** ** Networks *)

Record IPNet := { net_ip : IP; net_mask : list Z }.

Definition and_bytes (a b : list Z) : list Z := zip_with Z.land a b.

(** [net.CIDRMask]: byte [i] has [n - 8i] leading ones, clipped to 0..8. *)
Definition mask_byte (n : Z) : Z := 255 - (Z.shiftr 255 (Z.max 0 (Z.min 8 n))).
Definition CIDRMask (n : Z) (len : nat) : list Z :=
  map (λ i, mask_byte (n - 8 * Z.of_nat i)) (seq 0 len).

(** [IP.Mask]. *)
Definition ip_mask (ip : IP) (mask : list Z) : IP :=
  let mask := if Nat.eqb (length mask) 16 && Nat.eqb (length ip) 4
                 && bool_decide (take 12 mask = replicate 12 255) then drop 12 mask else mask in
  let ip := if Nat.eqb (length mask) 4 && is_v4in6 ip then drop 12 ip else ip in
  if Nat.eqb (length ip) (length mask) then and_bytes ip mask else nilIP.

(** [net.dtoi] of a whole string: decimal digits only, below 0xFFFFFF. *)
Definition dtoi (s : string) : option Z :=
  match parse_uint s with
  | Some n => if n <? 16777215 then Some n else None
  | None => None
  end.

Definition ParseCIDR (s : string) : option IPNet :=
  match Cut s "/" with
  | None => None
  | Some (a, m) =>
      match ParseAddr a, dtoi m with
      | Some ad, Some n =>
          let len := match ad with Addr4 _ => 4%nat | Addr6 _ => 16%nat end in
          if 8 * Z.of_nat len <? n then None
          else let mask := CIDRMask n len in
               Some {| net_ip := ip_mask (as16 ad) mask; net_mask := mask |}
      | _, _ => None
      end
  end.

(** [networkNumberAndMask]. *)
Definition network_number_and_mask (n : IPNet) : IP * list Z :=
  let ip := if is_nil (To4 (net_ip n)) then net_ip n else To4 (net_ip n) in
  if is_nil (To4 (net_ip n)) && negb (Nat.eqb (length ip) 16) then (nilIP, [])
  else
    let m := net_mask n in
    if Nat.eqb (length m) 4 then if Nat.eqb (length ip) 4 then (ip, m) else (nilIP, [])
    else if Nat.eqb (length m) 16 then
      if Nat.eqb (length ip) 4 then (ip, drop 12 m) else (ip, m)
    else (nilIP, []).

(** [IPNet.Contains]. *)
Definition net_contains (n : IPNet) (ip : IP) : bool :=
  let '(nn, m) := network_number_and_mask n in
  let ip := if is_nil (To4 ip) then ip else To4 ip in
  Nat.eqb (length ip) (length nn) && bool_decide (and_bytes nn m = and_bytes ip m).

(** ** Host and port *)

Definition SplitHostPort (hp : string) : option (string * string) :=
  match LastIndexByte hp ":" with
  | None => None
  | Some i =>
      let port := sdrop (S i) hp in
      let check j k host :=
        if no_byte "[" (sdrop j hp) && no_byte "]" (sdrop k hp) then Some (host, port) else None in
      if HasPrefix hp "[" then
        match IndexByte hp "]" with
        | None => None
        | Some e => if Nat.eqb (S e) i then check 1%nat (S e) (sdrop 1 (stake e hp)) else None
        end
      else
        let host := stake i hp in
        if no_byte ":" host then check 0%nat 0%nat host else None
  end.

Definition JoinHostPort (host port : string) : string :=
  if no_byte ":" host then host +:+ ":" +:+ port else "[" +:+ host +:+ "]:" +:+ port.

(** * Lemmas *)

Lemma To4_length ip : length (To4 ip) = 4%nat ∨ To4 ip = nilIP.
Proof.
  unfold To4. destruct (Nat.eqb_spec (length ip) 4); [by left|].
  destruct (is_v4in6 ip) eqn:E; [|by right].
  unfold is_v4in6 in E. apply andb_true_iff in E as [E _]. apply Nat.eqb_eq in E.
  left. rewrite length_drop. lia.
Qed.

Lemma To4_idemp ip : To4 (To4 ip) = To4 ip.
Proof.
  destruct (To4_length ip) as [E| ->]; [|done].
  unfold To4 at 1. by rewrite E.
Qed.

Lemma v4_fields_head s dot v l fs r :
  v4_fields true dot v l fs s = Some r → s ≠ "" →
  ∃ c s', s = String c s' ∧ is_digit c = true.
Proof.
  destruct s as [|c s']; [done|]. simpl. intros E _. exists c, s'. split; [done|].
  destruct (is_digit c); [done|]. by destruct (Ascii.eqb c ".").
Qed.

Lemma v4_fields_last s c first dot v l fs r :
  v4_fields first dot v l fs s = Some r → slast s = Some c → is_digit c = true.
Proof.
  revert first dot v l fs. induction s as [|d s IH]; intros first dot v l fs; [done|].
  intros E Hl. assert (s = "" ∧ d = c ∨ slast s = Some c) as Hc.
  { destruct s; [left|right]; simpl in Hl; naive_solver. }
  cbn [v4_fields] in E. destruct (is_digit d) eqn:Hd.
  - destruct Hc as [[-> ->]|Hc]; [done|]. repeat (case_match; try done); eauto.
  - destruct (Ascii.eqb d "."); [|done]. destruct Hc as [[-> ->]|Hc].
    + by rewrite orb_true_r in E.
    + repeat (case_match; try done); eauto.
Qed.

Lemma addr_kind_Some s c : addr_kind s = Some c →
  (c = "." ∨ c = ":" ∨ c = "%")%char ∧ no_byte c s = false.
Proof.
  unfold no_byte. induction s as [|d s IH]; [done|]. simpl.
  destruct (Ascii.eqb d "." || _ || _) eqn:E.
  - intros [= <-]. rewrite Ascii.eqb_refl. simpl. split; [|done].
    rewrite !orb_true_iff, !Ascii.eqb_eq in E. tauto.
  - intros Hc. destruct (IH Hc) as [? ->]. by rewrite andb_false_r.
Qed.

Lemma ParseIP_Some s : ParseIP s ≠ nilIP → ∃ a, ParseAddr s = Some a ∧ ParseIP s = as16 a.
Proof. unfold ParseIP. destruct (ParseAddr s); naive_solver. Qed.

(** *** A parsed address has sixteen bytes *)

Lemma v4_fields_length first dot v l fs s r :
  (length fs ≤ 3)%nat → v4_fields first dot v l fs s = Some r → length r = 4%nat.
Proof.
  revert first dot v l fs. induction s as [|c s IH]; intros first dot v l fs Hl; cbn [v4_fields].
  - destruct (Nat.ltb_spec (length fs) 3); [done|]. intros [= <-]. rewrite length_app. cbn. lia.
  - destruct (is_digit c); [repeat (case_match; [done|]); by apply IH|]. destruct (Ascii.eqb c "."); [|done].
    case_match; [done|]. destruct (Nat.eqb_spec (length fs) 3); [done|]. apply IH. rewrite length_app. cbn. lia.
Qed.

Lemma v6_groups_length fuel ip ell s ip' ell' s' :
  (length ip + 2 * fuel ≤ 16)%nat → v6_groups fuel ip ell s = Some (ip', ell', s') → (length ip' ≤ 16)%nat.
Proof.
  revert ip ell s. induction fuel as [|fuel IH]; intros ip ell s Hl; cbn [v6_groups]; [intros [= <- _ _]; lia|].
  assert (∀ x y ell s, v6_groups fuel (ip ++ [x; y]) ell s = Some (ip', ell', s') → (length ip' ≤ 16)%nat) as Hnext.
  { intros x y e t. apply IH. rewrite length_app. cbn. lia. }
  assert (∀ x y : Z, (length (ip ++ [x; y]) ≤ 16)%nat) as Hstop by (intros; rewrite length_app; cbn; lia).
  destruct (hex_group 0 0 s) as [[[off acc] rest]|]; [|done]. destruct (Nat.eqb off 0); [done|].
  destruct (HasPrefix rest ".").
  - destruct (Nat.ltb_spec 16 (length ip + 4)); [by rewrite orb_true_r|]. case_match; [done|].
    destruct (v4_fields _ _ _ _ _ _) as [f|] eqn:Ef; [|done]. intros [= <- _ _].
    apply v4_fields_length in Ef; [|cbn; lia]. rewrite length_app. lia.
  - cbv zeta. destruct rest as [|c r1]; [by intros [= <- _ _]|]. destruct (negb _); [done|].
    destruct r1 as [|d r2]; [done|]. destruct (Ascii.eqb d ":"); [|by apply Hnext].
    destruct ell; [done|]. destruct (is_empty r2); [by intros [= <- _ _]|by apply Hnext].
Qed.

Lemma parseIPv6_length s r : parseIPv6 s = Some r → length r = 16%nat.
Proof.
  unfold parseIPv6. destruct (if HasPrefix s "::" then _ else _) as [ell t]. case_match; [by intros [= <-]|].
  destruct (v6_groups 8 [] ell t) as [[[ip e] u]|] eqn:E; [|done].
  apply v6_groups_length in E; [|cbn; lia]. unfold v6_finish. case_match; [done|].
  destruct (Nat.ltb_spec (length ip) 16); (destruct e as [e|]; [|try done]); try done.
  - intros [= <-]. rewrite !length_app, length_replicate, length_take, length_drop. lia.
  - intros [= <-]. lia.
Qed.

Lemma ParseIP_length s : ParseIP s ≠ nilIP → length (ParseIP s) = 16%nat.
Proof.
  intros (a & E & ->)%ParseIP_Some. unfold ParseAddr in E. case_match; [done|]. destruct (addr_kind s); [|done].
  destruct (Ascii.eqb _ _); [destruct (parseIPv4 s) as [b|] eqn:Ep|destruct (parseIPv6 s) as [b|] eqn:Ep]; cbn in E; try done;
    injection E as <-; cbn [as16].
  - apply v4_fields_length in Ep; [|cbn; lia]. rewrite length_app, Ep. done.
  - by apply parseIPv6_length in Ep.
Qed.
