(* ===== verification/Base64.v ===== *)
(** * encoding/base64: the decoders and the encoder the servers use

    One definition for the standard and the URL alphabet, with and without
    padding.  As in Go, line breaks in the input are skipped and the unused bits
    of the last group are not checked. *)

From S2P Require Import Prelude GoStrings.

Module Base64.

(** The last two symbols of the alphabet. *)
Definition sym62 (url : bool) : ascii := if url then "-"%char else "+"%char.
Definition sym63 (url : bool) : ascii := if url then "_"%char else "/"%char.

Definition b64_val (url : bool) (c : ascii) : option Z :=
  if is_upper c then Some (byte_val c - 65)
  else if is_lower c then Some (byte_val c - 71)
  else if is_digit c then Some (byte_val c + 4)
  else if Ascii.eqb c (sym62 url) then Some 62
  else if Ascii.eqb c (sym63 url) then Some 63
  else None.

Definition b64_char (url : bool) (v : Z) : ascii :=
  if v <? 26 then byte_of (v + 65)
  else if v <? 52 then byte_of (v + 71)
  else if v <? 62 then byte_of (v - 4)
  else if v =? 62 then sym62 url else sym63 url.

Definition pad_char : ascii := "="%char.

Fixpoint strip_crlf (s : string) : string :=
  match s with
  | EmptyString => EmptyString
  | String c s => if is_crlf c then strip_crlf s else String c (strip_crlf s)
  end.

(** The first [n - 1] bytes of the group of sextets [a b c d]. *)
Definition group_bytes (a b c d : Z) (n : nat) : string :=
  let v := a * 2 ^ 18 + b * 2 ^ 12 + c * 2 ^ 6 + d in
  let b0 := byte_of (v `div` 2 ^ 16) in
  let b1 := byte_of ((v `div` 2 ^ 8) `mod` 256) in
  let b2 := byte_of (v `mod` 256) in
  match n with
  | 2%nat => String b0 ""
  | 3%nat => String b0 (String b1 "")
  | _ => String b0 (String b1 (String b2 ""))
  end.

Fixpoint decode_groups (fuel : nat) (url padded : bool) (s : string) : option string :=
  match fuel with
  | O => None
  | S fuel =>
  match s with
  | EmptyString => Some ""
  | String c1 (String c2 rest) =>
      a ← b64_val url c1; b ← b64_val url c2;
      match rest with
      | EmptyString => if padded then None else Some (group_bytes a b 0 0 2)
      | String c3 rest =>
          if padded && Ascii.eqb c3 pad_char then
            match rest with
            | String c4 EmptyString => if Ascii.eqb c4 pad_char then Some (group_bytes a b 0 0 2) else None
            | _ => None
            end
          else
            c ← b64_val url c3;
            match rest with
            | EmptyString => if padded then None else Some (group_bytes a b c 0 3)
            | String c4 rest =>
                if padded && Ascii.eqb c4 pad_char then
                  match rest with EmptyString => Some (group_bytes a b c 0 3) | _ => None end
                else
                  d ← b64_val url c4; t ← decode_groups fuel url padded rest;
                  Some (group_bytes a b c d 4 +:+ t)
            end
      end
  | _ => None
  end
  end.

Definition DecodeString (url padded : bool) (s : string) : option string :=
  let s := strip_crlf s in decode_groups (S (String.length s)) url padded s.

(** Encoding with padding. *)
Fixpoint EncodeToString (url : bool) (s : string) : string :=
  let ch v i := b64_char url ((v `div` i) `mod` 64) in
  match s with
  | EmptyString => ""
  | String x EmptyString =>
      let v := byte_val x * 2 ^ 16 in
      String (ch v (2 ^ 18)) (String (ch v (2 ^ 12)) "==")
  | String x (String y EmptyString) =>
      let v := byte_val x * 2 ^ 16 + byte_val y * 2 ^ 8 in
      String (ch v (2 ^ 18)) (String (ch v (2 ^ 12)) (String (ch v (2 ^ 6)) "="))
  | String x (String y (String z rest)) =>
      let v := byte_val x * 2 ^ 16 + byte_val y * 2 ^ 8 + byte_val z in
      String (ch v (2 ^ 18)) (String (ch v (2 ^ 12)) (String (ch v (2 ^ 6)) (String (ch v 1) (EncodeToString url rest))))
  end.

(** ** Round trip *)

(** A finite check over the 64 sextets. *)
Lemma sextet_forall (P : Z → bool) :
  forallb (λ i, P (Z.of_nat i)) (seq 0 64) = true → ∀ v, 0 ≤ v < 64 → P v = true.
Proof.
  intros Hall v Hv. rewrite forallb_forall in Hall. specialize (Hall (Z.to_nat v)).
  rewrite Z2Nat.id in Hall by lia. apply Hall. apply in_seq. lia.
Qed.

Lemma b64_val_char url v : 0 ≤ v < 64 → b64_val url (b64_char url v) = Some v.
Proof.
  intros Hv. pose proof (sextet_forall (λ v, bool_decide (b64_val url (b64_char url v) = Some v))) as Hf.
  specialize (Hf ltac:(destruct url; vm_compute; reflexivity) v Hv). by apply bool_decide_eq_true_1 in Hf.
Qed.

Lemma b64_char_plain url v : 0 ≤ v < 64 → Ascii.eqb (b64_char url v) pad_char = false ∧ is_crlf (b64_char url v) = false.
Proof.
  intros Hv. pose proof (sextet_forall (λ v, negb (Ascii.eqb (b64_char url v) pad_char) && negb (is_crlf (b64_char url v)))) as Hf.
  specialize (Hf ltac:(destruct url; vm_compute; reflexivity) v Hv).
  apply andb_true_iff in Hf as [H1%negb_true_iff H2%negb_true_iff]. done.
Qed.

(** Splitting a 24-bit group into sextets and joining them again. *)
Lemma sextets v :
  0 ≤ v < 2 ^ 24 →
  ((v `div` 2 ^ 18) `mod` 64) * 2 ^ 18 + ((v `div` 2 ^ 12) `mod` 64) * 2 ^ 12 +
  ((v `div` 2 ^ 6) `mod` 64) * 2 ^ 6 + (v `div` 1) `mod` 64 = v.
Proof. intros Hv. rewrite Z.div_1_r. change (2 ^ 24) with 16777216 in Hv. Z.to_euclidean_division_equations. lia. Qed.

Lemma group_join x y z n :
  let v := byte_val x * 2 ^ 16 + byte_val y * 2 ^ 8 + byte_val z in
  group_bytes ((v `div` 2 ^ 18) `mod` 64) ((v `div` 2 ^ 12) `mod` 64) ((v `div` 2 ^ 6) `mod` 64) ((v `div` 1) `mod` 64) n =
  match n with 2%nat => String x "" | 3%nat => String x (String y "") | _ => String x (String y (String z "")) end.
Proof.
  intros v. unfold group_bytes.
  pose proof (byte_val_range x). pose proof (byte_val_range y). pose proof (byte_val_range z).
  rewrite sextets by (unfold v; lia). cbv zeta.
  assert (v `div` 2 ^ 16 = byte_val x) as -> by (unfold v; Z.to_euclidean_division_equations; lia).
  assert ((v `div` 2 ^ 8) `mod` 256 = byte_val y) as -> by (unfold v; Z.to_euclidean_division_equations; lia).
  assert (v `mod` 256 = byte_val z) as -> by (unfold v; Z.to_euclidean_division_equations; lia).
  by rewrite !byte_of_val.
Qed.

(** Induction three bytes at a time. *)
Lemma string_ind3 (P : string → Prop) :
  P "" → (∀ x, P (String x "")) → (∀ x y, P (String x (String y ""))) →
  (∀ x y z s, P s → P (String x (String y (String z s)))) → ∀ s, P s.
Proof.
  intros H0 H1 H2 H3. assert (∀ n s, (String.length s ≤ n)%nat → P s) as Hall; [|intros s; by apply (Hall (String.length s))].
  induction n as [|n IH]; intros s Hn; [by destruct s; cbn in Hn; [|lia]|].
  destruct s as [|x [|y [|z s]]]; auto. apply H3, IH. cbn in Hn. lia.
Qed.

Definition chars_plain (s : string) : bool := sforallb (λ c, negb (is_crlf c)) s.

Lemma strip_plain s : chars_plain s = true → strip_crlf s = s.
Proof.
  induction s as [|c s IH]; [done|]. cbn. intros [->%negb_true_iff Hs]%andb_true_iff. f_equal. by apply IH.
Qed.

Lemma char_mod_plain url v i : is_crlf (b64_char url ((v `div` i) `mod` 64)) = false.
Proof. apply b64_char_plain, Z.mod_pos_bound. lia. Qed.

Lemma encode_plain url s : chars_plain (EncodeToString url s) = true.
Proof.
  induction s as [|x|x y|x y z s IH] using string_ind3; [done|..]; cbn [EncodeToString chars_plain sforallb];
    rewrite !char_mod_plain; cbn; [done..|exact IH].
Qed.

Lemma val_mod url v i : b64_val url (b64_char url ((v `div` i) `mod` 64)) = Some ((v `div` i) `mod` 64).
Proof. apply b64_val_char, Z.mod_pos_bound. lia. Qed.

Lemma pad_mod url v i : Ascii.eqb (b64_char url ((v `div` i) `mod` 64)) pad_char = false.
Proof. apply b64_char_plain, Z.mod_pos_bound. lia. Qed.

Lemma byte_zero : byte_val (byte_of 0) = 0.
Proof. done. Qed.

Lemma decode_encode_groups url s fuel :
  (String.length (EncodeToString url s) < fuel)%nat →
  decode_groups fuel url true (EncodeToString url s) = Some s.
Proof.
  revert fuel. induction s as [|x|x y|x y z s IH] using string_ind3; intros [|fuel] Hf; try (cbn in Hf; lia); [done|..].
  - cbn [EncodeToString decode_groups]. rewrite !val_mod. cbn [mbind option_bind]. cbn [andb Ascii.eqb pad_char].
    pose proof (group_join x (byte_of 0) (byte_of 0) 2) as E. cbv zeta in E. rewrite byte_zero in E.
    rewrite Z.mul_0_l, !Z.add_0_r in E. change (Ascii.eqb "=" pad_char) with true. cbn iota. f_equal.
    etransitivity; [|exact E]. unfold group_bytes. f_equal. f_equal. pose proof (byte_val_range x).
    Z.to_euclidean_division_equations. lia.
  - cbn [EncodeToString decode_groups]. rewrite !val_mod. cbn [mbind option_bind]. rewrite pad_mod.
    cbn [andb]. pose proof (group_join x y (byte_of 0) 3) as E. cbv zeta in E. rewrite byte_zero, Z.add_0_r in E.
    change (Ascii.eqb "=" pad_char) with true. cbn iota. f_equal.
    etransitivity; [|exact E]. unfold group_bytes. repeat f_equal;
      pose proof (byte_val_range x); pose proof (byte_val_range y); Z.to_euclidean_division_equations; lia.
  - cbn [EncodeToString decode_groups]. rewrite !val_mod. cbn [mbind option_bind]. rewrite !pad_mod. cbn [andb].
    rewrite IH by (cbn in Hf; lia). cbn [mbind option_bind]. f_equal.
    pose proof (group_join x y z 4) as E. cbv zeta in E. by rewrite E.
Qed.

(** base64 round trip.  Decoding the padded encoding of any byte string, in
    either alphabet, gives the string back. *)
Theorem decode_encode url s : DecodeString url true (EncodeToString url s) = Some s.
Proof.
  unfold DecodeString. rewrite strip_plain by apply encode_plain. cbv zeta. apply decode_encode_groups. lia.
Qed.
End Base64.
