(* ===== verification/Json.v ===== *)
(** * encoding/json: documents and the codecs of Go's types

    The snapshot file is written and read with [encoding/json].  A document is a
    tree; how the program's types become trees is defined here and follows the
    struct tags.  The text of a tree is the interface [JSONText].  A codec states
    that reading back what it wrote gives the value again, so that the round trip of
    a record follows from those of its fields.

    Reading: [null] leaves the zero value, a member with an unknown name is skipped, a
    name that matches no field exactly matches one up to case, and a value of the wrong
    kind or an integer outside 64 bits is an error.  An object that names a member
    twice keeps the last value. *)

From S2P Require Import Prelude GoStrings.

Module Json.

#[local] Set Warnings "-register-all".

Inductive Json :=
  | JNull
  | JBool (b : bool)
  | JNum (z : Z)
  | JReal (literal : string)
  | JStr (s : string)
  | JArr (l : list Json)
  | JObj (l : list (string * Json)).

(** ** Texts *)

(** [utf8.ValidString]: the Unicode standard's well-formed byte sequences. *)
Fixpoint utf8_valid (s : string) : bool :=
  match s with
  | EmptyString => true
  | String c0 r0 =>
      let tail_ := in_range 128 191 in
      if is_ascii_byte c0 then utf8_valid r0
      else
        match r0 with
        | String c1 r1 =>
            if in_range 194 223 c0 then tail_ c1 && utf8_valid r1
            else
              match r1 with
              | String c2 r2 =>
                  if in_range 224 239 c0 then
                    let lo := if byte_val c0 =? 224 then 160 else 128 in
                    let hi := if byte_val c0 =? 237 then 159 else 191 in
                    in_range lo hi c1 && tail_ c2 && utf8_valid r2
                  else
                    match r2 with
                    | String c3 r3 =>
                        let lo := if byte_val c0 =? 240 then 144 else 128 in
                        let hi := if byte_val c0 =? 244 then 143 else 191 in
                        in_range 240 244 c0 && in_range lo hi c1 && tail_ c2 && tail_ c3 && utf8_valid r3
                    | EmptyString => false
                    end
              | EmptyString => false
              end
        | EmptyString => false
        end
  end.

Lemma utf8_ascii s : is_ascii s = true → utf8_valid s = true.
Proof.
  unfold is_ascii. induction s as [|c s IH]; [done|]. cbn [sforallb utf8_valid]. rewrite andb_true_iff.
  intros [-> Hs]. by apply IH.
Qed.

Lemma Itoa_ascii n : is_ascii (Itoa n) = true.
Proof.
  assert (∀ m, 0 ≤ m → is_ascii (show_uint m) = true) as Hu.
  { intros m Hm. eapply sforallb_impl; [|by apply show_uint_digits]. intros c Hc.
    apply in_range_spec in Hc. unfold is_ascii_byte. apply Z.ltb_lt. lia. }
  unfold Itoa. destruct (Z.ltb_spec n 0); [|by apply Hu]. unfold is_ascii. cbn. apply Hu. lia.
Qed.

(** What survives a round trip: valid UTF-8 (other bytes are replaced) and 64-bit
    integers. *)
Fixpoint json_ok (j : Json) : bool :=
  match j with
  | JNull | JBool _ => true
  | JNum z => in_int64 z
  | JReal _ => false
  | JStr s => utf8_valid s
  | JArr l => forallb json_ok l
  | JObj l => forallb (λ kv, utf8_valid kv.1 && json_ok kv.2) l
  end.

(** [json.MarshalIndent] and the parser of [json.Unmarshal]. *)
Class JSONText := {
  json_print : Json → string;
  json_parse : string → result string Json;
  json_parse_print j : json_ok j = true → json_parse (json_print j) = Ok j;
}.

(** The JSON form of [time.Time]; the year must have four digits to be written. *)
Class TimeJSON := {
  time_text : time → option string;
  time_parse : string → option time;
  time_parse_text t s : time_text t = Some s → time_parse s = Some t ∧ utf8_valid s = true;
}.

(** ** Codecs *)

Class Codec (A : Type) := {
  zero_value : A;
  enc : A → Json;
  dec : Json → option A;
  dec_enc x : json_ok (enc x) = true → dec (enc x) = Some x;
}.

Definition dec_int (j : Json) : option Z :=
  match j with
  | JNull => Some 0
  | JNum z => if in_int64 z then Some z else None
  | _ => None
  end.

#[export, program] Instance int_codec : Codec Z := {| zero_value := 0; enc := JNum; dec := dec_int |}.
Next Obligation. intros z Hz. cbn in *. by rewrite Hz. Qed.

Definition dec_string (j : Json) : option string :=
  match j with JNull => Some EmptyString | JStr s => Some s | _ => None end.

#[export, program] Instance string_codec : Codec string :=
  {| zero_value := EmptyString; enc := JStr; dec := dec_string |}.
Next Obligation. done. Qed.

(** A slice; the nil slice is [null]. *)
Definition enc_list {A} (f : A → Json) (l : list A) : Json :=
  match l with [] => JNull | _ => JArr (f <$> l) end.
Definition dec_list {A} (f : Json → option A) (j : Json) : option (list A) :=
  match j with JNull => Some [] | JArr l => mapM f l | _ => None end.

Lemma mapM_enc {A} `{Codec A} (l : list A) :
  forallb json_ok (enc <$> l) = true → mapM dec (enc <$> l) = Some l.
Proof.
  induction l as [|x l IH]; [done|]. cbn. rewrite andb_true_iff. intros [Hx Hl].
  rewrite dec_enc by done. cbn. change (foldr _ _ _) with (mapM dec (enc <$> l)). by rewrite IH.
Qed.

#[export, program] Instance list_codec {A} `{Codec A} : Codec (list A) :=
  {| zero_value := []; enc := enc_list enc; dec := dec_list dec |}.
Next Obligation. intros A ? [|x l] Hl; [done|]. by apply (mapM_enc (x :: l)). Qed.

(** A slice that [make] built is written as an array even when empty. *)
#[program] Definition made_codec {A} `{Codec A} : Codec (list A) :=
  {| zero_value := []; enc l := JArr (enc <$> l); dec := dec_list dec |}.
Next Obligation. intros A ? l Hl. by apply mapM_enc. Qed.

(** A map with string keys: the members are written in the order of their keys. *)
Definition by_key {A} (x y : string * A) : bool := String.ltb x.1 y.1.

Definition enc_map {A} (f : A → Json) (m : gmap string A) : Json :=
  JObj (prod_map id f <$> sort_stable by_key (map_to_list m)).

Definition dec_member {A} (f : Json → option A) (acc : option (gmap string A)) (kv : string * Json) :
    option (gmap string A) :=
  m ← acc; v ← f kv.2; Some (<[kv.1 := v]> m).

Definition dec_map {A} (f : Json → option A) (j : Json) : option (gmap string A) :=
  match j with JNull => Some ∅ | JObj l => foldl (dec_member f) (Some ∅) l | _ => None end.

Lemma dec_members {A} `{Codec A} (l : list (string * A)) (m : gmap string A) :
  forallb (λ kv, utf8_valid kv.1 && json_ok kv.2) (prod_map id enc <$> l) = true → NoDup l.*1 →
  foldl (dec_member dec) (Some m) (prod_map id enc <$> l) = Some (list_to_map l ∪ m).
Proof.
  revert m. induction l as [|[k v] l IH]; intros m; [intros _ _; cbn; by rewrite (left_id_L ∅ (∪))|].
  cbn. rewrite !andb_true_iff, NoDup_cons. intros [[_ Hv] Hl] [Hk Hnd].
  rewrite dec_enc by done. cbn. rewrite IH by done. f_equal.
  rewrite <- insert_union_l, insert_union_r; [done|by apply not_elem_of_list_to_map_1].
Qed.

#[export, program] Instance map_codec {A} `{Codec A} : Codec (gmap string A) :=
  {| zero_value := ∅; enc := enc_map enc; dec := dec_map dec |}.
Next Obligation.
  intros A ? m Hm. cbn in Hm |- *. pose proof (sort_stable_perm by_key (map_to_list m)) as Hp.
  assert (NoDup (sort_stable by_key (map_to_list m)).*1) as Hnd by (rewrite Hp; apply NoDup_fst_map_to_list).
  rewrite (dec_members _ ∅) by done. rewrite (right_id_L ∅ (∪)). f_equal.
  rewrite <- (list_to_map_to_list m) at 2. by apply list_to_map_proper.
Qed.

(** ** Structs *)

(** A field: its tag, how it is written, how a value is put, and the copy of the
    field between two structs. *)
Record field (R : Type) := {
  fname : string;
  fenc : R → Json;
  fput : Json → R → option R;
  fcopy : R → R → R;
  fput_fenc x r : json_ok (fenc x) = true → fput (fenc x) r = Some (fcopy x r);
}.
Arguments fname {R}. Arguments fenc {R}. Arguments fput {R}. Arguments fcopy {R}. Arguments fput_fenc {R}.

#[program] Definition mkField {R A} `{Codec A} (name : string) (get : R → A) (set : A → R → R) : field R := {|
  fname := name;
  fenc x := enc (get x);
  fput j r := v ← dec j; Some (set v r);
  fcopy x r := set (get x) r;
|}.
Next Obligation. intros R A ? name get set x r Hx. cbn in *. by rewrite dec_enc. Qed.

Section struct.
Context `{UnicodeCase} {R : Type} (fs : list (field R)) (zero : R).

Definition struct_enc (x : R) : Json := JObj ((λ f, (fname f, fenc f x)) <$> fs).

(** The field a member's name selects. *)
Definition find_field (k : string) : option (field R) :=
  match find (λ f, String.eqb (fname f) k) fs with
  | Some f => Some f
  | None => find (λ f, EqualFold (fname f) k) fs
  end.

Definition put_member (acc : option R) (kv : string * Json) : option R :=
  r ← acc; match find_field kv.1 with Some f => fput f kv.2 r | None => Some r end.

Definition struct_dec (j : Json) : option R :=
  match j with JNull => Some zero | JObj l => foldl put_member (Some zero) l | _ => None end.

Lemma find_field_exact f :
  NoDup (fname <$> fs) → f ∈ fs → find_field (fname f) = Some f.
Proof.
  intros Hnd Hf. unfold find_field.
  enough (find (λ g, String.eqb (fname g) (fname f)) fs = Some f) as -> by done.
  induction fs as [|g l IH]; [by apply not_elem_of_nil in Hf|]. cbn in *. apply NoDup_cons in Hnd as [Hg Hnd].
  destruct (String.eqb_spec (fname g) (fname f)) as [E|E].
  - apply elem_of_cons in Hf as [->|Hf]; [done|]. exfalso. apply Hg. rewrite E. by apply list_elem_of_fmap_2.
  - apply elem_of_cons in Hf as [->|Hf]; [done|]. by apply IH.
Qed.

(** Reading back a struct copies each of its fields. *)
Lemma struct_dec_enc x :
  NoDup (fname <$> fs) → json_ok (struct_enc x) = true →
  struct_dec (struct_enc x) = Some (foldl (λ r f, fcopy f x r) zero fs).
Proof.
  intros Hnd. unfold struct_enc, struct_dec. cbn [json_ok].
  assert (∀ l r, (∀ f, f ∈ l → f ∈ fs) →
    forallb (λ kv, utf8_valid kv.1 && json_ok kv.2) ((λ f, (fname f, fenc f x)) <$> l) = true →
    foldl put_member (Some r) ((λ f, (fname f, fenc f x)) <$> l) = Some (foldl (λ r f, fcopy f x r) r l)) as Hgen.
  { induction l as [|f l IH]; intros r Hin; [done|]. cbn -[find_field]. rewrite !andb_true_iff. intros [[_ Hf] Hl].
    rewrite find_field_exact by (by try (apply Hin; apply list_elem_of_here)).
    rewrite fput_fenc by done. apply IH; [|done]. intros g Hg. apply Hin. by apply list_elem_of_further. }
  by apply Hgen.
Qed.
End struct.

End Json.
