(* ===== verification/Router.v ===== *)
(** * core/router: domain, CIDR and country rules

    [HostSet] models [hostSet], a copy-on-write set of domain suffixes;
    [Router] the routing table and [Decide]; [Rules] the policy rows of
    [rules.go].  The GeoIP reader, the built-in lists of gohome/dns and the
    file system are the interface [RouterEnv]. *)

From S2P Require Import Prelude GoStrings GoNet.

(** ** Environment *)

(** What the router takes from outside the repository: gohome/dns/matcher's
    [GeoDB], the default lists of gohome/dns, and the lines [bufio.Scanner]
    yields for a file, with whether it stopped on an error. *)
Class RouterEnv := {
  GeoDB : Type;
  NewGeoDB : GeoDB;
  geo_open : GeoDB → string → GeoDB * bool;
  geo_country : GeoDB → IP → option string;
  geo_close : GeoDB → GeoDB;
  DefaultChinaMainDomains : list string;
  DefaultDirectTLDs : list string;
  DefaultReservedCIDRs : list string;
  file_exists : string → bool;
  file_lines : string → option (list string * bool);
}.

(** ** Suffix sets *)

Module HostSet.
Section hostset.
Context `{UnicodeCase}.

(** The map behind the atomic pointer.  [newHostSet] stores one before the set
    is shared, so the pointer is never nil when an operation runs. *)
Record hostSet := { rule : gset string }.

#[global] Instance hostSet_eta : Eta hostSet := λ h, {| rule := rule h |}.

(** The spelling rules and queries are compared in. *)
Definition norm (domain : string) : string := ToLower (Trim is_dot domain).

Definition reset (h : hostSet) : hostSet := h <| rule := ∅ |>.

Definition newHostSet : hostSet := reset {| rule := ∅ |}.

(** One round of the copy loop: the map under construction and [added]. *)
Definition addAll_step (acc : gset string * nat) (domain : string) : gset string * nat :=
  let '(m, added) := acc in
  let d := norm domain in
  if String.eqb d "" then (m, added) else ({[d]} ∪ m, S added).

Definition addAll (h : hostSet) (domains : list string) : hostSet :=
  let '(m, added) := foldl addAll_step (rule h, 0%nat) domains in
  if Nat.eqb added 0 then h else h <| rule := m |>.

Definition add (h : hostSet) (domain : string) : hostSet := addAll h [domain].

Definition has (h : hostSet) (domain : string) : bool := bool_decide (domain ∈ rule h).

Definition len (h : hostSet) : Z := Z.of_nat (size (rule h)).

(** The loop of [matchListed]: look up the suffix at [i], then move past the
    next dot.  [None] is running out of fuel. *)
Fixpoint match_loop (fuel : nat) (hosts : hostSet) (domain : string) (i : nat)
    : option bool :=
  match fuel with
  | O => None
  | S fuel =>
      if Nat.ltb i (String.length domain) then
        if has hosts (sdrop i domain) then Some true
        else match IndexByte (sdrop i domain) "." with
             | None => Some false
             | Some dot => match_loop fuel hosts domain (i + dot + 1)
             end
      else Some false
  end.

Definition match_fuel (domain : string) : nat := S (String.length domain).

Definition matchListed (hosts : hostSet) (domain : string) : bool :=
  let domain := norm domain in
  if String.eqb domain "" then false
  else default false (match_loop (match_fuel domain) hosts domain 0).

(** *** Lemmas *)

(** [s] is [d], or ends with [d] after a dot. *)
Definition label_suffix (d s : string) : Prop :=
  s = d ∨ ∃ p, s = p +:+ String "." d.

Lemma label_suffix_cons d c s :
  label_suffix d (String c s) ↔
  String c s = d ∨ (c = "."%char ∧ s = d) ∨ ∃ p, s = p +:+ String "." d.
Proof.
  unfold label_suffix. split.
  - intros [E|[[|c' p] E]]; simpl in E; simplify_eq; eauto 6.
  - intros [E|[[-> ->]|[p ->]]]; [by left|right; by exists ""|right; by exists (String c p)].
Qed.

(** After a stretch without dots only the suffixes past the dot remain. *)
Lemma label_suffix_skip d p s :
  no_byte "." p = true →
  label_suffix d (p +:+ String "." s) ↔ d = p +:+ String "." s ∨ label_suffix d s.
Proof.
  unfold no_byte. induction p as [|c p IH]; intros Hp.
  - simpl. rewrite label_suffix_cons. unfold label_suffix. clear. firstorder auto.
  - simpl in *. apply andb_true_iff in Hp as [Hc Hp].
    rewrite label_suffix_cons. specialize (IH Hp). unfold label_suffix in IH.
    apply negb_true_iff, Ascii.eqb_neq in Hc. split.
    + intros [E|[[-> _]|[q E]]]; [by left|done|]. right.
      destruct (proj1 IH) as [E'|?]; [right; by exists q| |done]. subst d.
      exfalso. apply (f_equal String.length) in E. rewrite !slen_app in E. simpl in E.
      rewrite slen_app in E. simpl in E. lia.
    + intros [E|Hl]; [by left|]. do 2 right.
      destruct (proj2 IH) as [E|?]; [by right| |done].
      destruct Hl as [->|[q ->]]; [by exists p|].
      exists (p +:+ String "." q). by rewrite sapp_assoc.
Qed.

Lemma label_suffix_no_dot d s : no_byte "." s = true → label_suffix d s ↔ d = s.
Proof.
  intros Hs. split; [|intros ->; by left]. intros [->|[p ->]]; [done|].
  unfold no_byte in Hs. rewrite sforallb_app in Hs. simpl in Hs.
  by rewrite andb_false_r in Hs.
Qed.

Definition listed (h : hostSet) (s : string) : Prop :=
  ∃ d, d ≠ "" ∧ d ∈ rule h ∧ label_suffix d s.

Lemma match_loop_spec fuel h s i :
  (String.length s - i < fuel)%nat →
  ∃ b, match_loop fuel h s i = Some b ∧ (b = true ↔ listed h (sdrop i s)).
Proof.
  revert i. induction fuel as [|fuel IH]; intros i Hf; [lia|].
  cbn [match_loop]. destruct (Nat.ltb_spec i (String.length s)) as [Hi|Hi].
  2:{ exists false. split; [done|]. rewrite sdrop_all by done. split; [done|].
      intros (d & Hd & _ & [<-|[[] ?]]); done. }
  assert (sdrop i s ≠ "") as Hne.
  { intros E. apply (f_equal String.length) in E. rewrite slen_sdrop in E. simpl in E. lia. }
  unfold has. case_bool_decide as Hin.
  { exists true. split; [done|]. split; [intros _|done]. exists (sdrop i s).
    split_and!; [done|done|by left]. }
  destruct (IndexByte (sdrop i s) ".") as [dot|] eqn:Hdot.
  - pose proof (IndexByte_Some _ _ _ Hdot) as (E & Hnb & Hlt). rewrite slen_sdrop in Hlt.
    destruct (IH (i + dot + 1)%nat) as (b & -> & Hb); [lia|]. exists b. split; [done|].
    rewrite Hb. unfold listed. rewrite sdrop_sdrop in E.
    replace (i + S dot)%nat with (i + dot + 1)%nat in E by lia.
    pose proof (λ d, label_suffix_skip d _ (sdrop (i + dot + 1) s) Hnb) as Hs.
    rewrite <- E in Hs. split.
    + intros (d & ? & ? & ?). exists d. rewrite Hs. auto.
    + intros (d & Hd & Hr & [->|?]%Hs); [done|by exists d].
  - exists false. split; [done|]. split; [done|]. intros (d & _ & Hr & Hl).
    apply IndexByte_None in Hdot. apply label_suffix_no_dot in Hl; [|done]. by subst.
Qed.

(** The loop always ends: the fuel [matchListed] gives it is enough. *)
Lemma matchListed_loop h s : is_Some (match_loop (match_fuel s) h s 0).
Proof.
  destruct (match_loop_spec (match_fuel s) h s 0) as (b & -> & _); [|done].
  unfold match_fuel. lia.
Qed.

Lemma matchListed_listed h domain : matchListed h domain = true ↔ listed h (norm domain).
Proof.
  unfold matchListed. destruct (String.eqb_spec (norm domain) "") as [->|Hne].
  - split; [done|]. intros (d & Hd & _ & [<-|[[] ?]]); done.
  - destruct (match_loop_spec (match_fuel (norm domain)) h (norm domain) 0) as (b & -> & Hb).
    { unfold match_fuel. lia. }
    by rewrite Hb.
Qed.

Lemma addAll_step_foldl domains m n :
  foldl addAll_step (m, n) domains =
  (list_to_set (filter (λ d, d ≠ "") (norm <$> domains)) ∪ m,
   (n + length (filter (λ d, d ≠ "") (norm <$> domains)))%nat).
Proof.
  revert m n. induction domains as [|x l IH]; intros m n; csimpl.
  { f_equal; [set_solver|lia]. }
  destruct (String.eqb_spec (norm x) "") as [E|Hne]; rewrite IH.
  - rewrite filter_cons_False by (rewrite E; auto). done.
  - rewrite filter_cons_True by done. csimpl. f_equal; [set_solver|lia].
Qed.

(** The set after [addAll]: the old rules and the non-empty normal forms. *)
Lemma rule_addAll h domains d :
  d ∈ rule (addAll h domains) ↔ d ∈ rule h ∨ d ≠ "" ∧ ∃ x, x ∈ domains ∧ d = norm x.
Proof.
  unfold addAll. rewrite addAll_step_foldl.
  set (l := filter _ _). assert (Hl : ∀ d, d ∈ l ↔ d ≠ "" ∧ ∃ x, x ∈ domains ∧ d = norm x).
  { intros e. unfold l. rewrite list_elem_of_filter, list_elem_of_fmap. firstorder. }
  destruct (Nat.eqb_spec (0 + length l) 0) as [E|_].
  - simpl in E. apply nil_length_inv in E. rewrite E in Hl. rewrite <- Hl. set_solver.
  - simpl. rewrite elem_of_union, elem_of_list_to_set, Hl. tauto.
Qed.

Lemma hostSet_ext h1 h2 : (∀ d, d ∈ rule h1 ↔ d ∈ rule h2) → h1 = h2.
Proof. destruct h1, h2; simpl. intros. f_equal. by apply set_eq. Qed.
End hostset.
End HostSet.

(** ** The routing table *)

Module Router.
Import HostSet.

(** [RouteDecision]. *)
Inductive RouteDecision := Direct | Proxy.

#[global] Instance RouteDecision_eq_dec : EqDecision RouteDecision.
Proof. solve_decision. Defined.

(** [IPNetList.Contains]. *)
Definition IPNetList_Contains (l : list IPNet) (ip : IP) : bool :=
  existsb (λ n, net_contains n ip) l.

Section router.
Context `{UnicodeCase, RouterEnv}.

(** [directIPs] is an [atomic.Value], empty until the first [Store]. *)
Record Router := {
  directIPs : option (list IPNet);
  directHosts : hostSet;
  proxyHosts : hostSet;
  geoDB : option GeoDB;
  geoipLoaded : bool;
  skipCountry : string;
  skipCountries : gset string;
}.

#[global] Instance Router_eta : Eta Router := λ r,
  {| directIPs := directIPs r; directHosts := directHosts r; proxyHosts := proxyHosts r;
     geoDB := geoDB r; geoipLoaded := geoipLoaded r; skipCountry := skipCountry r;
     skipCountries := skipCountries r |}.

Record Options := {
  DirectDomains : list string;
  ProxyDomains : list string;
  DirectCIDRs : list string;
  DisableBuiltin : bool;
  GeoIPFile : string;
  ChinaDomainFiles : list string;
  GFWDomainFiles : list string;
  SkipCountry : string;
}.

(** [skip_country]: a comma-separated list of codes, "CN" by default, "none"
    for no country. *)
Definition skip_country_of (opt : string) : string :=
  let s := TrimSpace opt in if String.eqb s "" then "CN" else s.

Definition skip_countries_of (sc : string) : gset string :=
  if EqualFold sc "none" || String.eqb sc "" then ∅
  else list_to_set (filter (λ c, c ≠ "") ((λ p, ToUpper (TrimSpace p)) <$> Split sc ",")).

(** [getReservedIPNets]: entries that do not parse are dropped. *)
Definition getReservedIPNets : list IPNet := omap ParseCIDR DefaultReservedCIDRs.

Definition loadDirectCIDRs (r : Router) (customCIDRs : list string) : Router :=
  r <| directIPs := Some (getReservedIPNets ++ omap ParseCIDR customCIDRs) |>.

(** [Close] releases the database. *)
Definition Close (r : Router) : Router := r <| geoDB ::= fmap geo_close |>.

(** [AddDirectCIDR]: the error is [net.ParseCIDR]'s; the type assertion on an
    empty [atomic.Value] panics ([None]). *)
Definition AddDirectCIDR (r : Router) (cidr : string) : option (result unit Router) :=
  match ParseCIDR cidr with
  | None => Some (Err tt)
  | Some n =>
      match directIPs r with
      | None => None
      | Some current => Some (Ok (r <| directIPs := Some (current ++ [n]) |>))
      end
  end.

Definition AddDirectDomain (r : Router) (domain : string) : Router :=
  r <| directHosts ::= λ h, add h domain |>.

Definition AddProxyDomain (r : Router) (domain : string) : Router :=
  r <| proxyHosts ::= λ h, add h domain |>.

(** One scanned line of a domain file: [None] when it carries no rule. *)
Definition domain_line (text : string) : option string :=
  let line := TrimSpace text in
  if String.eqb line "" || HasPrefix line "#" then None
  else
    let line := match CutPrefix line "server=/" with
                | Some rest => match Cut rest "/" with
                               | Some (domain, _) => if String.eqb domain "" then line else domain
                               | None => line
                               end
                | None => line
                end in
    let line := norm line in
    if String.eqb line "" then None else Some line.

(** [LoadDomainFile]: the new router and whether an error is returned. *)
Definition LoadDomainFile (r : Router) (filePath : string) (isDirect : bool) : Router * bool :=
  match file_lines filePath with
  | None => (r, true)
  | Some (lines, err) =>
      let lines := omap domain_line lines in
      (if isDirect then r <| directHosts ::= λ h, addAll h lines |>
       else r <| proxyHosts ::= λ h, addAll h lines |>, err)
  end.

(** Opening the GeoIP database: the configured file, else the default one when
    it is there. *)
Definition open_geo (r : Router) (file : string) : Router :=
  let try f := match geoDB r with
               | None => r
               | Some g => let '(g', ok) := geo_open g f in
                           if ok then r <| geoDB := Some g' |> <| geoipLoaded := true |>
                           else r <| geoDB := Some g' |>
               end in
  if String.eqb file "" then
    if file_exists "GeoLite2-Country.mmdb" then try "GeoLite2-Country.mmdb" else r
  else try file.

Definition NewRouterWithOptions (opt : Options) : Router :=
  let sc := skip_country_of (SkipCountry opt) in
  let r := {| directIPs := None; directHosts := newHostSet; proxyHosts := newHostSet;
              geoDB := Some NewGeoDB; geoipLoaded := false; skipCountry := sc;
              skipCountries := skip_countries_of sc |} in
  let r := open_geo r (GeoIPFile opt) in
  let r := if DisableBuiltin opt then r
           else r <| directHosts ::= λ h, addAll (addAll h DefaultChinaMainDomains) DefaultDirectTLDs |> in
  let r := r <| directHosts ::= λ h, addAll h (DirectDomains opt) |> in
  let r := r <| proxyHosts ::= λ h, addAll h (ProxyDomains opt) |> in
  let r := foldl (λ r f, (LoadDomainFile r f true).1) r (ChinaDomainFiles opt) in
  let r := foldl (λ r f, (LoadDomainFile r f false).1) r (GFWDomainFiles opt) in
  loadDirectCIDRs r (DirectCIDRs opt).

Definition NewRouter : Router :=
  NewRouterWithOptions {| DirectDomains := []; ProxyDomains := []; DirectCIDRs := [];
    DisableBuiltin := false; GeoIPFile := ""; ChinaDomainFiles := []; GFWDomainFiles := [];
    SkipCountry := "" |}.

Definition ShouldProxyDomain (r : Router) (domain : string) : bool :=
  matchListed (proxyHosts r) domain.

Definition ShouldDirectDomain (r : Router) (domain : string) : bool :=
  matchListed (directHosts r) domain.

Definition canonicalIP (ip : IP) : IP :=
  if is_nil ip then nilIP
  else if negb (is_nil (To4 ip)) then To4 ip else ip.

Definition ShouldDirectIP (r : Router) (ip : IP) : bool :=
  let ip := canonicalIP ip in
  if is_nil ip then false
  else match directIPs r with
       | None => false
       | Some list => IPNetList_Contains list ip
       end.

(** [Info]: the size of the loaded rule sets. *)
Record Info := {
  info_DirectDomains : Z;
  info_ProxyDomains : Z;
  info_DirectCIDRs : Z;
  info_GeoIP : bool;
  info_SkipCountry : string;
}.

Definition router_Info (r : Router) : Info :=
  {| info_DirectDomains := len (directHosts r);
     info_ProxyDomains := len (proxyHosts r);
     info_DirectCIDRs := match directIPs r with Some l => Z.of_nat (length l) | None => 0 end;
     info_GeoIP := geoipLoaded r;
     info_SkipCountry := skipCountry r |}.

Definition looksLikeIP (s : string) : bool :=
  match s with
  | EmptyString => false
  | String c _ =>
      match IndexByte s ":" with
      | Some _ => true
      | None => is_digit c && match slast s with Some d => is_digit d | None => false end
      end
  end.

(** The country test of [Decide]. *)
Definition skipped_country (r : Router) (ip : IP) : bool :=
  match geoDB r with
  | None => false
  | Some g =>
      if Nat.ltb 0 (size (skipCountries r)) then
        match geo_country g ip with
        | Some code => negb (String.eqb code "") && bool_decide (code ∈ skipCountries r)
        | None => false
        end
      else false
  end.

Definition Decide (r : Router) (destHost : string) (destIP : IP) : RouteDecision :=
  let destIP := canonicalIP destIP in
  let '(destHost, destIP) :=
    if looksLikeIP destHost then
      let ip := ParseIP destHost in
      if is_nil ip then (destHost, destIP) else ("", canonicalIP ip)
    else (destHost, destIP) in
  if negb (String.eqb destHost "") && ShouldProxyDomain r destHost then Proxy
  else if negb (String.eqb destHost "") && ShouldDirectDomain r destHost then Direct
  else if is_nil destIP then Proxy
  else if ShouldDirectIP r destIP then Direct
  else if skipped_country r destIP then Direct
  else Proxy.

(** *** Lemmas *)

Lemma canonicalIP_idemp ip : canonicalIP (canonicalIP ip) = canonicalIP ip.
Proof.
  unfold canonicalIP. destruct (is_nil ip) eqn:E1; [done|].
  destruct (is_nil (To4 ip)) eqn:E2; simpl.
  - by rewrite E1, E2.
  - by rewrite To4_idemp, E2.
Qed.

(** The pre-filter in front of [ParseIP] never rejects an address. *)
Lemma looksLikeIP_complete s : ParseIP s ≠ nilIP → looksLikeIP s = true.
Proof.
  intros (a & Ha & _)%ParseIP_Some. unfold ParseAddr in Ha.
  destruct (no_byte "%" s) eqn:Hpct; [|done]. simpl in Ha.
  destruct (addr_kind s) as [k|] eqn:Hk; [|done].
  destruct (addr_kind_Some _ _ Hk) as [Hc Hin].
  destruct s as [|c0 s0] eqn:Es; [done|]. rewrite <- Es in *.
  unfold looksLikeIP. rewrite Es. rewrite <- Es.
  destruct (IndexByte s ":") eqn:Hi; [done|]. apply IndexByte_None in Hi.
  destruct Hc as [->|[->| ->]]; [|congruence..].
  simpl in Ha. apply fmap_Some in Ha as (b & Hb & _). unfold parseIPv4 in Hb.
  destruct (v4_fields_head _ _ _ _ _ _ Hb) as (c & s' & E & Hd); [by rewrite Es|].
  assert (c = c0) as -> by congruence. rewrite Hd.
  destruct (slast s) as [d|] eqn:Hl.
  - by rewrite (v4_fields_last _ _ _ _ _ _ _ _ Hb Hl).
  - exfalso. clear -Es Hl. subst s. revert Hl. revert c0.
    induction s0; intros; [done|]. simpl in *. eauto.
Qed.

(** What a destination is routed by: its address when the host is a literal,
    the host name and the resolved address otherwise. *)
Definition dest_of (destHost : string) (destIP : IP) : string * IP :=
  if is_nil (ParseIP destHost) then (destHost, canonicalIP destIP)
  else ("", canonicalIP (ParseIP destHost)).

(** The address is in a direct network, or in a country that is skipped. *)
Definition in_direct_net (r : Router) (ip : IP) : Prop :=
  ∃ nets n, directIPs r = Some nets ∧ n ∈ nets ∧ net_contains n ip = true.

Definition in_skipped_country (r : Router) (ip : IP) : Prop :=
  ∃ g code, geoDB r = Some g ∧ geo_country g ip = Some code ∧ code ≠ "" ∧
            code ∈ skipCountries r.

(** The routing policy, as a specification: proxy rules win over direct rules,
    domain rules over address rules, and what no rule covers is proxied. *)
Inductive routes (r : Router) (host : string) (ip : IP) : RouteDecision → Prop :=
  | routes_proxy_domain :
      listed (proxyHosts r) (norm host) → routes r host ip Proxy
  | routes_direct_domain :
      ¬ listed (proxyHosts r) (norm host) → listed (directHosts r) (norm host) →
      routes r host ip Direct
  | routes_direct_ip :
      ¬ listed (proxyHosts r) (norm host) → ip ≠ nilIP → in_direct_net r ip →
      routes r host ip Direct
  | routes_country :
      ¬ listed (proxyHosts r) (norm host) → ip ≠ nilIP → in_skipped_country r ip →
      routes r host ip Direct
  | routes_default :
      ¬ listed (directHosts r) (norm host) →
      (ip = nilIP ∨ ¬ in_direct_net r ip ∧ ¬ in_skipped_country r ip) →
      routes r host ip Proxy.

Lemma is_nil_true ip : is_nil ip = true ↔ ip = nilIP.
Proof. by destruct ip. Qed.

Lemma norm_empty : norm "" = "".
Proof. done. Qed.

Lemma not_listed_empty h : ¬ listed h "".
Proof. intros (d & Hd & _ & [<-|[[] ?]]); done. Qed.

Lemma listed_match h host :
  negb (String.eqb host "") && matchListed h host = true ↔ listed h (norm host).
Proof.
  rewrite andb_true_iff, matchListed_listed. destruct (String.eqb_spec host "") as [->|]; simpl.
  - rewrite norm_empty. split; [by intros []|]. by intros ?%not_listed_empty.
  - tauto.
Qed.

Lemma ShouldDirectIP_spec r ip :
  canonicalIP ip = ip → ip ≠ nilIP → ShouldDirectIP r ip = true ↔ in_direct_net r ip.
Proof.
  intros Hc Hne. unfold ShouldDirectIP, in_direct_net. rewrite Hc.
  destruct (is_nil ip) eqn:E; [by apply is_nil_true in E|].
  destruct (directIPs r) as [nets|]; [|split; [done|by intros (? & ? & ? & ?)]].
  unfold IPNetList_Contains. rewrite existsb_exists. setoid_rewrite <- list_elem_of_In.
  split; [intros (n & ? & ?); by exists nets, n|].
  intros (nets' & n & [= <-] & ? & ?). by exists n.
Qed.

Lemma skipped_country_spec r ip : skipped_country r ip = true ↔ in_skipped_country r ip.
Proof.
  unfold skipped_country, in_skipped_country.
  destruct (geoDB r) as [g|]; [|split; [done|by intros (? & ? & ? & ?)]].
  destruct (Nat.ltb_spec 0 (size (skipCountries r))) as [_|Hs].
  - destruct (geo_country g ip) as [code|] eqn:Hg;
      [|split; [done|intros (g' & ? & [= <-] & ? & ?); congruence]].
    rewrite andb_true_iff, negb_true_iff, String.eqb_neq, bool_decide_eq_true.
    split; [intros []; by exists g, code|].
    intros (g' & code' & [= <-] & E & ? & ?). rewrite Hg in E. by simplify_eq.
  - split; [done|]. intros (? & ? & _ & _ & _ & Hin).
    assert (size (skipCountries r) = 0%nat) as Hz by lia.
    apply size_empty_iff in Hz. set_solver.
Qed.

(** The decision written on the destination [dest_of] computes. *)
Lemma Decide_dest r destHost destIP :
  Decide r destHost destIP =
  let '(host, ip) := dest_of destHost destIP in
  if negb (String.eqb host "") && matchListed (proxyHosts r) host then Proxy
  else if negb (String.eqb host "") && matchListed (directHosts r) host then Direct
  else if is_nil ip then Proxy
  else if ShouldDirectIP r ip then Direct
  else if skipped_country r ip then Direct
  else Proxy.
Proof.
  unfold Decide, dest_of. destruct (is_nil (ParseIP destHost)) eqn:E.
  - by destruct (looksLikeIP destHost).
  - rewrite looksLikeIP_complete; [done|]. intros Hn. by rewrite Hn in E.
Qed.

Lemma dest_of_canonical h i : canonicalIP (dest_of h i).2 = (dest_of h i).2.
Proof. unfold dest_of. case_match; apply canonicalIP_idemp. Qed.

Lemma routes_fun r host ip d1 d2 : routes r host ip d1 → routes r host ip d2 → d1 = d2.
Proof. intros [] []; naive_solver. Qed.

Lemma Decide_routes r destHost destIP :
  routes r (dest_of destHost destIP).1 (dest_of destHost destIP).2 (Decide r destHost destIP).
Proof.
  rewrite Decide_dest. pose proof (dest_of_canonical destHost destIP) as Hc.
  destruct (dest_of destHost destIP) as [host ip]. simpl in *.
  pose proof (listed_match (proxyHosts r) host) as Hp.
  pose proof (listed_match (directHosts r) host) as Hd.
  destruct (negb _ && matchListed (proxyHosts r) host); [by apply routes_proxy_domain, Hp|].
  assert (¬ listed (proxyHosts r) (norm host)) by (rewrite <- Hp; done).
  destruct (negb _ && matchListed (directHosts r) host); [by apply routes_direct_domain; [|apply Hd]|].
  assert (¬ listed (directHosts r) (norm host)) by (rewrite <- Hd; done).
  destruct (is_nil ip) eqn:En.
  { apply routes_default; [done|]. left. by apply is_nil_true. }
  assert (ip ≠ nilIP) as Hne by (intros ->; done).
  pose proof (ShouldDirectIP_spec r ip Hc Hne) as Hi. pose proof (skipped_country_spec r ip) as Hs.
  destruct (ShouldDirectIP r ip); [by apply routes_direct_ip; [..|apply Hi]|].
  destruct (skipped_country r ip); [by apply routes_country; [..|apply Hs]|].
  apply routes_default; [done|]. right. rewrite <- Hi, <- Hs. done.
Qed.
End router.
End Router.

(** ** Policy rows: rules.go *)

Module Rules.
Import HostSet Router.

Record Rule := { ID : string; Kind : string; Value : string; Action : string; Builtin : bool }.

#[global] Instance Rule_eta : Eta Rule := λ r,
  {| ID := ID r; Kind := Kind r; Value := Value r; Action := Action r; Builtin := Builtin r |}.

#[global] Instance Rule_eq_dec : EqDecision Rule.
Proof. solve_decision. Defined.

Section rules.
Context `{UnicodeCase, RouterEnv}.

Definition nl : string := String (byte_of 10) "".

(** The row of a rule after its fields are cleaned; [None] when it is dropped. *)
Definition clean_rule (rule : Rule) : option Rule :=
  let rule := rule <| Kind ::= λ k, ToLower (TrimSpace k) |> in
  if negb (String.eqb (Kind rule) "domain") then None
  else
    let rule := rule <| Action ::= λ a, ToLower (TrimSpace a) |> in
    let rule := if String.eqb (Action rule) "proxy" then rule else rule <| Action := "direct" |> in
    let rule := rule <| Value ::= TrimSpace |> in
    let raw := ToLower (Value rule) in
    let rule := if HasPrefix raw "." then rule <| Value := "." +:+ Trim is_dot raw |>
                else rule <| Value := Trim is_dot raw |> in
    if String.eqb (Value rule) "" || String.eqb (Value rule) "." then None else Some rule.

Definition key (rule : Rule) : string := Kind rule +:+ nl +:+ ToLower (Value rule).

(** [strings.NewReplacer(" ", "-", "/", "-")] *)
Definition slug (s : string) : string :=
  smap (λ c, if Ascii.eqb c " " || Ascii.eqb c "/" then "-"%char else c) s.

Definition normalize_step (st : gmap string nat * list Rule) (rule : Rule)
    : gmap string nat * list Rule :=
  let '(seen, out) := st in
  match clean_rule rule with
  | None => (seen, out)
  | Some rule =>
      match seen !! key rule with
      | Some idx =>
          match out !! idx with
          | Some old =>
              let rule := if String.eqb (ID rule) "" then rule <| ID := ID old |> else rule in
              let rule := rule <| Builtin := Builtin old || Builtin rule |> in
              (seen, <[idx := rule]> out)
          | None => (seen, out) (* out[idx] would panic; excluded by [norm_inv] *)
          end
      | None =>
          let rule' := if String.eqb (ID rule) ""
                       then rule <| ID := Kind rule +:+ "-" +:+ slug (Value rule) |> else rule in
          (<[key rule := length out]> seen, out ++ [rule'])
      end
  end.

Definition NormalizeRules (rules : list Rule) : list Rule :=
  (foldl normalize_step (∅, []) rules).2.

Definition SetPolicy (r : Router) (rules : list Rule) : Router :=
  let r := r <| directHosts ::= reset |> <| proxyHosts ::= reset |> in
  foldl (λ r rule, if String.eqb (Action rule) "proxy" then AddProxyDomain r (Value rule)
                   else AddDirectDomain r (Value rule)) r (NormalizeRules rules).

(** *** Lemmas *)

(** What a row says, apart from its identifier. *)
Definition says (r : Rule) : string * string * string := (Kind r, Value r, Action r).

Definition of_key (k : string) (rows : list Rule) : list Rule := filter (λ r, key r = k) rows.

(** Invariant of the loop: [seen] indexes [out] by key, and the row of a key
    says what the last row with that key said and is built-in when one was. *)
Record norm_inv (rows : list Rule) (seen : gmap string nat) (out : list Rule) : Prop := {
  ni_index k i : seen !! k = Some i ↔ ∃ r, out !! i = Some r ∧ key r = k;
  ni_last k i r : seen !! k = Some i → out !! i = Some r →
    says <$> last (of_key k rows) = Some (says r) ∧
    Builtin r = existsb Builtin (of_key k rows);
  ni_none k : seen !! k = None → of_key k rows = [];
}.

Lemma says_key r1 r2 : says r1 = says r2 → key r1 = key r2.
Proof. unfold says, key. intros [= -> -> _]. done. Qed.

Lemma of_key_app k rows r :
  of_key k (rows ++ [r]) = of_key k rows ++ (if decide (key r = k) then [r] else []).
Proof.
  unfold of_key. by rewrite filter_app.
Qed.

Lemma norm_inv_new rows seen out r r' :
  norm_inv rows seen out → seen !! key r = None → says r' = says r → Builtin r' = Builtin r →
  norm_inv (rows ++ [r]) (<[key r := length out]> seen) (out ++ [r']).
Proof.
  intros [Hix Hl Hn] Hs Hsay Hb. pose proof (says_key _ _ Hsay) as Hkey. split.
  - intros k i. rewrite lookup_insert. case_decide as Hk.
    + split.
      * intros [= <-]. exists r'. rewrite lookup_app_r, Nat.sub_diag by lia. simpl.
        split; [done|congruence].
      * intros (r0 & Hr0 & Hk0). destruct (decide (i < length out)%nat) as [Hi|Hi].
        { rewrite lookup_app_l in Hr0 by done. exfalso.
          assert (seen !! k = Some i) as E by (apply Hix; eauto). congruence. }
        rewrite lookup_app_r in Hr0 by lia. apply list_lookup_singleton_Some in Hr0.
        f_equal. lia.
    + rewrite Hix. split; intros (r0 & Hr0 & Hk0).
      * exists r0. split; [|done]. apply lookup_app_l_Some. done.
      * exists r0. split; [|done]. apply lookup_app_Some in Hr0 as [?|[? Hr0]]; [done|].
        apply list_lookup_singleton_Some in Hr0 as [_ <-]. congruence.
  - intros k i r0 Hk Hr0. rewrite of_key_app. rewrite lookup_insert in Hk.
    destruct (decide (key r = k)) as [E|E].
    + injection Hk as <-. rewrite lookup_app_r, Nat.sub_diag in Hr0 by lia.
      simpl in Hr0. injection Hr0 as <-. rewrite last_snoc, Hn by congruence. simpl.
      rewrite Hsay, Hb, orb_false_r. done.
    + rewrite app_nil_r. apply (Hl k i); [done|]. apply lookup_app_Some in Hr0 as [?|[Hi ?]]; [done|].
      apply Hix in Hk as (? & ?%lookup_lt_Some & _). lia.
  - intros k Hk. apply lookup_insert_None in Hk as [? ?]. rewrite of_key_app, Hn by done.
    by rewrite decide_False.
Qed.

Lemma norm_inv_update rows seen out r r' old i :
  norm_inv rows seen out → seen !! key r = Some i → out !! i = Some old →
  says r' = says r → Builtin r' = Builtin old || Builtin r →
  norm_inv (rows ++ [r]) seen (<[i := r']> out).
Proof.
  intros [Hix Hl Hn] Hs Ho Hsay Hb. pose proof (says_key _ _ Hsay) as Hkey.
  pose proof (lookup_lt_Some _ _ _ Ho) as Hi. split.
  - intros k j. rewrite Hix. destruct (decide (i = j)) as [<-|Hne].
    + rewrite list_lookup_insert_eq by done. split.
      * intros (r0 & E & <-). exists r'. split; [done|]. rewrite Hkey.
        assert (seen !! key r0 = Some i) as E0 by (apply Hix; eauto).
        apply Hix in Hs as (? & ? & <-). congruence.
      * intros (r0 & [= <-] & <-). rewrite Hkey. by apply Hix.
    + by rewrite list_lookup_insert_ne.
  - intros k j r0 Hk Hr0. rewrite of_key_app. destruct (decide (i = j)) as [<-|Hne].
    + rewrite list_lookup_insert_eq in Hr0 by done. injection Hr0 as <-.
      assert (key r = k) as <-.
      { apply Hix in Hs as (? & ? & <-). apply Hix in Hk as (? & ? & <-). congruence. }
      rewrite decide_True, last_snoc by done. simpl. rewrite Hsay. split; [done|].
      rewrite existsb_app, Hb. simpl. rewrite orb_false_r.
      destruct (Hl _ _ _ Hs Ho) as [_ <-]. done.
    + rewrite list_lookup_insert_ne in Hr0 by done. rewrite decide_False.
      { rewrite app_nil_r. eauto. }
      intros <-. congruence.
  - intros k Hk. rewrite of_key_app, Hn by done. rewrite decide_False by congruence. done.
Qed.

Lemma normalize_inv rules rows seen out :
  norm_inv rows seen out →
  norm_inv (rows ++ omap clean_rule rules)
    (foldl normalize_step (seen, out) rules).1 (foldl normalize_step (seen, out) rules).2.
Proof.
  revert rows seen out. induction rules as [|r rules IH]; intros rows seen out Hinv; csimpl.
  { by rewrite app_nil_r. }
  destruct (clean_rule r) as [c|] eqn:Hc; [|by apply IH].
  rewrite cons_middle, app_assoc.
  destruct (seen !! key c) as [i|] eqn:Hs.
  - destruct (proj1 (ni_index _ _ _ Hinv _ _) Hs) as (old & Ho & _). rewrite Ho. apply IH.
    eapply norm_inv_update; [done..| |]; by destruct (String.eqb (ID c) "").
  - apply IH. apply norm_inv_new; [done..| |]; by destruct (String.eqb (ID c) "").
Qed.

Lemma NormalizeRules_inv rules :
  norm_inv (omap clean_rule rules) (foldl normalize_step (∅, []) rules).1 (NormalizeRules rules).
Proof. apply (normalize_inv rules [] ∅ []). split; naive_solver. Qed.

(** The domain sets a list of rows installs. *)
Lemma SetPolicy_fold r rows d :
  let r' := foldl (λ r rule, if String.eqb (Action rule) "proxy"
                             then AddProxyDomain r (Value rule)
                             else AddDirectDomain r (Value rule)) r rows in
  (d ∈ rule (proxyHosts r') ↔
     d ∈ rule (proxyHosts r) ∨
     ∃ x, x ∈ rows ∧ Action x = "proxy" ∧ d = norm (Value x) ∧ d ≠ "") ∧
  (d ∈ rule (directHosts r') ↔
     d ∈ rule (directHosts r) ∨
     ∃ x, x ∈ rows ∧ Action x ≠ "proxy" ∧ d = norm (Value x) ∧ d ≠ "") ∧
  directIPs r' = directIPs r ∧ geoDB r' = geoDB r ∧ skipCountries r' = skipCountries r.
Proof.
  revert r. induction rows as [|x rows IH]; intros r; simpl.
  { split_and!; [set_solver..|done|done|done]. }
  destruct (String.eqb_spec (Action x) "proxy") as [E|E].
  - destruct (IH (AddProxyDomain r (Value x))) as (-> & -> & -> & -> & ->).
    split_and!; [| |done..]; simpl; unfold add; rewrite ?rule_addAll; set_solver.
  - destruct (IH (AddDirectDomain r (Value x))) as (-> & -> & -> & -> & ->).
    split_and!; [| |done..]; simpl; unfold add; rewrite ?rule_addAll; set_solver.
Qed.
End rules.
End Rules.

(** ** Properties *)

Module RouterProps.
Import HostSet Router Rules.

(** A small environment to run the model on: no GeoIP data, two built-in lists
    and one domain file. *)
Definition demo_env : RouterEnv := {|
  GeoDB := unit; NewGeoDB := tt; geo_open _ _ := (tt, true);
  geo_country _ ip := if bool_decide (ip = [1; 2; 4; 8]) then Some "CN" else None;
  geo_close g := g;
  DefaultChinaMainDomains := ["baidu.com"]; DefaultDirectTLDs := [".cn"];
  DefaultReservedCIDRs := ["10.0.0.0/8"; "fc00::/7"];
  file_exists _ := false;
  file_lines f := if String.eqb f "gfw" then Some (["# list"; "server=/Example.org/1.1.1.1"], false)
                  else None |}.

Definition demo_opts : Options :=
  {| DirectDomains := []; ProxyDomains := []; DirectCIDRs := ["192.0.2.0/24"];
     DisableBuiltin := false; GeoIPFile := ""; ChinaDomainFiles := []; GFWDomainFiles := ["gfw"];
     SkipCountry := "" |}.

Section props.
Context `{UnicodeCase}.

(** [matchListed] holds exactly when some non-empty rule of the set is the
    normalised domain or a suffix of it that starts right after a dot: rules
    match whole labels, never a substring of one. *)
Theorem matchListed_label_suffix (h : hostSet) (domain : string) :
  matchListed h domain = true ↔
  ∃ d, d ≠ "" ∧ d ∈ rule h ∧
       (norm domain = d ∨ ∃ p, norm domain = p +:+ String "." d).
Proof. apply matchListed_listed. Qed.

(** publishing a batch of suffixes with one copy of the set yields the set
    that adding them one at a time yields. *)
Theorem addAll_batch (h : hostSet) (domains : list string) :
  addAll h domains = foldl add h domains.
Proof.
  apply hostSet_ext. revert h. induction domains as [|x l IH]; intros h d; simpl.
  - rewrite rule_addAll. set_solver.
  - rewrite <- IH. unfold add. rewrite !rule_addAll. set_solver.
Qed.

(** the cheap test in front of [net.ParseIP] has no false negative: every
    string that parses as an address passes it. *)
Theorem looksLikeIP_no_false_negative (s : string) :
  ParseIP s ≠ nilIP → looksLikeIP s = true.
Proof. apply looksLikeIP_complete. Qed.

Context `{RouterEnv}.

(** C2: [Decide] implements the routing policy [routes] on the destination: the
    literal address when the host is one, else the host name and the address
    given; and no other decision satisfies the policy. *)
Theorem Decide_implements_policy (r : Router) (host : string) (ip : IP) (d : RouteDecision) :
  Decide r host ip = d ↔ routes r (dest_of host ip).1 (dest_of host ip).2 d.
Proof.
  split; [intros <-; apply Decide_routes|].
  intros Hd. eapply routes_fun; [apply Decide_routes|done].
Qed.

Lemma foldl_load_directIPs (b : bool) r fs :
  directIPs (foldl (λ r f, (LoadDomainFile r f b).1) r fs) = directIPs r.
Proof.
  revert r. induction fs as [|f fs IH]; intros r; simpl; [done|]. rewrite IH.
  unfold LoadDomainFile. destruct (file_lines f) as [[]|]; [|done]. by destruct b.
Qed.

Lemma SetPolicy_keeps r rules :
  directIPs (SetPolicy r rules) = directIPs r ∧ geoDB (SetPolicy r rules) = geoDB r ∧
  skipCountries (SetPolicy r rules) = skipCountries r.
Proof.
  unfold SetPolicy. by destruct (SetPolicy_fold (r <| directHosts ::= reset |> <| proxyHosts ::= reset |>)
    (NormalizeRules rules) "") as (_ & _ & ?).
Qed.

Lemma literal_direct r host ip n nets :
  ParseIP host ≠ nilIP → directIPs r = Some nets → n ∈ nets →
  net_contains n (canonicalIP (ParseIP host)) = true → Decide r host ip = Direct.
Proof.
  intros Hp Hn Hin Hc. eapply routes_fun; [apply Decide_routes|].
  unfold dest_of. destruct (is_nil (ParseIP host)) eqn:E; [by apply is_nil_true in E|]. simpl.
  apply routes_direct_ip.
  - rewrite norm_empty. apply not_listed_empty.
  - unfold canonicalIP. rewrite E. destruct (is_nil (To4 _)) eqn:E'; simpl; [done|].
    intros Hz. by rewrite Hz in E'.
  - by exists nets, n.
Qed.

(** on a freshly built router, an address literal in a reserved range or in
    a configured direct range goes direct whatever the domain rules, the GeoIP
    data and the resolved address are, and a new policy does not change that. *)
Theorem reserved_address_direct (opt : Options) (rules : list Rule) cidr n host ip :
  cidr ∈ DefaultReservedCIDRs ++ DirectCIDRs opt → ParseCIDR cidr = Some n →
  ParseIP host ≠ nilIP → net_contains n (canonicalIP (ParseIP host)) = true →
  Decide (NewRouterWithOptions opt) host ip = Direct ∧
  Decide (SetPolicy (NewRouterWithOptions opt) rules) host ip = Direct.
Proof.
  intros Hin Hp Hh Hc.
  assert (directIPs (NewRouterWithOptions opt) =
          Some (getReservedIPNets ++ omap ParseCIDR (DirectCIDRs opt))) as E by done.
  assert (n ∈ getReservedIPNets ++ omap ParseCIDR (DirectCIDRs opt)) as Hm.
  { apply elem_of_app in Hin as [Hin|Hin]; apply elem_of_app; [left|right];
      apply list_elem_of_omap; eauto. }
  split; (eapply literal_direct; [done| |done..]); [done|].
  by rewrite (proj1 (SetPolicy_keeps _ _)).
Qed.

(** [NormalizeRules] keeps one row per kind and value, for the rows that
    survive cleaning and no others, and that row says what the last of them
    said. *)
Theorem NormalizeRules_last_wins (rules : list Rule) (k : string) :
  NoDup (key <$> NormalizeRules rules) ∧
  says <$> head (of_key k (NormalizeRules rules)) =
  says <$> last (of_key k (omap clean_rule rules)).
Proof.
  destruct (NormalizeRules_inv rules) as [Hix Hl Hn].
  set (seen := (foldl _ _ _).1) in *. set (out := NormalizeRules rules) in *. split.
  - apply NoDup_alt. intros i j x Hi Hj. rewrite list_lookup_fmap in Hi, Hj.
    apply fmap_Some in Hi as (r1 & ? & ->). apply fmap_Some in Hj as (r2 & ? & Hk).
    assert (seen !! key r1 = Some i) by (apply Hix; eauto).
    assert (seen !! key r1 = Some j) by (apply Hix; eauto). congruence.
  - destruct (of_key k out) as [|r l] eqn:E; simpl.
    + rewrite Hn; [done|]. destruct (seen !! k) as [i|] eqn:Hs; [|done].
      apply Hix in Hs as (r & Hr & Hk). exfalso. apply list_elem_of_lookup_2 in Hr.
      assert (r ∈ of_key k out) as Hin by (apply list_elem_of_filter; done).
      rewrite E in Hin. by apply not_elem_of_nil in Hin.
    + assert (r ∈ of_key k out) as Hin by (rewrite E; apply list_elem_of_here).
      apply list_elem_of_filter in Hin as [Hk [i Hi]%list_elem_of_lookup].
      symmetry. apply (Hl k i); [|done]. apply Hix. eauto.
Qed.

(** after [SetPolicy] the domain rules are exactly the normal forms of the
    rows of the new policy, split by action; nothing of the old rules is left,
    and the address rules are untouched. *)
Theorem SetPolicy_installs (r : Router) (rules : list Rule) (d : string) :
  (d ∈ rule (proxyHosts (SetPolicy r rules)) ↔
     d ≠ "" ∧ ∃ x, x ∈ NormalizeRules rules ∧ Action x = "proxy" ∧ d = norm (Value x)) ∧
  (d ∈ rule (directHosts (SetPolicy r rules)) ↔
     d ≠ "" ∧ ∃ x, x ∈ NormalizeRules rules ∧ Action x ≠ "proxy" ∧ d = norm (Value x)) ∧
  directIPs (SetPolicy r rules) = directIPs r.
Proof.
  destruct (SetPolicy_fold (r <| directHosts ::= reset |> <| proxyHosts ::= reset |>)
    (NormalizeRules rules) d) as (Hp & Hd & Hk & _).
  unfold SetPolicy. cbv zeta in *. rewrite Hp, Hd. split_and!; [..|done]; simpl; set_solver.
Qed.

End props.

Lemma looksLikeIP_no_false_negative_witness :
  ParseIP "192.0.2.7" ≠ nilIP ∧ looksLikeIP "192.0.2.7" = true.
Proof.
  split; [vm_compute; discriminate|].
  apply looksLikeIP_no_false_negative. vm_compute. discriminate.
Defined.

Lemma reserved_address_direct_witness :
  Decide (H := ascii_case) (H0 := demo_env)
    (NewRouterWithOptions (H := ascii_case) (H0 := demo_env) demo_opts) "10.1.2.3" nilIP = Direct.
Proof.
  refine (proj1 (reserved_address_direct (H := ascii_case) (H0 := demo_env)
    demo_opts [] "10.0.0.0/8" {| net_ip := [10; 0; 0; 0]; net_mask := [255; 0; 0; 0] |}
    "10.1.2.3" nilIP _ _ _ _)).
  - apply list_elem_of_here.
  - vm_compute. reflexivity.
  - vm_compute. discriminate.
  - vm_compute. reflexivity.
Defined.

(** The model runs: a rule from a domain file, a built-in suffix, a country. *)
Example demo_decisions :
  let r := NewRouterWithOptions (H := ascii_case) (H0 := demo_env) demo_opts in
  let d := Decide (H := ascii_case) (H0 := demo_env) r in
  (d "www.EXAMPLE.org." nilIP, d "notbaidu.com" nilIP, d "map.baidu.com" nilIP,
   d "a.cn" nilIP, d "1.2.4.8" nilIP, d "[::1]" nilIP)
  = (Proxy, Proxy, Direct, Direct, Direct, Proxy).
Proof. vm_compute. reflexivity. Qed.
End RouterProps.
