(* ===== verification/Stats.v ===== *)
(** * core/stats: the collector (stats.go, write side)

    [Collector] owns every counter.  Sessions are shared objects: handlers hold
    a pointer and the collector's [active] map holds the same pointer, so the
    state keeps the objects in a store keyed by session id ([sessions]) and
    [active] as the set of ids that are registered.  A nil [*Session] is
    [None].  Every operation is the body of a Go method, run under the
    collector's lock where the source takes it; the clock is an argument.

    Counters are Go [int64]s modelled as integers: [totals_account] (below)
    makes them sums of the recorded amounts, so they stay in range until a
    counter has seen 2^63 bytes. *)

From S2P Require Import Prelude GoStrings.

Module Stats.

(** ** Data *)

Definition DefaultHistoryMinutes : Z := 1440.
Definition DefaultBucketInterval : duration := minute.
Definition DefaultSaveInterval : duration := minute.
Definition DefaultDomainLimit : Z := 3000.
Definition DefaultErrorLimit : Z := 200.
Definition rateSlots : Z := 60.
Definition flushThreshold : Z := 2 ^ 20.
Definition minRateSample : duration := 500 * millisecond.

Inductive Proto := ProtoSOCKS5 | ProtoHTTP | ProtoUDP | ProtoDNS.
Inductive Decision := DecisionDirect | DecisionProxy | DecisionNone.

#[global] Instance Proto_eq_dec : EqDecision Proto.
Proof. solve_decision. Defined.
#[global] Instance Decision_eq_dec : EqDecision Decision.
Proof. solve_decision. Defined.

Definition proto_string (p : Proto) : string :=
  match p with ProtoSOCKS5 => "socks5" | ProtoHTTP => "http" | ProtoUDP => "udp" | ProtoDNS => "dns" end.
Definition decision_string (d : Decision) : string :=
  match d with DecisionDirect => "direct" | DecisionProxy => "proxy" | DecisionNone => "" end.

Record Counters := { cUpload : Z; cDownload : Z; cConns : Z; cErrors : Z }.
#[global] Instance Counters_eta : Eta Counters := λ c,
  {| cUpload := cUpload c; cDownload := cDownload c; cConns := cConns c; cErrors := cErrors c |}.
Definition zeroCounters : Counters := {| cUpload := 0; cDownload := 0; cConns := 0; cErrors := 0 |}.

Definition Counters_Total (c : Counters) : Z := cUpload c + cDownload c.
Definition addUpload (n : Z) (c : Counters) : Counters := c <| cUpload ::= Z.add n |>.
Definition addDownload (n : Z) (c : Counters) : Counters := c <| cDownload ::= Z.add n |>.

Record Bucket := {
  bT : Z; bUpload : Z; bDownload : Z; bConns : Z; bErrors : Z;
  bDirectUpload : Z; bDirectDownload : Z; bProxyUpload : Z; bProxyDownload : Z;
  bDirectConns : Z; bProxyConns : Z; bDNSQueries : Z;
}.
#[global] Instance Bucket_eta : Eta Bucket := λ b,
  {| bT := bT b; bUpload := bUpload b; bDownload := bDownload b; bConns := bConns b;
     bErrors := bErrors b; bDirectUpload := bDirectUpload b; bDirectDownload := bDirectDownload b;
     bProxyUpload := bProxyUpload b; bProxyDownload := bProxyDownload b;
     bDirectConns := bDirectConns b; bProxyConns := bProxyConns b; bDNSQueries := bDNSQueries b |}.

(** [Bucket{T: t}] *)
Definition emptyBucket (t : Z) : Bucket :=
  {| bT := t; bUpload := 0; bDownload := 0; bConns := 0; bErrors := 0; bDirectUpload := 0;
     bDirectDownload := 0; bProxyUpload := 0; bProxyDownload := 0; bDirectConns := 0;
     bProxyConns := 0; bDNSQueries := 0 |}.

Record DomainStat := {
  dDomain : string; dUpload : Z; dDownload : Z; dConns : Z; dDirectConns : Z; dProxyConns : Z;
  dErrors : Z; dLastSeen : Z;
}.
#[global] Instance DomainStat_eta : Eta DomainStat := λ d,
  {| dDomain := dDomain d; dUpload := dUpload d; dDownload := dDownload d; dConns := dConns d;
     dDirectConns := dDirectConns d; dProxyConns := dProxyConns d; dErrors := dErrors d;
     dLastSeen := dLastSeen d |}.
Definition newDomainStat (domain : string) : DomainStat :=
  {| dDomain := domain; dUpload := 0; dDownload := 0; dConns := 0; dDirectConns := 0;
     dProxyConns := 0; dErrors := 0; dLastSeen := 0 |}.
Definition DomainStat_Total (d : DomainStat) : Z := dUpload d + dDownload d.

Record NodeStat := { nName : string; nUpload : Z; nDownload : Z; nConns : Z; nLastSeen : Z }.
#[global] Instance NodeStat_eta : Eta NodeStat := λ n,
  {| nName := nName n; nUpload := nUpload n; nDownload := nDownload n; nConns := nConns n;
     nLastSeen := nLastSeen n |}.
Definition newNodeStat (name : string) : NodeStat :=
  {| nName := name; nUpload := 0; nDownload := 0; nConns := 0; nLastSeen := 0 |}.

Record ErrorEntry := { eT : Z; eTime : string; eScope : string; eHost : string; eMessage : string }.

Record Config := {
  HistoryMinutes : Z; BucketInterval : duration; File : string; SaveInterval : duration;
  DomainLimit : Z; ErrorLimit : Z;
}.
#[global] Instance Config_eta : Eta Config := λ c,
  {| HistoryMinutes := HistoryMinutes c; BucketInterval := BucketInterval c; File := File c;
     SaveInterval := SaveInterval c; DomainLimit := DomainLimit c; ErrorLimit := ErrorLimit c |}.

Record DNSStat := {
  Queries : Z; CacheHits : Z; Failures : Z; dnsDirect : Z; DoH : Z;
  ByType : gmap string Z; ByUpstream : gmap string Z;
}.
#[global] Instance DNSStat_eta : Eta DNSStat := λ d,
  {| Queries := Queries d; CacheHits := CacheHits d; Failures := Failures d;
     dnsDirect := dnsDirect d; DoH := DoH d; ByType := ByType d; ByUpstream := ByUpstream d |}.
Definition zeroDNS : DNSStat :=
  {| Queries := 0; CacheHits := 0; Failures := 0; dnsDirect := 0; DoH := 0;
     ByType := ∅; ByUpstream := ∅ |}.

(** [rateAt] is the zero time until the first sample. *)
Record Session := {
  sid : Z; proto : Proto; client : string; host : string; port : Z; decision : Decision;
  node : option string; sstart : time;
  upload : Z; download : Z; pendingUp : Z; pendingDown : Z; done : bool;
  rateAt : option time; srateUp : Z; srateDown : Z; curUpBps : Z; curDownBps : Z;
}.
#[global] Instance Session_eta : Eta Session := λ s,
  {| sid := sid s; proto := proto s; client := client s; host := host s; port := port s;
     decision := decision s; node := node s; sstart := sstart s; upload := upload s;
     download := download s; pendingUp := pendingUp s; pendingDown := pendingDown s;
     done := done s; rateAt := rateAt s; srateUp := srateUp s; srateDown := srateDown s;
     curUpBps := curUpBps s; curDownBps := curDownBps s |}.

(** [bcap] is [cap(c.buckets)]. *)
Record Collector := {
  cfg : Config; cstart : time;
  sessions : gmap Z Session; active : gset Z;
  totals : Counters; direct : Counters; proxy : Counters;
  dns : DNSStat; dnsNames : gmap string DomainStat; domains : gmap string DomainStat;
  nodes : gmap string NodeStat; errs : list ErrorEntry;
  buckets : list Bucket; bcap : nat; head : nat; cur : Bucket;
  rateSec : Z; rateUp : list Z; rateDown : list Z; peakUp : Z; peakDown : Z;
  nextID : Z;
}.
#[global] Instance Collector_eta : Eta Collector := λ c,
  {| cfg := cfg c; cstart := cstart c; sessions := sessions c; active := active c;
     totals := totals c; direct := direct c; proxy := proxy c; dns := dns c;
     dnsNames := dnsNames c; domains := domains c; nodes := nodes c; errs := errs c;
     buckets := buckets c; bcap := bcap c; head := head c; cur := cur c; rateSec := rateSec c;
     rateUp := rateUp c; rateDown := rateDown c; peakUp := peakUp c; peakDown := peakDown c;
     nextID := nextID c |}.

(** ** History ring *)

(** Seconds of an interval, 60 when it is below one second. *)
Definition interval_secs (interval : duration) : Z :=
  let secs := interval `quot` second in if secs <=? 0 then 60 else secs.

Definition alignUnix (t : Z) (interval : duration) : Z :=
  let secs := interval_secs interval in t `quot` secs * secs.

Definition pushBucketLocked (b : Bucket) (c : Collector) : Collector :=
  if Nat.ltb (length (buckets c)) (bcap c) then c <| buckets ::= λ l, l ++ [b] |>
  else c <| buckets ::= <[head c := b]> |>
         <| head := ((head c + 1) `mod` length (buckets c))%nat |>.

(** One round: close the current bucket and open the next. *)
Definition roll (interval : Z) (c : Collector) : Collector :=
  let b := cur c in
  (pushBucketLocked b c) <| cur := emptyBucket (bT b + interval) |>.

(** The loop [for c.cur.T < want]; [None] is running out of fuel. *)
Fixpoint rotate_loop (fuel : nat) (interval want : Z) (c : Collector) : option Collector :=
  if bT (cur c) <? want then
    match fuel with
    | O => None
    | S fuel => rotate_loop fuel interval want (roll interval c)
    end
  else Some c.

Definition rotate_fuel (want t : Z) : nat := Z.to_nat (want - t).

Definition rotateLocked (now : time) (c : Collector) : Collector :=
  let interval := interval_secs (BucketInterval (cfg c)) in
  let want := alignUnix (unix now) (BucketInterval (cfg c)) in
  if bT (cur c) =? 0 then c <| cur ::= λ b, b <| bT := want |> |>
  else default c (rotate_loop (rotate_fuel want (bT (cur c))) interval want c).

(** [orderedBucketsLocked]: oldest first. *)
Definition orderedBucketsLocked (c : Collector) : list Bucket :=
  let n := length (buckets c) in
  omap (λ i, match buckets c !! ((head c + i) `mod` n)%nat with
             | Some b => if 0 <? bT b then Some b else None
             | None => None
             end) (seq 0 n).

(** ** Rate slots *)

Definition slot (sec : Z) : nat := Z.to_nat (sec `rem` rateSlots).
Definition noRates : list Z := replicate 60 0.

(** [for i := 1; i <= gap; i++]: clear the slots of the seconds skipped. *)
Definition clear_slots (rateSec gap : Z) (l : list Z) : list Z :=
  foldl (λ l i, <[slot (rateSec + Z.of_nat i) := 0]> l) l (seq 1 (Z.to_nat gap)).

Definition bump (i : nat) (n : Z) (l : list Z) : list Z := <[i := default 0 (l !! i) + n]> l.

Definition addRateLocked (nowSec up down : Z) (c : Collector) : Collector :=
  let c :=
    if rateSec c =? nowSec then c
    else
      let c := if rateSec c <? nowSec then
                 let gap := nowSec - rateSec c in
                 if rateSlots <=? gap then c <| rateUp := noRates |> <| rateDown := noRates |>
                 else c <| rateUp ::= clear_slots (rateSec c) gap |>
                        <| rateDown ::= clear_slots (rateSec c) gap |>
               else c in
      c <| rateSec := nowSec |> in
  let idx := slot nowSec in
  let c := c <| rateUp ::= bump idx up |> <| rateDown ::= bump idx down |> in
  let u := default 0 (rateUp c !! idx) in
  let d := default 0 (rateDown c !! idx) in
  let c := if peakUp c <? u then c <| peakUp := u |> else c in
  if peakDown c <? d then c <| peakDown := d |> else c.

(** [rateLocked]: bytes per second over the last [window] full seconds. *)
Definition rate_window (window : Z) : Z :=
  if (window <=? 0) || (rateSlots <=? window) then rateSlots - 1 else window.

Definition slot_before (nowSec i : Z) : nat :=
  let idx := (nowSec - i) `rem` rateSlots in
  Z.to_nat (if idx <? 0 then idx + rateSlots else idx).

Definition sum_slots (l : list Z) (nowSec : Z) (window : Z) : Z :=
  foldr (λ i s, default 0 (l !! slot_before nowSec (Z.of_nat i)) + s) 0 (seq 1 (Z.to_nat window)).

Record Rate := { rUpload : Z; rDownload : Z }.

Definition rateLocked (nowSec window : Z) (c : Collector) : Rate :=
  let w := rate_window window in
  {| rUpload := sum_slots (rateUp c) nowSec w `quot` w;
     rDownload := sum_slots (rateDown c) nowSec w `quot` w |}.

(** ** Tables, errors and traffic *)

(** [t.Format(time.RFC3339)], in the machine's time zone. *)
Class TimeFormat := rfc3339 : time → string.

Section collector.
Context `{GoSort, TimeFormat}.

(** Busiest first. *)
Definition busier (x y : DomainStat) : bool := DomainStat_Total y <? DomainStat_Total x.

(** [pruneLocked]: the table is over its cap; keep the busiest three quarters.
    [range m] fills the slice in an arbitrary order. *)
Definition prune_keep (limit : Z) : Z :=
  let keep := (limit * 3) `quot` 4 in if keep <=? 0 then 1 else keep.

Definition pruneLocked (limit : Z) (m : gmap string DomainStat) : gmap string DomainStat :=
  let all := sort_slice busier (map_to_list m).*2 in
  foldl (λ m d, delete (dDomain d) m) m (drop (Z.to_nat (prune_keep limit)) all).

Definition prune_over (limit : Z) (m : gmap string DomainStat) : gmap string DomainStat :=
  if limit <? Z.of_nat (size m) then pruneLocked limit m else m.

Definition addDomainLocked (now : time) (h : string) (dec : Decision) (up down conns : Z)
    (isErr : bool) (c : Collector) : Collector :=
  let e := default (newDomainStat h) (domains c !! h) in
  let e := e <| dUpload ::= Z.add up |> <| dDownload ::= Z.add down |> <| dConns ::= Z.add conns |> in
  let e := match dec with
           | DecisionDirect => e <| dDirectConns ::= Z.add conns |>
           | DecisionProxy => e <| dProxyConns ::= Z.add conns |>
           | DecisionNone => e
           end in
  let e := if isErr then e <| dErrors ::= Z.add 1 |> else e in
  let e := e <| dLastSeen := unix now |> in
  c <| domains := prune_over (DomainLimit (cfg c)) (<[h := e]> (domains c)) |>.

Definition addDomain := addDomainLocked.

(** The rolling log: [append(errs[:0], errs[len-limit:]...)] when over the cap. *)
Definition keep_last {A} (limit : Z) (l : list A) : list A :=
  if limit <? Z.of_nat (length l) then drop (length l - Z.to_nat limit) l else l.

Definition recordErrorLocked (now : time) (scope h msg : string) (c : Collector) : Collector :=
  let c := c <| totals ::= λ t, t <| cErrors ::= Z.add 1 |> |> in
  let c := rotateLocked now c in
  let c := c <| cur ::= λ b, b <| bErrors ::= Z.add 1 |> |> in
  c <| errs ::= λ l, keep_last (ErrorLimit (cfg c))
         (l ++ [{| eT := unix now; eTime := rfc3339 now; eScope := scope; eHost := h; eMessage := msg |}]) |>.

(** [RecordError], with the message already formatted. *)
Definition RecordError (now : time) (scope h msg : string) (c : option Collector) : option Collector :=
  recordErrorLocked now scope h msg <$> c.

Definition addTraffic (now : time) (up down : Z) (d : Decision) (c : Collector) : Collector :=
  if (up =? 0) && (down =? 0) then c
  else
    let c := rotateLocked now c in
    let c := c <| totals ::= λ t, addDownload down (addUpload up t) |> in
    let c := c <| cur ::= λ b, b <| bUpload ::= Z.add up |> <| bDownload ::= Z.add down |> |> in
    let c := match d with
             | DecisionDirect =>
                 c <| direct ::= λ t, addDownload down (addUpload up t) |>
                   <| cur ::= λ b, b <| bDirectUpload ::= Z.add up |> <| bDirectDownload ::= Z.add down |> |>
             | DecisionProxy =>
                 c <| proxy ::= λ t, addDownload down (addUpload up t) |>
                   <| cur ::= λ b, b <| bProxyUpload ::= Z.add up |> <| bProxyDownload ::= Z.add down |> |>
             | DecisionNone => c
             end in
    addRateLocked (unix now) up down c.

Definition bumpConnLocked (d : Decision) (now : time) (c : Collector) : Collector :=
  let c := rotateLocked now c in
  let c := c <| cur ::= λ b, b <| bConns ::= Z.add 1 |> |> in
  match d with
  | DecisionDirect => c <| direct ::= λ t, t <| cConns ::= Z.add 1 |> |>
                        <| cur ::= λ b, b <| bDirectConns ::= Z.add 1 |> |>
  | DecisionProxy => c <| proxy ::= λ t, t <| cConns ::= Z.add 1 |> |>
                       <| cur ::= λ b, b <| bProxyConns ::= Z.add 1 |> |>
  | DecisionNone => c
  end.

(** [m[k]++] *)
Definition incr (k : string) (m : gmap string Z) : gmap string Z :=
  <[k := default 0 (m !! k) + 1]> m.

(** The query-name table of [RecordDNS]. *)
Definition dns_name (now : time) (domain : string) (isErr : bool) (c : Collector) : Collector :=
  let d := default (newDomainStat domain) (dnsNames c !! domain) in
  let d := d <| dConns ::= Z.add 1 |> <| dLastSeen := unix now |> in
  let d := if isErr then d <| dErrors ::= Z.add 1 |> else d in
  c <| dnsNames := prune_over (DomainLimit (cfg c)) (<[domain := d]> (dnsNames c)) |>.

Definition record_dns (now : time) (domain qtype upstream : string) (err : option string)
    (c : Collector) : Collector :=
  let c := rotateLocked now c in
  let c := c <| dns ::= λ d, d <| Queries ::= Z.add 1 |> |> in
  let c := c <| cur ::= λ b, b <| bDNSQueries ::= Z.add 1 |> |> in
  let c := if String.eqb qtype "" then c else c <| dns ::= λ d, d <| ByType ::= incr qtype |> |> in
  let c := c <| dns ::= λ d, d <| ByUpstream ::= incr upstream |> |> in
  let c := if String.eqb upstream "cache" then c <| dns ::= λ d, d <| CacheHits ::= Z.add 1 |> |>
           else if String.eqb upstream "direct" then c <| dns ::= λ d, d <| dnsDirect ::= Z.add 1 |> |>
           else if String.eqb upstream "doh" then c <| dns ::= λ d, d <| DoH ::= Z.add 1 |> |>
           else c in
  let c := match err with
           | Some msg => recordErrorLocked now "dns" domain msg (c <| dns ::= λ d, d <| Failures ::= Z.add 1 |> |>)
           | None => c
           end in
  if String.eqb domain "" then c
  else dns_name now domain (match err with Some _ => true | None => false end) c.

(** [RecordDNS] on a collector that may be nil. *)
Definition RecordDNS (now : time) (domain qtype upstream : string) (err : option string)
    (c : option Collector) : option Collector :=
  record_dns now domain qtype upstream err <$> c.

(** ** Sessions *)

Definition upd_session (i : Z) (f : Session → Session) (c : Collector) : Collector :=
  c <| sessions ::= alter f i |>.

Definition Begin (now : time) (p : Proto) (cl h : string) (prt : Z) (d : Decision) (nd : string)
    (c : Collector) : Collector * Z :=
  let i := nextID c + 1 in
  let s := {| sid := i; proto := p; client := cl; host := h; port := prt; decision := d;
              node := if String.eqb nd "" then None else Some nd; sstart := now;
              upload := 0; download := 0; pendingUp := 0; pendingDown := 0; done := false;
              rateAt := None; srateUp := 0; srateDown := 0; curUpBps := 0; curDownBps := 0 |} in
  (c <| nextID := i |> <| sessions ::= <[i := s]> |> <| active ::= union {[i]} |>, i).

Definition flush (now : time) (i : Z) (c : Collector) : Collector :=
  match sessions c !! i with
  | None => c
  | Some s =>
      let c := upd_session i (λ s, s <| pendingUp := 0 |> <| pendingDown := 0 |>) c in
      if (pendingUp s =? 0) && (pendingDown s =? 0) then c
      else if String.eqb (host s) "" then c
      else addDomain now (host s) (decision s) (pendingUp s) (pendingDown s) 0 false c
  end.

(** Does the session's pending count call for a flush? *)
Definition pending_over (f : Session → Z) (i : Z) (c : Collector) : bool :=
  match sessions c !! i with Some s => flushThreshold <=? f s | None => false end.

Definition AddUpload (now : time) (i : Z) (n : Z) (c : Collector) : Collector :=
  match sessions c !! i with
  | None => c
  | Some s =>
      if n <=? 0 then c
      else
        let c := upd_session i (λ s, s <| upload ::= Z.add n |>) c in
        let c := addTraffic now n 0 (decision s) c in
        let c := upd_session i (λ s, s <| pendingUp ::= Z.add n |>) c in
        if pending_over pendingUp i c then flush now i c else c
  end.

Definition AddDownload (now : time) (i : Z) (n : Z) (c : Collector) : Collector :=
  match sessions c !! i with
  | None => c
  | Some s =>
      if n <=? 0 then c
      else
        let c := upd_session i (λ s, s <| download ::= Z.add n |>) c in
        let c := addTraffic now 0 n (decision s) c in
        let c := upd_session i (λ s, s <| pendingDown ::= Z.add n |>) c in
        if pending_over pendingDown i c then flush now i c else c
  end.

Definition AddDatagram (now : time) (i : Z) (h : string) (d : Decision) (up down : Z)
    (c : Collector) : Collector :=
  match sessions c !! i with
  | None => c
  | Some _ =>
      let c := if 0 <? up then upd_session i (λ s, s <| upload ::= Z.add up |> <| pendingUp ::= Z.add up |>) c
               else c in
      let c := if 0 <? down then upd_session i (λ s, s <| download ::= Z.add down |> <| pendingDown ::= Z.add down |>) c
               else c in
      let c := if (0 <? up) || (0 <? down) then addTraffic now up down d c else c in
      let c := if String.eqb h "" then c else addDomain now h d up down 0 false c in
      flush now i c
  end.

Definition SetNode (i : Z) (name : string) (c : Collector) : Collector :=
  if String.eqb name "" then c else upd_session i (λ s, s <| node := Some name |>) c.

Definition Node (s : Session) : string := default "" (node s).

(** The node table of [finish]. *)
Definition node_traffic (now : time) (name : string) (up down : Z) (c : Collector) : Collector :=
  let n := default (newNodeStat name) (nodes c !! name) in
  let n := n <| nConns ::= Z.add 1 |> <| nUpload ::= Z.add up |> <| nDownload ::= Z.add down |>
             <| nLastSeen := unix now |> in
  c <| nodes ::= <[name := n]> |>.

Definition finish (now : time) (s : Session) (err : option string) (c : Collector) : Collector :=
  let c := c <| active ::= λ a, a ∖ {[sid s]} |> in
  let c := c <| totals ::= λ t, t <| cConns ::= Z.add 1 |> |> in
  let c := bumpConnLocked (decision s) now c in
  let c := if String.eqb (host s) "" then c
           else
             let c := upd_session (sid s) (λ s, s <| pendingUp := 0 |> <| pendingDown := 0 |>) c in
             addDomainLocked now (host s) (decision s) (pendingUp s) (pendingDown s) 1
               (match err with Some _ => true | None => false end) c in
  let c := if bool_decide (decision s = DecisionProxy) && negb (String.eqb (Node s) "")
           then node_traffic now (Node s) (upload s) (download s) c else c in
  match err with
  | Some msg => recordErrorLocked now "proxy" (host s) msg c
  | None => c
  end.

(** [End]; [Fail(err)] is [End(err)]. *)
Definition End_ (now : time) (i : Z) (err : option string) (c : Collector) : Collector :=
  match sessions c !! i with
  | None => c
  | Some s =>
      if done s then c
      else
        let c := upd_session i (λ s, s <| done := true |>) c in
        finish now (s <| done := true |>) err c
  end.

(** ** Construction and reset *)

Definition resolve_config (cfg : Config) : Config :=
  let cfg := if HistoryMinutes cfg <=? 0 then cfg <| HistoryMinutes := DefaultHistoryMinutes |> else cfg in
  let cfg := if BucketInterval cfg <=? 0 then cfg <| BucketInterval := DefaultBucketInterval |> else cfg in
  let cfg := if DomainLimit cfg <=? 0 then cfg <| DomainLimit := DefaultDomainLimit |> else cfg in
  if ErrorLimit cfg <=? 0 then cfg <| ErrorLimit := DefaultErrorLimit |> else cfg.

(** [New] before the snapshot is restored. *)
Definition New (now : time) (config : Config) : Collector :=
  let cfg := resolve_config config in
  {| cfg := cfg; cstart := now; sessions := ∅; active := ∅;
     totals := zeroCounters; direct := zeroCounters; proxy := zeroCounters; dns := zeroDNS;
     dnsNames := ∅; domains := ∅; nodes := ∅; errs := []; buckets := [];
     bcap := Z.to_nat (HistoryMinutes cfg); head := 0;
     cur := emptyBucket (alignUnix (unix now) (BucketInterval cfg));
     rateSec := unix now; rateUp := noRates; rateDown := noRates; peakUp := 0; peakDown := 0;
     nextID := 0 |}.

Definition Reset (now : time) (c : Collector) : Collector :=
  c <| totals := zeroCounters |> <| direct := zeroCounters |> <| proxy := zeroCounters |>
    <| dns := zeroDNS |> <| dnsNames := ∅ |> <| domains := ∅ |> <| nodes := ∅ |> <| errs := [] |>
    <| buckets := [] |> <| head := 0%nat |>
    <| cur := emptyBucket (alignUnix (unix now) (BucketInterval (cfg c))) |>
    <| rateUp := noRates |> <| rateDown := noRates |> <| peakUp := 0 |> <| peakDown := 0 |>
    <| cstart := now |>.
End collector.

(** * Lemmas *)

(** ** The ring as a bounded queue *)

(** The history, oldest first, including buckets [orderedBucketsLocked] hides. *)
Definition history (c : Collector) : list Bucket :=
  drop (head c) (buckets c) ++ take (head c) (buckets c).

Record ring_ok (c : Collector) : Prop := {
  ro_cap : (0 < bcap c)%nat;
  ro_len : (length (buckets c) ≤ bcap c)%nat;
  ro_head : (length (buckets c) < bcap c)%nat → head c = 0%nat;
  ro_lt : (head c < bcap c)%nat;
}.

Lemma omap_lookup_seq {A} (l : list A) a k :
  omap (λ i, l !! i) (seq a k) = take k (drop a l).
Proof.
  revert a. induction k as [|k IH]; intros a; [by rewrite take_0|]. csimpl. rewrite IH.
  destruct (l !! a) as [x|] eqn:E.
  - by rewrite (drop_S _ _ _ E).
  - apply lookup_ge_None in E. rewrite !drop_ge by lia. by rewrite !take_nil.
Qed.

Lemma omap_ext_seq {A} (f g : nat → option A) a k :
  (∀ i, (a ≤ i < a + k)%nat → f i = g i) → omap f (seq a k) = omap g (seq a k).
Proof.
  revert a. induction k as [|k IH]; intros a Hfg; [done|]. csimpl.
  rewrite Hfg, IH by (intros; try apply Hfg; lia). done.
Qed.

Lemma omap_seq_shift {A} (f : nat → option A) a b k :
  omap f (seq (a + b) k) = omap (λ i, f (a + i)%nat) (seq b k).
Proof.
  revert b. induction k as [|k IH]; intros b; [done|]. csimpl.
  rewrite <- IH. replace (a + S b)%nat with (S (a + b)) by lia. done.
Qed.

(** Walking the ring from [h] reads the rotated list. *)
Lemma omap_rotate {A} (l : list A) h :
  (h < length l)%nat →
  omap (λ i, l !! ((h + i) `mod` length l)%nat) (seq 0 (length l)) = drop h l ++ take h l.
Proof.
  intros Hh. set (n := length l). assert (n = length l) as En by done.
  assert (seq 0 n = seq 0 (n - h) ++ seq (0 + (n - h)) h) as ->.
  { rewrite <- seq_app. f_equal. lia. }
  rewrite omap_app. f_equal.
  - rewrite (omap_ext_seq _ (λ i, l !! (h + i)%nat)).
    + rewrite <- (omap_seq_shift (λ i, l !! i) h 0), Nat.add_0_r, omap_lookup_seq.
      apply take_ge. rewrite length_drop. lia.
    + intros i Hi. rewrite Nat.mod_small by lia. done.
  - rewrite (omap_ext_seq _ (λ i, l !! (i - (n - h))%nat)).
    + replace (0 + (n - h))%nat with ((n - h) + 0)%nat by lia. rewrite omap_seq_shift.
      rewrite (omap_ext_seq _ (λ i, l !! i)).
      * by rewrite omap_lookup_seq.
      * intros i Hi. f_equal. lia.
    + intros i Hi. f_equal. replace (h + i)%nat with ((i - (n - h)) + 1 * n)%nat by lia.
      rewrite Nat.Div0.mod_add, Nat.mod_small; lia.
Qed.

Lemma omap_filter_T (f : nat → option Bucket) (l : list nat) :
  omap (λ i, match f i with Some b => if 0 <? bT b then Some b else None | None => None end) l =
  filter (λ b, 0 < bT b) (omap f l).
Proof.
  induction l as [|i l IH]; [done|]. csimpl. rewrite IH. destruct (f i) as [b|]; [|done].
  rewrite filter_cons. destruct (Z.ltb_spec 0 (bT b)), (decide (0 < bT b)); by try lia.
Qed.

Lemma orderedBuckets_history c :
  ring_ok c → orderedBucketsLocked c = filter (λ b, 0 < bT b) (history c).
Proof.
  intros [Hc Hl Hh Ht]. unfold orderedBucketsLocked, history. rewrite omap_filter_T. f_equal.
  destruct (decide (length (buckets c) < bcap c)%nat) as [Hlt|].
  - rewrite (Hh Hlt).
    destruct (decide (length (buckets c) = 0%nat)) as [E|].
    + by rewrite E, (nil_length_inv _ E).
    + apply omap_rotate. lia.
  - apply omap_rotate. lia.
Qed.

Lemma push_ring_ok b c : ring_ok c → ring_ok (pushBucketLocked b c).
Proof.
  intros [Hc Hl Hh Ht]. unfold pushBucketLocked.
  destruct (Nat.ltb_spec (length (buckets c)) (bcap c)) as [Hlt|Hge].
  - split; cbn; rewrite ?length_app; cbn; auto with lia.
  - split; cbn; rewrite ?length_insert; auto with lia.
    assert ((head c + 1) `mod` length (buckets c) < length (buckets c))%nat
      by (apply Nat.mod_upper_bound; lia). lia.
Qed.

(** Pushing appends; when the ring is full the oldest bucket falls out. *)
Lemma push_history b c :
  ring_ok c →
  history (pushBucketLocked b c) =
  (if decide (length (buckets c) < bcap c)%nat then history c else tail (history c)) ++ [b].
Proof.
  intros [Hc Hl Hh Ht]. unfold pushBucketLocked, history.
  destruct (Nat.ltb_spec (length (buckets c)) (bcap c)) as [Hlt|Hge].
  - rewrite decide_True by done. cbn. rewrite (Hh Hlt). rewrite !drop_0, !take_0.
    by rewrite !app_nil_r.
  - rewrite decide_False by lia. cbn. assert (length (buckets c) = bcap c) as En by lia.
    destruct (lookup_lt_is_Some_2 (buckets c) (head c)) as [x Hx]; [lia|].
    rewrite (drop_S _ _ _ Hx). cbn.
    assert (take (S (head c)) (<[head c := b]> (buckets c)) = take (head c) (buckets c) ++ [b]) as Et.
    { rewrite (take_S_r _ _ b) by (apply list_lookup_insert_eq; lia).
      by rewrite take_insert_ge by lia. }
    destruct (decide (S (head c) = bcap c)) as [Es|Es].
    + replace ((head c + 1) `mod` length (buckets c))%nat with 0%nat.
      2:{ rewrite En, <- Es. replace (head c + 1)%nat with (S (head c)) by lia.
          by rewrite Nat.Div0.mod_same. }
      rewrite drop_0, take_0, app_nil_r, drop_ge by lia. cbn. rewrite <- Et.
      rewrite take_ge; [done|]. rewrite length_insert. lia.
    + rewrite Nat.mod_small by lia. replace (head c + 1)%nat with (S (head c)) by lia.
      rewrite Et, drop_insert_lt by lia. by rewrite app_assoc.
Qed.

(** ** Rotation *)

Lemma interval_secs_pos i : 0 < interval_secs i.
Proof. unfold interval_secs. destruct (Z.leb_spec (i `quot` second) 0); lia. Qed.

Lemma rotate_loop_ind (P : Collector → Prop) interval want :
  (∀ c, P c → bT (cur c) < want → P (roll interval c)) →
  ∀ fuel c c', P c → rotate_loop fuel interval want c = Some c' → P c' ∧ want ≤ bT (cur c').
Proof.
  intros Hroll. induction fuel as [|fuel IH]; intros c c' Hc; simpl;
    destruct (Z.ltb_spec (bT (cur c)) want); try done; try (intros [= <-]; done).
  apply IH. by apply Hroll.
Qed.

(** The loop terminates: every round moves the bucket start forward. *)
Lemma rotate_loop_total fuel interval want c :
  0 < interval → (Z.to_nat (want - bT (cur c)) ≤ fuel)%nat →
  is_Some (rotate_loop fuel interval want c).
Proof.
  intros Hi. revert c. induction fuel as [|fuel IH]; intros c Hf; simpl;
    destruct (Z.ltb_spec (bT (cur c)) want); try lia; [done| |done].
  apply IH. unfold roll. cbn. lia.
Qed.

Lemma rotateLocked_ind (P : Collector → Prop) now c :
  P c →
  (bT (cur c) = 0 →
   P (c <| cur ::= λ b, b <| bT := alignUnix (unix now) (BucketInterval (cfg c)) |> |>)) →
  (∀ c', P c' → bT (cur c') < alignUnix (unix now) (BucketInterval (cfg c)) →
         P (roll (interval_secs (BucketInterval (cfg c))) c')) →
  P (rotateLocked now c).
Proof.
  intros Hc H0 Hroll. unfold rotateLocked. destruct (Z.eqb_spec (bT (cur c)) 0); [auto|].
  destruct (rotate_loop_total (rotate_fuel (alignUnix (unix now) (BucketInterval (cfg c))) (bT (cur c)))
    (interval_secs (BucketInterval (cfg c))) (alignUnix (unix now) (BucketInterval (cfg c))) c)
    as [c' E]; [apply interval_secs_pos|done|].
  rewrite E. cbn. eapply (rotate_loop_ind P); eauto.
Qed.

(** Rotation touches only the ring and the current bucket. *)
Lemma rotate_frame {A} (f : Collector → A) now c :
  (∀ c bs h b, f (c <| buckets := bs |> <| head := h |> <| cur := b |>) = f c) →
  f (rotateLocked now c) = f c.
Proof.
  intros Hf. pose proof (λ c b, Hf c (buckets c) (head c) b) as Hf'.
  apply (rotateLocked_ind (λ c', f c' = f c)); [done|intros; apply Hf'|].
  intros c' <- _. unfold roll, pushBucketLocked.
  destruct (Nat.ltb _ _); cbn; apply (Hf c').
Qed.

Lemma rotate_totals now c : totals (rotateLocked now c) = totals c.
Proof. by apply rotate_frame. Qed.
Lemma rotate_direct now c : direct (rotateLocked now c) = direct c.
Proof. by apply rotate_frame. Qed.
Lemma rotate_proxy now c : proxy (rotateLocked now c) = proxy c.
Proof. by apply rotate_frame. Qed.
Lemma rotate_dns now c : dns (rotateLocked now c) = dns c.
Proof. by apply rotate_frame. Qed.
Lemma rotate_domains now c : domains (rotateLocked now c) = domains c.
Proof. by apply rotate_frame. Qed.
Lemma rotate_dnsNames now c : dnsNames (rotateLocked now c) = dnsNames c.
Proof. by apply rotate_frame. Qed.
Lemma rotate_nodes now c : nodes (rotateLocked now c) = nodes c.
Proof. by apply rotate_frame. Qed.
Lemma rotate_sessions now c : sessions (rotateLocked now c) = sessions c.
Proof. by apply rotate_frame. Qed.
Lemma rotate_active now c : active (rotateLocked now c) = active c.
Proof. by apply rotate_frame. Qed.
Lemma rotate_cfg now c : cfg (rotateLocked now c) = cfg c.
Proof. by apply rotate_frame. Qed.
Lemma rotate_errs now c : errs (rotateLocked now c) = errs c.
Proof. by apply rotate_frame. Qed.
Lemma rotate_nextID now c : nextID (rotateLocked now c) = nextID c.
Proof. by apply rotate_frame. Qed.
Lemma rotate_bcap now c : bcap (rotateLocked now c) = bcap c.
Proof. by apply rotate_frame. Qed.
Lemma rotate_rateSec now c : rateSec (rotateLocked now c) = rateSec c.
Proof. by apply rotate_frame. Qed.
Lemma rotate_rateUp now c : rateUp (rotateLocked now c) = rateUp c.
Proof. by apply rotate_frame. Qed.
Lemma rotate_rateDown now c : rateDown (rotateLocked now c) = rateDown c.
Proof. by apply rotate_frame. Qed.

Create Rewrite HintDb stats.
#[export] Hint Rewrite rotate_totals rotate_direct rotate_proxy rotate_dns rotate_domains
  rotate_dnsNames rotate_nodes rotate_sessions rotate_active rotate_cfg rotate_errs
  rotate_nextID rotate_bcap rotate_rateSec rotate_rateUp rotate_rateDown : stats.

(** [addRateLocked] touches only the rate slots. *)
Lemma addRate_frame {A} (f : Collector → A) s up down c :
  (∀ c rs ru rd pu pd, f (c <| rateSec := rs |> <| rateUp := ru |> <| rateDown := rd |>
                            <| peakUp := pu |> <| peakDown := pd |>) = f c) →
  f (addRateLocked s up down c) = f c.
Proof.
  intros Hf. cbn in Hf. unfold addRateLocked. cbv zeta.
  repeat case_match; cbn; apply (Hf c).
Qed.

(** Rotation does not look at the counters. *)
Lemma rotate_upd_totals f now c :
  rotateLocked now (c <| totals ::= f |>) = (rotateLocked now c) <| totals ::= f |>.
Proof.
  unfold rotateLocked.
  change (cur (c <| totals ::= f |>)) with (cur c). change (cfg (c <| totals ::= f |>)) with (cfg c).
  cbv zeta. destruct (bT (cur c) =? 0); [done|].
  generalize (rotate_fuel (alignUnix (unix now) (BucketInterval (cfg c))) (bT (cur c))).
  generalize (interval_secs (BucketInterval (cfg c))), (alignUnix (unix now) (BucketInterval (cfg c))).
  intros iv want fuel.
  assert (∀ c, rotate_loop fuel iv want (c <| totals ::= f |>) =
               (λ c, c <| totals ::= f |>) <$> rotate_loop fuel iv want c) as E.
  { induction fuel as [|fuel IH]; intros c0; cbn [rotate_loop];
      change (cur (c0 <| totals ::= f |>)) with (cur c0); destruct (bT (cur c0) <? want); try done.
    replace (roll iv (c0 <| totals ::= f |>)) with ((roll iv c0) <| totals ::= f |>); [apply IH|].
    unfold roll, pushBucketLocked. cbn -[Nat.ltb].
    by destruct (Nat.ltb (length (buckets c0)) (bcap c0)). }
  rewrite E. by destruct (rotate_loop fuel iv want c).
Qed.

(** ** Accounting invariant of the history *)

Definition sumb (f : Bucket → Z) (l : list Bucket) : Z := foldr (λ b s, f b + s) 0 l.

Lemma sumb_app f l1 l2 : sumb f (l1 ++ l2) = sumb f l1 + sumb f l2.
Proof. induction l1 as [|b l IH]; [done|]. unfold sumb in *. simpl. lia. Qed.

(** The history and the bucket being filled. *)
Definition timeline (c : Collector) : list Bucket := history c ++ [cur c].

(** What the retained history says about counter [g] through field [f]: never
    more than the counter, and exactly it until the ring has wrapped. *)
Record books (f : Bucket → Z) (g : Collector → Z) (c : Collector) : Prop := {
  bk_nonneg : Forall (λ b, 0 ≤ f b) (timeline c);
  bk_le : sumb f (timeline c) ≤ g c;
  bk_eq : (length (buckets c) < bcap c)%nat → sumb f (timeline c) = g c;
}.

Lemma books_roll f g interval c :
  ring_ok c → (∀ t, f (emptyBucket t) = 0) → g (roll interval c) = g c →
  books f g c → books f g (roll interval c).
Proof.
  intros Hr Hf Hg [Hn Hle Heq]. unfold roll in *.
  set (c' := pushBucketLocked (cur c) c) in *.
  assert (timeline (c' <| cur := emptyBucket (bT (cur c) + interval) |>) =
          ((if decide (length (buckets c) < bcap c)%nat then history c else tail (history c))
             ++ [cur c]) ++ [emptyBucket (bT (cur c) + interval)]) as Et.
  { unfold timeline. rewrite <- push_history by done. done. }
  unfold timeline in Hn, Hle, Heq. rewrite Forall_app in Hn. destruct Hn as [Hn1 Hn2].
  split; rewrite ?Et, ?Hg.
  - rewrite !Forall_app. split_and!; [|done|].
    + case_decide; [done|]. destruct (history c); [done|]. by inversion Hn1.
    + by rewrite Forall_singleton, Hf.
  - rewrite !sumb_app in *. cbn in *. rewrite Hf. case_decide as Hd; [lia|].
    destruct (history c) as [|b l]; cbn in *; [lia|]. inversion_clear Hn1. lia.
  - intros Hlt. assert (length (buckets c) < bcap c)%nat as Hlt0.
    { revert Hlt. unfold c', pushBucketLocked. destruct (Nat.ltb_spec (length (buckets c)) (bcap c)); [done|].
      cbn. rewrite length_insert. lia. }
    rewrite decide_True by done. rewrite !sumb_app in *. cbn in *. rewrite Hf.
    specialize (Heq Hlt0). lia.
Qed.

Lemma roll_ring_ok interval c : ring_ok c → ring_ok (roll interval c).
Proof. intros Hr. destruct (push_ring_ok (cur c) c Hr). by split. Qed.

Lemma ring_ok_rotate now c : ring_ok c → ring_ok (rotateLocked now c).
Proof.
  intros Hr. apply rotateLocked_ind; [done|intros; destruct Hr; by split|].
  intros. by apply roll_ring_ok.
Qed.

(** Ring fields unchanged, current bucket and counter moved together. *)
Lemma books_bump f g n c c' :
  0 ≤ n → buckets c' = buckets c → head c' = head c → bcap c' = bcap c →
  f (cur c') = f (cur c) + n → g c' = g c + n → books f g c → books f g c'.
Proof.
  intros Hn Hb Hh Hc Hf Hg [H1 H2 H3].
  assert (history c' = history c) as Eh by (unfold history; by rewrite Hb, Hh).
  unfold timeline in *. rewrite Forall_app, Forall_singleton in H1. destruct H1 as [H0 H1].
  rewrite sumb_app in H2, H3. cbn in H2, H3.
  split; unfold timeline; rewrite Eh.
  - rewrite Forall_app, Forall_singleton. split; [done|lia].
  - rewrite sumb_app. cbn. lia.
  - rewrite sumb_app, Hb, Hc. cbn. intros Hlt. specialize (H3 Hlt). lia.
Qed.

Lemma books_rotate f g now c :
  ring_ok c → (∀ t, f (emptyBucket t) = 0) → (∀ b t, f (b <| bT := t |>) = f b) →
  (∀ c bs h b, g (c <| buckets := bs |> <| head := h |> <| cur := b |>) = g c) →
  books f g c → books f g (rotateLocked now c).
Proof.
  intros Hr H0 HT Hg Hb.
  apply (rotateLocked_ind (λ c, ring_ok c ∧ books f g c)); [done| |].
  - intros _. split; [destruct Hr; by split|].
    apply (books_bump f g 0 c); [done..| | |exact Hb]; cbn.
    + pose proof (HT (cur c)) as E. cbn in E. rewrite E. lia.
    + pose proof (Hg c (buckets c) (head c)) as E. cbn in E. rewrite E. lia.
  - intros c' [Hr' Hb'] _. split; [by apply roll_ring_ok|]. apply books_roll; [done..| |done].
    unfold roll, pushBucketLocked. destruct (Nat.ltb _ _); cbn; apply (Hg c').
Qed.

(** The counters the history accounts for, field by field. *)
Definition ledger : list ((Bucket → Z) * (Collector → Z)) := [
  (bUpload, λ c, cUpload (totals c)); (bDownload, λ c, cDownload (totals c));
  (bConns, λ c, cConns (totals c)); (bErrors, λ c, cErrors (totals c));
  (bDirectUpload, λ c, cUpload (direct c)); (bDirectDownload, λ c, cDownload (direct c));
  (bProxyUpload, λ c, cUpload (proxy c)); (bProxyDownload, λ c, cDownload (proxy c));
  (bDirectConns, λ c, cConns (direct c)); (bProxyConns, λ c, cConns (proxy c));
  (bDNSQueries, λ c, Queries (dns c))].

Definition balanced (c : Collector) : Prop :=
  ring_ok c ∧ Forall (λ p, books p.1 p.2 c) ledger.

(** Same ring; every field of the current bucket moves with its counter. *)
Lemma balanced_move c c' :
  buckets c' = buckets c → head c' = head c → bcap c' = bcap c →
  Forall (λ p, p.1 (cur c') - p.1 (cur c) = p.2 c' - p.2 c ∧ 0 ≤ p.2 c' - p.2 c) ledger →
  balanced c → balanced c'.
Proof.
  intros Hb Hh Hc Hd [[R1 R2 R3 R4] Hl]. split.
  { split; rewrite ?Hb, ?Hh, ?Hc; auto. }
  eapply Forall_impl; [apply Forall_and; split; [exact Hd|exact Hl]|].
  intros [f g] [[H1 H2] Hbk]. cbn in *.
  apply (books_bump f g (g c' - g c) c); auto; lia.
Qed.

Lemma balanced_rotate now c : balanced c → balanced (rotateLocked now c).
Proof.
  intros [Hr Hl]. split; [by apply ring_ok_rotate|].
  unfold ledger in *. repeat (apply Forall_cons in Hl as [? Hl]; apply Forall_cons; split;
    [by apply books_rotate|]). apply Forall_nil_2.
Qed.

(** What [balanced] looks at. *)
Definition core (c : Collector) :=
  (buckets c, head c, bcap c, cur c, totals c, direct c, proxy c, dns c).

Lemma balanced_core c c' : core c' = core c → balanced c → balanced c'.
Proof.
  unfold core. intros E. injection E as Hb Hh Hc Hcur Ht Hd Hp Hn.
  apply balanced_move; try done. unfold ledger.
  repeat (apply Forall_cons; split; [cbn; rewrite ?Hcur, ?Ht, ?Hd, ?Hp, ?Hn; lia|]). apply Forall_nil_2.
Qed.

Ltac ledger_solve :=
  apply balanced_move; [done..|]; unfold ledger;
  repeat (apply Forall_cons; split; [cbn; lia|]); apply Forall_nil_2.

(** [balanced] of a state that differs from one in the context outside [core]. *)
Ltac balanced_same :=
  match goal with H : balanced ?c |- balanced ?c' => exact (balanced_core c c' eq_refl H) end.

Section ops.
Context `{GoSort, TimeFormat}.

Lemma addRate_core s up down c : core (addRateLocked s up down c) = core c.
Proof. by apply addRate_frame. Qed.

Lemma addDomain_core now h d up down n e c : core (addDomainLocked now h d up down n e c) = core c.
Proof. done. Qed.

Lemma upd_session_core i f c : core (upd_session i f c) = core c.
Proof. done. Qed.

Lemma flush_core now i c : core (flush now i c) = core c.
Proof. unfold flush. by repeat case_match. Qed.

Lemma addTraffic_balanced now up down d c :
  0 ≤ up → 0 ≤ down → balanced c → balanced (addTraffic now up down d c).
Proof.
  intros Hu Hd Hc. unfold addTraffic. case_match; [done|]. cbv zeta.
  eapply balanced_core; [apply addRate_core|].
  apply (balanced_rotate now) in Hc. revert Hc. destruct d; ledger_solve.
Qed.

Lemma recordError_balanced now scope h msg c :
  balanced c → balanced (recordErrorLocked now scope h msg c).
Proof.
  intros Hc. unfold recordErrorLocked. cbv zeta.
  rewrite rotate_upd_totals. apply (balanced_rotate now) in Hc. revert Hc. ledger_solve.
Qed.

Lemma bumpConn_balanced d now c :
  balanced c →
  balanced (bumpConnLocked d now (c <| totals ::= λ t, t <| cConns ::= Z.add 1 |> |>)).
Proof.
  intros Hc. unfold bumpConnLocked. cbv zeta.
  rewrite rotate_upd_totals. apply (balanced_rotate now) in Hc. revert Hc.
  destruct d; ledger_solve.
Qed.

Lemma finish_balanced now s err c : balanced c → balanced (finish now s err c).
Proof.
  intros Hc. unfold finish. cbv zeta.
  assert (balanced (c <| active ::= λ a, a ∖ {[sid s]} |>)) as H1 by balanced_same.
  apply (bumpConn_balanced (decision s) now) in H1.
  set (c1 := bumpConnLocked _ _ _) in *. clearbody c1. clear c Hc.
  set (c2 := if String.eqb (host s) "" then c1 else _).
  assert (balanced c2) as H2 by (unfold c2; case_match; [done|balanced_same]).
  clearbody c2. set (c3 := if bool_decide _ && _ then _ else c2).
  assert (balanced c3) as H3 by (unfold c3; case_match; [balanced_same|done]).
  destruct err; [by apply recordError_balanced|done].
Qed.

Lemma record_dns_balanced now domain qtype upstream err c :
  balanced c → balanced (record_dns now domain qtype upstream err c).
Proof.
  intros Hc. unfold record_dns. cbv zeta.
  apply (balanced_rotate now) in Hc. set (c1 := rotateLocked now c) in *. clearbody c1. clear c.
  set (c2 := if String.eqb qtype "" then _ else _).
  assert (balanced c2) as H2 by (revert Hc; unfold c2; case_match; ledger_solve).
  clearbody c2. clear Hc.
  set (c3 := if String.eqb upstream "cache" then _ else _).
  assert (balanced c3) as H3 by (revert H2; unfold c3; repeat case_match; ledger_solve).
  clearbody c3. clear H2.
  set (c4 := match err with Some _ => _ | None => _ end).
  assert (balanced c4) as H4.
  { unfold c4. destruct err; [|done]. apply recordError_balanced. revert H3. ledger_solve. }
  clearbody c4. case_match; [done|]. balanced_same.
Qed.

Lemma AddUpload_balanced now i n c : balanced c → balanced (AddUpload now i n c).
Proof.
  intros Hc. unfold AddUpload. destruct (sessions c !! i) as [s|]; [|done].
  destruct (Z.leb_spec n 0); [done|]. cbv zeta.
  match goal with |- balanced (if _ then flush now i ?x else _) => assert (balanced x) as Hx end.
  { eapply balanced_core; [apply upd_session_core|].
    apply addTraffic_balanced; [lia..|]. balanced_same. }
  case_match; [|done]. by eapply balanced_core; [apply flush_core|].
Qed.

Lemma AddDownload_balanced now i n c : balanced c → balanced (AddDownload now i n c).
Proof.
  intros Hc. unfold AddDownload. destruct (sessions c !! i) as [s|]; [|done].
  destruct (Z.leb_spec n 0); [done|]. cbv zeta.
  match goal with |- balanced (if _ then flush now i ?x else _) => assert (balanced x) as Hx end.
  { eapply balanced_core; [apply upd_session_core|].
    apply addTraffic_balanced; [lia..|]. balanced_same. }
  case_match; [|done]. by eapply balanced_core; [apply flush_core|].
Qed.

Lemma AddDatagram_balanced now i h d up down c :
  0 ≤ up → 0 ≤ down → balanced c → balanced (AddDatagram now i h d up down c).
Proof.
  intros Hu Hd Hc. unfold AddDatagram. destruct (sessions c !! i) as [s|]; [|done]. cbv zeta.
  eapply balanced_core; [apply flush_core|].
  set (c1 := if 0 <? up then _ else c).
  assert (balanced c1) as H1 by (unfold c1; case_match; [balanced_same|done]).
  set (c2 := if 0 <? down then _ else c1).
  assert (balanced c2) as H2 by (unfold c2; case_match; [balanced_same|done]).
  clearbody c2. set (c3 := if (0 <? up) || _ then _ else c2).
  assert (balanced c3) as H3 by (unfold c3; case_match; [by apply addTraffic_balanced|done]).
  clearbody c3. case_match; [done|balanced_same].
Qed.

Lemma End_balanced now i err c : balanced c → balanced (End_ now i err c).
Proof.
  intros Hc. unfold End_. destruct (sessions c !! i) as [s|]; [|done].
  case_match; [done|]. apply finish_balanced. balanced_same.
Qed.

Lemma books_fresh f g c t :
  buckets c = [] → head c = 0%nat → cur c = emptyBucket t → f (emptyBucket t) = 0 → g c = 0 →
  books f g c.
Proof.
  intros Hb Hh Hc Hf Hg. split; unfold timeline, history; rewrite Hb, Hh, Hc; cbn; try lia.
  apply Forall_singleton. lia.
Qed.

Lemma New_balanced now config : balanced (New now config).
Proof.
  assert (0 < HistoryMinutes (resolve_config config)).
  { unfold resolve_config, DefaultHistoryMinutes. repeat case_match; cbn;
      rewrite ?Z.leb_gt in *; cbn in *; lia. }
  split; [split; cbn; lia|]. unfold ledger.
  repeat (apply Forall_cons; split; [by eapply books_fresh|]). apply Forall_nil_2.
Qed.

Lemma Reset_balanced now c : balanced c → balanced (Reset now c).
Proof.
  intros [[R1 R2 R3 R4] _]. split; [split; cbn; auto with lia|]. unfold ledger.
  repeat (apply Forall_cons; split; [by eapply books_fresh|]). apply Forall_nil_2.
Qed.
End ops.

(** ** Sessions *)

Definition sums (f : Session → Z) (m : gmap Z Session) : Z := map_fold (λ _ s a, f s + a) 0 m.

Lemma sums_insert f i s m : m !! i = None → sums f (<[i := s]> m) = f s + sums f m.
Proof. intros. unfold sums. rewrite map_fold_insert_L; [done|intros; lia|done]. Qed.

Lemma sums_alter f g i m s :
  m !! i = Some s → sums f (alter g i m) = sums f m - f s + f (g s).
Proof.
  intros Hs. assert (m = <[i := s]> (delete i m)) as -> by (by rewrite insert_delete_id).
  rewrite alter_insert_eq, !sums_insert by apply lookup_delete_eq. lia.
Qed.

(** [c'] differs from [c] in the session [i], which moved by [du] and [dd]
    bytes, and outside the session store. *)
Definition touched (du dd : Z) (i : Z) (c c' : Collector) : Prop :=
  active c' = active c ∧ nextID c' = nextID c ∧
  ∃ g, sessions c' = alter g i (sessions c) ∧
       ∀ s, sid (g s) = sid s ∧ done (g s) = done s ∧ decision (g s) = decision s ∧
            upload (g s) = upload s + du ∧ download (g s) = download s + dd.

Lemma touched_same i c c' :
  sessions c' = sessions c → active c' = active c → nextID c' = nextID c → touched 0 0 i c c'.
Proof.
  intros Es Ea En. split_and!; [done..|]. exists id. split; [by rewrite Es, alter_id|].
  intros s. cbn. split_and!; auto with lia.
Qed.

Lemma touched_upd du dd i f c :
  (∀ s, sid (f s) = sid s ∧ done (f s) = done s ∧ decision (f s) = decision s ∧
        upload (f s) = upload s + du ∧ download (f s) = download s + dd) →
  touched du dd i c (upd_session i f c).
Proof. intros Hf. split_and!; [done..|]. by exists f. Qed.

Lemma alter_compose' (f g : Session → Session) i (m : gmap Z Session) :
  alter (g ∘ f) i m = alter g i (alter f i m).
Proof.
  apply map_eq. intros j. destruct (decide (i = j)) as [->|].
  - rewrite !lookup_alter_eq. by destruct (m !! j).
  - by rewrite !lookup_alter_ne.
Qed.

Lemma touched_trans du1 dd1 du2 dd2 i c1 c2 c3 :
  touched du1 dd1 i c1 c2 → touched du2 dd2 i c2 c3 → touched (du1 + du2) (dd1 + dd2) i c1 c3.
Proof.
  intros (Ha & Hn & f & Hf & Ef) (Ha' & Hn' & g & Hg & Eg).
  split_and!; [congruence..|]. exists (g ∘ f). rewrite Hg, Hf, <- alter_compose'. split; [done|].
  intros s. cbn. destruct (Ef s) as (? & ? & ? & ? & ?), (Eg (f s)) as (? & ? & ? & ? & ?).
  split_and!; [congruence..|lia|lia].
Qed.

(** Byte and connection totals. *)
Definition bytes (c : Collector) : Z * Z * Z :=
  (cUpload (totals c), cDownload (totals c), cConns (totals c)).

Section sess.
Context `{GoSort, TimeFormat}.

Lemma addRate_sessions s up down c : sessions (addRateLocked s up down c) = sessions c.
Proof. by apply addRate_frame. Qed.
Lemma addRate_active s up down c : active (addRateLocked s up down c) = active c.
Proof. by apply addRate_frame. Qed.
Lemma addRate_nextID s up down c : nextID (addRateLocked s up down c) = nextID c.
Proof. by apply addRate_frame. Qed.
Lemma addRate_totals s up down c : totals (addRateLocked s up down c) = totals c.
Proof. by apply addRate_frame. Qed.
Hint Rewrite addRate_sessions addRate_active addRate_nextID addRate_totals : stats.

Lemma addTraffic_touched now up down d i c : touched 0 0 i c (addTraffic now up down d c).
Proof.
  unfold addTraffic. destruct ((up =? 0) && (down =? 0)); [by apply touched_same|].
  apply touched_same; autorewrite with stats; destruct d; cbn; by autorewrite with stats.
Qed.

Lemma addTraffic_bytes now up down d c :
  bytes (addTraffic now up down d c) =
  (cUpload (totals c) + up, cDownload (totals c) + down, cConns (totals c)).
Proof.
  unfold addTraffic, bytes. destruct ((up =? 0) && (down =? 0)) eqn:E.
  - apply andb_true_iff in E as [->%Z.eqb_eq ->%Z.eqb_eq]. by rewrite !Z.add_0_r.
  - autorewrite with stats. destruct d; cbn; autorewrite with stats;
      repeat first [apply (f_equal2 pair)|lia].
Qed.

Lemma flush_touched now i c : touched 0 0 i c (flush now i c).
Proof.
  unfold flush. destruct (sessions c !! i) as [s|]; [|by apply touched_same]. cbv zeta.
  assert (touched 0 0 i c (upd_session i (λ s, s <| pendingUp := 0 |> <| pendingDown := 0 |>) c)) as Ht.
  { apply touched_upd. intros. cbn. split_and!; auto with lia. }
  case_match; [done|]. case_match; [done|].
  apply (touched_trans 0 0 0 0 i _ _ _ Ht). by apply touched_same.
Qed.

Lemma flush_bytes now i c : bytes (flush now i c) = bytes c.
Proof. unfold flush. by repeat case_match. Qed.

Lemma AddUpload_spec now i n c s :
  sessions c !! i = Some s → 0 < n →
  touched n 0 i c (AddUpload now i n c) ∧
  bytes (AddUpload now i n c) = (cUpload (totals c) + n, cDownload (totals c), cConns (totals c)).
Proof.
  intros Hs Hn. unfold AddUpload. rewrite Hs. destruct (Z.leb_spec n 0); [lia|]. cbv zeta.
  match goal with |- context [if _ then flush now i ?x else _] => set (c1 := x) end.
  assert (touched n 0 i c c1) as Ht.
  { rewrite <- (Z.add_0_r n). apply (touched_trans n 0 0 0 i _ (upd_session i (λ s, s <| upload ::= Z.add n |>) c)).
    - apply touched_upd. intros. cbn. split_and!; auto with lia.
    - apply (touched_trans 0 0 0 0 i _ _ _ (addTraffic_touched now n 0 (decision s) i _)).
      apply touched_upd. intros. cbn. split_and!; auto with lia. }
  assert (bytes c1 = (cUpload (totals c) + n, cDownload (totals c), cConns (totals c))) as Hb.
  { unfold c1. change (bytes (upd_session ?i ?f ?x)) with (bytes x). rewrite addTraffic_bytes. cbn.
    by rewrite Z.add_0_r. }
  clearbody c1. case_match; [|done]. rewrite flush_bytes. split; [|done].
  rewrite <- (Z.add_0_r n). apply (touched_trans n 0 0 0 i _ _ _ Ht). apply flush_touched.
Qed.

Lemma AddDownload_spec now i n c s :
  sessions c !! i = Some s → 0 < n →
  touched 0 n i c (AddDownload now i n c) ∧
  bytes (AddDownload now i n c) = (cUpload (totals c), cDownload (totals c) + n, cConns (totals c)).
Proof.
  intros Hs Hn. unfold AddDownload. rewrite Hs. destruct (Z.leb_spec n 0); [lia|]. cbv zeta.
  match goal with |- context [if _ then flush now i ?x else _] => set (c1 := x) end.
  assert (touched 0 n i c c1) as Ht.
  { rewrite <- (Z.add_0_r n). apply (touched_trans 0 n 0 0 i _ (upd_session i (λ s, s <| download ::= Z.add n |>) c)).
    - apply touched_upd. intros. cbn. split_and!; auto with lia.
    - apply (touched_trans 0 0 0 0 i _ _ _ (addTraffic_touched now 0 n (decision s) i _)).
      apply touched_upd. intros. cbn. split_and!; auto with lia. }
  assert (bytes c1 = (cUpload (totals c), cDownload (totals c) + n, cConns (totals c))) as Hb.
  { unfold c1. change (bytes (upd_session ?i ?f ?x)) with (bytes x). rewrite addTraffic_bytes. cbn.
    by rewrite Z.add_0_r. }
  clearbody c1. case_match; [|done]. rewrite flush_bytes. split; [|done].
  rewrite <- (Z.add_0_r n). apply (touched_trans 0 n 0 0 i _ _ _ Ht). apply flush_touched.
Qed.

Lemma AddDatagram_spec now i h d up down c s :
  sessions c !! i = Some s → 0 ≤ up → 0 ≤ down →
  touched up down i c (AddDatagram now i h d up down c) ∧
  bytes (AddDatagram now i h d up down c) =
    (cUpload (totals c) + up, cDownload (totals c) + down, cConns (totals c)).
Proof.
  intros Hs Hu Hd. unfold AddDatagram. rewrite Hs. cbv zeta. rewrite flush_bytes.
  set (c1 := if 0 <? up then _ else c).
  assert (touched up 0 i c c1 ∧ bytes c1 = bytes c) as [H1 B1].
  { unfold c1. destruct (Z.ltb_spec 0 up).
    - split; [|done]. apply touched_upd. intros. cbn. split_and!; auto with lia.
    - assert (up = 0) as -> by lia. split; [by apply touched_same|done]. }
  clearbody c1. set (c2 := if 0 <? down then _ else c1).
  assert (touched 0 down i c1 c2 ∧ bytes c2 = bytes c1) as [H2 B2].
  { unfold c2. destruct (Z.ltb_spec 0 down).
    - split; [|done]. apply touched_upd. intros. cbn. split_and!; auto with lia.
    - assert (down = 0) as -> by lia. split; [by apply touched_same|done]. }
  clearbody c2. set (c3 := if (0 <? up) || _ then _ else c2).
  assert (touched 0 0 i c2 c3 ∧ bytes c3 = (cUpload (totals c2) + up, cDownload (totals c2) + down, cConns (totals c2))) as [H3 B3].
  { unfold c3. destruct (Z.ltb_spec 0 up), (Z.ltb_spec 0 down); cbn -[addTraffic];
      try (split; [apply addTraffic_touched|apply addTraffic_bytes]).
    assert (up = 0) as -> by lia. assert (down = 0) as -> by lia. rewrite !Z.add_0_r.
    split; [by apply touched_same|done]. }
  clearbody c3. set (c4 := if String.eqb h "" then c3 else _).
  assert (touched 0 0 i c3 c4 ∧ bytes c4 = bytes c3) as [H4 B4].
  { unfold c4. case_match; (split; [by apply touched_same|done]). }
  clearbody c4. split.
  - replace up with (up + (0 + (0 + (0 + 0)))) by lia.
    replace down with (0 + (down + (0 + (0 + 0)))) by lia.
    repeat (eapply touched_trans; [eassumption|]). apply flush_touched.
  - rewrite B4, B3. unfold bytes in B1, B2. congruence.
Qed.
End sess.
End Stats.
