(* ===== verification/StatsProps.v ===== *)
(** * core/stats: what the collector guarantees over any sequence of calls

    [event] names the calls the proxy, the DNS server and the API make on the
    collector, [apply] is the call itself, and [run] a sequence of them, each
    with the time it happens at.  Times need not be monotone. *)

From S2P Require Import Prelude GoStrings Stats.
Import Stats.

Module StatsProps.

Inductive event :=
  | EvBegin (p : Proto) (cl h : string) (prt : Z) (d : Decision) (nd : string)
  | EvUpload (i n : Z)
  | EvDownload (i n : Z)
  | EvDatagram (i : Z) (h : string) (d : Decision) (up down : Z)
  | EvSetNode (i : Z) (name : string)
  | EvEnd (i : Z) (err : option string)
  | EvError (scope h msg : string)
  | EvDNS (domain qtype upstream : string) (err : option string)
  | EvReset.

(** Datagram sizes are lengths. *)
Definition sizes_ok (e : time * event) : Prop :=
  match e.2 with EvDatagram _ _ _ up down => 0 ≤ up ∧ 0 ≤ down | _ => True end.

(** Every session and every datagram has been routed. *)
Definition routed (e : time * event) : Prop :=
  match e.2 with
  | EvBegin _ _ _ _ d _ | EvDatagram _ _ d _ _ => d ≠ DecisionNone
  | _ => True
  end.

Definition no_reset (e : time * event) : Prop := e.2 ≠ EvReset.

Section trace.
Context `{GoSort, TimeFormat}.

Definition apply (c : Collector) (e : time * event) : Collector :=
  let now := e.1 in
  match e.2 with
  | EvBegin p cl h prt d nd => (Begin now p cl h prt d nd c).1
  | EvUpload i n => AddUpload now i n c
  | EvDownload i n => AddDownload now i n c
  | EvDatagram i h d up down => AddDatagram now i h d up down c
  | EvSetNode i name => SetNode i name c
  | EvEnd i err => End_ now i err c
  | EvError scope h msg => recordErrorLocked now scope h msg c
  | EvDNS domain qtype upstream err => record_dns now domain qtype upstream err c
  | EvReset => Reset now c
  end.

Definition run (log : list (time * event)) (c : Collector) : Collector := foldl apply c log.

(** Invariants of [run]: hold at the start, preserved by each admissible call. *)
Lemma run_inv (P : Collector → Prop) (ok : time * event → Prop) log c :
  (∀ c e, ok e → P c → P (apply c e)) → Forall ok log → P c → P (run log c).
Proof.
  intros Hstep. revert c. induction log as [|e log IH]; intros c Hok Hc; [done|].
  apply Forall_cons in Hok as [He Hok]. apply IH; auto.
Qed.

Lemma apply_balanced c e : sizes_ok e → balanced c → balanced (apply c e).
Proof.
  destruct e as [now e]. intros Hok Hc. destruct e; cbn -[Begin SetNode Reset record_dns recordErrorLocked] in *.
  - by apply (balanced_core c).
  - by apply AddUpload_balanced.
  - by apply AddDownload_balanced.
  - destruct Hok. by apply AddDatagram_balanced.
  - unfold SetNode. case_match; [done|]. by apply (balanced_core c).
  - by apply End_balanced.
  - by apply recordError_balanced.
  - by apply record_dns_balanced.
  - by apply Reset_balanced.
Qed.

(** ** The session registry *)

Record registry (c : Collector) : Prop := {
  rg_id : ∀ i s, sessions c !! i = Some s → sid s = i ∧ 0 < i ≤ nextID c;
  rg_active : ∀ i, i ∈ active c ↔ ∃ s, sessions c !! i = Some s ∧ done s = false;
  rg_next : 0 ≤ nextID c;
}.

Lemma registry_touched du dd i c c' : touched du dd i c c' → registry c → registry c'.
Proof.
  intros (Ha & Hn & g & Hg & Eg) [R1 R2 R3]. split.
  - intros j s. rewrite Hg, Hn. destruct (decide (i = j)) as [<-|].
    + rewrite lookup_alter_eq. intros (s0 & Hs & ->)%fmap_Some.
      destruct (Eg s0) as (-> & _). eauto.
    + rewrite lookup_alter_ne by done. eauto.
  - intros j. rewrite Ha, R2, Hg. destruct (decide (i = j)) as [<-|].
    + rewrite lookup_alter_eq. split.
      * intros (s & -> & Hd). exists (g s). split; [done|]. destruct (Eg s) as (_ & -> & _). done.
      * intros (s & (s0 & -> & ->)%fmap_Some & Hd). exists s0. split; [done|].
        destruct (Eg s0) as (_ & <- & _). done.
    + by rewrite lookup_alter_ne.
  - by rewrite Hn.
Qed.

(** The fields the registry and the byte totals are about. *)
Definition ids (c : Collector) := (sessions c, active c, nextID c, bytes c).

Lemma ids_touched i c c' : ids c' = ids c → touched 0 0 i c c'.
Proof. unfold ids. intros E. apply touched_same; congruence. Qed.

Lemma recordError_ids now scope h msg c : ids (recordErrorLocked now scope h msg c) = ids c.
Proof. unfold recordErrorLocked, ids, bytes. cbv zeta. cbn. by autorewrite with stats. Qed.

Lemma record_dns_ids now domain qtype upstream err c :
  ids (record_dns now domain qtype upstream err c) = ids c.
Proof.
  unfold record_dns. cbv zeta.
  set (c1 := rotateLocked now c). assert (ids c1 = ids c) as <-.
  { unfold c1, ids, bytes. by autorewrite with stats. }
  clearbody c1. set (c2 := if String.eqb qtype "" then _ else _).
  assert (ids c2 = ids c1) as <- by (unfold c2; by case_match).
  clearbody c2. set (c3 := if String.eqb upstream "cache" then _ else _).
  assert (ids c3 = ids c2) as <- by (unfold c3; by repeat case_match).
  clearbody c3. set (c4 := match err with Some _ => _ | None => _ end).
  assert (ids c4 = ids c3) as <-.
  { unfold c4. destruct err; [|done]. by rewrite recordError_ids. }
  clearbody c4. by case_match.
Qed.

(** Ending a live session closes exactly that session. *)
Lemma End_spec now i err c s :
  sessions c !! i = Some s → sid s = i → done s = false →
  (∃ g, sessions (End_ now i err c) = alter g i (sessions c) ∧
        sid (g s) = i ∧ done (g s) = true ∧ upload (g s) = upload s ∧ download (g s) = download s) ∧
  active (End_ now i err c) = active c ∖ {[i]} ∧ nextID (End_ now i err c) = nextID c ∧
  bytes (End_ now i err c) = (cUpload (totals c), cDownload (totals c), cConns (totals c) + 1).
Proof.
  intros Hs Hi Hd. unfold End_. rewrite Hs, Hd. unfold finish. cbv zeta.
  set (s' := s <| done := true |>). change (sid s') with (sid s). rewrite Hi.
  change (host s') with (host s). change (decision s') with (decision s).
  set (c1 := upd_session i _ c). set (c2 := bumpConnLocked _ _ _).
  assert (sessions c2 = sessions c1 ∧ active c2 = active c ∖ {[i]} ∧ nextID c2 = nextID c ∧
          bytes c2 = (cUpload (totals c), cDownload (totals c), cConns (totals c) + 1))
    as (S2 & A2 & N2 & B2).
  { unfold c2, bumpConnLocked, bytes. cbv zeta. destruct (decision s); cbn; autorewrite with stats; cbn;
      (split_and!; [done..|]); repeat first [apply (f_equal2 pair)|lia]. }
  clearbody c2. set (c3 := if String.eqb (host s) "" then c2 else _).
  assert ((∃ g, sessions c3 = alter g i (sessions c) ∧
           sid (g s) = i ∧ done (g s) = true ∧ upload (g s) = upload s ∧ download (g s) = download s) ∧
          active c3 = active c2 ∧ nextID c3 = nextID c2 ∧ bytes c3 = bytes c2) as (S3 & A3 & N3 & B3).
  { unfold c3. case_match.
    - split; [|done]. rewrite S2. by eexists.
    - split; [|done]. cbn [sessions addDomainLocked upd_session].
      eexists. split; [cbn; rewrite S2; cbn; by rewrite <- alter_compose'|]. by cbn. }
  clearbody c3. set (c4 := if bool_decide _ && _ then _ else c3).
  assert (ids c4 = ids c3) as E4 by (unfold c4; by case_match).
  clearbody c4. unfold ids in E4.
  assert (ids (match err with Some msg => recordErrorLocked now "proxy" (host s) msg c4 | None => c4 end) = ids c4)
    as E5 by (destruct err; [apply recordError_ids|done]).
  set (c5 := match err with Some _ => _ | None => _ end) in *. clearbody c5. unfold ids in E5.
  assert (bytes c5 = bytes c2) as -> by congruence.
  assert (sessions c5 = sessions c3) as -> by congruence.
  assert (active c5 = active c3) as -> by congruence.
  assert (nextID c5 = nextID c3) as -> by congruence.
  by rewrite A3, N3.
Qed.

(** What a call does to the registry and the byte totals. *)
Inductive effect (c c' : Collector) : Prop :=
  | effect_move du dd i :
      touched du dd i c c' → (sessions c !! i = None → du = 0 ∧ dd = 0) →
      bytes c' = (cUpload (totals c) + du, cDownload (totals c) + dd, cConns (totals c)) → effect c c'
  | effect_begin s :
      sessions c' = <[nextID c + 1 := s]> (sessions c) → active c' = {[nextID c + 1]} ∪ active c →
      nextID c' = nextID c + 1 → sid s = nextID c + 1 → done s = false → upload s = 0 → download s = 0 →
      bytes c' = bytes c → effect c c'
  | effect_end i s g :
      sessions c !! i = Some s → done s = false → sessions c' = alter g i (sessions c) →
      sid (g s) = i → done (g s) = true → upload (g s) = upload s → download (g s) = download s →
      active c' = active c ∖ {[i]} → nextID c' = nextID c →
      bytes c' = (cUpload (totals c), cDownload (totals c), cConns (totals c) + 1) → effect c c'.

Lemma effect_same c c' : ids c' = ids c → effect c c'.
Proof.
  intros E. apply (effect_move _ _ 0 0 0); [by apply ids_touched|done|].
  rewrite !Z.add_0_r. unfold ids, bytes in *. congruence.
Qed.

Lemma apply_effect c e :
  sizes_ok e → no_reset e → registry c → effect c (apply c e).
Proof.
  destruct e as [now e]. intros Hok Hnr [R1 _ _].
  destruct e as [p cl h prt d nd|i n|i n|i h d up down|i name|i err|scope h msg|domain qtype upstream err|];
    cbn -[Begin SetNode record_dns recordErrorLocked AddUpload AddDownload AddDatagram End_] in *; [..|done].
  - by eapply effect_begin.
  - destruct (sessions c !! i) as [s|] eqn:E.
    + destruct (Z.leb_spec n 0) as [Hn|Hn].
      * apply effect_same. unfold AddUpload. rewrite E. destruct (Z.leb_spec n 0); [done|lia].
      * destruct (AddUpload_spec now i n c s E Hn) as [Ht Hb].
        apply (effect_move _ _ n 0 i Ht); [congruence|by rewrite Z.add_0_r].
    + apply effect_same. unfold AddUpload. by rewrite E.
  - destruct (sessions c !! i) as [s|] eqn:E.
    + destruct (Z.leb_spec n 0) as [Hn|Hn].
      * apply effect_same. unfold AddDownload. rewrite E. destruct (Z.leb_spec n 0); [done|lia].
      * destruct (AddDownload_spec now i n c s E Hn) as [Ht Hb].
        apply (effect_move _ _ 0 n i Ht); [congruence|by rewrite Z.add_0_r].
    + apply effect_same. unfold AddDownload. by rewrite E.
  - destruct Hok as [Hu Hd]. destruct (sessions c !! i) as [s|] eqn:E.
    + destruct (AddDatagram_spec now i h d up down c s E Hu Hd) as [Ht Hb].
      apply (effect_move _ _ up down i Ht); [congruence|done].
    + apply effect_same. unfold AddDatagram. by rewrite E.
  - unfold SetNode. case_match; [by apply effect_same|].
    apply (effect_move _ _ 0 0 i); [|done|by rewrite !Z.add_0_r].
    apply touched_upd. intros. cbn. split_and!; auto with lia.
  - destruct (sessions c !! i) as [s|] eqn:E.
    + destruct (done s) eqn:Ed; [apply effect_same; unfold End_; by rewrite E, Ed|].
      destruct (R1 i s E) as [Hi _].
      destruct (End_spec now i err c s E Hi Ed) as ((g & ? & ? & ? & ? & ?) & ? & ? & ?).
      by eapply effect_end.
    + apply effect_same. unfold End_. by rewrite E.
  - apply effect_same, recordError_ids.
  - apply effect_same, record_dns_ids.
Qed.

Lemma effect_registry c c' : effect c c' → registry c → registry c'.
Proof.
  intros Heff HR. pose proof HR as [R1 R2 R3]. destruct Heff as [du dd i Ht _ _|s Es Ea En Hi Hd _ _ _|i s g Hs Hd Es Hi Hg _ _ Ea En _].
  - by eapply registry_touched.
  - split.
    + intros j s'. rewrite Es, En. destruct (decide (nextID c + 1 = j)) as [<-|].
      * rewrite lookup_insert_eq. intros [= <-]. split; [done|lia].
      * rewrite lookup_insert_ne by done. intros Hj. destruct (R1 _ _ Hj). split; [done|lia].
    + intros j. rewrite Es, Ea, elem_of_union, elem_of_singleton, R2.
      destruct (decide (j = nextID c + 1)) as [->|].
      * rewrite lookup_insert_eq. split; [intros _; by exists s|by left].
      * rewrite lookup_insert_ne by done. split; [intros [?|?]; done|by right].
    + lia.
  - split.
    + intros j s'. rewrite Es, En. destruct (decide (i = j)) as [<-|].
      * rewrite lookup_alter_eq, Hs. intros [= <-]. split; [done|]. by apply (R1 i s).
      * rewrite lookup_alter_ne by done. eauto.
    + intros j. rewrite Es, Ea, elem_of_difference, elem_of_singleton, R2.
      destruct (decide (i = j)) as [<-|].
      * rewrite lookup_alter_eq, Hs. split; [tauto|]. intros (? & [= <-] & ?). congruence.
      * rewrite lookup_alter_ne by done. split; [tauto|]. intros Hj. split; [exact Hj|congruence].
    + lia.
Qed.

Lemma apply_registry c e : sizes_ok e → registry c → registry (apply c e).
Proof.
  intros Hok HR. destruct e as [now e]. assert (e = EvReset ∨ no_reset (now, e)) as [->|Hn].
  { destruct e; ((by left) || (right; by intros [=])). }
  - destruct HR. by split.
  - eapply effect_registry; [by apply apply_effect|done].
Qed.

Lemma New_registry now config : registry (New now config).
Proof. split; cbn; [intros ? ?; by rewrite lookup_empty| |done]. intros i. rewrite elem_of_empty. split; [done|]. by intros (s & ? & ?). Qed.

(** ** Totals are the sums over the sessions *)

Definition done_count (s : Session) : Z := if done s then 1 else 0.

Definition totals_sum (c : Collector) : Prop :=
  bytes c = (sums upload (sessions c), sums download (sessions c), sums done_count (sessions c)).

Lemma effect_totals c c' : effect c c' → registry c → totals_sum c → totals_sum c'.
Proof.
  unfold totals_sum. intros Heff HR. pose proof HR as [R1 R2 R3].
  destruct Heff as [du dd i (_ & _ & g & Eg & Hg) Hnone Hb|s Es _ _ _ Hd Hu Hdn Hb|i s g Hs Hd Es _ Hg Hu Hdn _ _ Hb];
    rewrite Hb; clear Hb; unfold bytes; intros E; injection E as E1 E2 E3.
  - rewrite Eg. destruct (sessions c !! i) as [s|] eqn:Es.
    + rewrite !(sums_alter _ _ _ _ _ Es). destruct (Hg s) as (_ & Ed & _ & Eu & Edn).
      unfold done_count at 2 3. rewrite Ed, Eu, Edn. repeat first [apply (f_equal2 pair)|lia].
    + destruct (Hnone eq_refl) as [-> ->].
      assert (alter g i (sessions c) = sessions c) as ->.
      { apply map_eq. intros j. destruct (decide (i = j)) as [<-|]; [by rewrite lookup_alter_eq, Es|by rewrite lookup_alter_ne]. }
      by rewrite !Z.add_0_r, E1, E2, E3.
  - assert (sessions c !! (nextID c + 1) = None) as Hf.
    { destruct (_ !! _) as [s0|] eqn:E; [|done]. apply R1 in E. lia. }
    rewrite Es, !sums_insert by done. unfold done_count at 1. rewrite Hd, Hu, Hdn, E1, E2, E3. done.
  - rewrite Es, !(sums_alter _ _ _ _ _ Hs). unfold done_count at 2 3. rewrite Hd, Hg, Hu, Hdn.
    repeat first [apply (f_equal2 pair)|lia].
Qed.

Lemma New_totals now config : totals_sum (New now config).
Proof. done. Qed.

(** ** Claims *)

(** C5: the traffic history accounts for the counters.  After any sequence of
    calls from a fresh collector, every total (bytes, connections, errors, the
    direct and proxy shares, DNS queries) is at least the sum of its field over
    the retained buckets and the current one, and is exactly that sum as long
    as the ring has not wrapped. *)
Theorem history_accounts now config log :
  Forall sizes_ok log →
  let c := run log (New now config) in
  ∀ f g, (f, g) ∈ ledger →
    sumb f (timeline c) ≤ g c ∧
    ((length (buckets c) < bcap c)%nat → sumb f (timeline c) = g c).
Proof.
  intros Hok c f g Hfg.
  destruct (run_inv balanced sizes_ok log (New now config)) as [_ Hl];
    [intros; by apply apply_balanced|done|apply New_balanced|].
  rewrite Forall_forall in Hl. by destruct (Hl _ Hfg).
Qed.

(** the session registry is exact.  After any sequence of calls the ids in
    the live map are those of the sessions that have begun and not ended, each
    session is stored under its own id, and ids are never reused. *)
Theorem registry_exact now config log :
  Forall sizes_ok log →
  let c := run log (New now config) in
  (∀ i s, sessions c !! i = Some s → sid s = i ∧ 0 < i ≤ nextID c) ∧
  (∀ i, i ∈ active c ↔ ∃ s, sessions c !! i = Some s ∧ done s = false).
Proof.
  intros Hok c. destruct (run_inv registry sizes_ok log (New now config)) as [R1 R2 _]; [|done|apply New_registry|done].
  intros. by apply apply_registry.
Qed.

(** C35: totals are conserved.  Without a reset, the uploaded and downloaded
    totals are the sums of what every session (live or ended) has moved, and the
    connection total is the number of sessions that have ended. *)
Theorem totals_account now config log :
  Forall sizes_ok log → Forall no_reset log →
  let c := run log (New now config) in
  cUpload (totals c) = sums upload (sessions c) ∧
  cDownload (totals c) = sums download (sessions c) ∧
  cConns (totals c) = sums done_count (sessions c).
Proof.
  intros Hok Hnr c.
  assert (registry c ∧ totals_sum c) as [_ E].
  { apply (run_inv (λ c, registry c ∧ totals_sum c) (λ e, sizes_ok e ∧ no_reset e)).
    - intros c0 e [H1 H2] [HR HT]. pose proof (apply_effect c0 e H1 H2 HR) as Heff.
      split; [by eapply effect_registry|by eapply effect_totals].
    - by apply Forall_and.
    - split; [apply New_registry|apply New_totals]. }
  unfold totals_sum, bytes in E. by injection E.
Qed.

(** ** Calls as sequences of primitive updates *)

(** Preserved by every update of [apply] outside the tables and the ring, when the
    clock reads times that are [ok]. *)
Record prims (ok : time → Prop) (P : Collector → Prop) : Prop := {
  pr_rotate : ∀ now c, ok now → P c → P (rotateLocked now c);
  pr_rate : ∀ sec up down c, P c → P (addRateLocked sec up down c);
  pr_set : ∀ c t d p dn b ses act nx, bT b = bT (cur c) → P c →
    P (c <| totals := t |> <| direct := d |> <| proxy := p |> <| dns := dn |> <| cur := b |>
         <| sessions := ses |> <| active := act |> <| nextID := nx |>);
  pr_node : ∀ now name up down c, name ≠ "" → P c → P (node_traffic now name up down c);
  pr_domain : ∀ now h d up down n e c, h ≠ "" → P c → P (addDomainLocked now h d up down n e c);
  pr_name : ∀ now h e c, h ≠ "" → P c → P (dns_name now h e c);
  pr_err : ∀ x c, P c → P (c <| errs ::= λ l, keep_last (ErrorLimit (cfg c)) (l ++ [x]) |>);
}.

Section prims.
Context (ok : time → Prop) (P : Collector → Prop) (HP : prims ok P).

Lemma set_prims c c' :
  (cfg c', cstart c', dnsNames c', domains c', nodes c', errs c', buckets c', bcap c', head c', bT (cur c')) =
  (cfg c, cstart c, dnsNames c, domains c, nodes c, errs c, buckets c, bcap c, head c, bT (cur c)) →
  (rateSec c', rateUp c', rateDown c', peakUp c', peakDown c') =
  (rateSec c, rateUp c, rateDown c, peakUp c, peakDown c) → P c → P c'.
Proof.
  intros E1 E2 Hc. assert (bT (cur c') = bT (cur c)) as Eb by congruence.
  pose proof (pr_set _ _ HP c (totals c') (direct c') (proxy c') (dns c') (cur c') (sessions c')
    (active c') (nextID c') Eb Hc) as H'.
  destruct c, c'. cbn in *. simplify_eq. exact H'.
Qed.

Lemma upd_prims i f c : P c → P (upd_session i f c).
Proof. by apply set_prims. Qed.

Lemma error_prims now scope h msg c : ok now → P c → P (recordErrorLocked now scope h msg c).
Proof.
  intros Hok Hc. unfold recordErrorLocked. cbv zeta. apply (pr_err _ _ HP _ _).
  eapply (set_prims (rotateLocked now (c <| totals ::= λ t, t <| cErrors ::= Z.add 1 |> |>))); [done..|].
  apply (pr_rotate _ _ HP); [done|]. by eapply (set_prims c).
Qed.

Lemma flush_prims now i c : P c → P (flush now i c).
Proof.
  intros Hc. unfold flush. destruct (sessions c !! i) as [s|]; [|done].
  assert (P (upd_session i (λ s, s <| pendingUp := 0 |> <| pendingDown := 0 |>) c)) by by eapply (set_prims c).
  cbv zeta. destruct (_ && _); [done|]. destruct (String.eqb_spec (host s) ""); [done|]. by apply (pr_domain _ _ HP).
Qed.

Lemma traffic_prims now up down d c : ok now → P c → P (addTraffic now up down d c).
Proof.
  intros Hok Hc. unfold addTraffic. case_match; [done|]. cbv zeta. apply (pr_rate _ _ HP).
  apply (pr_rotate _ _ HP now) in Hc; [|done]. by destruct d; apply (set_prims (rotateLocked now c)).
Qed.

Lemma bump_prims now d c : ok now → P c → P (bumpConnLocked d now c).
Proof.
  intros Hok Hc. unfold bumpConnLocked. cbv zeta.
  apply (pr_rotate _ _ HP now) in Hc; [|done]. by destruct d; apply (set_prims (rotateLocked now c)).
Qed.

Lemma finish_prims now s err c : ok now → P c → P (finish now s err c).
Proof.
  intros Hok Hc. unfold finish. cbv zeta. set (c1 := bumpConnLocked _ _ _).
  assert (P c1) as H1 by (apply bump_prims; [done|]; by apply (set_prims c)).
  clearbody c1. set (c2 := if String.eqb (host s) "" then c1 else _).
  assert (P c2) as H2.
  { unfold c2. destruct (String.eqb_spec (host s) ""); [done|]. apply (pr_domain _ _ HP); [done|]. by apply (set_prims c1). }
  clearbody c2. set (c3 := if bool_decide _ && _ then _ else c2).
  assert (P c3) as H3.
  { unfold c3. destruct (String.eqb_spec (Node s) ""); [by rewrite andb_false_r|].
    case_match; [by apply (pr_node _ _ HP)|done]. }
  destruct err; [by apply error_prims|done].
Qed.

Lemma dns_prims now domain qtype upstream err c : ok now → P c → P (record_dns now domain qtype upstream err c).
Proof.
  intros Hok Hc. unfold record_dns. cbv zeta.
  apply (pr_rotate _ _ HP now) in Hc; [|done]. set (c1 := rotateLocked now c) in *. clearbody c1.
  set (c2 := if String.eqb qtype "" then _ else _).
  assert (P c2) as H2 by (unfold c2; case_match; by apply (set_prims c1)).
  clearbody c2. set (c3 := if String.eqb upstream "cache" then _ else _).
  assert (P c3) as H3 by (unfold c3; repeat case_match; by apply (set_prims c2)).
  clearbody c3. set (c4 := match err with Some _ => _ | None => _ end).
  assert (P c4) as H4.
  { unfold c4. destruct err; [|done]. apply error_prims; [done|]. by apply (set_prims c3). }
  destruct (String.eqb_spec domain ""); [done|]. by apply (pr_name _ _ HP).
Qed.

Lemma upload_prims now i n c : ok now → P c → P (AddUpload now i n c).
Proof.
  intros Hok Hc. unfold AddUpload. destruct (sessions c !! i) as [s|]; [|done]. case_match; [done|]. cbv zeta.
  match goal with |- P (if _ then flush now i ?x else _) => assert (P x) as Hx end.
  { by apply upd_prims, traffic_prims; [|apply upd_prims]. }
  case_match; [by apply flush_prims|done].
Qed.

Lemma download_prims now i n c : ok now → P c → P (AddDownload now i n c).
Proof.
  intros Hok Hc. unfold AddDownload. destruct (sessions c !! i) as [s|]; [|done]. case_match; [done|]. cbv zeta.
  match goal with |- P (if _ then flush now i ?x else _) => assert (P x) as Hx end.
  { by apply upd_prims, traffic_prims; [|apply upd_prims]. }
  case_match; [by apply flush_prims|done].
Qed.

Lemma datagram_prims now i h d up down c : ok now → P c → P (AddDatagram now i h d up down c).
Proof.
  intros Hok Hc. unfold AddDatagram. destruct (sessions c !! i) as [s|]; [|done]. cbv zeta.
  apply flush_prims. set (c1 := if 0 <? up then _ else c).
  assert (P c1) as H1 by (unfold c1; case_match; [by apply (set_prims c)|done]).
  clearbody c1. set (c2 := if 0 <? down then _ else c1).
  assert (P c2) as H2 by (unfold c2; case_match; [by apply (set_prims c1)|done]).
  clearbody c2. set (c3 := if (0 <? up) || _ then _ else c2).
  assert (P c3) as H3 by (unfold c3; case_match; [by apply traffic_prims|done]).
  destruct (String.eqb_spec h ""); [done|]. by apply (pr_domain _ _ HP).
Qed.

Lemma apply_prims c e : ok e.1 → (e.2 = EvReset → P (Reset e.1 c)) → P c → P (apply c e).
Proof.
  destruct e as [now e]. intros Hok Hr Hc.
  destruct e; cbn -[Begin SetNode Reset record_dns recordErrorLocked] in *.
  - by apply (set_prims c).
  - by apply upload_prims.
  - by apply download_prims.
  - by apply datagram_prims.
  - unfold SetNode. case_match; [done|]. by apply (set_prims c).
  - unfold End_. destruct (sessions c !! i); [|done]. case_match; [done|]. apply finish_prims; [done|].
    by apply (set_prims c).
  - by apply error_prims.
  - by apply dns_prims.
  - by apply Hr.
Qed.
End prims.

(** No bound on the clock. *)
Definition any_time : time → Prop := λ _, True.

Lemma cfg_prims ok config : prims ok (λ c, cfg c = resolve_config config).
Proof.
  split; try done.
  - intros. by autorewrite with stats.
  - intros. by rewrite (addRate_frame cfg).
Qed.

(** ** Bounded tables *)

Definition keyed (m : gmap string DomainStat) : Prop := map_Forall (λ k d, dDomain d = k) m.

Lemma lookup_delete_all (l : list DomainStat) (m : gmap string DomainStat) k :
  foldl (λ m d, delete (dDomain d) m) m l !! k =
  if decide (k ∈ dDomain <$> l) then None else m !! k.
Proof.
  revert m. induction l as [|d l IH]; intros m; csimpl; [first [done|case_decide; set_solver]|].
  rewrite IH. destruct (decide (k = dDomain d)) as [->|Hne].
  - rewrite lookup_delete_eq. rewrite (decide_True (P := dDomain d ∈ _ :: _)) by set_solver. by case_decide.
  - rewrite lookup_delete_ne by done. case_decide; case_decide; set_solver.
Qed.

(** What pruning keeps and drops. *)
Lemma pruneLocked_spec limit m :
  keyed m →
  let m' := pruneLocked limit m in
  m' ⊆ m ∧ Z.of_nat (size m') ≤ prune_keep limit ∧
  ∀ k d k' d', m' !! k = Some d → m !! k' = Some d' → m' !! k' = None →
    DomainStat_Total d' ≤ DomainStat_Total d.
Proof.
  intros Hk m'. unfold m', pruneLocked. clear m'.
  set (all := sort_slice busier (map_to_list m).*2). set (n := Z.to_nat (prune_keep limit)).
  assert (all ≡ₚ (map_to_list m).*2) as Hall by apply sort_slice_perm.
  assert (∀ k d, m !! k = Some d ↔ dDomain d = k ∧ d ∈ all) as Hin.
  { intros k d. rewrite Hall, list_elem_of_fmap. split.
    - intros Hd. split; [by apply Hk|]. exists (k, d). split; [done|]. by apply elem_of_map_to_list.
    - intros [Hd ([k' d'] & -> & Hm%elem_of_map_to_list)]. cbn in *. rewrite (Hk _ _ Hm) in Hd. by subst. }
  assert (NoDup (dDomain <$> all)) as Hnd.
  { rewrite Hall. rewrite <- list_fmap_compose.
    rewrite (list_fmap_ext _ (fst : string * DomainStat → string) (map_to_list m)); [apply NoDup_fst_map_to_list|].
    intros i [k d] Hkd%list_elem_of_lookup_2%elem_of_map_to_list. cbn. by apply Hk. }
  assert (all = take n all ++ drop n all) as Esplit by by rewrite take_drop.
  assert (∀ k d, foldl (λ m d, delete (dDomain d) m) m (drop n all) !! k = Some d →
                 dDomain d = k ∧ d ∈ take n all) as Hkept.
  { intros k d. rewrite lookup_delete_all. case_decide as Hdr; [done|].
    intros [<- Hd]%Hin. rewrite Esplit, elem_of_app in Hd. destruct Hd as [Ht|Hd]; [done|]. destruct Hdr. by apply list_elem_of_fmap_2. }
  split_and!.
  - apply map_subseteq_spec. intros k d. rewrite lookup_delete_all. by case_decide.
  - rewrite <- size_dom.
    trans (Z.of_nat (size (list_to_set (C := gset string) (dDomain <$> take n all)))).
    + apply inj_le, subseteq_size. intros k [d Hd]%elem_of_dom. apply Hkept in Hd as [<- Hd].
      apply elem_of_list_to_set. by apply list_elem_of_fmap_2.
    + rewrite size_list_to_set.
      * rewrite length_fmap, length_take. unfold n.
        assert (0 < prune_keep limit) by (unfold prune_keep; case_match; rewrite ?Z.leb_gt in *; lia). lia.
      * rewrite fmap_take. eapply sublist_NoDup; [exact Hnd|]. apply sublist_take.
  - intros k d k' d' Hd Hd' Hnone.
    apply Hkept in Hd as [_ Hd]. rewrite lookup_delete_all in Hnone. case_decide as Hdr; [|congruence].
    apply list_elem_of_fmap in Hdr as (d2 & -> & Hd2).
    assert (d2 = d') as ->.
    { assert (m !! dDomain d2 = Some d2) as E; [|congruence]. apply Hin. split; [done|].
      rewrite Esplit, elem_of_app. by right. }
    pose proof (sort_slice_sorted busier (map_to_list m).*2 (strict_weak_gtb DomainStat_Total)) as Hs.
    fold all in Hs. rewrite Esplit, StronglySorted_app in Hs. destruct Hs as (Hs & _ & _).
    specialize (Hs d d' Hd Hd2). unfold busier in Hs. by apply Z.ltb_ge in Hs.
Qed.

Lemma prune_keep_le limit : 0 < limit → prune_keep limit ≤ limit.
Proof.
  intros. unfold prune_keep. case_match; [lia|]. rewrite Z.quot_div_nonneg by lia.
  apply Z.div_le_upper_bound; lia.
Qed.

Record table_ok (limit : Z) (m : gmap string DomainStat) : Prop := {
  tb_keyed : keyed m;
  tb_size : Z.of_nat (size m) ≤ limit;
}.

Lemma prune_over_ok limit m : 0 < limit → keyed m → table_ok limit (prune_over limit m).
Proof.
  intros Hl Hk. unfold prune_over. destruct (Z.ltb_spec limit (Z.of_nat (size m))); [|by split].
  destruct (pruneLocked_spec limit m Hk) as (Hsub & Hsz & _). split.
  - intros k d Hd. apply Hk. by eapply map_subseteq_spec.
  - pose proof (prune_keep_le limit Hl). lia.
Qed.

Record bounded (c : Collector) : Prop := {
  bd_domain_limit : 0 < DomainLimit (cfg c);
  bd_error_limit : 0 < ErrorLimit (cfg c);
  bd_domains : table_ok (DomainLimit (cfg c)) (domains c);
  bd_names : table_ok (DomainLimit (cfg c)) (dnsNames c);
  bd_errs : Z.of_nat (length (errs c)) ≤ ErrorLimit (cfg c);
}.

Lemma keyed_insert m k d : keyed m → dDomain d = k → keyed (<[k := d]> m).
Proof. intros. by apply map_Forall_insert_2. Qed.

Lemma lookup_keyed m k : keyed m → dDomain (default (newDomainStat k) (m !! k)) = k.
Proof. intros Hm. destruct (m !! k) eqn:E; [by apply Hm|done]. Qed.

Lemma keep_last_length {A} limit (l : list A) :
  0 ≤ limit → Z.of_nat (length (keep_last limit l)) ≤ limit.
Proof.
  intros. unfold keep_last. destruct (Z.ltb_spec limit (Z.of_nat (length l))); [|done].
  rewrite length_drop. lia.
Qed.

Lemma addDomain_bounded now h d up down n e c : bounded c → bounded (addDomainLocked now h d up down n e c).
Proof.
  intros [B1 B2 [B3 B4] B5 B6]. split; try done. unfold addDomainLocked. cbv zeta. cbn.
  apply prune_over_ok; [done|]. apply keyed_insert; [done|].
  destruct d, e; exact (lookup_keyed (domains c) h B3).
Qed.

Lemma dns_name_bounded now h e c : bounded c → bounded (dns_name now h e c).
Proof.
  intros [B1 B2 B3 [B4 B5] B6]. split; try done. unfold dns_name. cbv zeta. cbn.
  apply prune_over_ok; [done|]. apply keyed_insert; [done|].
  destruct e; exact (lookup_keyed (dnsNames c) h B4).
Qed.

Lemma bounded_prims ok : prims ok bounded.
Proof.
  split.
  - intros now c _ [B1 B2 B3 B4 B5]. split; by autorewrite with stats.
  - intros s up down c [B1 B2 B3 B4 B5].
    split; rewrite ?(addRate_frame cfg), ?(addRate_frame domains), ?(addRate_frame dnsNames), ?(addRate_frame errs); done.
  - intros * _ [B1 B2 B3 B4 B5]. by split.
  - intros * _ [B1 B2 B3 B4 B5]. by split.
  - intros. by apply addDomain_bounded.
  - intros. by apply dns_name_bounded.
  - intros x c [B1 B2 B3 B4 B5]. split; try done. apply keep_last_length. cbn. lia.
Qed.

Lemma table_ok_empty limit : 0 < limit → table_ok limit ∅.
Proof. intros. split; [apply map_Forall_empty|]. rewrite map_size_empty. lia. Qed.

Lemma New_bounded now config : bounded (New now config).
Proof.
  assert (0 < DomainLimit (resolve_config config) ∧ 0 < ErrorLimit (resolve_config config)) as [H1 H2].
  { unfold resolve_config. split; repeat case_match; rewrite ?Z.leb_gt in *; cbn in *;
      unfold DefaultDomainLimit, DefaultErrorLimit; lia. }
  split; cbn; auto using table_ok_empty with lia.
Qed.

Lemma run_bounded now config log :
  let c := run log (New now config) in bounded c ∧ cfg c = resolve_config config.
Proof.
  apply (run_inv (λ c, bounded c ∧ cfg c = resolve_config config) (λ _, True)).
  - intros c0 e _ [HB HE]. split.
    + apply (apply_prims any_time _ (bounded_prims _)); [done| |done]. intros _. destruct HB.
      split; cbn; auto using table_ok_empty with lia.
    + by apply (apply_prims any_time _ (cfg_prims _ config)).
  - by apply Forall_true.
  - split; [apply New_bounded|done].
Qed.

(** C36: the tables stay within their caps.  After any sequence of calls, neither the
    domain table nor the DNS-name table holds more than [DomainLimit] entries, the error
    log holds at most [ErrorLimit], and each entry of the two tables is filed under its
    own name. *)
Theorem tables_bounded now config log :
  let c := run log (New now config) in
  Z.of_nat (size (domains c)) ≤ DomainLimit (resolve_config config) ∧
  Z.of_nat (size (dnsNames c)) ≤ DomainLimit (resolve_config config) ∧
  Z.of_nat (length (errs c)) ≤ ErrorLimit (resolve_config config) ∧
  (∀ k d, domains c !! k = Some d → dDomain d = k) ∧
  (∀ k d, dnsNames c !! k = Some d → dDomain d = k).
Proof.
  intros c. destruct (run_bounded now config log) as [[B1 B2 [B3 B4] [B5 B6] B7] E]. fold c in B1, B2, B3, B4, B5, B6, B7, E.
  rewrite <- E. split_and!; auto.
Qed.

(** pruning keeps the busiest entries.  When a table keyed by its entries'
    names goes over its cap, what remains is part of the old table, at most three
    quarters of the cap (at least one entry), and carries at least as much
    traffic, entry for entry, as anything that was dropped. *)
Theorem prune_keeps_busiest limit m :
  keyed m →
  let m' := pruneLocked limit m in
  m' ⊆ m ∧ Z.of_nat (size m') ≤ Z.max 1 ((limit * 3) `quot` 4) ∧
  ∀ k d k' d', m' !! k = Some d → m !! k' = Some d' → m' !! k' = None →
    DomainStat_Total d' ≤ DomainStat_Total d.
Proof.
  intros Hk m'. destruct (pruneLocked_spec limit m Hk) as (H1 & H2 & H3). split_and!; [done| |done].
  unfold prune_keep in H2. unfold m'. case_match; rewrite ?Z.leb_le, ?Z.leb_gt in *; lia.
Qed.

(** ** Ending twice *)

Lemma run_registry now config log :
  Forall sizes_ok log → registry (run log (New now config)).
Proof.
  intros Hok. apply (run_inv registry sizes_ok); [intros; by apply apply_registry|done|apply New_registry].
Qed.

(** ending a session takes effect once.  In any state the collector reaches,
    a second [End] or [Fail], whatever its time and error, changes nothing. *)
Theorem End_once now config log i t1 err1 t2 err2 :
  Forall sizes_ok log →
  let c := End_ t1 i err1 (run log (New now config)) in
  End_ t2 i err2 c = c.
Proof.
  intros Hok c. pose proof (run_registry now config log Hok) as [R1 _ _].
  unfold c. set (c0 := run log (New now config)) in *. clearbody c0. clear c.
  destruct (sessions c0 !! i) as [s|] eqn:E.
  - destruct (done s) eqn:Ed.
    + assert (∀ t e, End_ t i e c0 = c0) as En by (intros; unfold End_; by rewrite E, Ed). by rewrite !En.
    + destruct (R1 i s E) as [Hi _].
      destruct (End_spec t1 i err1 c0 s E Hi Ed) as ((g & Hg & _ & Hd & _) & _).
      unfold End_ at 1. rewrite Hg, lookup_alter_eq, E. cbn [fmap option_fmap option_map]. by rewrite Hd.
  - assert (∀ t e, End_ t i e c0 = c0) as En by (intros; unfold End_; by rewrite E). by rewrite !En.
Qed.
End trace.

(** ** Witnesses *)

Definition demo_config : Config :=
  {| HistoryMinutes := 3; BucketInterval := minute; File := String.EmptyString; SaveInterval := 0;
     DomainLimit := 2; ErrorLimit := 2 |}.

Definition demo_log : list (time * event) := [
  (100 * second, EvBegin ProtoSOCKS5 "c" "a.com" 443 DecisionProxy "n1");
  (101 * second, EvUpload 1 500); (170 * second, EvDownload 1 7000);
  (180 * second, EvDatagram 1 "b.com" DecisionDirect 10 20);
  (190 * second, EvDNS "a.com" "A" "cache" None);
  (200 * second, EvEnd 1 (Some "reset"))].

#[local] Instance demo_sort : GoSort := merge_GoSort.
#[local] Instance demo_format : TimeFormat := λ _, String.EmptyString.

Lemma demo_sizes : Forall sizes_ok demo_log.
Proof. unfold demo_log. repeat (apply Forall_cons; split; [cbn; auto with lia|]). apply Forall_nil_2. Defined.

Lemma history_accounts_witness :
  let c := run demo_log (New (90 * second) demo_config) in
  cUpload (totals c) = 510 ∧ sumb bUpload (timeline c) = cUpload (totals c).
Proof.
  split; [vm_compute; reflexivity|].
  refine (proj2 (history_accounts (90 * second) demo_config demo_log demo_sizes bUpload (λ c, cUpload (totals c)) _) _).
  - apply list_elem_of_here.
  - vm_compute. lia.
Defined.

Lemma registry_exact_witness :
  let c := run (take 3 demo_log) (New (90 * second) demo_config) in 1 ∈ active c.
Proof.
  refine (proj2 (proj2 (registry_exact (90 * second) demo_config (take 3 demo_log) (Forall_take _ 3 _ demo_sizes)) 1) _).
  eexists. split; [vm_compute; reflexivity|]. reflexivity.
Defined.

Lemma totals_account_witness :
  let c := run demo_log (New (90 * second) demo_config) in
  cUpload (totals c) = sums upload (sessions c) ∧ cConns (totals c) = 1.
Proof.
  split; [|vm_compute; reflexivity]. refine (proj1 (totals_account (90 * second) demo_config demo_log demo_sizes _)).
  unfold demo_log. repeat (apply Forall_cons; split; [by intros [=]|]). apply Forall_nil_2.
Defined.

Lemma End_once_witness :
  let c := End_ (300 * second) 1 None (run (take 3 demo_log) (New (90 * second) demo_config)) in
  End_ (400 * second) 1 (Some "late") c = c.
Proof.
  exact (End_once (90 * second) demo_config (take 3 demo_log) 1 (300 * second) None (400 * second) (Some "late")
    (Forall_take _ 3 _ demo_sizes)).
Defined.

Definition demo_table : gmap string DomainStat :=
  <["a" := (newDomainStat "a") <| dUpload := 5 |>]> (<["b" := (newDomainStat "b") <| dUpload := 9 |>]>
    (<["c" := newDomainStat "c"]> ∅)).

Lemma prune_keeps_busiest_witness : pruneLocked 2 demo_table ⊆ demo_table.
Proof.
  apply prune_keeps_busiest. unfold demo_table.
  repeat (apply map_Forall_insert_2; [reflexivity|]). apply map_Forall_empty.
Defined.
End StatsProps.
