(* ===== verification/StatsTime.v ===== *)
(** * core/stats: history and rates over time

    The bucket ring as a bounded queue of consecutive intervals, and the
    per-second rate window against what was recorded in each second. *)

From S2P Require Import Prelude GoStrings Stats StatsProps.
Import Stats StatsProps.

Module StatsTime.

(** ** The ring as a queue *)

Lemma length_history c : length (history c) = length (buckets c).
Proof. unfold history. rewrite length_app, length_drop, length_take. lia. Qed.

(** C37: the bucket ring is a bounded queue.  Pushing into a well-formed ring
    gives the history with the new bucket at its end, less the oldest bucket when
    the ring was full, and leaves the ring well formed. *)
Theorem push_refines_queue b c :
  ring_ok c →
  history (pushBucketLocked b c) = keep_last (Z.of_nat (bcap c)) (history c ++ [b]) ∧
  ring_ok (pushBucketLocked b c).
Proof.
  intros Hr. split; [|by apply push_ring_ok]. rewrite push_history by done.
  destruct Hr as [H1 H2 _ _]. unfold keep_last. rewrite length_app, length_history. cbn.
  case_decide; destruct (Z.ltb_spec (Z.of_nat (bcap c)) (Z.of_nat (length (buckets c) + 1))); try lia; [done|].
  replace (length (buckets c) + 1 - Z.to_nat (Z.of_nat (bcap c)))%nat with 1%nat by lia.
  pose proof (length_history c). destruct (history c); cbn in *; [lia|done].
Qed.

Lemma push_refines_queue_witness :
  history (pushBucketLocked (emptyBucket 120) (New 60 {| HistoryMinutes := 2; BucketInterval := minute;
    File := String.EmptyString; SaveInterval := 0; DomainLimit := 0; ErrorLimit := 0 |})) = [emptyBucket 120].
Proof. etransitivity; [apply push_refines_queue; split; vm_compute; lia|reflexivity]. Defined.

(** ** Consecutive buckets *)

Definition consecutive (step : Z) (l : list Z) : Prop :=
  ∀ i x y, l !! i = Some x → l !! S i = Some y → y = x + step.

Lemma consecutive_tail step l : consecutive step l → consecutive step (tail l).
Proof. destruct l as [|a l]; [done|]. intros Hl i x y. apply (Hl (S i)). Qed.

Lemma consecutive_snoc step l x :
  consecutive step (l ++ [x]) → consecutive step ((l ++ [x]) ++ [x + step]).
Proof.
  intros Hl i a b Ha Hb. pose proof (lookup_lt_Some _ _ _ Hb) as Hlt.
  rewrite !length_app in Hlt. cbn in Hlt.
  rewrite lookup_app_l in Ha by (rewrite length_app; cbn; lia).
  destruct (decide (S i < length (l ++ [x]))%nat) as [Hs|Hs].
  - rewrite lookup_app_l in Hb by done. by eapply Hl.
  - rewrite length_app in Hs. cbn in Hs. assert (i = length l) as -> by lia.
    rewrite list_lookup_middle in Ha by done.
    rewrite lookup_app_r in Hb by (rewrite length_app; cbn; lia). rewrite length_app in Hb. cbn in Hb.
    replace (S (length l) - (length l + 1))%nat with 0%nat in Hb by lia. cbn in Hb. congruence.
Qed.

Lemma consecutive_le step l : 0 < step → consecutive step l →
  ∀ i j x y, (i ≤ j)%nat → l !! i = Some x → l !! j = Some y → x ≤ y.
Proof.
  intros Hs Hl i j x y Hij Hx. revert y. induction Hij as [|j Hij IH]; intros y Hy; [simplify_eq; lia|].
  destruct (lookup_lt_is_Some_2 l j) as [z Hz]; [apply lookup_lt_Some in Hy; lia|].
  specialize (IH z Hz). rewrite (Hl j z y Hz Hy). lia.
Qed.

Definition step_of (c : Collector) : Z := interval_secs (BucketInterval (cfg c)).

Record lined (c : Collector) : Prop := {
  ln_ring : ring_ok c;
  ln_step : consecutive (step_of c) (bT <$> timeline c);
  ln_pos : Forall (λ b, 0 < bT b) (timeline c);
  ln_aligned : (step_of c | bT (cur c));
}.

Lemma lined_cur_pos c : lined c → 0 < bT (cur c).
Proof. intros [_ _ Hp _]. unfold timeline in Hp. apply Forall_app in Hp as [_ Hp]. by inversion Hp. Qed.

(** No retained bucket starts after the current one. *)
Lemma timeline_le_cur c : lined c → Forall (λ b, bT b ≤ bT (cur c)) (timeline c).
Proof.
  intros [_ Hc _ _]. apply Forall_lookup. intros i b Hi.
  pose proof (interval_secs_pos (BucketInterval (cfg c)) : 0 < step_of c) as Hs.
  pose proof (lookup_lt_Some _ _ _ Hi) as Hlt.
  apply (consecutive_le _ _ Hs Hc i (length (history c))).
  - unfold timeline in Hlt. rewrite length_app in Hlt. cbn in Hlt. lia.
  - by rewrite list_lookup_fmap, Hi.
  - rewrite list_lookup_fmap. unfold timeline. by rewrite list_lookup_middle.
Qed.

Lemma roll_step_of iv c : step_of (roll iv c) = step_of c.
Proof. unfold roll, pushBucketLocked, step_of. by destruct (Nat.ltb _ _). Qed.

Lemma roll_timeline iv c :
  ring_ok c →
  timeline (roll iv c) =
  ((if decide (length (buckets c) < bcap c)%nat then history c else tail (history c)) ++ [cur c])
    ++ [emptyBucket (bT (cur c) + iv)].
Proof. intros Hr. unfold timeline, roll. rewrite <- push_history by done. done. Qed.

Lemma roll_lined c : lined c → lined (roll (step_of c) c).
Proof.
  intros Hl. pose proof (lined_cur_pos c Hl) as Hpos. pose proof (interval_secs_pos (BucketInterval (cfg c)) : 0 < step_of c).
  destruct Hl as [Hr Hs Hp Ha].
  split; rewrite ?roll_step_of.
  - by apply roll_ring_ok.
  - rewrite roll_timeline, fmap_app by done. rewrite fmap_app. apply consecutive_snoc.
    unfold timeline in Hs. rewrite fmap_app in Hs. case_decide; [done|].
    destruct (history c) as [|b h]; [done|]. apply (consecutive_tail _ _ Hs).
  - rewrite roll_timeline by done. unfold timeline in Hp. apply Forall_app in Hp as [Hh Hc].
    rewrite !Forall_app, !Forall_singleton. split_and!; [|done|change (0 < bT (cur c) + step_of c); lia].
    case_decide; [done|]. destruct (history c); [done|]. by inversion Hh.
  - cbn. apply Z.divide_add_r; [done|apply Z.divide_refl].
Qed.

(** [lined] looks only at the ring. *)
Lemma lined_same c c' :
  cfg c' = cfg c → buckets c' = buckets c → head c' = head c → bcap c' = bcap c →
  bT (cur c') = bT (cur c) → lined c → lined c'.
Proof.
  intros Ef Eb Eh Ec Et [[R1 R2 R3 R4] Hs Hp Ha].
  assert (bT <$> timeline c' = bT <$> timeline c) as El.
  { unfold timeline, history. rewrite Eb, Eh, !fmap_app. cbn. by rewrite Et. }
  split; unfold step_of in *; rewrite ?Ef, ?Et in *.
  - split; rewrite ?Eb, ?Eh, ?Ec; done.
  - by rewrite El.
  - apply (Forall_fmap bT (λ t, 0 < t)). rewrite El. by apply Forall_fmap.
  - done.
Qed.

Lemma rotate_lined now c : lined c → lined (rotateLocked now c).
Proof.
  intros Hl. apply (rotateLocked_ind (λ c', lined c' ∧ step_of c' = step_of c)).
  - done.
  - intros E. pose proof (lined_cur_pos c Hl). lia.
  - intros c' [Hl' E] _. split; [|by rewrite roll_step_of]. fold (step_of c). rewrite <- E.
    by apply roll_lined.
Qed.

(** Rotation stops at the interval that contains [now]. *)
Lemma rotate_lands now c :
  lined c → bT (cur c) ≤ alignUnix (unix now) (BucketInterval (cfg c)) →
  bT (cur (rotateLocked now c)) = alignUnix (unix now) (BucketInterval (cfg c)).
Proof.
  intros Hl Hle. pose proof (lined_cur_pos c Hl) as Hp. destruct Hl as [_ _ _ Ha].
  pose proof (interval_secs_pos (BucketInterval (cfg c))) as Hi. fold (step_of c) in Hi.
  set (want := alignUnix _ _) in *.
  assert ((step_of c | want)) as Hw by (apply Z.divide_factor_r).
  unfold rotateLocked. destruct (Z.eqb_spec (bT (cur c)) 0); [lia|]. fold want (step_of c).
  destruct (rotate_loop_total (rotate_fuel want (bT (cur c))) (step_of c) want c) as [c' E]; [done..|].
  rewrite E. cbn.
  destruct (rotate_loop_ind (λ c', bT (cur c') ≤ want ∧ (step_of c | bT (cur c'))) (step_of c) want) with
    (fuel := rotate_fuel want (bT (cur c))) (c := c) (c' := c') as [[H1 _] H2]; [|done..|lia].
  intros c0 [H1 [k Hk]] Hlt. cbn. rewrite Hk in *. destruct Hw as [k' Hk']. rewrite Hk' in *.
  split; [|exists (k + 1); lia]. assert (k < k') by nia. nia.
Qed.

Lemma alignUnix_bounds t iv :
  0 ≤ t → alignUnix t iv ≤ t < alignUnix t iv + interval_secs iv.
Proof.
  intros Ht. pose proof (interval_secs_pos iv). unfold alignUnix.
  rewrite Z.quot_div_nonneg by lia. pose proof (Z.div_mod t (interval_secs iv)).
  pose proof (Z.mod_pos_bound t (interval_secs iv)). lia.
Qed.

Lemma alignUnix_mono a b iv : 0 ≤ a ≤ b → alignUnix a iv ≤ alignUnix b iv.
Proof.
  intros Hab. pose proof (interval_secs_pos iv). unfold alignUnix. rewrite !Z.quot_div_nonneg by lia.
  apply Z.mul_le_mono_nonneg_r; [lia|]. by apply Z.div_le_mono; lia.
Qed.

Lemma filter_all {A} (P : A → Prop) `{∀ x, base.Decision (P x)} l : Forall P l → filter P l = l.
Proof. induction 1; [done|]. rewrite filter_cons, decide_True by done. by f_equal. Qed.

Section claims.
Context `{GoSort, TimeFormat}.

Lemma lined_prims ok : prims ok lined.
Proof.
  split.
  - intros. by apply rotate_lined.
  - intros. by eapply lined_same; [..|eassumption]; rewrite ?(addRate_frame cfg), ?(addRate_frame buckets),
      ?(addRate_frame head), ?(addRate_frame bcap), ?(addRate_frame cur).
  - intros c t d p dn b ses act nx Eb Hl. by apply (lined_same c).
  - intros now name up down c _ Hl. by apply (lined_same c).
  - intros now h d up down n e c _ Hl. by apply (lined_same c).
  - intros now h e c _ Hl. by apply (lined_same c).
  - intros x c Hl. by apply (lined_same c).
Qed.

(** A fresh ring whose first bucket starts after the epoch. *)
Lemma fresh_lined c now :
  buckets c = [] → head c = 0%nat → (0 < bcap c)%nat →
  cur c = emptyBucket (alignUnix (unix now) (BucketInterval (cfg c))) →
  step_of c ≤ unix now → lined c.
Proof.
  intros Eb Eh Hc Ecur Hn. pose proof (interval_secs_pos (BucketInterval (cfg c)) : 0 < step_of c).
  assert (timeline c = [cur c]) as Et by (unfold timeline, history; by rewrite Eb, Eh).
  split.
  - split; rewrite ?Eb, ?Eh; cbn; lia.
  - rewrite Et. intros i x y _ Hy. by destruct i.
  - rewrite Et, Forall_singleton, Ecur. cbn [bT emptyBucket].
    pose proof (alignUnix_bounds (unix now) (BucketInterval (cfg c))). unfold step_of in *. lia.
  - rewrite Ecur. apply Z.divide_factor_r.
Qed.

(** The clock reads at least one bucket interval after the epoch. *)
Definition after_epoch (config : Config) (t : time) : Prop :=
  interval_secs (BucketInterval (resolve_config config)) ≤ unix t.

Lemma run_lined now config log :
  after_epoch config now → Forall (λ e, after_epoch config e.1) log →
  let c := run log (New now config) in lined c ∧ cfg c = resolve_config config.
Proof.
  intros Hn Hlog. apply (run_inv (λ c, lined c ∧ cfg c = resolve_config config) (λ e, after_epoch config e.1)).
  - intros c e He [Hl E]. split.
    + apply (apply_prims any_time _ (lined_prims _)); [done| |done]. intros _. destruct Hl as [[? ? ? ?] _ _ _].
      apply (fresh_lined _ e.1); try done. unfold step_of. cbn [cfg Reset]. cbn. by rewrite E.
    + by apply (apply_prims any_time _ (cfg_prims _ config)).
  - done.
  - split; [|done]. apply (fresh_lined _ now); try done.
    destruct (New_balanced now config) as [[? _ _ _] _]. done.
Qed.

(** With a clock that has not passed [now], the current bucket has not either. *)
Lemma rotate_not_ahead now t c :
  lined c → t ≤ now → 0 ≤ unix t → bT (cur c) ≤ unix now → bT (cur (rotateLocked t c)) ≤ unix now.
Proof.
  intros Hl Ht Hpos Hc. pose proof (unix_mono _ _ Ht).
  pose proof (alignUnix_bounds (unix t) (BucketInterval (cfg c)) Hpos).
  destruct (decide (bT (cur c) ≤ alignUnix (unix t) (BucketInterval (cfg c)))) as [Hle|Hgt].
  - rewrite rotate_lands by done. lia.
  - pose proof (lined_cur_pos c Hl). unfold rotateLocked. destruct (Z.eqb_spec (bT (cur c)) 0); [lia|].
    destruct (rotate_fuel _ _); cbn; (destruct (Z.ltb_spec (bT (cur c)) (alignUnix (unix t) (BucketInterval (cfg c)))); [lia|done]).
Qed.

Definition up_to (config : Config) (now t : time) : Prop := after_epoch config t ∧ t ≤ now.

Lemma up_to_after config now log :
  Forall (λ e : time * event, up_to config now e.1) log → Forall (λ e, after_epoch config e.1) log.
Proof. intros Hl. eapply Forall_impl; [done|]. by intros e [? _]. Qed.

Lemma up_to_pos config now t : up_to config now t → 0 ≤ unix t.
Proof.
  intros [Ha _]. unfold after_epoch in Ha.
  pose proof (interval_secs_pos (BucketInterval (resolve_config config))). lia.
Qed.

Lemma run_not_ahead config now0 log now :
  up_to config now now0 → Forall (λ e, up_to config now e.1) log →
  bT (cur (run log (New now0 config))) ≤ unix now.
Proof.
  intros Hn Hlog.
  enough (let c := run log (New now0 config) in lined c ∧ bT (cur c) ≤ unix now ∧ cfg c = resolve_config config) by naive_solver.
  assert (∀ t, up_to config now t → alignUnix (unix t) (BucketInterval (resolve_config config)) ≤ unix now) as Hal.
  { intros t Ht. pose proof (alignUnix_bounds (unix t) (BucketInterval (resolve_config config)) (up_to_pos _ _ _ Ht)).
    destruct Ht as [_ Ht]. pose proof (unix_mono _ _ Ht). lia. }
  apply (run_inv (λ c, lined c ∧ bT (cur c) ≤ unix now ∧ cfg c = resolve_config config) (λ e, up_to config now e.1)).
  - intros c e He (Hl & Hc & E).
    apply (apply_prims (up_to config now) (λ c, lined c ∧ bT (cur c) ≤ unix now ∧ cfg c = resolve_config config)); [|done| |done].
    + pose proof (lined_prims (up_to config now)) as HL. pose proof (cfg_prims (up_to config now) config) as HC. split.
      * intros t c0 Ht (Hl0 & Hc0 & E0). split_and!; [by apply (pr_rotate _ _ HL)| |by apply (pr_rotate _ _ HC)].
        apply rotate_not_ahead; [done|apply Ht|by eapply up_to_pos|done].
      * intros s u d c0 (? & ? & ?). split_and!; [by apply (pr_rate _ _ HL)|by rewrite (addRate_frame cur)|by apply (pr_rate _ _ HC)].
      * intros c0 t d p dn b ses act nx Eb (? & Hc0 & ?). split_and!; [by apply (pr_set _ _ HL)|cbn; lia|done].
      * intros t name u dn c0 ? (? & ? & ?). split_and!; [by apply (pr_node _ _ HL)|done..].
      * intros t h d u dn n x c0 ? (? & ? & ?). split_and!; [by apply (pr_domain _ _ HL)|done..].
      * intros t h x c0 ? (? & ? & ?). split_and!; [by apply (pr_name _ _ HL)|done..].
      * intros x c0 (? & ? & ?). split_and!; [by apply (pr_err _ _ HL)|done..].
    + intros _. destruct Hl as [[? ? ? ?] _ _ _]. split_and!; [|cbn; rewrite E; by apply Hal|done].
      apply (fresh_lined _ e.1); try done. unfold step_of. cbn. rewrite E. apply He.
  - done.
  - split_and!; [|cbn; by apply Hal|done]. apply (fresh_lined _ now0); try done; [|apply Hn].
    by destruct (New_balanced now0 config) as [[? _ _ _] _].
Qed.

(** the history is an unbroken timeline.  After any sequence of calls the
    retained buckets and the current one start exactly one interval apart, on
    interval boundaries, and all of them are served, oldest first. *)
Theorem timeline_contiguous now config log :
  after_epoch config now → Forall (λ e, after_epoch config e.1) log →
  let c := run log (New now config) in
  let step := interval_secs (BucketInterval (resolve_config config)) in
  (∀ i x y, (bT <$> timeline c) !! i = Some x → (bT <$> timeline c) !! S i = Some y → y = x + step) ∧
  (step | bT (cur c)) ∧
  orderedBucketsLocked c ++ [cur c] = timeline c.
Proof.
  intros Hn Hlog c step. destruct (run_lined now config log Hn Hlog) as [[Hr Hs Hp Ha] E]. fold c in Hr, Hs, Hp, Ha, E.
  unfold step_of in *. rewrite E in *. split_and!; [done..|]. rewrite orderedBuckets_history by done.
  unfold timeline in *. apply Forall_app in Hp as [Hp _]. f_equal. by apply filter_all.
Qed.

(** an event is filed in its own interval.  Whatever happened before, once
    the collector rotates to a time that is not before its current bucket, the
    current bucket is the one whose interval contains that time. *)
Theorem rotate_covers_now now0 config log now :
  after_epoch config now0 → Forall (λ e, after_epoch config e.1) log →
  let c := run log (New now0 config) in
  let b := cur (rotateLocked now c) in
  bT (cur c) ≤ unix now →
  bT b ≤ unix now < bT b + interval_secs (BucketInterval (resolve_config config)).
Proof.
  intros Hn Hlog c b Hle. destruct (run_lined now0 config log Hn Hlog) as [Hl E]. fold c in Hl, E.
  pose proof (lined_cur_pos c Hl). pose proof (alignUnix_bounds (unix now) (BucketInterval (cfg c))) as Hb.
  assert (bT (cur c) ≤ alignUnix (unix now) (BucketInterval (cfg c))) as Hle'.
  { destruct Hl as [_ _ _ [k Hk]]. unfold step_of in Hk. unfold alignUnix in *.
    rewrite Z.quot_div_nonneg in * by (try apply interval_secs_pos; lia).
    rewrite Hk in *. apply Z.mul_le_mono_nonneg_r; [pose proof (interval_secs_pos (BucketInterval (cfg c))); lia|].
    apply Z.div_le_lower_bound; [apply interval_secs_pos|lia]. }
  unfold b. rewrite rotate_lands by done. rewrite <- E. apply Hb. lia.
Qed.
End claims.

#[local] Instance time_sort : GoSort := merge_GoSort.
#[local] Instance time_format : TimeFormat := λ _, String.EmptyString.

Lemma demo_after : Forall (λ e, after_epoch demo_config e.1) demo_log.
Proof. unfold demo_log. repeat (apply Forall_cons; split; [vm_compute; by intros [=]|]). apply Forall_nil_2. Defined.

Lemma timeline_contiguous_witness :
  let c := run demo_log (New (90 * second) demo_config) in
  (bT <$> timeline c) = [60; 120; 180] ∧ orderedBucketsLocked c ++ [cur c] = timeline c.
Proof.
  split; [vm_compute; reflexivity|].
  refine (proj2 (proj2 (timeline_contiguous (90 * second) demo_config demo_log _ demo_after))).
  vm_compute. by intros [=].
Defined.

Lemma rotate_covers_now_witness :
  let c := run demo_log (New (90 * second) demo_config) in
  bT (cur (rotateLocked (1000 * second) c)) ≤ 1000.
Proof.
  refine (proj1 (rotate_covers_now (90 * second) demo_config demo_log (1000 * second) _ demo_after _));
    vm_compute; by intros [=].
Defined.

(** ** Rates *)

(** The slots after moving from second [rs] to [s]. *)
Definition advance (rs s : Z) (l : list Z) : list Z :=
  if rs <? s then if rateSlots <=? s - rs then noRates else clear_slots rs (s - rs) l else l.

Lemma addRate_slots s up down c :
  let c' := addRateLocked s up down c in
  rateSec c' = s ∧ rateUp c' = bump (slot s) up (advance (rateSec c) s (rateUp c)) ∧
  rateDown c' = bump (slot s) down (advance (rateSec c) s (rateDown c)).
Proof.
  unfold addRateLocked, advance. cbv zeta.
  destruct (Z.eqb_spec (rateSec c) s) as [E|]; [rewrite E, Z.ltb_irrefl|].
  - repeat case_match; by split.
  - destruct (rateSec c <? s); [destruct (rateSlots <=? s - rateSec c)|]; repeat case_match; done.
Qed.

Lemma slot_eq sec : 0 ≤ sec → slot sec = Z.to_nat (sec `mod` 60).
Proof. intros. unfold slot, rateSlots. by rewrite Z.rem_mod_nonneg by lia. Qed.

Lemma slot_inj a b : 0 ≤ a → 0 ≤ b → Z.abs (a - b) < 60 → slot a = slot b → a = b.
Proof.
  intros Ha Hb Hab. rewrite !slot_eq by done. intros E.
  pose proof (Z.div_mod a 60). pose proof (Z.div_mod b 60).
  pose proof (Z.mod_pos_bound a 60). pose proof (Z.mod_pos_bound b 60). lia.
Qed.

Lemma slot_lt sec : 0 ≤ sec → (slot sec < 60)%nat.
Proof. intros. rewrite slot_eq by done. pose proof (Z.mod_pos_bound sec 60). lia. Qed.

Lemma slot_before_eq now i : 0 ≤ now - i → slot_before now i = slot (now - i).
Proof.
  intros. unfold slot_before, slot. cbv zeta. destruct (Z.ltb_spec ((now - i) `rem` rateSlots) 0) as [Hlt|]; [|done].
  pose proof (Z.rem_nonneg (now - i) rateSlots). unfold rateSlots in *. lia.
Qed.

(** The slots of the sixty seconds up to [rs] hold what was recorded in them,
    and nothing has been recorded after [rs]. *)
Record slots_ok (rec : Z → Z) (rs : Z) (l : list Z) : Prop := {
  so_len : length l = 60%nat;
  so_slot : ∀ sec, 0 ≤ sec → rs - 60 < sec ≤ rs → l !! slot sec = Some (rec sec);
  so_future : ∀ sec, rs < sec → rec sec = 0;
}.

Lemma clear_slots_S rs gap l :
  0 ≤ gap → clear_slots rs (gap + 1) l = <[slot (rs + (gap + 1)) := 0]> (clear_slots rs gap l).
Proof.
  intros. unfold clear_slots. replace (Z.to_nat (gap + 1)) with (S (Z.to_nat gap)) by lia.
  rewrite seq_S, foldl_app. cbn. do 2 f_equal. lia.
Qed.

Lemma length_clear_slots rs gap l : length (clear_slots rs gap l) = length l.
Proof.
  unfold clear_slots. generalize (seq 1 (Z.to_nat gap)). intros ks. revert l.
  induction ks as [|k ks IH]; intros l; [done|]. cbn. by rewrite IH, length_insert.
Qed.

Lemma clear_slots_ok rec rs gap l :
  0 ≤ rs → 0 ≤ gap → slots_ok rec rs l → slots_ok rec (rs + gap) (clear_slots rs gap l).
Proof.
  intros Hrs Hgap [Hl Hs Hf]. revert gap Hgap. apply natlike_ind.
  - rewrite Z.add_0_r. by split.
  - intros gap Hgap [Hl' Hs' Hf']. unfold Z.succ. rewrite clear_slots_S by done. split.
    + by rewrite length_insert.
    + intros sec H0 Hsec. destruct (decide (sec = rs + (gap + 1))) as [->|Hne].
      * rewrite list_lookup_insert_eq; [by rewrite Hf by lia|]. rewrite Hl'. apply slot_lt. lia.
      * rewrite list_lookup_insert_ne; [apply Hs'; lia|]. intros E. apply slot_inj in E; lia.
    + intros sec Hsec. apply Hf. lia.
Qed.

Lemma advance_ok rec rs s l : 0 ≤ rs ≤ s → slots_ok rec rs l → slots_ok rec s (advance rs s l).
Proof.
  intros Hs Hok. unfold advance. destruct (Z.ltb_spec rs s); [|by replace s with rs by lia].
  destruct (Z.leb_spec rateSlots (s - rs)) as [Hg|Hg].
  - unfold rateSlots in Hg. destruct Hok as [_ _ Hf]. split; [done| |intros; apply Hf; lia].
    intros sec H0 Hsec. rewrite Hf by lia. unfold noRates. apply lookup_replicate. split; [done|by apply slot_lt].
  - replace s with (rs + (s - rs)) at 1 by lia. apply clear_slots_ok; [lia..|done].
Qed.

Definition plus_at (s n : Z) (rec : Z → Z) (sec : Z) : Z := if sec =? s then rec sec + n else rec sec.

Lemma bump_ok rec s n l : 0 ≤ s → slots_ok rec s l → slots_ok (plus_at s n rec) s (bump (slot s) n l).
Proof.
  intros H0 [Hl Hs Hf]. unfold bump, plus_at. split.
  - by rewrite length_insert.
  - intros sec Hsec0 Hsec. destruct (Z.eqb_spec sec s) as [->|Hne].
    + rewrite list_lookup_insert_eq by (rewrite Hl; by apply slot_lt). by rewrite (Hs s) by lia.
    + rewrite list_lookup_insert_ne; [by apply Hs|]. intros E. apply slot_inj in E; lia.
  - intros sec Hsec. destruct (Z.eqb_spec sec s); [lia|by apply Hf].
Qed.

(** Calls [(second, up, down)] in the order they are made. *)
Definition rate_calls (calls : list (Z * Z * Z)) (c : Collector) : Collector :=
  foldl (λ c x, addRateLocked x.1.1 x.1.2 x.2 c) c calls.

Fixpoint ascending (from : Z) (calls : list (Z * Z * Z)) : Prop :=
  match calls with [] => True | x :: r => from ≤ x.1.1 ∧ ascending x.1.1 r end.

(** What the calls recorded in one second. *)
Definition in_second (f : Z * Z * Z → Z) (calls : list (Z * Z * Z)) (sec : Z) : Z :=
  foldr (λ x n, (if x.1.1 =? sec then f x else 0) + n) 0 calls.

(** ... and over the [w] seconds before [now]. *)
Definition in_window (f : Z * Z * Z → Z) (calls : list (Z * Z * Z)) (now w : Z) : Z :=
  foldr (λ i n, in_second f calls (now - Z.of_nat i) + n) 0 (seq 1 (Z.to_nat w)).

Lemma slots_ok_ext rec rec' rs l : (∀ s, rec s = rec' s) → slots_ok rec rs l → slots_ok rec' rs l.
Proof. intros E [H1 H2 H3]. split; [done|intros; by rewrite <- E, H2|intros; by rewrite <- E, H3]. Qed.

Lemma rate_calls_ok calls c u d :
  0 ≤ rateSec c → ascending (rateSec c) calls →
  slots_ok u (rateSec c) (rateUp c) → slots_ok d (rateSec c) (rateDown c) →
  let c' := rate_calls calls c in
  rateSec c ≤ rateSec c' ∧
  slots_ok (λ s, u s + in_second (λ x, x.1.2) calls s) (rateSec c') (rateUp c') ∧
  slots_ok (λ s, d s + in_second snd calls s) (rateSec c') (rateDown c').
Proof.
  revert c u d. induction calls as [|[[s up] down] calls IH]; intros c u d H0 Hasc Hu Hd.
  - split; [done|]. split; (eapply slots_ok_ext; [|eassumption]); intros; cbn; lia.
  - destruct Hasc as [Hle Hasc]. cbn in Hle, Hasc.
    destruct (addRate_slots s up down c) as (Es & Eu & Ed).
    set (c1 := addRateLocked s up down c) in *.
    assert (slots_ok (plus_at s up u) s (rateUp c1)) as Hu1.
    { rewrite Eu. apply bump_ok; [lia|]. by apply advance_ok. }
    assert (slots_ok (plus_at s down d) s (rateDown c1)) as Hd1.
    { rewrite Ed. apply bump_ok; [lia|]. by apply advance_ok. }
    change (rate_calls ((s, up, down) :: calls) c) with (rate_calls calls c1).
    rewrite <- Es in Hasc, Hu1, Hd1. destruct (IH c1 _ _ ltac:(lia) Hasc Hu1 Hd1) as (H1 & H2 & H3).
    split; [lia|]. rewrite Es in H2, H3. split; (eapply slots_ok_ext; [|eassumption]); intros x;
      unfold plus_at, in_second; cbn [foldr fst snd]; rewrite (Z.eqb_sym s x); destruct (x =? s); lia.
Qed.

Lemma sum_slots_window f calls rs l now w :
  slots_ok (in_second f calls) rs l → rs ≤ now ≤ rs + 1 → 60 ≤ now → 0 ≤ w < 60 →
  sum_slots l now w = in_window f calls now w.
Proof.
  intros [_ Hs _] Hnow H60 Hw. unfold sum_slots, in_window.
  assert (Forall (λ i, (1 ≤ i < 60)%nat) (seq 1 (Z.to_nat w))) as Hall.
  { apply Forall_forall. intros i Hi%elem_of_seq. lia. }
  induction Hall as [|i ks Hi _ IH]; [done|]. cbn [foldr]. rewrite IH. f_equal.
  rewrite slot_before_eq, Hs by lia. done.
Qed.

(** rates are exact while traffic flows.  For calls in time order, a reading
    in the second of the last call or the one after it returns, for both
    directions, the bytes recorded in the window's seconds divided by the
    window. *)
Theorem rate_exact now0 config calls nowSec window :
  60 ≤ unix now0 → ascending (unix now0) calls →
  let c := rate_calls calls (New now0 config) in
  rateSec c ≤ nowSec ≤ rateSec c + 1 →
  let w := rate_window window in
  rateLocked nowSec window c =
  {| rUpload := in_window (λ x, x.1.2) calls nowSec w `quot` w;
     rDownload := in_window snd calls nowSec w `quot` w |}.
Proof.
  intros H60 Hasc c Hnow w.
  assert (slots_ok (λ _, 0) (unix now0) noRates) as Hz.
  { split; [done| |done]. intros. apply lookup_replicate. split; [done|by apply slot_lt]. }
  destruct (rate_calls_ok calls (New now0 config) (λ _, 0) (λ _, 0)) as (H1 & H2 & H3); [cbn; lia|done..|].
  fold c in H1, H2, H3. cbn [rateSec New] in H1.
  assert (0 ≤ w < 60) by (unfold w, rate_window, rateSlots; destruct (Z.leb_spec window 0), (Z.leb_spec 60 window); cbn; lia).
  unfold rateLocked. fold w. f_equal; f_equal; by eapply sum_slots_window; [|done..|lia|lia].
Qed.

Definition rate_demo_config : Config :=
  {| HistoryMinutes := 0; BucketInterval := 0; File := String.EmptyString; SaveInterval := 0;
     DomainLimit := 0; ErrorLimit := 0 |}.

Lemma rate_exact_witness :
  rateLocked 102 2 (rate_calls [(100, 500, 7); (101, 1000, 0)] (New (100 * second) rate_demo_config)) =
  {| rUpload := 750; rDownload := 3 |}.
Proof.
  etransitivity; [apply rate_exact; vm_compute; (done || (split; done) || auto)|reflexivity].
Defined.

(** a reading after an idle second is not exact.  One upload of 1000 bytes
    in second 100 is reported as the current rate in second 161, when the last
    second, and the whole minute, saw nothing: the slots of idle seconds are
    cleared only by the next transfer. *)
Theorem rate_stale_after_idle :
  let calls := [(100, 1000, 0)] in
  let c := rate_calls calls (New (100 * second) rate_demo_config) in
  in_window (λ x, x.1.2) calls 161 (rate_window 1) = 0 ∧ rUpload (rateLocked 161 1 c) = 1000.
Proof. done. Qed.
End StatsTime.
