(* ===== verification/StatsView.v ===== *)
(** * core/stats: what the collector reports (stats.go, read side)

    The views the API serves: live sessions with their speeds, the tables, the error
    log, the summary and the time series.  A view that moves the history forward or
    samples a session's rate also returns the new state of the collector. *)

From S2P Require Import Prelude GoStrings Stats.
Import Stats.

Module StatsView.

Definition maxSeriesPoints : Z := 2000.

(** [d.Milliseconds()] *)
Definition Milliseconds (d : duration) : Z := d `quot` millisecond.

(** ** Sessions *)

Record SessionView := {
  vID : Z; vProto : string; vClient : string; vHost : string; vPort : Z; vDecision : string;
  vNode : string; vStart : Z; vAgeMs : Z; vUpload : Z; vDownload : Z; vUploadBps : Z; vDownBps : Z;
}.

(** [(up - s.rateUp) * 1000 / ms] in 64 bits. *)
Definition bps (now_bytes then_bytes ms : Z) : Z := int64 ((now_bytes - then_bytes) * 1000) `quot` ms.

(** [rates]: the speeds, and the session with its new sample. *)
Definition rates (now : time) (up down : Z) (s : Session) : Z * Z * Session :=
  let at_ := default (sstart s) (rateAt s) in
  let s := s <| rateAt := Some at_ |> in
  let dt := now - at_ in
  let s := if minRateSample <=? dt then
             let ms := Milliseconds dt in
             s <| curUpBps := bps up (srateUp s) ms |> <| curDownBps := bps down (srateDown s) ms |>
               <| rateAt := Some now |> <| srateUp := up |> <| srateDown := down |>
           else s in
  (curUpBps s, curDownBps s, s).

Definition view (now : time) (s : Session) : SessionView * Session :=
  let age := now - sstart s in
  let '(upBps, downBps, s') := rates now (upload s) (download s) s in
  ({| vID := sid s; vProto := proto_string (proto s); vClient := client s; vHost := host s;
      vPort := port s; vDecision := decision_string (decision s); vNode := Node s;
      vStart := unix (sstart s); vAgeMs := Milliseconds age; vUpload := upload s;
      vDownload := download s; vUploadBps := upBps; vDownBps := downBps |}, s').

Record ActiveOptions := { aLimit : Z; aProto : string; aDecision : string; aHost : string }.

Definition containsFold `{UnicodeCase} (s sub : string) : bool :=
  if String.eqb sub "" then true else Contains (ToLower s) (ToLower sub).

(** The loop over [c.active]. *)
Definition selected `{UnicodeCase} (opt : ActiveOptions) (s : Session) : bool :=
  if negb (String.eqb (aProto opt) "") && negb (String.eqb (proto_string (proto s)) (aProto opt)) then false
  else if negb (String.eqb (aDecision opt) "") && negb (String.eqb (decision_string (decision s)) (aDecision opt))
  then false
  else if negb (String.eqb (aHost opt) "") && negb (containsFold (host s) (aHost opt)) then false
  else true.

Definition newest (x y : Session) : bool := sid y <? sid x.
Definition faster (x y : Session * Z) : bool := y.2 <? x.2.

(** The registered sessions, in the order the map is ranged over. *)
Definition active_list (c : Collector) : list Session :=
  omap (λ i, sessions c !! i) (elements (active c)).

(** Write the sampled sessions back: they are shared objects. *)
Definition store_all (l : list Session) (c : Collector) : Collector :=
  foldl (λ c s, c <| sessions ::= <[sid s := s]> |>) c l.

(** [scored{s, u + d}], with the sample it takes. *)
Definition score (now : time) (s : Session) : Session * Z :=
  let '(u, d, s') := rates now (upload s) (download s) s in (s', u + d).

Section views.
Context `{UnicodeCase, GoSort, TimeFormat}.

(** Over the limit: keep the fastest, newest first. *)
Definition keep_fastest (now : time) (limit : Z) (all : list Session) : list Session * list Session :=
  let sc := score now <$> all in
  let keep := take (Z.to_nat limit) (sort_stable faster sc) in
  (sort_slice newest keep.*1, sc.*1).

Definition ActiveSessions (now : time) (opt : ActiveOptions) (c : Collector) : Collector * list SessionView :=
  let limit := if aLimit opt <=? 0 then 100 else aLimit opt in
  let all := sort_slice newest (filter (λ s, selected opt s = true) (active_list c)) in
  let '(all, sampled) := if limit <? Z.of_nat (length all) then keep_fastest now limit all else (all, []) in
  let out := view now <$> all in
  (store_all out.*2 (store_all sampled c), out.*1).

(** ** Tables *)

(** [if len(out) > limit { out = out[:limit] }] *)
Definition cut {A} (limit : Z) (l : list A) : list A :=
  if limit <? Z.of_nat (length l) then take (Z.to_nat limit) l else l.

Definition by_conns (x y : DomainStat) : bool :=
  if dConns x =? dConns y then DomainStat_Total y <? DomainStat_Total x else dConns y <? dConns x.
Definition by_bytes (x y : DomainStat) : bool :=
  if DomainStat_Total x =? DomainStat_Total y then dConns y <? dConns x
  else DomainStat_Total y <? DomainStat_Total x.
Definition by_conns_only (x y : DomainStat) : bool := dConns y <? dConns x.

(** The values of a table, as [range] yields them. *)
Definition rows (m : gmap string DomainStat) : list DomainStat := (map_to_list m).*2.

Definition topDomainsLocked (limit : Z) (order : string) (c : Collector) : list DomainStat :=
  let limit := if limit <=? 0 then 50 else limit in
  cut limit (sort_slice (if String.eqb order "conns" then by_conns else by_bytes) (rows (domains c))).

Definition Domains := topDomainsLocked.

Definition routed_by (d : Decision) (e : DomainStat) : bool :=
  if bool_decide (d = DecisionDirect) && (dDirectConns e =? 0) then false
  else if bool_decide (d = DecisionProxy) && (dProxyConns e =? 0) then false
  else true.

Definition TopDomainsByDecision (limit : Z) (d : Decision) (order : string) (c : Collector) : list DomainStat :=
  let out := filter (λ e, routed_by d e = true) (rows (domains c)) in
  let out := sort_slice (if String.eqb order "conns" then by_conns_only else busier) out in
  if 0 <? limit then cut limit out else out.

Definition topFromLocked (m : gmap string DomainStat) (n : Z) : list DomainStat :=
  cut n (sort_slice by_conns (rows m)).

Definition busier_node (x y : NodeStat) : bool := nUpload y + nDownload y <? nUpload x + nDownload x.

Definition Nodes (c : Collector) : list NodeStat := sort_slice busier_node (map_to_list (nodes c)).*2.

Definition Errors (limit : Z) (c : Collector) : list ErrorEntry :=
  let limit := if (limit <=? 0) || (Z.of_nat (length (errs c)) <? limit) then Z.of_nat (length (errs c)) else limit in
  drop (length (errs c) - Z.to_nat limit) (errs c).

(** ** DNS and the summary *)

Definition copyMap (m : gmap string Z) : gmap string Z := map_fold (λ k v out, <[k := v]> out) ∅ m.

(** The counters, and the most queried names. *)
Record DNSView := { dvStat : DNSStat; dvTopDomains : list DomainStat }.

Definition dnsSnapshotLocked (topN : Z) (c : Collector) : DNSView :=
  {| dvStat := {| Queries := Queries (dns c); CacheHits := CacheHits (dns c); Failures := Failures (dns c);
                  dnsDirect := dnsDirect (dns c); DoH := DoH (dns c);
                  ByType := copyMap (ByType (dns c)); ByUpstream := copyMap (ByUpstream (dns c)) |};
     dvTopDomains := if 0 <? topN then topFromLocked (dnsNames c) topN else [] |}.

Definition DNSStats := dnsSnapshotLocked.

Record OverviewView := {
  oNow : Z; oStartTime : Z; oUptimeSeconds : Z; oActiveConns : Z;
  oTotals : Counters; oDirect : Counters; oProxy : Counters;
  oRate : Rate; oRate1m : Rate; oPeak : Rate; oDNS : DNSView; oTopDomains : list DomainStat;
}.

Definition Overview (now : time) (c : Collector) : Collector * OverviewView :=
  let nowSec := unix now in
  let c := rotateLocked now c in
  (c, {| oNow := nowSec; oStartTime := unix (cstart c);
         oUptimeSeconds := (now - cstart c) `quot` second;
         oActiveConns := Z.of_nat (size (active c));
         oTotals := totals c; oDirect := direct c; oProxy := proxy c;
         oRate := rateLocked nowSec 5 c; oRate1m := rateLocked nowSec 60 c;
         oPeak := {| rUpload := peakUp c; rDownload := peakDown c |};
         oDNS := dnsSnapshotLocked 10 c; oTopDomains := topDomainsLocked 10 "bytes" c |}).

(** ** The time series *)

Record SeriesPoint := {
  pT : Z; pTime : string; pUpload : Z; pDownload : Z; pConns : Z; pErrors : Z;
  pDirectUpload : Z; pDirectDownload : Z; pProxyUpload : Z; pProxyDownload : Z; pDNSQueries : Z;
}.

Definition emptyPoint (t : Z) (label : string) : SeriesPoint :=
  {| pT := t; pTime := label; pUpload := 0; pDownload := 0; pConns := 0; pErrors := 0;
     pDirectUpload := 0; pDirectDownload := 0; pProxyUpload := 0; pProxyDownload := 0; pDNSQueries := 0 |}.

Definition add_bucket (b : Bucket) (p : SeriesPoint) : SeriesPoint :=
  {| pT := pT p; pTime := pTime p; pUpload := pUpload p + bUpload b; pDownload := pDownload p + bDownload b;
     pConns := pConns p + bConns b; pErrors := pErrors p + bErrors b;
     pDirectUpload := pDirectUpload p + bDirectUpload b; pDirectDownload := pDirectDownload p + bDirectDownload b;
     pProxyUpload := pProxyUpload p + bProxyUpload b; pProxyDownload := pProxyDownload p + bProxyDownload b;
     pDNSQueries := pDNSQueries p + bDNSQueries b |}.

(** [agg]: the sums, by the start of their interval. *)
Definition aggregate (step : duration) (bs : list Bucket) : gmap Z SeriesPoint :=
  foldl (λ agg b, let k := alignUnix (bT b) step in
                  <[k := add_bucket b (default (emptyPoint k "") (agg !! k))]> agg) ∅ bs.

Definition point_at (agg : gmap Z SeriesPoint) (t : Z) : SeriesPoint :=
  let p := emptyPoint t (rfc3339 (t * second)) in
  match agg !! t with
  | Some a => {| pT := t; pTime := pTime p; pUpload := pUpload a; pDownload := pDownload a;
                 pConns := pConns a; pErrors := pErrors a; pDirectUpload := pDirectUpload a;
                 pDirectDownload := pDirectDownload a; pProxyUpload := pProxyUpload a;
                 pProxyDownload := pProxyDownload a; pDNSQueries := pDNSQueries a |}
  | None => p
  end.

(** [for t := start; t <= end; t += stepSec]; [None] is running out of fuel. *)
Fixpoint series_loop (fuel : nat) (agg : gmap Z SeriesPoint) (t end_ stepSec : Z) : option (list SeriesPoint) :=
  if t <=? end_ then
    match fuel with
    | O => None
    | S fuel => cons (point_at agg t) <$> series_loop fuel agg (t + stepSec) end_ stepSec
    end
  else Some [].

(** The buckets of the series: the ring and the one being filled. *)
Definition series_buckets (c : Collector) : list Bucket :=
  orderedBucketsLocked c ++ (if 0 <? bT (cur c) then [cur c] else []).

Definition series_window (since now : time) (step : duration) : Z * Z :=
  let stepSec := interval_secs step in
  let start := alignUnix (unix since) step in
  let end_ := alignUnix (unix now) step in
  (if maxSeriesPoints <? (end_ - start) `quot` stepSec + 1 then end_ - (maxSeriesPoints - 1) * stepSec
   else start, end_).

Definition series_fuel : nat := Z.to_nat maxSeriesPoints.

Definition Series (now since : time) (step : duration) (c : Collector) : Collector * option (list SeriesPoint) :=
  let step := if step <=? 0 then BucketInterval (cfg c) else step in
  let stepSec := interval_secs step in
  let c := rotateLocked now c in
  let buckets := series_buckets c in
  if alignUnix (unix now) step <? alignUnix (unix since) step then (c, Some [])
  else
    let '(start, end_) := series_window since now step in
    (c, series_loop series_fuel (aggregate step buckets) start end_ stepSec).

(** [HistoryWindow] as Unix seconds times [second]; the clock is read when there is no history. *)
Definition HistoryWindow (now : time) (c : Collector) : time * time :=
  let b := series_buckets c in
  match b, last b with
  | b0 :: _, Some bn => (bT b0 * second, bT bn * second)
  | _, _ => (cstart c, now)
  end.
End views.

(** ** Accessors *)

Definition StartTime (c : Collector) : time := cstart c.
Definition Collector_Config (c : Collector) : Config := cfg c.
Definition Upload (s : option Session) : Z := match s with Some s => upload s | None => 0 end.
Definition Download (s : option Session) : Z := match s with Some s => download s | None => 0 end.

End StatsView.
