(* ===== verification/StatsViewProps.v ===== *)
(** * core/stats: what the reported views guarantee

    The time series against the history it is drawn from, the tables as the top of
    their order, the live sessions, and the session speeds. *)

From S2P Require Import Prelude GoStrings Stats StatsProps StatsTime StatsView.
Import Stats StatsProps StatsTime StatsView.

Module StatsViewProps.

(** ** The series loop *)

(** Each field of a point, the bucket field it sums and the counter that is kept
    in step with both. *)
Definition charted : list ((SeriesPoint → Z) * (Bucket → Z) * (Collector → Z)) := [
  (pUpload, bUpload, λ c, cUpload (totals c)); (pDownload, bDownload, λ c, cDownload (totals c));
  (pConns, bConns, λ c, cConns (totals c)); (pErrors, bErrors, λ c, cErrors (totals c));
  (pDirectUpload, bDirectUpload, λ c, cUpload (direct c));
  (pDirectDownload, bDirectDownload, λ c, cDownload (direct c));
  (pProxyUpload, bProxyUpload, λ c, cUpload (proxy c));
  (pProxyDownload, bProxyDownload, λ c, cDownload (proxy c));
  (pDNSQueries, bDNSQueries, λ c, Queries (dns c))].

Lemma charted_ledger pf bf g : (pf, bf, g) ∈ charted → (bf, g) ∈ ledger.
Proof.
  unfold charted, ledger. rewrite !elem_of_cons.
  intros Hin. repeat destruct Hin as [[= -> -> ->]|Hin]; [naive_solver..|by apply not_elem_of_nil in Hin].
Qed.

Section series.
Context `{TimeFormat}.

(** How many points the loop emits from [t]. *)
Definition series_count (t end_ stepSec : Z) : nat :=
  if t <=? end_ then Z.to_nat ((end_ - t) `quot` stepSec + 1) else 0%nat.

Lemma series_count_S t end_ stepSec :
  0 < stepSec → t ≤ end_ → series_count t end_ stepSec = S (series_count (t + stepSec) end_ stepSec).
Proof.
  intros Hs Ht. unfold series_count. destruct (Z.leb_spec t end_); [|lia].
  rewrite Z.quot_div_nonneg by lia. destruct (Z.leb_spec (t + stepSec) end_).
  - rewrite Z.quot_div_nonneg by lia. replace (end_ - t) with (end_ - (t + stepSec) + 1 * stepSec) by lia.
    rewrite Z.div_add by lia. pose proof (Z.div_pos (end_ - (t + stepSec)) stepSec). lia.
  - by rewrite Z.div_small by lia.
Qed.

(** The loop terminates within the points it has to emit, each at its step. *)
Lemma series_loop_spec fuel agg t end_ stepSec :
  0 < stepSec → (series_count t end_ stepSec ≤ fuel)%nat →
  series_loop fuel agg t end_ stepSec =
  Some ((λ i, point_at agg (t + Z.of_nat i * stepSec)) <$> seq 0 (series_count t end_ stepSec)).
Proof.
  intros Hs. revert t. induction fuel as [|fuel IH]; intros t Hf; cbn [series_loop].
  - destruct (Z.leb_spec t end_); [rewrite series_count_S in Hf by done; lia|].
    unfold series_count. by destruct (Z.leb_spec t end_); [lia|].
  - destruct (Z.leb_spec t end_) as [Ht|Ht].
    + rewrite series_count_S in * by done. rewrite IH by lia. cbn. f_equal. f_equal; [f_equal; lia|].
      rewrite <- seq_shift, <- list_fmap_compose. apply list_fmap_ext. intros i x _. cbn. f_equal. lia.
    + unfold series_count. by destruct (Z.leb_spec t end_); [lia|].
Qed.

(** ** Aggregation *)

Lemma aggregate_snoc step bs b :
  aggregate step (bs ++ [b]) =
  let k := alignUnix (bT b) step in
  <[k := add_bucket b (default (emptyPoint k "") (aggregate step bs !! k))]> (aggregate step bs).
Proof. unfold aggregate. by rewrite foldl_app. Qed.

Lemma charted_add pf bf g b p : (pf, bf, g) ∈ charted → pf (add_bucket b p) = pf p + bf b.
Proof.
  unfold charted. rewrite !elem_of_cons. intros Hin.
  repeat destruct Hin as [[= -> -> ->]|Hin]; [done..|by apply not_elem_of_nil in Hin].
Qed.

Lemma charted_empty pf bf g t l : (pf, bf, g) ∈ charted → pf (emptyPoint t l) = 0.
Proof.
  unfold charted. rewrite !elem_of_cons. intros Hin.
  repeat destruct Hin as [[= -> -> ->]|Hin]; [done..|by apply not_elem_of_nil in Hin].
Qed.

Lemma charted_point pf bf g agg t :
  (pf, bf, g) ∈ charted → pf (point_at agg t) = from_option pf 0 (agg !! t).
Proof.
  unfold charted, point_at. rewrite !elem_of_cons. intros Hin.
  destruct (agg !! t); (repeat destruct Hin as [[= -> -> ->]|Hin]; [done..|by apply not_elem_of_nil in Hin]).
Qed.

(** The buckets of the interval that starts at [t]. *)
Definition in_interval (step : duration) (t : Z) (bs : list Bucket) : list Bucket :=
  filter (λ b, alignUnix (bT b) step = t) bs.

Lemma aggregate_sum pf bf g step bs t :
  (pf, bf, g) ∈ charted → from_option pf 0 (aggregate step bs !! t) = sumb bf (in_interval step t bs).
Proof.
  intros Hin. induction bs as [|b bs IH] using rev_ind; [done|].
  rewrite aggregate_snoc. cbv zeta. unfold in_interval in *. rewrite filter_app, sumb_app, <- IH.
  rewrite filter_cons, filter_nil. destruct (decide (alignUnix (bT b) step = t)) as [<-|Hne].
  - rewrite lookup_insert_eq. cbn. rewrite (charted_add _ _ _ _ _ Hin).
    destruct (aggregate step bs !! _); cbn; [|rewrite (charted_empty _ _ _ _ _ Hin)]; lia.
  - rewrite lookup_insert_ne by done. cbn. lia.
Qed.

(** ** The window *)

Lemma alignUnix_divide t step : (interval_secs step | alignUnix t step).
Proof. apply Z.divide_factor_r. Qed.

Record window_ok (since now : time) (step : duration) (lo hi : Z) : Prop := {
  wo_hi : hi = alignUnix (unix now) step;
  wo_le : lo ≤ hi;
  wo_since : alignUnix (unix since) step ≤ lo;
  wo_div : (interval_secs step | lo);
  wo_count : hi = lo + (Z.of_nat (series_count lo hi (interval_secs step)) - 1) * interval_secs step;
  wo_max : (1 ≤ series_count lo hi (interval_secs step) ≤ series_fuel)%nat;
  wo_lo : lo = Z.max (alignUnix (unix since) step) (hi - (maxSeriesPoints - 1) * interval_secs step);
}.

Lemma series_window_ok since now step :
  alignUnix (unix since) step ≤ alignUnix (unix now) step →
  window_ok since now step (series_window since now step).1 (series_window since now step).2.
Proof.
  intros Hle. unfold series_window. cbn [fst snd].
  pose proof (interval_secs_pos step) as Hs. set (S := interval_secs step) in *.
  destruct (alignUnix_divide (unix since) step) as [a Ha], (alignUnix_divide (unix now) step) as [b Hb].
  fold S in Ha, Hb. assert (a ≤ b) as Hab by nia.
  assert (∀ x, x ≤ b → (b * S - x * S) `quot` S = b - x) as Hq.
  { intros x Hx. replace (b * S - x * S) with ((b - x) * S) by lia. by rewrite Z.quot_mul by lia. }
  assert (∀ x, x ≤ b → series_count (x * S) (b * S) S = Z.to_nat (b - x + 1)) as Hc.
  { intros x Hx. unfold series_count. rewrite Hq by done. destruct (Z.leb_spec (x * S) (b * S)); [done|nia]. }
  assert (∀ x, x = Z.max a (b - (maxSeriesPoints - 1)) → window_ok since now step (x * S) (b * S)) as Hok.
  { unfold maxSeriesPoints. intros x Hx. split; fold S; rewrite ?Ha, ?Hb, ?Hc by lia;
      unfold series_fuel, maxSeriesPoints; [done|nia|nia|apply Z.divide_factor_r|nia|lia|].
    replace (b * S - (2000 - 1) * S) with ((b - (2000 - 1)) * S) by lia.
    rewrite Hx, <- Z.mul_max_distr_nonneg_r by lia. done. }
  rewrite Ha, Hb, Hq by done. destruct (Z.ltb_spec maxSeriesPoints (b - a + 1)); [|apply Hok; lia].
  replace (b * S - (maxSeriesPoints - 1) * S) with ((b - (maxSeriesPoints - 1)) * S) by lia. apply Hok. lia.
Qed.

(** ** Claims *)

(** [Series] with its arguments resolved. *)
Definition series_step (step : duration) (c : Collector) : duration :=
  if step <=? 0 then BucketInterval (cfg c) else step.

Lemma Series_eq now since step c :
  let step' := series_step step c in
  alignUnix (unix since) step' ≤ alignUnix (unix now) step' →
  let c' := rotateLocked now c in
  let w := series_window since now step' in
  Series now since step c =
  (c', Some ((λ i, point_at (aggregate step' (series_buckets c')) (w.1 + Z.of_nat i * interval_secs step'))
        <$> seq 0 (series_count w.1 w.2 (interval_secs step')))).
Proof.
  intros step' Hle c' w. unfold Series. fold (series_step step c). fold step' c'.
  destruct (Z.ltb_spec (alignUnix (unix now) step') (alignUnix (unix since) step')); [lia|].
  destruct (series_window_ok since now step' Hle) as [_ _ _ _ _ [_ Hm]].
  subst w. destruct (series_window since now step') as [lo hi]. cbn [fst snd] in *. f_equal.
  apply series_loop_spec; [apply interval_secs_pos|done].
Qed.

(** C34: the series always ends, and stays small.  Whatever range and step a caller
    asks for, the loop runs out on its own before its bound and emits at most 2000
    points. *)
Theorem Series_terminates now since step c :
  ∃ points, (Series now since step c).2 = Some points ∧ Z.of_nat (length points) ≤ maxSeriesPoints.
Proof.
  destruct (decide (alignUnix (unix since) (series_step step c) ≤ alignUnix (unix now) (series_step step c))) as [Hle|Hgt].
  - rewrite Series_eq by done. eexists; split; [done|]. rewrite length_fmap, length_seq.
    destruct (series_window_ok since now _ Hle) as [_ _ _ _ _ [_ Hm]].
    unfold series_fuel, maxSeriesPoints in *. lia.
  - exists []. split; [|done]. unfold Series. fold (series_step step c).
    destruct (Z.ltb_spec (alignUnix (unix now) (series_step step c)) (alignUnix (unix since) (series_step step c))); [done|lia].
Qed.

(** the series is the history, regrouped.  Its points start one step apart on
    step boundaries, from no earlier than the range asked for up to the interval of
    the current time; each field of a point is the sum of that field over the
    buckets, the one being filled included, that fall into its interval. *)
Theorem Series_exact now since step c :
  let step' := series_step step c in
  alignUnix (unix since) step' ≤ alignUnix (unix now) step' →
  ∃ lo points,
    (Series now since step c).2 = Some points ∧
    alignUnix (unix since) step' ≤ lo ∧ (interval_secs step' | lo) ∧
    (∀ i p, points !! i = Some p →
       pT p = lo + Z.of_nat i * interval_secs step' ∧ pTime p = rfc3339 (pT p * second) ∧
       ∀ pf bf g, (pf, bf, g) ∈ charted →
         pf p = sumb bf (in_interval step' (pT p) (series_buckets (rotateLocked now c)))) ∧
    pT <$> last points = Some (alignUnix (unix now) step').
Proof.
  intros step' Hle. rewrite Series_eq by done. fold step'.
  destruct (series_window_ok since now step' Hle) as [Hhi Hlo Hsince Hdiv Hcount Hmax].
  destruct (series_window since now step') as [lo hi]. cbn [fst snd] in *.
  exists lo. eexists. split; [done|]. split_and!; [done..| |].
  - intros i p. rewrite list_lookup_fmap. intros Hp. apply fmap_Some in Hp as (k & Hk & ->).
    apply lookup_seq in Hk as [-> _]. cbn [Nat.add]. set (t := lo + Z.of_nat i * _).
    assert (∀ agg, pT (point_at agg t) = t ∧ pTime (point_at agg t) = rfc3339 (t * second)) as Ht
      by (intros agg; unfold point_at; by destruct (agg !! t)).
    destruct (Ht (aggregate step' (series_buckets (rotateLocked now c)))) as [-> ->]. split_and!; [done..|].
    intros pf bf g Hin. rewrite (charted_point _ _ _ _ _ Hin). by eapply aggregate_sum.
  - destruct (series_count lo hi (interval_secs step')) as [|n]; [lia|].
    rewrite seq_S, fmap_last, last_snoc. cbn [fmap option_fmap option_map Nat.add].
    f_equal. rewrite <- Hhi, Hcount. unfold point_at. destruct (_ !! _); cbn; lia.
Qed.
End series.

(** ** Sums over the points *)

Definition sump (f : SeriesPoint → Z) (l : list SeriesPoint) : Z := foldr (λ p s, f p + s) 0 l.

Definition sumn (f : nat → Z) (n : nat) : Z := foldr (λ i s, f i + s) 0 (seq 0 n).

Lemma sumn_S f n : sumn f (S n) = sumn f n + f n.
Proof.
  unfold sumn. rewrite seq_S, foldr_app. cbn. generalize (seq 0 n). intros l.
  induction l as [|i l IH]; cbn; lia.
Qed.

Lemma sumn_plus f g n : sumn (λ i, f i + g i) n = sumn f n + sumn g n.
Proof. induction n as [|n IH]; [done|]. rewrite !sumn_S, IH. lia. Qed.

Lemma sumn_zero n : sumn (λ _, 0) n = 0.
Proof. induction n as [|n IH]; [done|]. rewrite sumn_S, IH. lia. Qed.

Lemma sumn_ext f g n : (∀ i, f i = g i) → sumn f n = sumn g n.
Proof. intros E. induction n as [|n IH]; [done|]. by rewrite !sumn_S, IH, E. Qed.

(** Exactly one point of the grid gets the value. *)
Lemma sumn_indicator lo step k v n :
  0 < step →
  sumn (λ i, if decide (lo + k * step = lo + Z.of_nat i * step) then v else 0) n =
  if (0 <=? k) && (k <? Z.of_nat n) then v else 0.
Proof.
  intros Hs. induction n as [|n IH]; [by destruct (Z.leb_spec 0 k), (Z.ltb_spec k (Z.of_nat 0)); cbn; try lia|].
  rewrite sumn_S, IH. destruct (decide (lo + k * step = lo + Z.of_nat n * step)) as [E|E].
  - assert (k = Z.of_nat n) as -> by nia.
    destruct (Z.leb_spec 0 (Z.of_nat n)), (Z.ltb_spec (Z.of_nat n) (Z.of_nat n)), (Z.ltb_spec (Z.of_nat n) (Z.of_nat (S n))); cbn; lia.
  - assert (k ≠ Z.of_nat n) by (intros ->; lia).
    destruct (Z.leb_spec 0 k), (Z.ltb_spec k (Z.of_nat n)), (Z.ltb_spec k (Z.of_nat (S n))); cbn; lia.
Qed.

(** Regrouping a list of buckets over the grid keeps what starts at or after its
    first point, when nothing lies beyond the last one. *)
Lemma sumn_intervals f step lo n bs :
  (interval_secs step | lo) →
  Forall (λ b, alignUnix (bT b) step < lo + Z.of_nat n * interval_secs step) bs →
  sumn (λ i, sumb f (in_interval step (lo + Z.of_nat i * interval_secs step) bs)) n =
  sumb f (filter (λ b, lo ≤ alignUnix (bT b) step) bs).
Proof.
  intros [a Ha] Hbs. pose proof (interval_secs_pos step) as Hs. set (S := interval_secs step) in *.
  induction Hbs as [|b bs Hb Hbs IH]; [apply sumn_zero|].
  rewrite (sumn_ext _ (λ i, (if decide (alignUnix (bT b) step = lo + Z.of_nat i * S) then f b else 0) +
                            sumb f (in_interval step (lo + Z.of_nat i * S) bs))).
  2:{ intros i. unfold in_interval. rewrite filter_cons. by repeat case_decide. }
  rewrite sumn_plus, IH, filter_cons.
  destruct (alignUnix_divide (bT b) step) as [k Hk]. fold S in Hk. rewrite Hk in *.
  replace (k * S) with (lo + (k - a) * S) by lia. rewrite sumn_indicator by done.
  replace (lo + (k - a) * S) with (k * S) in * by lia.
  destruct (Z.leb_spec 0 (k - a)), (Z.ltb_spec (k - a) (Z.of_nat n)); cbn [andb];
    destruct (decide (lo ≤ k * S)); first [done|cbn; nia].
Qed.

Lemma sump_fmap f (g : nat → SeriesPoint) n : sump f (g <$> seq 0 n) = sumn (λ i, f (g i)) n.
Proof. unfold sump, sumn. generalize (seq 0 n). intros l. induction l; cbn; by rewrite ?IHl. Qed.

Lemma sumb_filter_le f (P : Bucket → Prop) `{∀ b, base.Decision (P b)} l :
  Forall (λ b, 0 ≤ f b) l → sumb f (filter P l) ≤ sumb f l.
Proof. induction 1 as [|b l Hb _ IH]; [done|]. rewrite filter_cons. unfold sumb in *. case_decide; cbn; lia. Qed.

Section conserves.
Context `{GoSort, TimeFormat}.

Lemma charted_rotate pf bf g now c : (pf, bf, g) ∈ charted → g (rotateLocked now c) = g c.
Proof.
  unfold charted. rewrite !elem_of_cons. intros Hin.
  repeat destruct Hin as [[= -> -> ->]|Hin]; [by autorewrite with stats..|by apply not_elem_of_nil in Hin].
Qed.

Lemma series_buckets_timeline c : lined c → series_buckets c = timeline c.
Proof.
  intros [Hr _ Hp _]. unfold series_buckets, timeline in *. rewrite orderedBuckets_history by done.
  apply Forall_app in Hp as [Hp Hc]. rewrite filter_all by done. rewrite Forall_singleton in Hc.
  by destruct (Z.ltb_spec 0 (bT (cur c))); [|lia].
Qed.

(** The books of the history, after one more rotation. *)
Lemma rotated_books now0 config log now pf bf g :
  Forall sizes_ok log → (pf, bf, g) ∈ charted →
  let c := rotateLocked now (run log (New now0 config)) in
  Forall (λ b, 0 ≤ bf b) (timeline c) ∧ sumb bf (timeline c) ≤ g c ∧
  ((length (buckets c) < bcap c)%nat → sumb bf (timeline c) = g c).
Proof.
  intros Hsz Hin c. apply charted_ledger in Hin. unfold c.
  destruct (balanced_rotate now (run log (New now0 config))) as [_ Hl].
  - apply (run_inv balanced sizes_ok); [intros; by apply apply_balanced|done|apply New_balanced].
  - rewrite Forall_forall in Hl. by destruct (Hl _ Hin).
Qed.

(** C8: the chart shows what the history holds.  For a clock that does not run backwards
    past the collector's start, and any sequence of calls, the series is a grid of
    points, one per step from the start of the range (or 2000 steps back, if that is
    later) to now.  Each point is, field by field, the sum of the retained buckets that
    fall in its step, and all of them together that of the retained buckets from the first
    point on.  That is never more than the collector's total, and exactly the total when
    the ring has not wrapped and the grid reaches back to the oldest bucket. *)
Theorem Series_conserves now0 config log now since step :
  up_to config now now0 → Forall (λ e, up_to config now e.1) log → Forall sizes_ok log →
  let c := run log (New now0 config) in
  let c' := rotateLocked now c in
  let step' := series_step step c in
  let start := alignUnix (unix since) step' in
  let end_ := alignUnix (unix now) step' in
  let first := Z.max start (end_ - (maxSeriesPoints - 1) * interval_secs step') in
  start ≤ end_ →
  ∃ points, (Series now since step c).2 = Some points ∧
    end_ = first + (Z.of_nat (length points) - 1) * interval_secs step' ∧
    ∀ pf bf g, (pf, bf, g) ∈ charted →
      (∀ i p, points !! i = Some p →
         pT p = first + Z.of_nat i * interval_secs step' ∧
         pf p = sumb bf (filter (λ b, alignUnix (bT b) step' = pT p) (timeline c'))) ∧
      sump pf points = sumb bf (filter (λ b, first ≤ alignUnix (bT b) step') (timeline c')) ∧
      sump pf points ≤ g c ∧
      ((length (buckets c') < bcap c')%nat → Forall (λ b, first ≤ alignUnix (bT b) step') (timeline c') →
       sump pf points = g c).
Proof.
  intros Hn Hlog Hsz c c' step' start end_ first Hle. rewrite Series_eq by done. fold step'.
  destruct (run_lined now0 config log (proj1 Hn) (up_to_after _ _ _ Hlog)) as [Hl E].
  pose proof (run_not_ahead config now0 log now Hn Hlog) as Hcur. fold c in Hl, E, Hcur.
  pose proof (up_to_pos _ _ _ Hn) as Hn0. pose proof (unix_mono _ _ (proj2 Hn)).
  destruct (series_window_ok since now step' Hle) as [Hhi Hlo Hsince Hdiv Hcount Hmax Hw].
  set (w := series_window since now step') in *. set (n := series_count _ _ _) in *.
  rewrite Hhi in Hw. fold start end_ first in Hw. rewrite <- Hw.
  fold c'. eexists. split; [done|]. split; [rewrite length_fmap, length_seq; unfold end_; by rewrite <- Hhi|]. intros pf bf g Hin.
  assert (lined c') as Hl' by by apply rotate_lined.
  assert (bT (cur c') ≤ unix now) as Hcur' by (apply rotate_not_ahead; [done|lia..]).
  assert (∀ t, pf (point_at (aggregate step' (series_buckets c')) t) = sumb bf (in_interval step' t (timeline c'))) as Hpt.
  { intros t. rewrite (charted_point _ _ _ _ _ Hin), (aggregate_sum _ _ _ _ _ _ Hin). by rewrite series_buckets_timeline. }
  assert (Forall (λ b, 0 ≤ bf b) (timeline c') ∧ sumb bf (timeline c') ≤ g c ∧
          ((length (buckets c') < bcap c')%nat → sumb bf (timeline c') = g c)) as (Hpos & Hall & Heq).
  { rewrite <- (charted_rotate _ _ _ now c Hin). by eapply rotated_books. }
  assert (sump pf ((λ i, point_at (aggregate step' (series_buckets c')) (w.1 + Z.of_nat i * interval_secs step')) <$> seq 0 n) =
          sumb bf (filter (λ b, w.1 ≤ alignUnix (bT b) step') (timeline c'))) as ->.
  { rewrite sump_fmap, (sumn_ext _ _ _ (λ i, Hpt _)). apply sumn_intervals; [done|].
    eapply Forall_impl; [apply Forall_and; split; [apply (timeline_le_cur c' Hl')|apply (ln_pos c' Hl')]|].
    clearbody c'. intros b [Hb1 Hb2]. pose proof (interval_secs_pos step').
    assert (alignUnix (bT b) step' ≤ alignUnix (unix now) step') by (apply alignUnix_mono; lia). lia. }
  split_and!; [|done|by etransitivity; [apply sumb_filter_le|]|intros Hlt Hold; rewrite filter_all by done; by apply Heq].
  intros i p Hp. apply list_lookup_fmap_Some in Hp as (j & -> & [-> _]%lookup_seq). cbn [Nat.add].
  rewrite Hpt. unfold point_at. destruct (_ !! _); cbn [pT]; by rewrite ?Z.add_0_l.
Qed.
End conserves.

(** ** Session speeds *)

(** A session without its rate sample. *)
Definition frozen (s : Session) : Session :=
  s <| rateAt := None |> <| srateUp := 0 |> <| srateDown := 0 |> <| curUpBps := 0 |> <| curDownBps := 0 |>.

Lemma rates_frozen now up down s : frozen (rates now up down s).2 = frozen s.
Proof. unfold rates. by destruct (minRateSample <=? _). Qed.

Lemma view_frozen now s : frozen (view now s).2 = frozen s.
Proof.
  unfold view. pose proof (rates_frozen now (upload s) (download s) s).
  by destruct (rates now (upload s) (download s) s) as [[u d] s'].
Qed.

(** A second sample at the same instant changes nothing. *)
Lemma rates_again now up down s :
  rates now up down (rates now up down s).2 = rates now up down s.
Proof.
  unfold rates at 2 3. set (at_ := default (sstart s) (rateAt s)).
  destruct (Z.leb_spec minRateSample (now - at_)) as [Hle|Hlt]; cbn [fst snd].
  - unfold rates. cbn. rewrite Z.sub_diag. by destruct (Z.leb_spec minRateSample 0).
  - unfold rates. cbn. by destruct (Z.leb_spec minRateSample (now - at_)); [lia|].
Qed.

Lemma score_eq now s :
  score now s = ((rates now (upload s) (download s) s).2,
                 (rates now (upload s) (download s) s).1.1 + (rates now (upload s) (download s) s).1.2).
Proof. unfold score. by destruct (rates now (upload s) (download s) s) as [[u d] s']. Qed.

Lemma view_score now s : (view now (score now s).1).1 = (view now s).1.
Proof.
  rewrite score_eq. cbn [fst]. pose proof (rates_frozen now (upload s) (download s) s) as Hf.
  pose proof (rates_again now (upload s) (download s) s) as Ha. unfold view, Node.
  set (s' := (rates now (upload s) (download s) s).2) in *.
  rewrite (f_equal upload Hf : upload s' = upload s), (f_equal download Hf : download s' = download s), Ha,
    (f_equal sid Hf : sid s' = sid s), (f_equal proto Hf : proto s' = proto s), (f_equal client Hf : client s' = client s),
    (f_equal host Hf : host s' = host s), (f_equal port Hf : port s' = port s),
    (f_equal decision Hf : decision s' = decision s), (f_equal node Hf : node s' = node s),
    (f_equal sstart Hf : sstart s' = sstart s). done.
Qed.

Lemma score_sid now s : sid (score now s).1 = sid s.
Proof.
  rewrite score_eq. cbn [fst]. pose proof (rates_frozen now (upload s) (download s) s) as Hf.
  apply (f_equal sid) in Hf. exact Hf.
Qed.

Lemma frozen_score now s : frozen (score now s).1 = frozen s.
Proof. rewrite score_eq. apply rates_frozen. Qed.

(** a session's speed is what it moved since its last sample, per second.  When
    the last sample is at least half a second old and the counts fit, the speed is
    the bytes moved since divided by the whole milliseconds passed, in bytes per
    second, and is not negative; a younger sample is reported as it is.  The
    division is never by zero. *)
Theorem rates_exact now up down s :
  let at_ := default (sstart s) (rateAt s) in
  let dt := now - at_ in
  let '(u, d, s') := rates now up down s in
  (dt < minRateSample → u = curUpBps s ∧ d = curDownBps s ∧ rateAt s' = Some at_) ∧
  (minRateSample ≤ dt →
     rateAt s' = Some now ∧ srateUp s' = up ∧ srateDown s' = down ∧ 500 ≤ Milliseconds dt ∧
     (srateUp s ≤ up → (up - srateUp s) * 1000 < 2 ^ 63 →
        0 ≤ u ∧ u * Milliseconds dt ≤ (up - srateUp s) * 1000 < (u + 1) * Milliseconds dt) ∧
     (srateDown s ≤ down → (down - srateDown s) * 1000 < 2 ^ 63 →
        0 ≤ d ∧ d * Milliseconds dt ≤ (down - srateDown s) * 1000 < (d + 1) * Milliseconds dt)).
Proof.
  intros at_ dt. unfold rates. fold at_ dt.
  assert (∀ a b, minRateSample ≤ dt → b ≤ a → (a - b) * 1000 < 2 ^ 63 →
    0 ≤ bps a b (Milliseconds dt) ∧
    bps a b (Milliseconds dt) * Milliseconds dt ≤ (a - b) * 1000 < (bps a b (Milliseconds dt) + 1) * Milliseconds dt) as Hb.
  { intros a b Hdt Hba Hfit. assert (500 ≤ Milliseconds dt) as Hms.
    { unfold Milliseconds, minRateSample, millisecond in *. rewrite Z.quot_div_nonneg by lia.
      apply Z.div_le_lower_bound; lia. }
    unfold bps. rewrite int64_id by lia. rewrite Z.quot_div_nonneg by lia.
    pose proof (Z.div_mod ((a - b) * 1000) (Milliseconds dt)).
    pose proof (Z.mod_pos_bound ((a - b) * 1000) (Milliseconds dt)).
    pose proof (Z.div_pos ((a - b) * 1000) (Milliseconds dt)). lia. }
  destruct (Z.leb_spec minRateSample dt) as [Hle|Hlt]; cbn [fst snd]; (split; [intros|intros Hdt]); try lia; [|done].
  split_and!; [done..| | |]; [|by apply Hb|by apply Hb].
  unfold Milliseconds, minRateSample, millisecond in *. rewrite Z.quot_div_nonneg by lia. apply Z.div_le_lower_bound; lia.
Qed.

(** ** Tops of tables *)

Section tops.
Context `{UnicodeCase, GoSort, TimeFormat}.

Lemma cut_take {A} limit (l : list A) : 0 ≤ limit → cut limit l = take (Z.to_nat limit) l.
Proof. intros Hl. unfold cut. destruct (Z.ltb_spec limit (Z.of_nat (length l))); [done|]. rewrite take_ge; [done|lia]. Qed.

(** [out] is the [limit] first of [l] by decreasing [key]. *)
Definition top_by {A} (key : A → Z) (limit : Z) (l out : list A) : Prop :=
  Z.of_nat (length out) = Z.min limit (Z.of_nat (length l)) ∧
  StronglySorted (λ x y, key y ≤ key x) out ∧
  ∃ rest, l ≡ₚ out ++ rest ∧ ∀ x y, x ∈ out → y ∈ rest → key y ≤ key x.

Lemma StronglySorted_weaken {A} (R S : A → A → Prop) l :
  (∀ x y, R x y → S x y) → StronglySorted R l → StronglySorted S l.
Proof.
  intros HRS. induction 1 as [|x l Hl IH Hx]; constructor; [done|]. eapply List.Forall_impl; [|done]. auto.
Qed.

Lemma top_by_take {A} (less : A → A → bool) (key : A → Z) limit (l sorted : list A) :
  0 ≤ limit → (∀ x y, less y x = false → key y ≤ key x) →
  sorted ≡ₚ l → StronglySorted (not_after less) sorted →
  top_by key limit l (take (Z.to_nat limit) sorted).
Proof.
  intros Hlim Hkey Hperm Hsort. split_and!.
  - rewrite length_take, Hperm. lia.
  - eapply StronglySorted_weaken; [|by apply StronglySorted_take]. intros x y. apply Hkey.
  - exists (drop (Z.to_nat limit) sorted). rewrite take_drop. split; [done|].
    intros x y Hx Hy. apply Hkey. by eapply take_sorted_top.
Qed.

Lemma sort_slice_not_after {A} (less : A → A → bool) l :
  strict_weak less → StronglySorted (not_after less) (sort_slice less l).
Proof. apply sort_slice_sorted. Qed.

Lemma by_conns_weak : strict_weak by_conns.
Proof. apply (strict_weak_lex dConns DomainStat_Total). Qed.
Lemma by_bytes_weak : strict_weak by_bytes.
Proof. apply (strict_weak_lex DomainStat_Total dConns). Qed.

Lemma by_conns_key x y : by_conns y x = false → dConns y ≤ dConns x.
Proof. unfold by_conns. destruct (Z.eqb_spec (dConns y) (dConns x)); [lia|]. intros Hl%Z.ltb_ge. lia. Qed.
Lemma by_bytes_key x y : by_bytes y x = false → DomainStat_Total y ≤ DomainStat_Total x.
Proof.
  unfold by_bytes. destruct (Z.eqb_spec (DomainStat_Total y) (DomainStat_Total x)); [lia|].
  intros Hl%Z.ltb_ge. lia.
Qed.

(** What a table is ordered by. *)
Definition rank (order : string) (d : DomainStat) : Z :=
  if String.eqb order "conns" then dConns d else DomainStat_Total d.

(** the tables list the top of their order.  The domain table, the same
    restricted to one path, and the query-name table are cut to the limit (50 for
    a domain limit that is not positive, no limit for the path) after sorting: what
    is listed is in decreasing order, and nothing left out outranks it. *)
Theorem tables_top order limit d c :
  top_by (rank order) (if limit <=? 0 then 50 else limit) (rows (domains c)) (Domains limit order c) ∧
  top_by (rank order) (if limit <=? 0 then Z.of_nat (size (domains c)) else limit)
    (filter (λ e, routed_by d e = true) (rows (domains c))) (TopDomainsByDecision limit d order c) ∧
  top_by dConns (Z.max 0 limit) (rows (dnsNames c)) (dvTopDomains (DNSStats limit c)).
Proof.
  split_and!.
  - unfold Domains, topDomainsLocked, rank. destruct (Z.leb_spec limit 0);
      rewrite cut_take by lia; destruct (String.eqb order "conns");
      (eapply top_by_take; [lia|first [apply by_conns_key|apply by_bytes_key]|apply sort_slice_perm|
       apply sort_slice_not_after; first [apply by_conns_weak|apply by_bytes_weak]]).
  - set (l := filter (λ e, routed_by d e = true) (rows (domains c))).
    assert (length l ≤ size (domains c))%nat as Hl.
    { unfold l. rewrite length_filter. unfold rows. by rewrite length_fmap, length_map_to_list. }
    unfold TopDomainsByDecision, rank. fold l. set (less := if String.eqb order "conns" then by_conns_only else busier).
    assert (strict_weak less ∧ ∀ x y, less y x = false →
            (if String.eqb order "conns" then dConns y else DomainStat_Total y) ≤
            (if String.eqb order "conns" then dConns x else DomainStat_Total x)) as [Hw Hk].
    { unfold less. destruct (String.eqb order "conns");
        (split; [apply strict_weak_gtb|]); intros x y Hxy%Z.ltb_ge; done. }
    destruct (Z.ltb_spec 0 limit), (Z.leb_spec limit 0); try lia.
    + rewrite cut_take by lia.
      by eapply top_by_take; [lia|apply Hk|apply sort_slice_perm|apply sort_slice_not_after].
    + rewrite <- (take_ge (sort_slice less l) (Z.to_nat (Z.of_nat (size (domains c)))))
        by (rewrite sort_slice_perm; lia).
      by eapply top_by_take; [lia|apply Hk|apply sort_slice_perm|apply sort_slice_not_after].
  - unfold DNSStats, dnsSnapshotLocked. cbn. destruct (Z.ltb_spec 0 limit).
    + rewrite Z.max_r by lia. unfold topFromLocked. rewrite cut_take by lia.
      eapply top_by_take; [lia|apply by_conns_key|apply sort_slice_perm|apply sort_slice_not_after, by_conns_weak].
    + rewrite Z.max_l by lia. split_and!; [cbn; lia|constructor|]. exists (rows (dnsNames c)). split; [done|].
      intros x y Hx. by apply not_elem_of_nil in Hx.
Qed.

(** The error log's tail. *)
Lemma Errors_suffix limit c :
  ∃ old, errs c = old ++ Errors limit c ∧
    length (Errors limit c) = if limit <=? 0 then length (errs c) else Nat.min (Z.to_nat limit) (length (errs c)).
Proof.
  unfold Errors. eexists (take _ (errs c)). rewrite take_drop. split; [done|]. rewrite length_drop.
  destruct (Z.leb_spec limit 0), (Z.ltb_spec (Z.of_nat (length (errs c))) limit); cbn [orb]; lia.
Qed.

Lemma copyMap_id m : copyMap m = m.
Proof.
  unfold copyMap. induction m as [|k v m Hk IH] using map_ind; [done|].
  rewrite map_fold_insert_L; [by rewrite IH| |done].
  intros. by rewrite insert_insert_ne.
Qed.

(** ** Live sessions *)

(** The registered sessions that pass the filters. *)
Definition matching (opt : ActiveOptions) (c : Collector) : list Session :=
  filter (λ s, selected opt s = true) (active_list c).

Definition speed (now : time) (s : Session) : Z := (score now s).2.

Definition active_limit (opt : ActiveOptions) : Z := if aLimit opt <=? 0 then 100 else aLimit opt.

Lemma newest_weak : strict_weak newest.
Proof. apply strict_weak_gtb. Qed.

Lemma sort_slice_fmap {A B} (less : B → B → bool) (f : A → B) l :
  ∃ l', sort_slice less (f <$> l) = f <$> l' ∧ l' ≡ₚ l.
Proof.
  pose proof (sort_slice_perm less (f <$> l)) as Hp.
  destruct (Permutation_map_inv _ _ Hp) as (l' & E & Hl). by exists l'.
Qed.

Lemma sort_stable_fmap {A B} (less : B → B → bool) (f : A → B) l :
  ∃ l', sort_stable less (f <$> l) = f <$> l' ∧ l' ≡ₚ l.
Proof.
  pose proof (sort_stable_perm less (f <$> l)) as Hp.
  destruct (Permutation_map_inv _ _ Hp) as (l' & E & Hl). by exists l'.
Qed.

Lemma StronglySorted_fmap {A B} (R : B → B → Prop) (f : A → B) l :
  StronglySorted R (f <$> l) → StronglySorted (λ x y, R (f x) (f y)) l.
Proof.
  induction l as [|x l IH]; [constructor|]. cbn. intros Hl. inversion_clear Hl as [|? ? Hs Hx].
  constructor; [by apply IH|]. revert Hx. rewrite Forall_fmap. done.
Qed.

(** Truncation keeps the fastest, newest first. *)
Lemma keep_fastest_spec now limit all :
  0 ≤ limit →
  ∃ chosen rest,
    (keep_fastest now limit all).1 = (λ s, (score now s).1) <$> chosen ∧ all ≡ₚ chosen ++ rest ∧
    Z.of_nat (length chosen) = Z.min limit (Z.of_nat (length all)) ∧
    StronglySorted (λ x y, sid y ≤ sid x) chosen ∧
    ∀ x y, x ∈ chosen → y ∈ rest → speed now y ≤ speed now x.
Proof.
  intros Hlim. unfold keep_fastest. cbn [fst].
  destruct (sort_stable_fmap faster (score now) all) as (all' & E & Hp).
  pose proof (sort_stable_sorted faster (score now <$> all) (strict_weak_gtb (λ x, x.2))) as Hs. rewrite E in *.
  rewrite <- fmap_take, <- list_fmap_compose.
  destruct (sort_slice_fmap newest (fst ∘ score now) (take (Z.to_nat limit) all')) as (chosen & Ec & Hc).
  exists chosen, (drop (Z.to_nat limit) all'). rewrite Ec. split_and!; [done| | | |].
  - by rewrite Hc, take_drop.
  - rewrite Hc, length_take, Hp. lia.
  - pose proof (sort_slice_not_after newest _ newest_weak : StronglySorted _ (sort_slice newest ((fst ∘ score now) <$> take (Z.to_nat limit) all'))) as Hn.
    rewrite Ec in Hn. apply (StronglySorted_fmap _ (fst ∘ score now)) in Hn. eapply StronglySorted_weaken; [|exact Hn].
    intros x y Hxy. unfold not_after, newest, compose in Hxy. rewrite !score_sid in Hxy. by apply Z.ltb_ge in Hxy.
  - intros x y Hx Hy. rewrite Hc in Hx.
    assert (faster (score now y) (score now x) = false) as Hf.
    { apply (take_sorted_top _ (Z.to_nat limit) _ _ _ Hs); [rewrite <- fmap_take|rewrite <- fmap_drop]; by apply list_elem_of_fmap_2. }
    by apply Z.ltb_ge in Hf.
Qed.

Lemma matching_registered opt c :
  registry c →
  NoDup (sid <$> matching opt c) ∧
  ∀ s, s ∈ matching opt c ↔ sid s ∈ active c ∧ sessions c !! sid s = Some s ∧ selected opt s = true.
Proof.
  intros [R1 R2 R3]. assert (∀ s (l : list Z), s ∈ filter (λ s, selected opt s = true) (omap (λ i, sessions c !! i) l) ↔
    sid s ∈ l ∧ sessions c !! sid s = Some s ∧ selected opt s = true) as Hin.
  { intros s l. rewrite list_elem_of_filter, list_elem_of_omap. split.
    - intros (Hs & i & Hi & E). by destruct (R1 _ _ E) as [-> _].
    - intros (Hl & E & Hs). eauto. }
  split; [|intros s; unfold matching, active_list; by rewrite Hin, elem_of_elements].
  unfold matching, active_list. pose proof (NoDup_elements (active c)) as Hnd.
  induction Hnd as [|i l Hi Hnd IH]; [constructor|]. csimpl. destruct (sessions c !! i) as [s|] eqn:E; [|done].
  rewrite filter_cons. destruct (decide (selected opt s = true)); [|done]. cbn. constructor; [|done].
  destruct (R1 _ _ E) as [-> _]. intros (s' & Es & Hs')%list_elem_of_fmap. apply Hin in Hs' as [Hl _].
  by rewrite <- Es in Hl.
Qed.

Lemma strictly_sorted l :
  StronglySorted (λ x y, sid y ≤ sid x) l → NoDup (sid <$> l) → StronglySorted (λ x y, sid y < sid x) l.
Proof.
  induction 1 as [|x l Hl IH Hx]; [constructor|]. cbn. rewrite NoDup_cons. intros [Hni Hnd].
  constructor; [by apply IH|]. rewrite List.Forall_forall in *. intros y Hy. specialize (Hx y Hy).
  enough (sid y ≠ sid x) by lia. intros E. apply Hni. rewrite <- E. apply list_elem_of_fmap_2.
  by apply list_elem_of_In.
Qed.

(** Writing back sessions that differ in their sample only. *)
Lemma store_all_frozen l c :
  Forall (λ s, frozen <$> sessions c !! sid s = Some (frozen s)) l →
  (∀ i, frozen <$> sessions (store_all l c) !! i = frozen <$> sessions c !! i) ∧
  (store_all l c) <| sessions := sessions c |> = c.
Proof.
  unfold store_all. revert c. induction l as [|s l IH]; intros c Hl; [by destruct c|].
  apply Forall_cons in Hl as [Hs Hl]. cbn [foldl]. set (c1 := c <| sessions ::= <[sid s := s]> |>).
  assert (∀ i, frozen <$> sessions c1 !! i = frozen <$> sessions c !! i) as Hc1.
  { intros i. unfold c1. cbn. destruct (decide (sid s = i)) as [<-|]; [by rewrite lookup_insert_eq|by rewrite lookup_insert_ne]. }
  destruct (IH c1) as [E1 E2].
  { eapply Forall_impl; [exact Hl|]. cbn. intros s' Hs'. by rewrite Hc1. }
  split; [intros i; by rewrite E1, Hc1|].
  set (c2 := foldl _ c1 l) in *. clearbody c2. clear -E2.
  apply (f_equal (λ x, x <| sessions := sessions c |>)) in E2. etransitivity; [exact E2|]. by destruct c.
Qed.

(** What [ActiveSessions] shows and samples, before it is written back. *)
Lemma shown_sessions now opt c :
  ∃ chosen rest shown sampled,
    ActiveSessions now opt c = (store_all (view now <$> shown).*2 (store_all sampled c), (view now <$> shown).*1) ∧
    (shown = chosen ∨ shown = (λ s, (score now s).1) <$> chosen) ∧
    (sampled = [] ∨ sampled ≡ₚ (λ s, (score now s).1) <$> matching opt c) ∧
    matching opt c ≡ₚ chosen ++ rest ∧
    Z.of_nat (length chosen) = Z.min (active_limit opt) (Z.of_nat (length (matching opt c))) ∧
    StronglySorted (λ x y, sid y ≤ sid x) chosen ∧
    ∀ x y, x ∈ chosen → y ∈ rest → speed now y ≤ speed now x.
Proof.
  unfold ActiveSessions. fold (active_limit opt) (matching opt c).
  set (all := sort_slice newest (matching opt c)).
  assert (all ≡ₚ matching opt c) as Hall by apply sort_slice_perm.
  assert (0 ≤ active_limit opt) by (unfold active_limit; destruct (Z.leb_spec (aLimit opt) 0); lia).
  destruct (Z.ltb_spec (active_limit opt) (Z.of_nat (length all))) as [Hlt|Hge].
  - destruct (keep_fastest_spec now (active_limit opt) all) as (chosen & rest & E & Hp & Hlen & Hs & Hsp); [done|].
    rewrite Hall in Hp, Hlen.
    destruct (keep_fastest now (active_limit opt) all) as [shown sampled] eqn:Ek. cbn [fst] in E. subst shown.
    exists chosen, rest, ((λ s, (score now s).1) <$> chosen), sampled. split_and!; [done|by right| |done..].
    right. unfold keep_fastest in Ek. injection Ek as _ <-. by rewrite <- list_fmap_compose, Hall.
  - exists all, [], all, []. rewrite app_nil_r. split_and!; [done|by left|by left|done| | |].
    + rewrite Hall in *. lia.
    + eapply StronglySorted_weaken; [|apply (sort_slice_not_after newest _ newest_weak)].
      intros x y Hxy%Z.ltb_ge. done.
    + intros x y _ Hy. by apply not_elem_of_nil in Hy.
Qed.

(** Listing writes back rate samples only. *)
Lemma ActiveSessions_effect now opt c :
  registry c →
  let c' := (ActiveSessions now opt c).1 in
  (∀ i, frozen <$> sessions c' !! i = frozen <$> sessions c !! i) ∧ c' <| sessions := sessions c |> = c.
Proof.
  intros Hr. destruct (matching_registered opt c Hr) as [Hnd Hin].
  destruct (shown_sessions now opt c) as (chosen & rest & shown & sampled & -> & Hshown & Hsampled & Hp & _). cbn [fst].
  assert (∀ s s', s ∈ matching opt c → frozen s' = frozen s → frozen <$> sessions c !! sid s' = Some (frozen s')) as Hback.
  { intros s s' Hm Hf. rewrite (f_equal sid Hf : sid s' = sid s), Hf. by apply Hin in Hm as (_ & -> & _). }
  assert (∀ s, s ∈ chosen → s ∈ matching opt c) as Hch by (intros s ?; rewrite Hp; apply elem_of_app; by left).
  destruct (store_all_frozen sampled c) as [A1 A2].
  { apply Forall_forall. intros s' Hs'. destruct Hsampled as [->|E]; [by apply not_elem_of_nil in Hs'|].
    rewrite E in Hs'. apply list_elem_of_fmap in Hs' as (s & -> & Hm). apply (Hback s); [done|apply frozen_score]. }
  destruct (store_all_frozen (view now <$> shown).*2 (store_all sampled c)) as [B1 B2].
  { apply Forall_forall. intros s' Hs'. rewrite A1. rewrite <- list_fmap_compose in Hs'.
    apply list_elem_of_fmap in Hs' as (s & -> & Hm). unfold compose. rewrite view_frozen.
    rewrite (f_equal sid (view_frozen now s) : sid (view now s).2 = sid s).
    destruct Hshown as [->| ->]; [apply (Hback s); [auto|done]|].
    apply list_elem_of_fmap in Hm as (s0 & -> & Hm). apply (Hback s0); [auto|apply frozen_score]. }
  split; [intros i; by rewrite B1, A1|].
  apply (f_equal (λ x, x <| sessions := sessions c |>)) in B2. etransitivity; [exact B2|exact A2].
Qed.

(** C32: the live list is the filtered registry.  After any sequence of calls the
    list shows, newest first and each once, sessions that are registered and pass
    the filters; all of them when they fit the limit, and otherwise the fastest
    ones; and listing changes no session beyond its rate sample. *)
Theorem ActiveSessions_exact now0 config log now opt :
  Forall sizes_ok log →
  let c := run log (New now0 config) in
  let '(c', views) := ActiveSessions now opt c in
  (∃ chosen rest,
    views = (λ s, (view now s).1) <$> chosen ∧ matching opt c ≡ₚ chosen ++ rest ∧
    Z.of_nat (length chosen) = Z.min (active_limit opt) (Z.of_nat (length (matching opt c))) ∧
    StronglySorted (λ x y, sid y < sid x) chosen ∧
    ∀ x y, x ∈ chosen → y ∈ rest → speed now y ≤ speed now x) ∧
  (∀ i, frozen <$> sessions c' !! i = frozen <$> sessions c !! i) ∧
  c' <| sessions := sessions c |> = c.
Proof.
  intros Hok c. pose proof (run_registry now0 config log Hok) as Hr. fold c in Hr.
  destruct (matching_registered opt c Hr) as [Hnd _]. pose proof (ActiveSessions_effect now opt c Hr) as He.
  destruct (shown_sessions now opt c) as (chosen & rest & shown & sampled & E & Hshown & _ & Hp & Hlen & Hs & Hsp).
  rewrite E in *. cbn [fst] in He. split; [|exact He].
  exists chosen, rest. split_and!; [|done|done| |done].
  - rewrite <- list_fmap_compose. destruct Hshown as [->| ->]; [done|]. rewrite <- list_fmap_compose.
    apply list_fmap_ext. intros i s _. apply view_score.
  - apply strictly_sorted; [done|]. by rewrite Hp, fmap_app, NoDup_app in Hnd; destruct Hnd.
Qed.
End tops.

(** ** Witnesses *)

#[local] Instance view_sort : GoSort := merge_GoSort.
#[local] Instance view_format : TimeFormat := λ _, String.EmptyString.
#[local] Instance view_case : UnicodeCase := ascii_case.

Definition series_of (log : list (time * event)) (now since : time) (step : duration) : list (Z * Z) :=
  (λ p, (pT p, pUpload p)) <$> default [] (Series now since step (run log (New (90 * second) demo_config))).2.

Example series_demo : series_of demo_log (200 * second) (60 * second) minute = [(60, 500); (120, 0); (180, 10)].
Proof. vm_compute. reflexivity. Qed.

Example series_regrouped : series_of demo_log (200 * second) 0 (2 * minute) = [(0, 500); (120, 10)].
Proof. vm_compute. reflexivity. Qed.

Lemma Series_exact_witness :
  ∃ lo points, (Series (200 * second) 0 (2 * minute) (run demo_log (New (90 * second) demo_config))).2 = Some points ∧
    0 ≤ lo.
Proof.
  destruct (Series_exact (200 * second) 0 (2 * minute) (run demo_log (New (90 * second) demo_config)))
    as (lo & points & E & Hlo & _); [vm_compute; by intros [=]|].
  exists lo, points. split; [exact E|exact Hlo].
Defined.

Lemma demo_up_to : Forall (λ e, up_to demo_config (200 * second) e.1) demo_log.
Proof. unfold demo_log. repeat (apply Forall_cons; split; [vm_compute; split; by intros [=]|]). apply Forall_nil_2. Defined.

Lemma Series_conserves_witness :
  let c := run demo_log (New (90 * second) demo_config) in
  ∃ points, (Series (200 * second) (60 * second) minute c).2 = Some points ∧ sump pUpload points = cUpload (totals c).
Proof.
  destruct (Series_conserves (90 * second) demo_config demo_log (200 * second) (60 * second) minute)
    as (points & E & _ & Hp); [vm_compute; split; by intros [=]|exact demo_up_to|exact demo_sizes|vm_compute; by intros [=]|].
  exists points. split; [exact E|].
  refine (proj2 (proj2 (proj2 (Hp pUpload bUpload (λ c, cUpload (totals c)) _))) _ _).
  - apply list_elem_of_here.
  - vm_compute. lia.
  - apply (bool_decide_unpack _). vm_compute. exact I.
Defined.

Definition demo_session : Session :=
  {| sid := 1; proto := ProtoSOCKS5; client := "c"; host := "a.com"; port := 443; decision := DecisionProxy;
     node := None; sstart := 0; upload := 3000; download := 10; pendingUp := 0; pendingDown := 0; done := false;
     rateAt := None; srateUp := 0; srateDown := 0; curUpBps := 0; curDownBps := 0 |}.

Lemma rates_exact_witness :
  (rates (2 * second) 3000 10 demo_session).1 = (1500, 5) ∧ 500 ≤ Milliseconds (2 * second - 0).
Proof.
  split; [vm_compute; reflexivity|].
  assert (minRateSample ≤ 2 * second - 0) as Hdt by (vm_compute; by intros [=]).
  exact (proj1 (proj2 (proj2 (proj2 (proj2 (rates_exact (2 * second) 3000 10 demo_session) Hdt))))).
Defined.

Definition demo_options : ActiveOptions := {| aLimit := 0; aProto := "socks5"; aDecision := ""; aHost := "A." |}.

Example listed_demo :
  vID <$> (ActiveSessions (150 * second) demo_options (run (take 2 demo_log) (New (90 * second) demo_config))).2 = [1].
Proof. vm_compute. reflexivity. Qed.

Lemma ActiveSessions_exact_witness :
  ∃ chosen,
    (ActiveSessions (150 * second) demo_options (run (take 2 demo_log) (New (90 * second) demo_config))).2 =
      (λ s, (view (150 * second) s).1) <$> chosen ∧
    StronglySorted (λ x y, sid y < sid x) chosen.
Proof.
  assert (Forall sizes_ok (take 2 demo_log)) as Hok by (apply Forall_take; exact demo_sizes).
  pose proof (ActiveSessions_exact (90 * second) demo_config (take 2 demo_log) (150 * second) demo_options Hok) as Hx.
  cbv zeta in Hx. destruct (ActiveSessions _ _ _) as [c' views]. destruct Hx as [(chosen & rest & E & _ & _ & Hs & _) _].
  exists chosen. split; [exact E|exact Hs].
Defined.
End StatsViewProps.
