(* ===== verification/StatsPersist.v ===== *)
(** * core/stats: the snapshot file (persist.go), and the collector's life around it

    [Save] writes the collector's state through a temporary file, [Load] restores it.
    The disk is a map from paths to contents; [Save] yields every state the disk goes
    through, so that a crash between any two of them can be stated.  The outcomes of
    the file operations are arguments.  [NewCollector], [Close] and [saveLoop] are
    the collector's construction, end and background saver (stats.go). *)

From S2P Require Import Prelude GoStrings Stats StatsView Json.
Import Stats StatsView Json.

Module StatsPersist.

Definition snapshotVersion : Z := 1.

(** ** The file's records *)

Record persistedDNS := {
  pdQueries : Z; pdCacheHits : Z; pdFailures : Z; pdDirect : Z; pdDoH : Z;
  pdByType : gmap string Z; pdByUpstream : gmap string Z; pdTopDomains : list DomainStat;
}.
#[global] Instance persistedDNS_eta : Eta persistedDNS := λ d,
  {| pdQueries := pdQueries d; pdCacheHits := pdCacheHits d; pdFailures := pdFailures d;
     pdDirect := pdDirect d; pdDoH := pdDoH d; pdByType := pdByType d; pdByUpstream := pdByUpstream d;
     pdTopDomains := pdTopDomains d |}.

Record snapshot := {
  Version : Z; SavedAt : time; sTotals : Counters; sDirect : Counters; sProxy : Counters;
  sDNS : persistedDNS; sBuckets : list Bucket; sDomains : list DomainStat; sNodes : list NodeStat;
  sErrors : list ErrorEntry; PeakUp : Z; PeakDown : Z;
}.
#[global] Instance snapshot_eta : Eta snapshot := λ s,
  {| Version := Version s; SavedAt := SavedAt s; sTotals := sTotals s; sDirect := sDirect s;
     sProxy := sProxy s; sDNS := sDNS s; sBuckets := sBuckets s; sDomains := sDomains s;
     sNodes := sNodes s; sErrors := sErrors s; PeakUp := PeakUp s; PeakDown := PeakDown s |}.

(** [append] to a slice of that capacity that has no room for so many elements:
    the capacity of the new array. *)
Class GoAppend := {
  grown_cap : nat → nat → nat;
  grown_cap_fits old needed : (needed ≤ grown_cap old needed)%nat;
}.

Section persist.
Context `{UnicodeCase, GoSort, TimeFormat, JSONText, TimeJSON, GoAppend}.

(** *** The struct tags *)

Definition Counters_fields : list (field Counters) := [
  mkField "upload_bytes" cUpload (λ v c, c <| cUpload := v |>);
  mkField "download_bytes" cDownload (λ v c, c <| cDownload := v |>);
  mkField "conns" cConns (λ v c, c <| cConns := v |>);
  mkField "errors" cErrors (λ v c, c <| cErrors := v |>)].

Definition Bucket_fields : list (field Bucket) := [
  mkField "t" bT (λ v b, b <| bT := v |>);
  mkField "upload_bytes" bUpload (λ v b, b <| bUpload := v |>);
  mkField "download_bytes" bDownload (λ v b, b <| bDownload := v |>);
  mkField "conns" bConns (λ v b, b <| bConns := v |>);
  mkField "errors" bErrors (λ v b, b <| bErrors := v |>);
  mkField "direct_upload_bytes" bDirectUpload (λ v b, b <| bDirectUpload := v |>);
  mkField "direct_download_bytes" bDirectDownload (λ v b, b <| bDirectDownload := v |>);
  mkField "proxy_upload_bytes" bProxyUpload (λ v b, b <| bProxyUpload := v |>);
  mkField "proxy_download_bytes" bProxyDownload (λ v b, b <| bProxyDownload := v |>);
  mkField "direct_conns" bDirectConns (λ v b, b <| bDirectConns := v |>);
  mkField "proxy_conns" bProxyConns (λ v b, b <| bProxyConns := v |>);
  mkField "dns_queries" bDNSQueries (λ v b, b <| bDNSQueries := v |>)].

Definition DomainStat_fields : list (field DomainStat) := [
  mkField "domain" dDomain (λ v d, d <| dDomain := v |>);
  mkField "upload_bytes" dUpload (λ v d, d <| dUpload := v |>);
  mkField "download_bytes" dDownload (λ v d, d <| dDownload := v |>);
  mkField "conns" dConns (λ v d, d <| dConns := v |>);
  mkField "direct_conns" dDirectConns (λ v d, d <| dDirectConns := v |>);
  mkField "proxy_conns" dProxyConns (λ v d, d <| dProxyConns := v |>);
  mkField "errors" dErrors (λ v d, d <| dErrors := v |>);
  mkField "last_seen" dLastSeen (λ v d, d <| dLastSeen := v |>)].

Definition NodeStat_fields : list (field NodeStat) := [
  mkField "name" nName (λ v n, n <| nName := v |>);
  mkField "upload_bytes" nUpload (λ v n, n <| nUpload := v |>);
  mkField "download_bytes" nDownload (λ v n, n <| nDownload := v |>);
  mkField "conns" nConns (λ v n, n <| nConns := v |>);
  mkField "last_seen" nLastSeen (λ v n, n <| nLastSeen := v |>)].

#[global] Instance ErrorEntry_eta : Eta ErrorEntry := λ e,
  {| eT := eT e; eTime := eTime e; eScope := eScope e; eHost := eHost e; eMessage := eMessage e |}.

Definition ErrorEntry_fields : list (field ErrorEntry) := [
  mkField "t" eT (λ v e, e <| eT := v |>);
  mkField "time" eTime (λ v e, e <| eTime := v |>);
  mkField "scope" eScope (λ v e, e <| eScope := v |>);
  mkField "host" eHost (λ v e, e <| eHost := v |>);
  mkField "message" eMessage (λ v e, e <| eMessage := v |>)].

(** A record whose fields have distinct names has the codec of a struct, when
    copying all of them into the zero value rebuilds it. *)
Definition struct_codec {R} (fs : list (field R)) (zero : R)
    (Hnames : bool_decide (NoDup (fname <$> fs)) = true)
    (Hall : ∀ x, foldl (λ r f, fcopy f x r) zero fs = x) : Codec R :=
  {| zero_value := zero; enc := struct_enc fs; dec := struct_dec fs zero;
     dec_enc x Hx := eq_trans (struct_dec_enc fs zero x (bool_decide_eq_true_1 _ Hnames) Hx)
                              (f_equal Some (Hall x)) |}.

#[local] Ltac struct_tac := first [vm_compute; reflexivity | by intros []].

#[export] Instance Counters_codec : Codec Counters.
Proof. refine (struct_codec Counters_fields zeroCounters _ _); struct_tac. Defined.
#[export] Instance Bucket_codec : Codec Bucket.
Proof. refine (struct_codec Bucket_fields (emptyBucket 0) _ _); struct_tac. Defined.
#[export] Instance DomainStat_codec : Codec DomainStat.
Proof. refine (struct_codec DomainStat_fields (newDomainStat "") _ _); struct_tac. Defined.
#[export] Instance NodeStat_codec : Codec NodeStat.
Proof. refine (struct_codec NodeStat_fields (newNodeStat "") _ _); struct_tac. Defined.
#[export] Instance ErrorEntry_codec : Codec ErrorEntry.
Proof.
  refine (struct_codec ErrorEntry_fields {| eT := 0; eTime := ""; eScope := ""; eHost := ""; eMessage := "" |} _ _);
    struct_tac.
Defined.

Definition persistedDNS_fields : list (field persistedDNS) := [
  mkField "queries" pdQueries (λ v d, d <| pdQueries := v |>);
  mkField "cache_hits" pdCacheHits (λ v d, d <| pdCacheHits := v |>);
  mkField "failures" pdFailures (λ v d, d <| pdFailures := v |>);
  mkField "direct" pdDirect (λ v d, d <| pdDirect := v |>);
  mkField "doh" pdDoH (λ v d, d <| pdDoH := v |>);
  mkField "by_type" pdByType (λ v d, d <| pdByType := v |>);
  mkField "by_upstream" pdByUpstream (λ v d, d <| pdByUpstream := v |>);
  @mkField _ _ made_codec "top_domains" pdTopDomains (λ v d, d <| pdTopDomains := v |>)].

Definition zeroPersistedDNS : persistedDNS :=
  {| pdQueries := 0; pdCacheHits := 0; pdFailures := 0; pdDirect := 0; pdDoH := 0;
     pdByType := ∅; pdByUpstream := ∅; pdTopDomains := [] |}.

#[export] Instance persistedDNS_codec : Codec persistedDNS.
Proof. refine (struct_codec persistedDNS_fields zeroPersistedDNS _ _); struct_tac. Defined.

(** [time.Time]: its text, or nothing that can be written. *)
Definition enc_time (t : time) : Json :=
  match time_text t with Some s => JStr s | None => JReal "" end.
Definition dec_time (j : Json) : option time :=
  match j with JNull => Some 0 | JStr s => time_parse s | _ => None end.

Lemma dec_enc_time t : json_ok (enc_time t) = true → dec_time (enc_time t) = Some t.
Proof.
  unfold enc_time. destruct (time_text t) as [s|] eqn:E; [|done]. intros _. by apply time_parse_text.
Qed.

Definition time_codec : Codec time :=
  {| zero_value := 0; enc := enc_time; dec := dec_time; dec_enc := dec_enc_time |}.

Definition snapshot_fields : list (field snapshot) := [
  mkField "version" Version (λ v s, s <| Version := v |>);
  @mkField _ _ time_codec "saved_at" SavedAt (λ v s, s <| SavedAt := v |>);
  mkField "totals" sTotals (λ v s, s <| sTotals := v |>);
  mkField "direct" sDirect (λ v s, s <| sDirect := v |>);
  mkField "proxy" sProxy (λ v s, s <| sProxy := v |>);
  mkField "dns" sDNS (λ v s, s <| sDNS := v |>);
  @mkField _ _ made_codec "buckets" sBuckets (λ v s, s <| sBuckets := v |>);
  @mkField _ _ made_codec "domains" sDomains (λ v s, s <| sDomains := v |>);
  @mkField _ _ made_codec "nodes" sNodes (λ v s, s <| sNodes := v |>);
  mkField "errors" sErrors (λ v s, s <| sErrors := v |>);
  mkField "peak_upload_bps" PeakUp (λ v s, s <| PeakUp := v |>);
  mkField "peak_download_bps" PeakDown (λ v s, s <| PeakDown := v |>)].

Definition zeroSnapshot : snapshot :=
  {| Version := 0; SavedAt := 0; sTotals := zeroCounters; sDirect := zeroCounters; sProxy := zeroCounters;
     sDNS := zeroPersistedDNS; sBuckets := []; sDomains := []; sNodes := []; sErrors := [];
     PeakUp := 0; PeakDown := 0 |}.

Definition snapshot_codec : Codec snapshot.
Proof. refine (struct_codec snapshot_fields zeroSnapshot _ _); struct_tac. Defined.
#[local] Existing Instance snapshot_codec.

(** [json.MarshalIndent(snap)]: fails on a time that has no text. *)
Definition MarshalIndent (s : snapshot) : result string string :=
  match time_text (SavedAt s) with
  | Some _ => Ok (json_print (enc s))
  | None => Err "year outside of range [0,9999]"
  end.

(** [json.Unmarshal(data, &snap)] *)
Definition Unmarshal (data : string) : result string snapshot :=
  match json_parse data with
  | Err e => Err e
  | Ok j => match dec j with Some s => Ok s | None => Err "cannot unmarshal" end
  end.

(** ** Save *)

Definition allDomainsLocked (m : gmap string DomainStat) : list DomainStat := (map_to_list m).*2.
Definition allNodesLocked (m : gmap string NodeStat) : list NodeStat := (map_to_list m).*2.

(** What [Save] collects under the lock. *)
Definition take_snapshot (now : time) (c : Collector) : snapshot :=
  {| Version := snapshotVersion; SavedAt := now; sTotals := totals c; sDirect := direct c; sProxy := proxy c;
     sDNS := {| pdQueries := Queries (dns c); pdCacheHits := CacheHits (dns c); pdFailures := Failures (dns c);
                pdDirect := dnsDirect (dns c); pdDoH := DoH (dns c); pdByType := copyMap (ByType (dns c));
                pdByUpstream := copyMap (ByUpstream (dns c));
                pdTopDomains := topFromLocked (dnsNames c) (DomainLimit (cfg c)) |};
     sBuckets := orderedBucketsLocked c; sDomains := allDomainsLocked (domains c);
     sNodes := allNodesLocked (nodes c); sErrors := errs c; PeakUp := peakUp c; PeakDown := peakDown c |}.

(** The outcomes of one [Save]: the directory, how far the file had got at the
    moments one looks at it and whether writing failed, the rename, the clean-up. *)
Record SaveIO := {
  mkdir_err : option string;
  written : list nat;
  write_err : option string;
  rename_err : option string;
  remove_ok : bool;
}.

Abbreviation disk := (gmap string string) (only parsing).

(** The file at the moments one looks at it while [os.WriteFile] runs: created empty,
    then longer; no entry when it could not be created. *)
Definition writing (path data : string) (at_ : list nat) (fs : disk) : list disk :=
  (λ n, <[path := stake n data]> fs) <$> at_.

Definition default_last (fs : disk) (l : list disk) : disk := default fs (last l).

(** [Save]: its error, and the states of the disk, the last one being the final one. *)
Definition Save (io : SaveIO) (now : time) (c : Collector) (fs : disk) : result string unit * list disk :=
  let path := File (cfg c) in
  if String.eqb path "" then (Err "no stats file configured", [fs])
  else
    match mkdir_err io with
    | Some e => (Err ("create stats dir: " +:+ e), [fs])
    | None =>
        match MarshalIndent (take_snapshot now c) with
        | Err e => (Err ("marshal stats: " +:+ e), [fs])
        | Ok data =>
            let tmp := path +:+ ".tmp" in
            let partial_ := writing tmp data (written io) fs in
            match write_err io with
            | Some e => (Err ("write stats tmp: " +:+ e), fs :: partial_)
            | None =>
                let full := <[tmp := data]> fs in
                match rename_err io with
                | Some e => (Err ("rename stats file: " +:+ e),
                             fs :: partial_ ++ [full; if remove_ok io then delete tmp full else full])
                | None => (Ok tt, fs :: partial_ ++ [full; <[path := data]> (delete tmp full)])
                end
            end
        end
    end.

(** ** Load *)

(** The loop over the saved buckets: the slice and its capacity.  A full slice loses
    its first element and, with it, that much capacity. *)
Definition load_bucket (cutoff : Z) (maxBuckets : nat) (st : list Bucket * nat) (b : Bucket) : list Bucket * nat :=
  if (bT b <=? 0) || (bT b <? cutoff) then st
  else
    let '(l, cap) := st in
    let '(l, cap) := if (maxBuckets <=? length l)%nat then (tail l, (cap - 1)%nat) else (l, cap) in
    (l ++ [b], if (length l <? cap)%nat then cap else grown_cap cap (S (length l))).

(** The rows with a name, by their name; a later row replaces an earlier one. *)
Definition load_rows {A} (name : A → string) (m : gmap string A) (l : list A) : gmap string A :=
  foldl (λ m x, if String.eqb (name x) "" then m else <[name x := x]> m) m l.

Definition history_cutoff (now : time) (c : Collector) : Z :=
  unix (now + int64 (- HistoryMinutes (cfg c) * BucketInterval (cfg c))).

Definition restore (now : time) (snap : snapshot) (c : Collector) : Collector :=
  let '(bs, cap) := foldl (load_bucket (history_cutoff now c) (bcap c)) ([], bcap c) (sBuckets snap) in
  c <| totals := sTotals snap |> <| direct := sDirect snap |> <| proxy := sProxy snap |>
    <| dns := {| Queries := pdQueries (sDNS snap); CacheHits := pdCacheHits (sDNS snap);
                 Failures := pdFailures (sDNS snap); dnsDirect := pdDirect (sDNS snap);
                 DoH := pdDoH (sDNS snap); ByType := pdByType (sDNS snap);
                 ByUpstream := pdByUpstream (sDNS snap) |} |>
    <| dnsNames ::= λ m, load_rows dDomain m (pdTopDomains (sDNS snap)) |>
    <| buckets := bs |> <| bcap := cap |> <| head := 0%nat |>
    <| domains ::= λ m, load_rows dDomain m (sDomains snap) |>
    <| nodes ::= λ m, load_rows nName m (sNodes snap) |>
    <| errs := keep_last (ErrorLimit (cfg c)) (sErrors snap) |>
    <| peakUp := PeakUp snap |> <| peakDown := PeakDown snap |>.

(** [Load]; [read_err] is a failure of the read other than the file's absence. *)
Definition Load (read_err : option string) (now : time) (fs : disk) (c : Collector) : result string unit * Collector :=
  let path := File (cfg c) in
  if String.eqb path "" then (Err "no stats file configured", c)
  else
    match read_err with
    | Some e => (Err ("read stats file: " +:+ e), c)
    | None =>
        match fs !! path with
        | None => (Ok tt, c)
        | Some data =>
            match Unmarshal data with
            | Err e => (Err ("parse stats file: " +:+ e), c)
            | Ok snap =>
                if negb (Version snap =? snapshotVersion) then
                  (Err ("stats file version " +:+ Itoa (Version snap) +:+ ", want " +:+ Itoa snapshotVersion), c)
                else (Ok tt, restore now snap c)
            end
        end
    end.

(** ** Construction, end, background saver *)

(** [New]: a snapshot that cannot be restored is ignored.  [Load] reads the clock
    again. *)
Definition NewCollector (now load_now : time) (config : Config) (read_err : option string) (fs : disk) : Collector :=
  let c := New now config in
  if String.eqb (File (cfg c)) "" then c else (Load read_err load_now fs c).2.

(** The saving goroutine of a collector: whether [New] started it, whether [stopCh] is
    closed.  [Close] waits for it after closing the channel. *)
Record Saver := { sv_started : bool; sv_stopCh : bool }.

Definition new_saver (config : Config) : Saver :=
  {| sv_started := negb (String.eqb (File config) "") && (0 <? SaveInterval config); sv_stopCh := false |}.

Definition stop_saver (s : Saver) : Saver := {| sv_started := sv_started s; sv_stopCh := true |}.

Definition saver_runs (s : Saver) : bool := sv_started s && negb (sv_stopCh s).

(** [Close], once the saver has stopped. *)
Definition Close (io : SaveIO) (now : time) (c : Collector) (fs : disk) : list disk :=
  if String.eqb (File (cfg c)) "" then [fs] else (Save io now c fs).2.

(** [saveLoop]: a tick saves what the collector then holds, whatever the last save's
    outcome; the stop signal ends the loop. *)
Inductive saver_event := Tick (io : SaveIO) (now : time) (c : Collector) | StopSignal.

Fixpoint saveLoop (evs : list saver_event) (fs : disk) : list disk :=
  match evs with
  | [] => [fs]
  | StopSignal :: _ => [fs]
  | Tick io now c :: evs =>
      let l := (Save io now c fs).2 in l ++ saveLoop evs (default_last fs l)
  end.
End persist.
End StatsPersist.
