(* ===== verification/StatsPersistProps.v ===== *)
(** * core/stats: what the snapshot file guarantees

    The old file survives every failure and crash of a save, a file that cannot be
    restored changes nothing, and a restart gives back every counter and table. *)

From S2P Require Import Prelude GoStrings Stats StatsProps StatsTime StatsView StatsViewProps Json StatsPersist.
Import Stats StatsProps StatsTime StatsView StatsViewProps Json StatsPersist.

Module StatsPersistProps.

(** ** Tables by name *)

(** Every entry is filed under its own name, which is not empty. *)
Definition named {A} (name : A → string) (m : gmap string A) : Prop :=
  map_Forall (λ k x, name x = k ∧ k ≠ "") m.

Lemma named_insert {A} (name : A → string) m k x :
  named name m → name x = k → k ≠ "" → named name (<[k := x]> m).
Proof. intros Hm Hx Hk. by apply map_Forall_insert_2. Qed.

Lemma named_subseteq {A} (name : A → string) m m' : m' ⊆ m → named name m → named name m'.
Proof. intros Hs Hm k x Hk. apply Hm. by eapply lookup_weaken. Qed.

Lemma load_rows_union {A} (name : A → string) l (m : gmap string A) :
  Forall (λ x, name x ≠ "") l → NoDup (name <$> l) →
  load_rows name m l = list_to_map ((λ x, (name x, x)) <$> l) ∪ m.
Proof.
  intros Hl. revert m. induction Hl as [|x l Hx Hl IH]; intros m; [intros _; cbn; by rewrite (left_id_L ∅ (∪))|].
  cbn. rewrite NoDup_cons. intros [Hni Hnd]. destruct (String.eqb_spec (name x) ""); [done|].
  unfold load_rows in IH. rewrite IH by done. rewrite <- insert_union_l, insert_union_r; [done|].
  apply not_elem_of_list_to_map_1. by rewrite <- list_fmap_compose.
Qed.

(** Loading the rows of a table, in any order, rebuilds it. *)
Lemma load_rows_table {A} (name : A → string) l (m : gmap string A) :
  named name m → l ≡ₚ (map_to_list m).*2 → load_rows name ∅ l = m.
Proof.
  intros Hm Hl.
  assert ((λ x, (name x, x)) <$> (map_to_list m).*2 = map_to_list m) as E.
  { rewrite <- list_fmap_compose. rewrite <- (list_fmap_id (map_to_list m)) at 2.
    apply list_fmap_ext. intros i [k x] Hi. cbn. f_equal.
    apply list_elem_of_lookup_2, elem_of_map_to_list in Hi. by destruct (Hm _ _ Hi). }
  assert (name <$> (map_to_list m).*2 = (map_to_list m).*1) as E1.
  { rewrite <- E at 2. rewrite <- !list_fmap_compose. done. }
  assert (NoDup (name <$> l)) as Hnd by (rewrite Hl, E1; apply NoDup_fst_map_to_list).
  rewrite load_rows_union; [| |done].
  - rewrite (right_id_L ∅ (∪)). rewrite <- (list_to_map_to_list m) at 1. apply list_to_map_proper.
    + by rewrite <- list_fmap_compose.
    + by rewrite Hl, E.
  - apply Forall_forall. intros x Hx. rewrite Hl in Hx. apply list_elem_of_fmap in Hx as ([k y] & -> & Hy).
    apply elem_of_map_to_list in Hy. cbn. by destruct (Hm _ _ Hy) as [-> ?].
Qed.

Section persist.
Context `{UnicodeCase, GoSort, TimeFormat}.

Record tables_named (c : Collector) : Prop := {
  tn_domains : named dDomain (domains c);
  tn_names : named dDomain (dnsNames c);
  tn_nodes : named nName (nodes c);
}.

Lemma prune_over_subseteq limit m : prune_over limit m ⊆ m.
Proof.
  unfold prune_over. destruct (limit <? _); [|done]. unfold pruneLocked. generalize (drop (Z.to_nat (prune_keep limit))
    (sort_slice busier (map_to_list m).*2)). intros l. revert m. induction l as [|d l IH]; intros m; [done|].
  cbn. etransitivity; [apply IH|]. apply delete_subseteq.
Qed.

Lemma lookup_name {A} (name : A → string) (new : string → A) m k :
  named name m → name (new k) = k → name (default (new k) (m !! k)) = k.
Proof. intros Hm Hn. destruct (m !! k) as [x|] eqn:E; cbn; [by destruct (Hm _ _ E)|done]. Qed.

Lemma named_prims ok : prims ok tables_named.
Proof.
  split.
  - intros now c _ []. split; by autorewrite with stats.
  - intros s up down c []. split; rewrite ?(addRate_frame domains), ?(addRate_frame dnsNames), ?(addRate_frame nodes); done.
  - intros * _ []. by split.
  - intros now name up down c Hn []. split; [done..|]. cbn. apply named_insert; [done| |done]. cbn.
    by apply (lookup_name nName newNodeStat).
  - intros now h d up down n e c Hh []. split; [|done..]. cbn.
    eapply named_subseteq; [apply prune_over_subseteq|]. apply named_insert; [done| |done].
    destruct d, e; cbn; by apply (lookup_name dDomain newDomainStat).
  - intros now h e c Hh []. split; [done| |done]. cbn.
    eapply named_subseteq; [apply prune_over_subseteq|]. apply named_insert; [done| |done].
    destruct e; cbn; by apply (lookup_name dDomain newDomainStat).
  - intros x c []. by split.
Qed.

Lemma run_named now config log : tables_named (run log (New now config)).
Proof.
  apply (run_inv tables_named (λ _, True)); [|by apply Forall_true|by split].
  intros c e _ Hc. apply (apply_prims any_time _ (named_prims _)); [done| |done]. intros _. by split.
Qed.

(** ** The disk *)

Abbreviation disk := (gmap string string) (only parsing).

Context `{JSONText, TimeJSON, GoAppend}.

Lemma tmp_path_ne path : path +:+ ".tmp" ≠ path.
Proof. intros E. apply (f_equal String.length) in E. rewrite slen_app in E. cbn in E. lia. Qed.

(** The disk while one file is replaced through a temporary one: as it was, with the
    temporary file there or gone again, or with the new file. *)
Inductive replacing (path tmp : string) (new : string → Prop) (fs : disk) : disk → Prop :=
  | ReUntouched : replacing path tmp new fs fs
  | ReWriting v : replacing path tmp new fs (<[tmp := v]> fs)
  | ReDropped v : replacing path tmp new fs (delete tmp (<[tmp := v]> fs))
  | ReDone data : new data → replacing path tmp new fs (<[path := data]> (delete tmp (<[tmp := data]> fs))).

Lemma replacing_path path tmp new fs d : tmp ≠ path → replacing path tmp new fs d →
  (d !! path = fs !! path ∨ ∃ data, new data ∧ d !! path = Some data) ∧
  ∀ p, p ≠ path → p ≠ tmp → d !! p = fs !! p.
Proof.
  intros Hne [|v|v|data Hd].
  - split; [by left|done].
  - split; [left; by rewrite lookup_insert_ne|]. intros p _ Hp. by rewrite lookup_insert_ne.
  - split; [left; by rewrite lookup_delete_ne, lookup_insert_ne|]. intros p _ Hp. by rewrite lookup_delete_ne, lookup_insert_ne.
  - split; [right; exists data; by rewrite lookup_insert_eq|]. intros p Hp Hp'.
    by rewrite lookup_insert_ne, lookup_delete_ne, lookup_insert_ne.
Qed.

(** The states a save takes the disk through, and the last of them. *)
Lemma Save_states io now c fs :
  let path := File (cfg c) in let tmp := path +:+ ".tmp" in
  let marshalled data := MarshalIndent (take_snapshot now c) = Ok data in
  Forall (replacing path tmp marshalled fs) (Save io now c fs).2 ∧
  ∃ d, last (Save io now c fs).2 = Some d ∧
    match (Save io now c fs).1 with
    | Ok _ => path ≠ "" ∧ ∃ data, marshalled data ∧ d = <[path := data]> (delete tmp (<[tmp := data]> fs))
    | Err _ => replacing path tmp (λ _, False) fs d
    end.
Proof.
  intros path tmp marshalled. unfold Save. fold path.
  assert (∀ new, Forall (replacing path tmp new fs) [fs] ∧ ∃ d, last [fs] = Some d ∧ replacing path tmp (λ _, False) fs d) as Hnone.
  { intros new. split; [repeat constructor|]. exists fs. by repeat constructor. }
  destruct (String.eqb_spec path ""); [apply Hnone|]. destruct (mkdir_err io); [apply Hnone|].
  destruct (MarshalIndent (take_snapshot now c)) as [data|e] eqn:Em; [|apply Hnone]. fold tmp.
  set (w := writing tmp data (written io) fs).
  assert (∀ new, Forall (replacing path tmp new fs) (fs :: w)) as Hw.
  { intros new. constructor; [constructor|]. apply Forall_fmap, Forall_true. intros ?. constructor. }
  destruct (write_err io).
  { split; [apply Hw|]. destruct (last (fs :: w)) as [d|] eqn:El; [|by apply last_None in El].
    exists d. split; [done|]. eapply (proj1 (Forall_forall _ _)); [apply Hw|by apply last_Some_elem_of]. }
  assert (∀ new d1 d2, replacing path tmp new fs d1 → replacing path tmp new fs d2 →
    Forall (replacing path tmp new fs) (fs :: w ++ [d1; d2])) as Hall.
  { intros new d1 d2 R1 R2. rewrite app_comm_cons. apply Forall_app. split; [apply Hw|]. by repeat constructor. }
  assert (∀ d1 d2, last (fs :: w ++ [d1; d2]) = Some d2) as Hlast by (intros d1 d2; by rewrite app_comm_cons, last_app).
  destruct (rename_err io) as [e|]; (split; [apply Hall|eexists; split; [apply Hlast|]]); cbn [fst].
  - constructor.
  - destruct (remove_ok io); constructor.
  - destruct (remove_ok io); constructor.
  - constructor.
  - by constructor.
  - split; [done|]. by exists data.
Qed.

(** C20: a save never damages the old file.  In every state the disk goes through
    while the snapshot is saved, whatever fails and wherever the program is killed,
    the snapshot file is the old one or the complete new one, and no other file but
    the temporary one is touched.  At the end it is the new one, with the temporary
    file gone, exactly when [Save] reports no error. *)
Theorem Save_atomic io now c fs :
  let path := File (cfg c) in
  let '(r, states) := Save io now c fs in
  Forall (λ d, (d !! path = fs !! path ∨
                ∃ data, MarshalIndent (take_snapshot now c) = Ok data ∧ d !! path = Some data) ∧
               ∀ p, p ≠ path → p ≠ path +:+ ".tmp" → d !! p = fs !! p) states ∧
  ∃ d, last states = Some d ∧
    match r with
    | Ok _ => ∃ data, MarshalIndent (take_snapshot now c) = Ok data ∧ d !! path = Some data ∧
                      d !! (path +:+ ".tmp") = None
    | Err _ => d !! path = fs !! path
    end.
Proof.
  intros path. pose proof (Save_states io now c fs) as [Hall (d & Hd & Hlast)]. fold path in Hall, Hlast.
  pose proof (tmp_path_ne path) as Hne. destruct (Save io now c fs) as [r states]. cbn [fst snd] in *. split.
  - eapply Forall_impl; [exact Hall|]. intros x Hx. by apply replacing_path in Hx.
  - exists d. split; [done|]. destruct r as [u|e].
    + destruct Hlast as (_ & data & Hm & ->). exists data. split; [done|].
      by rewrite lookup_insert_eq, lookup_insert_ne, lookup_delete_eq.
    + apply replacing_path in Hlast as [[|(? & [] & _)] _]; done.
Qed.

(** C25: what stops a restore changes nothing.  [Load] fails exactly when no file is
    configured, the file cannot be read, or what it holds is not a snapshot of this
    version; the collector is then what it was, and a collector built over such a
    file, or over none, is a fresh one. *)
Theorem Load_errors read_err now fs c :
  let '(r, c') := Load read_err now fs c in
  (is_ok r = false ↔
     File (cfg c) = "" ∨ is_Some read_err ∨
     ∃ data, fs !! File (cfg c) = Some data ∧ ∀ snap, Unmarshal data = Ok snap → Version snap ≠ snapshotVersion) ∧
  (is_ok r = false ∨ fs !! File (cfg c) = None → c' = c) ∧
  ∀ t config, c = New t config → is_ok r = false → NewCollector t now config read_err fs = c.
Proof.
  destruct (Load read_err now fs c) as [r c'] eqn:El.
  assert ((is_ok r = false ↔
     File (cfg c) = "" ∨ is_Some read_err ∨
     ∃ data, fs !! File (cfg c) = Some data ∧ ∀ snap, Unmarshal data = Ok snap → Version snap ≠ snapshotVersion) ∧
    (is_ok r = false ∨ fs !! File (cfg c) = None → c' = c)) as [Hiff Hkeep].
  { revert El. unfold Load. destruct (String.eqb_spec (File (cfg c)) "") as [E|E]; [intros [= <- <-]; naive_solver|].
    destruct read_err as [e|]; [intros [= <- <-]; naive_solver|].
    destruct (fs !! File (cfg c)) as [data|] eqn:Ef; [|intros [= <- <-]; split; [|done]; split; [done|]; intros [?|[[? ?]|(? & ? & _)]]; done].
    destruct (Unmarshal data) as [snap|e] eqn:Eu.
    - destruct (Z.eqb_spec (Version snap) snapshotVersion) as [Ev|Ev]; intros [= <- <-].
      + split; [|naive_solver]. split; [done|]. intros [?|[[? ?]|(d & [= <-] & Hd)]]; [done..|]. by destruct (Hd _ Eu).
      + split; [|done]. split; [intros _|done]. right; right. exists data. split; [done|]. intros s Es. congruence.
    - intros [= <- <-]. split; [|done]. split; [intros _|done]. right; right. exists data. split; [done|]. intros s Es. congruence. }
  split_and!; [done..|]. intros t config -> Hr. unfold NewCollector. rewrite El.
  destruct (String.eqb (File (cfg (New t config))) ""); [done|]. apply Hkeep. by left.
Qed.

(** ** The round trip *)

(** While they fit, the buckets that are not too old are appended. *)
Lemma load_buckets_fit cutoff cap l acc :
  (length acc + length l ≤ cap)%nat →
  foldl (load_bucket cutoff cap) (acc, cap) l = (acc ++ filter (λ b, 0 < bT b ∧ cutoff ≤ bT b) l, cap).
Proof.
  revert acc. induction l as [|b l IH]; intros acc Hlen; cbn [foldl]; [by rewrite app_nil_r|].
  cbn in Hlen. rewrite filter_cons. unfold load_bucket at 2.
  destruct (Z.leb_spec (bT b) 0), (Z.ltb_spec (bT b) cutoff); cbn [orb];
    [rewrite decide_False by lia; rewrite IH by lia; done..|].
  rewrite decide_True by lia. destruct (Nat.leb_spec cap (length acc)); [lia|].
  destruct (Nat.ltb_spec (length acc) cap); [|lia].
  rewrite IH by (rewrite length_app; cbn; lia). by rewrite <- app_assoc.
Qed.

Lemma Unmarshal_Marshal now c data :
  json_ok (@enc _ snapshot_codec (take_snapshot now c)) = true →
  MarshalIndent (take_snapshot now c) = Ok data → Unmarshal data = Ok (take_snapshot now c).
Proof.
  intros Hok. unfold MarshalIndent, Unmarshal. destruct (time_text _); [|done]. intros [= <-].
  rewrite json_parse_print by done. pose proof (@dec_enc _ snapshot_codec _ Hok) as E. unfold enc, snapshot_codec, struct_codec in E |- *. by rewrite E.
Qed.

Lemma topFrom_all m limit : Z.of_nat (size m) ≤ limit → topFromLocked m limit ≡ₚ (map_to_list m).*2.
Proof.
  intros Hs. unfold topFromLocked, cut. destruct (Z.ltb_spec limit (Z.of_nat (length (sort_slice by_conns (rows m))))) as [Hl|_].
  - rewrite sort_slice_perm in Hl. unfold rows in Hl. rewrite length_fmap, length_map_to_list in Hl. lia.
  - apply sort_slice_perm.
Qed.

(** The buckets a restored collector serves. *)
Lemma ordered_flat c :
  head c = 0%nat → Forall (λ b, 0 < bT b) (buckets c) → (0 < bcap c)%nat → (length (buckets c) ≤ bcap c)%nat →
  orderedBucketsLocked c = buckets c.
Proof.
  intros Hh Hp Hc Hl. rewrite orderedBuckets_history by (split; [done..|by rewrite Hh|by rewrite Hh]).
  unfold history. rewrite Hh, take_0, drop_0, app_nil_r. by apply filter_all.
Qed.

(** [c'] has the statistics of [c], and its history as far as it is not too old. *)
Record restored (now : time) (c c' : Collector) : Prop := {
  rs_totals : totals c' = totals c;
  rs_direct : direct c' = direct c;
  rs_proxy : proxy c' = proxy c;
  rs_dns : dns c' = dns c;
  rs_domains : domains c' = domains c;
  rs_names : dnsNames c' = dnsNames c;
  rs_nodes : nodes c' = nodes c;
  rs_errs : errs c' = errs c;
  rs_peaks : peakUp c' = peakUp c ∧ peakDown c' = peakDown c;
  rs_history : orderedBucketsLocked c' = filter (λ b, history_cutoff now c ≤ bT b) (orderedBucketsLocked c);
  rs_ring : ring_ok c' ∧ bcap c' = bcap c;
}.

(** Restoring into a fresh collector what another one had. *)
Lemma restore_fresh t config now snap_now c :
  bounded c → tables_named c → cfg c = resolve_config config →
  (length (orderedBucketsLocked c) ≤ bcap (New t config))%nat → Forall (λ b, 0 < bT b) (orderedBucketsLocked c) →
  bcap c = bcap (New t config) →
  let c' := restore now (take_snapshot snap_now c) (New t config) in
  restored now c c' ∧ cur c' = cur (New t config).
Proof.
  intros [B1 B2 B3 [B5 B6] B7] [T1 T2 T3] E Hlen Hpos EB c'.
  set (l := orderedBucketsLocked c) in *.
  assert (filter (λ b, 0 < bT b ∧ history_cutoff now c ≤ bT b) l = filter (λ b, history_cutoff now c ≤ bT b) l) as Ef.
  { clear -Hpos. induction Hpos as [|b l Hb Hl IH]; [done|]. rewrite !filter_cons, IH.
    destruct (decide (history_cutoff now c ≤ bT b)); [rewrite decide_True by done|rewrite decide_False by naive_solver]; done. }
  assert (history_cutoff now (New t config) = history_cutoff now c) as Ec by (unfold history_cutoff; by rewrite E).
  unfold c', restore. change (sBuckets (take_snapshot snap_now c)) with l.
  rewrite load_buckets_fit, Ec, Ef by done. cbn [app].
  assert (keep_last (ErrorLimit (resolve_config config)) (errs c) = errs c) as Ee.
  { unfold keep_last. rewrite <- E. by destruct (Z.ltb_spec (ErrorLimit (cfg c)) (Z.of_nat (length (errs c)))); [lia|]. }
  assert (0 < bcap (New t config))%nat as Hcap by (by destruct (New_balanced t config) as [[? _ _ _] _]).
  set (kept := filter (λ b, history_cutoff now c ≤ bT b) l).
  assert (length kept ≤ bcap (New t config))%nat as Hlen'.
  { etransitivity; [apply length_filter|done]. }
  split; [split|done]; try done.
  - cbn. rewrite !copyMap_id. by destruct (dns c).
  - by apply (load_rows_table dDomain).
  - apply (load_rows_table dDomain); [done|by apply topFrom_all].
  - by apply (load_rows_table nName).
  - rewrite ordered_flat; [done|done| |done|done]. cbn.
    apply Forall_forall. intros b [_ Hb]%list_elem_of_filter. rewrite Forall_forall in Hpos. by apply Hpos.
Qed.

Lemma ring_prims ok n : prims ok (λ c, ring_ok c ∧ bcap c = n).
Proof.
  split.
  - intros now c _ [Hr E]. split; [by apply ring_ok_rotate|by autorewrite with stats].
  - intros s up down c [[] E]. split; [split|];
      rewrite ?(addRate_frame buckets), ?(addRate_frame head), ?(addRate_frame bcap); done.
  - intros * _ [[] E]. by split.
  - intros * _ [[] E]. by split.
  - intros * _ [[] E]. by split.
  - intros * _ [[] E]. by split.
  - intros * [[] E]. by split.
Qed.

Lemma ordered_fits c : ring_ok c →
  (length (orderedBucketsLocked c) ≤ bcap c)%nat ∧ Forall (λ b, 0 < bT b) (orderedBucketsLocked c).
Proof.
  intros Hr. rewrite orderedBuckets_history by done. split.
  - etransitivity; [apply length_filter|]. rewrite length_history. by destruct Hr.
  - apply Forall_forall. by intros b [? _]%list_elem_of_filter.
Qed.

Lemma Save_ok_file io now c fs :
  (Save io now c fs).1 = Ok tt →
  ∃ data, MarshalIndent (take_snapshot now c) = Ok data ∧ File (cfg c) ≠ "" ∧
    default_last fs (Save io now c fs).2 !! File (cfg c) = Some data.
Proof.
  intros Hs. destruct (Save_states io now c fs) as [_ (d & Hd & Hlast)]. rewrite Hs in Hlast.
  destruct Hlast as (Hp & data & Hm & ->). exists data. split; [done|]. split; [done|].
  unfold default_last. rewrite Hd. apply lookup_insert_eq.
Qed.

(** ** Lives of a collector *)

(** What every collector with these settings keeps, restored or not. *)
Record fit (config : Config) (c : Collector) : Prop := {
  ft_bounded : bounded c;
  ft_named : tables_named c;
  ft_ring : ring_ok c;
  ft_cap : bcap c = bcap (New 0 config);
  ft_cfg : cfg c = resolve_config config;
}.

Lemma New_fit now config : fit config (New now config).
Proof.
  split; [apply New_bounded|by split| |done|done]. by destruct (New_balanced now config).
Qed.

Lemma apply_fit config c e : fit config c → fit config (apply c e).
Proof.
  intros [F1 F2 F3 F4 F5]. assert (ring_ok (apply c e) ∧ bcap (apply c e) = bcap c) as [R1 R2].
  { apply (apply_prims any_time _ (ring_prims _ (bcap c))); [done| |by split]. intros _. destruct F3. split; [split; cbn; auto with lia|done]. }
  split; [| |done|by rewrite R2|by apply (apply_prims any_time _ (cfg_prims _ config))].
  - apply (apply_prims any_time _ (bounded_prims _)); [done| |done]. intros _. destruct F1. split; cbn; auto using table_ok_empty with lia.
  - apply (apply_prims any_time _ (named_prims _)); [done| |done]. intros _. by split.
Qed.

Lemma run_fit config log c : fit config c → fit config (run log c).
Proof.
  intros Hc. apply (run_inv (fit config) (λ _, True)); [|by apply Forall_true|done]. intros c0 e _. apply apply_fit.
Qed.

(** The disk holds the snapshot some collector with these settings took. *)
Definition holds_snapshot (config : Config) (c : Collector) (fs : disk) : Prop :=
  File config ≠ "" ∧ fit config c ∧ ∃ t data, json_ok (@enc _ snapshot_codec (take_snapshot t c)) = true ∧
    MarshalIndent (take_snapshot t c) = Ok data ∧ fs !! File config = Some data.

Lemma restart_from config c fs tnew tload : holds_snapshot config c fs →
  let c' := NewCollector tnew tload config None fs in
  restored tload c c' ∧ cur c' = emptyBucket (alignUnix (unix tnew) (BucketInterval (resolve_config config))) ∧ fit config c'.
Proof.
  intros (Hp & [F1 F2 F3 F4 F5] & t & data & Hok & Hm & Hf) c'.
  assert (File (cfg (New tnew config)) = File config) as Efile.
  { change (cfg (New tnew config)) with (resolve_config config). unfold resolve_config. by repeat case_match. }
  assert (c' = restore tload (take_snapshot t c) (New tnew config)) as ->.
  { unfold c', NewCollector, Load. rewrite Efile, Hf, (Unmarshal_Marshal _ _ _ Hok Hm). by destruct (String.eqb_spec (File config) ""). }
  destruct (ordered_fits c F3) as [Hlen Hpos]. rewrite F4 in Hlen.
  destruct (restore_fresh tnew config tload t c F1 F2 F5 Hlen Hpos F4) as [Hr Hcur].
  split; [done|]. split; [done|]. pose proof Hr as [_ _ _ _ Ed En Eo Ee _ _ [R1 R2]].
  assert (cfg (restore tload (take_snapshot t c) (New tnew config)) = resolve_config config) as Ecfg.
  { unfold restore. by destruct (foldl _ _ _). }
  split; [|split; rewrite ?Ed, ?En, ?Eo; apply F2|done|by rewrite R2|done].
  destruct F1 as [B1 B2 B3 B4 B5]. rewrite F5 in *. split; rewrite Ecfg, ?Ed, ?En, ?Ee; done.
Qed.

(** One life of a collector: the calls made on it up to its last save, that save, and the
    state of the disk at which the program died; [None] is the end of the save.  Then the
    times of the next start. *)
Record Life := { li_log : list (time * event); li_io : SaveIO; li_save : time; li_died : option nat; li_new : time; li_load : time }.

Definition disk_at (fs : disk) (l : list disk) (n : option nat) : disk :=
  match n with Some n => default (default_last fs l) (l !! n) | None => default_last fs l end.

Definition live (config : Config) (st : Collector * disk) (x : Life) : Collector * disk :=
  let c := run (li_log x) st.1 in
  let fs := disk_at st.2 (Close (li_io x) (li_save x) c st.2) (li_died x) in
  (NewCollector (li_new x) (li_load x) config None fs, fs).

(** Every snapshot taken on the way has a text: its strings are valid UTF-8, its counts
    64-bit integers. *)
Fixpoint lives_valid (config : Config) (st : Collector * disk) (l : list Life) : Prop :=
  match l with
  | [] => True
  | x :: l => json_ok (@enc _ snapshot_codec (take_snapshot (li_save x) (run (li_log x) st.1))) = true ∧
              lives_valid config (live config st x) l
  end.

(** A disk without the snapshot file, or with one that was saved. *)
Definition disk_settled (config : Config) (fs : disk) : Prop := fs !! File config = None ∨ ∃ c, holds_snapshot config c fs.

(** A collector and a disk between two lives. *)
Definition settled (config : Config) (st : Collector * disk) : Prop :=
  fit config st.1 ∧ disk_settled config st.2.

Lemma disk_at_elem fs l n : l ≠ [] → disk_at fs l n ∈ l.
Proof.
  intros Hl. assert (default_last fs l ∈ l) as Hd.
  { unfold default_last. destruct (last l) as [d|] eqn:E; [by apply last_Some_elem_of|by apply last_None in E]. }
  destruct n as [n|]; cbn; [|done]. destruct (l !! n) as [d|] eqn:E; [by eapply list_elem_of_lookup_2|done].
Qed.

Lemma File_cfg config c : fit config c → File (cfg c) = File config.
Proof. intros [_ _ _ _ ->]. unfold resolve_config. by repeat case_match. Qed.

(** The states of the disk while a collector ends: its file is the old one or holds its
    snapshot. *)
Lemma Close_states config io t c fs d :
  fit config c → json_ok (@enc _ snapshot_codec (take_snapshot t c)) = true → d ∈ Close io t c fs →
  d !! File config = fs !! File config ∨ holds_snapshot config c d.
Proof.
  intros Hf Hok. unfold Close. rewrite (File_cfg config c Hf). destruct (String.eqb_spec (File config) "") as [E|E].
  { intros ->%list_elem_of_singleton. by left. }
  intros Hd. destruct (Save_states io t c fs) as [Hall _]. rewrite (File_cfg config c Hf) in Hall.
  pose proof (proj1 (Forall_forall _ _) Hall d Hd) as Hr. apply replacing_path in Hr as [[?|(data & Hm & Hd')] _]; [by left| |apply tmp_path_ne].
  right. split; [done|]. split; [done|]. by exists t, data.
Qed.

Lemma Close_nonempty io t c fs : Close io t c fs ≠ [].
Proof.
  unfold Close. case_match; [done|]. destruct (Save_states io t c fs) as [_ (d & Hd & _)]. intros E. by rewrite E in Hd.
Qed.

Lemma restart_empty config fs tnew tload : fs !! File config = None → NewCollector tnew tload config None fs = New tnew config.
Proof.
  intros Hf. unfold NewCollector, Load. assert (File (cfg (New tnew config)) = File config) as -> by apply File_cfg, New_fit.
  rewrite Hf. by case_match.
Qed.

Lemma NewCollector_fit config t tload rd fs : disk_settled config fs → fit config (NewCollector t tload config rd fs).
Proof.
  intros Hd. destruct rd as [e|].
  { unfold NewCollector, Load. case_match; apply New_fit. }
  destruct Hd as [Hn|[c Hh]]; [rewrite restart_empty by done; apply New_fit|]. by eapply restart_from.
Qed.

Lemma live_settled config st x : settled config st →
  json_ok (@enc _ snapshot_codec (take_snapshot (li_save x) (run (li_log x) st.1))) = true → settled config (live config st x).
Proof.
  intros [Hf Hd] Hok. unfold live. set (c := run (li_log x) st.1) in *. assert (fit config c) as Hc by by apply run_fit.
  set (d := disk_at _ _ _).
  assert (d ∈ Close (li_io x) (li_save x) c st.2) as Hin by apply disk_at_elem, Close_nonempty.
  assert (disk_settled config d) as Hd'.
  { destruct (Close_states config _ _ _ _ _ Hc Hok Hin) as [E|Hh]; [|by right; exists c].
    unfold disk_settled. rewrite E. destruct Hd as [Hn|(c0 & Hp & Hf0 & t & data & Hj & Hm & Hf1)]; [by left|]. right. exists c0. split; [done|]. split; [done|].
    exists t, data. by rewrite E. }
  split; [by apply NewCollector_fit|done].
Qed.

Lemma lives_settled config l st : settled config st → lives_valid config st l → settled config (foldl (live config) st l).
Proof. revert st. induction l as [|x l IH]; intros st Hs Hv; [done|]. destruct Hv as [Hx Hv]. by apply IH; [apply live_settled|]. Qed.

(** C7: restarts give the statistics back.  Over any number of lives, each with any calls,
    any failures of its save and a death at any moment of it: when a collector has saved
    its snapshot, the next one with the same settings has the same totals, splits, DNS
    counters, domain, query-name and node tables, error log and peaks; its history is
    every closed bucket that is not older than the window.  The bucket being filled is not
    saved.  When the program dies during the save, the next collector is the one that
    snapshot gives or the one it would have been had this life not saved. *)
Theorem restart_keeps now0 config fs0 lives log io tsave n tnew tload :
  fs0 !! File config = None → lives_valid config (New now0 config, fs0) lives →
  let '(c0, fs) := foldl (live config) (New now0 config, fs0) lives in
  let c := run log c0 in
  json_ok (@enc _ snapshot_codec (take_snapshot tsave c)) = true →
  let next d := NewCollector tnew tload config None d in
  ((Save io tsave c fs).1 = Ok tt →
     restored tload c (next (disk_at fs (Close io tsave c fs) None)) ∧
     cur (next (disk_at fs (Close io tsave c fs) None)) = emptyBucket (alignUnix (unix tnew) (BucketInterval (resolve_config config)))) ∧
  (restored tload c (next (disk_at fs (Close io tsave c fs) n)) ∨ next (disk_at fs (Close io tsave c fs) n) = next fs).
Proof.
  intros Hfs Hv. assert (settled config (New now0 config, fs0)) as Hs0 by (split; [apply New_fit|by left]).
  pose proof (lives_settled config lives _ Hs0 Hv) as Hs. revert Hs.
  destruct (foldl (live config) (New now0 config, fs0) lives) as [c0 fs]. intros [Hc0 Hd] c Hok next. cbn [fst snd] in Hc0, Hd.
  assert (fit config c) as Hc by by apply run_fit. split.
  - intros Hsave. destruct (Save_ok_file io tsave c fs Hsave) as (data & Hm & Hpath & Hfile). rewrite (File_cfg config c Hc) in Hpath, Hfile.
    assert (disk_at fs (Close io tsave c fs) None = default_last fs (Save io tsave c fs).2) as ->.
    { unfold Close. rewrite (File_cfg config c Hc). by destruct (String.eqb_spec (File config) ""). }
    destruct (restart_from config c (default_last fs (Save io tsave c fs).2) tnew tload) as (K1 & K2 & _); [|by split].
    split; [done|]. split; [done|]. by exists tsave, data.
  - assert (disk_at fs (Close io tsave c fs) n ∈ Close io tsave c fs) as Hin by apply disk_at_elem, Close_nonempty.
    destruct (Close_states config _ _ _ _ _ Hc Hok Hin) as [E|Hh]; [right|left; by eapply restart_from].
    unfold next, NewCollector, Load. by rewrite (File_cfg config _ (New_fit tnew config)), E.
Qed.
End persist.

(** ** An instance of the document text

    Documents are numbered through stdpp's generic trees and the number is written in
    binary; what the theorems need of the JSON text is that it can be read back. *)

Section nested.
  Context (P : Json → Prop)
    (Pnull : P JNull) (Pbool : ∀ b, P (JBool b)) (Pnum : ∀ z, P (JNum z)) (Preal : ∀ s, P (JReal s))
    (Pstr : ∀ s, P (JStr s)) (Parr : ∀ l, Forall P l → P (JArr l))
    (Pobj : ∀ l, Forall (λ kv, P kv.2) l → P (JObj l)).

Fixpoint Json_nested (j : Json) : P j :=
    match j with
    | JNull => Pnull
    | JBool b => Pbool b
    | JNum z => Pnum z
    | JReal s => Preal s
    | JStr s => Pstr s
    | JArr l => Parr l ((fix go l : Forall P l :=
        match l with [] => Forall_nil_2 P | x :: l => Forall_cons_2 P x l (Json_nested x) (go l) end) l)
    | JObj l => Pobj l ((fix go l : Forall (λ kv, P kv.2) l :=
        match l with
        | [] => Forall_nil_2 _
        | kv :: l => Forall_cons_2 (λ kv, P kv.2) kv l (Json_nested kv.2) (go l)
        end) l)
    end.
End nested.

Definition leaf : Type := option (bool + Z + string + string).

Fixpoint to_tree (j : Json) : gen_tree leaf :=
  match j with
  | JNull => GenLeaf None
  | JBool b => GenLeaf (Some (inl (inl (inl b))))
  | JNum z => GenLeaf (Some (inl (inl (inr z))))
  | JReal s => GenLeaf (Some (inl (inr s)))
  | JStr s => GenLeaf (Some (inr s))
  | JArr l => GenNode 0 (map to_tree l)
  | JObj l => GenNode 1 (map (λ kv, GenNode 2 [GenLeaf (Some (inr kv.1)); to_tree kv.2]) l)
  end.

Fixpoint of_tree (t : gen_tree leaf) : Json :=
  match t with
  | GenLeaf None => JNull
  | GenLeaf (Some (inl (inl (inl b)))) => JBool b
  | GenLeaf (Some (inl (inl (inr z)))) => JNum z
  | GenLeaf (Some (inl (inr s))) => JReal s
  | GenLeaf (Some (inr s)) => JStr s
  | GenNode 0 l => JArr (map of_tree l)
  | GenNode _ l => JObj (map (λ t, match t with
                                   | GenNode _ [GenLeaf (Some (inr k)); v] => (k, of_tree v)
                                   | _ => ("", JNull)
                                   end) l)
  end.

Lemma of_to_tree j : of_tree (to_tree j) = j.
Proof.
  induction j as [| | | | |l Hl|l Hl] using Json_nested; [done..| |]; cbn; f_equal; rewrite map_map.
  - induction Hl as [|x l Hx Hl IH]; [done|]. cbn. by rewrite Hx, IH.
  - induction Hl as [|[k x] l Hx Hl IH]; [done|]. cbn in *. by rewrite Hx, IH.
Qed.

Fixpoint show_bits (p : positive) : string :=
  match p with xH => "" | xO p => String "0" (show_bits p) | xI p => String "1" (show_bits p) end.

Fixpoint read_bits (s : string) : positive :=
  match s with
  | "" => xH
  | String c s => if Ascii.eqb c "0" then xO (read_bits s) else xI (read_bits s)
  end%string.

Lemma read_show_bits p : read_bits (show_bits p) = p.
Proof. induction p as [p IH|p IH|]; cbn; by rewrite ?IH. Qed.

#[program] Definition bits_JSON : JSONText := {|
  json_print j := show_bits (encode (to_tree j));
  json_parse s := match decode (read_bits s) with Some t => Ok (of_tree t) | None => Err "bad text" end;
|}.
Next Obligation. intros j _. cbn. by rewrite read_show_bits, decode_encode, of_to_tree. Qed.

#[program] Definition digits_time : TimeJSON := {|
  time_text t := if bool_decide (- 2 ^ 63 ≤ t < 2 ^ 63) then Some (Itoa t) else None;
  time_parse := Atoi;
|}.
Next Obligation.
  intros t s. cbn. case_bool_decide; [|done]. intros [= <-]. split; [by apply Atoi_Itoa|].
  apply utf8_ascii, Itoa_ascii.
Qed.

#[program] Definition double_append : GoAppend := {| grown_cap old n := Nat.max (2 * old) n |}.
Next Obligation. intros. cbn. lia. Qed.

(** ** Witnesses *)

#[local] Instance persist_sort : GoSort := merge_GoSort.
#[local] Instance persist_format : TimeFormat := λ t, Itoa (unix t).
#[local] Instance persist_case : UnicodeCase := ascii_case.
#[local] Existing Instances bits_JSON digits_time double_append.

Definition file_config : Config := demo_config <| File := "s.json" |>.
Definition good_io : SaveIO :=
  {| mkdir_err := None; written := [0%nat; 10%nat]; write_err := None; rename_err := None; remove_ok := true |}.

Definition demo_life (died : option nat) : Life :=
  {| li_log := demo_log; li_io := good_io; li_save := 210 * second; li_died := died; li_new := 300 * second; li_load := 300 * second |}.

(** A life that ends well, one killed while its snapshot is written, and a third. *)
Lemma restart_keeps_witness :
  let '(c0, fs) := foldl (live file_config) (New (90 * second) file_config, ∅) [demo_life None; demo_life (Some 2%nat)] in
  let c := run demo_log c0 in
  let c' := NewCollector (500 * second) (500 * second) file_config None (disk_at fs (Close good_io (400 * second) c fs) None) in
  cUpload (totals c) = 1020 ∧ totals c' = totals c ∧ domains c' = domains c.
Proof.
  assert (lives_valid file_config (New (90 * second) file_config, ∅) [demo_life None; demo_life (Some 2%nat)]) as Hv
    by (split; [|split]; vm_compute; reflexivity).
  pose proof (restart_keeps (90 * second) file_config ∅ [demo_life None; demo_life (Some 2%nat)] demo_log good_io (400 * second)
    None (500 * second) (500 * second) eq_refl Hv) as Hr. clear Hv.
  assert (let '(c0, fs) := foldl (live file_config) (New (90 * second) file_config, ∅) [demo_life None; demo_life (Some 2%nat)] in
    cUpload (totals (run demo_log c0)) = 1020 ∧
    json_ok (@enc _ snapshot_codec (take_snapshot (400 * second) (run demo_log c0))) = true ∧
    (Save good_io (400 * second) (run demo_log c0) fs).1 = Ok tt) as Hc by (vm_compute; auto).
  destruct (foldl (live file_config) _ _) as [c0 fs]. destruct Hc as (H1 & H2 & H3).
  destruct (Hr H2) as [Hk _]. destruct (Hk H3) as [[R1 R2 R3 R4 R5] _]. exact (conj H1 (conj R1 R5)).
Defined.

Lemma Load_errors_witness :
  NewCollector 0 0 file_config None {["s.json" := "0"]} = New 0 file_config.
Proof.
  pose proof (Load_errors None 0 {["s.json" := "0"]} (New 0 file_config)) as Hx.
  destruct (Load None 0 _ _) as [r c'] eqn:El. apply (proj2 (proj2 Hx) 0 file_config eq_refl).
  assert (is_ok r = is_ok (Load None 0 {["s.json" := "0"]} (New 0 file_config)).1) as -> by (by rewrite El).
  vm_compute. reflexivity.
Defined.

Definition bad_io : SaveIO :=
  {| mkdir_err := None; written := [0%nat; 10%nat]; write_err := None; rename_err := Some "busy"; remove_ok := false |}.

Lemma Save_atomic_witness :
  ∃ d, last (Save bad_io 0 (New 0 file_config) {["s.json" := "old"]}).2 = Some d ∧ d !! "s.json" = Some "old".
Proof.
  pose proof (Save_atomic bad_io 0 (New 0 file_config) {["s.json" := "old"]}) as Hx.
  cbv zeta in Hx. assert (is_ok (Save bad_io 0 (New 0 file_config) {["s.json" := "old"]}).1 = false) as Hr by (vm_compute; reflexivity).
  destruct (Save bad_io _ _ _) as [[[]|e] states]; [discriminate Hr|].
  destruct Hx as (_ & d & Hd & Hold). exists d. split; [exact Hd|]. exact (eq_trans Hold eq_refl).
Defined.

(** ** The ring after a restore *)

(** A snapshot with more buckets than the history is configured for leaves a ring
    whose capacity is no longer the configured one: each bucket beyond it costs one
    element and one unit of capacity, and the append then reallocates. *)
Definition long_snapshot : snapshot := zeroSnapshot <| sBuckets := (λ i, emptyBucket (60 * (1 + Z.of_nat i))) <$> seq 0 4 |>.

Example restored_ring_outgrows :
  let c := restore (60 * second) long_snapshot (New (60 * second) demo_config) in
  bcap (New (60 * second) demo_config) = 3%nat ∧ bcap c = 4%nat ∧ (bT <$> buckets c) = [120; 180; 240].
Proof. vm_compute. auto. Qed.
End StatsPersistProps.
