(* ===== verification/Dns.v ===== *)
(** * core/dns: the caching, rule-routed resolver (server.go)

    [Server] is the resolver: its configuration, the answer cache, the reverse
    map and the listeners it holds.  The DNS message library is the parameter
    [DNSLib]; the upstreams a query reaches are an argument [Upstreams] of the
    query, and every reading of the clock is an argument.  Messages are values:
    the source copies them on the way into and out of the cache. *)

From S2P Require Import Prelude GoStrings GoNet Base64 Router Stats.
Import Base64.

Module Dns.

(** ** Messages *)

Definition TypeA : Z := 1.
Definition TypeAAAA : Z := 28.
Definition TypeOPT : Z := 41.
Definition RcodeSuccess : Z := 0.

Record Question := { qName : string; Qtype : Z; Qclass : Z }.

Inductive RData := RD_A (ip : IP) | RD_AAAA (ip : IP) | RD_other (wire : string).

Record RR := { Rrtype : Z; Ttl : Z; rdata : RData }.
#[global] Instance RR_eta : Eta RR := λ r, {| Rrtype := Rrtype r; Ttl := Ttl r; rdata := rdata r |}.

(** The fields the server reads or writes; [mRest] is the remainder of the
    header. *)
Record Msg := {
  Id : Z; Response : bool; Opcode : Z; Truncated : bool; Rcode : Z; mRest : Z;
  Questions : list Question; Answer : list RR; Ns : list RR; Extra : list RR;
}.
#[global] Instance Msg_eta : Eta Msg := λ m,
  {| Id := Id m; Response := Response m; Opcode := Opcode m; Truncated := Truncated m;
     Rcode := Rcode m; mRest := mRest m; Questions := Questions m; Answer := Answer m;
     Ns := Ns m; Extra := Extra m |}.

(** github.com/miekg/dns.  [SetReply] builds an empty success reply to its
    argument; [HandleFailed] the reply that reports a failure. *)
Class DNSLib := {
  type_to_string : Z → option string;
  Unpack : string → result string Msg;
  Pack : Msg → result string string;
  SetReply : Msg → Msg;
  HandleFailed : Msg → Msg;
  SetReply_spec r : Id (SetReply r) = Id r ∧ Response (SetReply r) = true ∧
    Truncated (SetReply r) = false ∧ Rcode (SetReply r) = RcodeSuccess ∧
    Answer (SetReply r) = [] ∧ Ns (SetReply r) = [] ∧ Extra (SetReply r) = [];
}.

(** What the upstreams answer to one query. *)
Record Upstreams := {
  udp_exchange : Msg → string → option Msg * option string;
  tcp_exchange : Msg → string → option Msg * option string;
  (** status and body, or the error of building or sending the request *)
  http_post : string → string → result string (Z * result string string);
}.

(** ** State *)

Record DNSCacheEntry := { eMsg : Msg; ExpiresAt : time; StoredAt : time }.
Record ipMapping := { domain : string; expires : time }.

Definition maxDNSMessageSize : Z := 65535.
Definition slen (s : string) : Z := Z.of_nat (String.length s).
Definition ipMappingTTL : duration := 30 * minute.

Section dns.
Context `{UnicodeCase, RouterEnv, DNSLib, GoSort, Stats.TimeFormat}.

Record Config := {
  ListenAddr : string; DoHListenAddr : string; DoTListenAddr : string;
  TLSCertFile : string; TLSKeyFile : string; DoHURL : string; DirectDNS : string;
  Socks5Addr : string; cRouter : option Router.Router; EnableIPv6 : bool;
  cStats : option Stats.Collector;
}.
#[global] Instance Config_eta : Eta Config := λ c,
  {| ListenAddr := ListenAddr c; DoHListenAddr := DoHListenAddr c; DoTListenAddr := DoTListenAddr c;
     TLSCertFile := TLSCertFile c; TLSKeyFile := TLSKeyFile c; DoHURL := DoHURL c;
     DirectDNS := DirectDNS c; Socks5Addr := Socks5Addr c; cRouter := cRouter c;
     EnableIPv6 := EnableIPv6 c; cStats := cStats c |}.

(** The listeners held, the reaper goroutine, and [stopOnce]. *)
Record Server := {
  conf : Config;
  cache : gmap string DNSCacheEntry;
  ipToDomain : gmap string ipMapping;
  stats : option Stats.Collector;
  l_udp : bool; l_tcp : bool; l_doh : bool; l_dot : bool;
  janitor : bool; stopped : bool;
}.
#[global] Instance Server_eta : Eta Server := λ s,
  {| conf := conf s; cache := cache s; ipToDomain := ipToDomain s; stats := stats s;
     l_udp := l_udp s; l_tcp := l_tcp s; l_doh := l_doh s; l_dot := l_dot s;
     janitor := janitor s; stopped := stopped s |}.

Definition or_default (s d : string) : string := if String.eqb s "" then d else s.

Definition NewServer (cfg : Config) : result string Server :=
  let cfg := cfg <| ListenAddr ::= λ s, or_default s "127.0.0.1:53" |>
                 <| DoHURL ::= λ s, or_default s "https://1.1.1.1/dns-query" |>
                 <| DirectDNS ::= λ s, or_default s "1.1.1.1:53" |> in
  if negb (String.eqb (DoTListenAddr cfg) "") &&
     (String.eqb (TLSCertFile cfg) "" || String.eqb (TLSKeyFile cfg) "")
  then Err "dot_listen requires tls_cert and tls_key"
  else Ok {| conf := cfg; cache := ∅; ipToDomain := ∅; stats := cStats cfg;
             l_udp := false; l_tcp := false; l_doh := false; l_dot := false;
             janitor := false; stopped := false |}.

(** [setupDoHClient]: how the DoH client reaches its server.  [SOCKS5] is the dialer's
    constructor of golang.org/x/net/proxy: an error, or a dialer that does or does not
    follow the request's context. *)
Inductive DoHDialer := DialDirect | DialSocks5 (addr : string) (contextual : bool).

Definition dohTimeout : duration := 5 * second.

Definition setupDoHClient (SOCKS5 : string → option bool) (s : Server) : DoHDialer :=
  let addr := Socks5Addr (conf s) in
  if negb (String.eqb addr "") then
    match SOCKS5 addr with None => DialDirect | Some contextual => DialSocks5 addr contextual end
  else DialDirect.

(** ** Listeners *)

(** What binding each port and loading the certificate report. *)
Record Binds := {
  b_udp : option string; b_tcp : option string; b_doh : option string;
  b_cert : option string; b_dot : option string;
}.

Definition shutdownListeners (s : Server) : Server :=
  s <| l_udp := false |> <| l_tcp := false |> <| l_doh := false |> <| l_dot := false |>.

(** Closing [stopCh] also ends the reaper. *)
Definition Stop (s : Server) : Server :=
  if stopped s then s else (shutdownListeners s) <| stopped := true |> <| janitor := false |>.

Definition startJanitor (s : Server) : Server := s <| janitor := negb (stopped s) |>.

Definition Start (b : Binds) (s : Server) : Server * option string :=
  match b_udp b with
  | Some e => (s, Some ("listen udp " +:+ ListenAddr (conf s) +:+ ": " +:+ e))
  | None =>
  let s := s <| l_udp := true |> in
  match b_tcp b with
  | Some e => (Stop s, Some ("listen tcp " +:+ ListenAddr (conf s) +:+ ": " +:+ e))
  | None =>
  let s := startJanitor (s <| l_tcp := true |>) in
  let '(s, err) :=
    if String.eqb (DoHListenAddr (conf s)) "" then (s, None)
    else match b_doh b with
         | Some e => (Stop s, Some ("listen DoH " +:+ DoHListenAddr (conf s) +:+ ": " +:+ e))
         | None => (s <| l_doh := true |>, None)
         end in
  match err with
  | Some e => (s, Some e)
  | None =>
  if String.eqb (DoTListenAddr (conf s)) "" then (s, None)
  else match b_cert b with
       | Some e => (Stop s, Some ("load DoT TLS certificate: " +:+ e))
       | None =>
           match b_dot b with
           | Some e => (Stop s, Some ("listen DoT " +:+ DoTListenAddr (conf s) +:+ ": " +:+ e))
           | None => (s <| l_dot := true |>, None)
           end
       end
  end
  end
  end.

(** ** TTLs *)

(** [forEachRR]: the records of all sections, without the OPT pseudo-records. *)
Definition is_opt (r : RR) : bool := Rrtype r =? TypeOPT.

Definition forEachRR {A} (m : Msg) (fn : A → RR → A) (a : A) : A :=
  foldl (λ a rr, if is_opt rr then a else fn a rr) a (Answer m ++ Ns m ++ Extra m).

(** The same visit when the visitor updates the record. *)
Definition mapRR (fn : RR → RR) (m : Msg) : Msg :=
  let f := map (λ rr, if is_opt rr then rr else fn rr) in
  m <| Answer ::= f |> <| Ns ::= f |> <| Extra ::= f |>.

Definition age (elapsedSecs : Z) (rr : RR) : RR :=
  if elapsedSecs <? Ttl rr then rr <| Ttl ::= λ t, t - elapsedSecs |> else rr <| Ttl := 0 |>.

Definition ageRRsTTL (m : Msg) (elapsedSecs : Z) : Msg := mapRR (age elapsedSecs) m.

Definition doHMaxAgeCap : duration := 24 * hour.

Definition min_step (acc : option Z) (rr : RR) : option Z :=
  match acc with
  | None => Some (Ttl rr)
  | Some t => if Ttl rr <? t then Some (Ttl rr) else Some t
  end.

Definition doHCacheControl (m : Msg) : string :=
  match forEachRR m min_step None with
  | None => "no-store"
  | Some minTTL =>
      let maxSec := doHMaxAgeCap `quot` second in
      "max-age=" +:+ Itoa (if maxSec <? minTTL then maxSec else minTTL)
  end.

(** ** Sweeping and the reverse map *)

Definition sweepExpired (now : time) (s : Server) : Server :=
  s <| cache ::= filter (λ kv, ¬ ExpiresAt kv.2 < now) |>
    <| ipToDomain ::= filter (λ kv, ¬ expires kv.2 < now) |>.

(** The key an IP literal is looked up under. *)
Definition ip_key (ip : string) : string :=
  let parsed := ParseIP ip in
  if is_nil parsed then ip
  else let v4 := To4 parsed in if is_nil v4 then ip_string parsed else ip_string v4.

Definition LookupDomainByIP (now : time) (ip : string) (s : Server) : Server * option string :=
  let ip := ip_key ip in
  match ipToDomain s !! ip with
  | None => (s, None)
  | Some m =>
      if expires m <? now then (s <| ipToDomain ::= delete ip |>, None) else (s, Some (domain m))
  end.

(** [minTTL] of [cacheAndRecordIP]: at most 300, and 0 as soon as one record
    has TTL 0. *)
Fixpoint min_ttl (acc : Z) (l : list RR) : Z :=
  match l with
  | [] => acc
  | ans :: l => if Ttl ans =? 0 then 0 else min_ttl (if Ttl ans <? acc then Ttl ans else acc) l
  end.

Definition record_ip (now : time) (dom : string) (m : gmap string ipMapping) (ans : RR) : gmap string ipMapping :=
  match rdata ans with
  | RD_A ip | RD_AAAA ip => <[ip_string ip := {| domain := dom; expires := now + ipMappingTTL |}]> m
  | RD_other _ => m
  end.

Definition cacheAndRecordIP (now : time) (dom key : string) (msg : Msg) (s : Server) : Server :=
  if negb (Rcode msg =? RcodeSuccess) || (length (Answer msg) =? 0)%nat then s
  else
    let minTTL := min_ttl 300 (Answer msg) in
    let s := s <| ipToDomain ::= λ m, foldl (record_ip now dom) m (Answer msg) |> in
    if minTTL =? 0 then s <| cache ::= delete key |>
    else s <| cache ::= <[key := {| eMsg := msg; StoredAt := now; ExpiresAt := now + minTTL * second |}]> |>.

(** ** Upstreams *)

Definition qtypeString (qtype : Z) : string :=
  default ("TYPE" +:+ Itoa qtype) (type_to_string qtype).

Definition emptyReply (r : Msg) : Msg := SetReply r.

Definition same_question (want got : Question) : bool :=
  (Qtype want =? Qtype got) && (Qclass want =? Qclass got) &&
  EqualFold (TrimSuffix (qName want) ".") (TrimSuffix (qName got) ".").

Definition responseMatchesQuery (req : Msg) (resp : option Msg) : bool :=
  match resp with
  | None => false
  | Some resp =>
      Response resp && (Opcode resp =? Opcode req) &&
      (length (Questions resp) =? length (Questions req))%nat &&
      forallb (λ p, same_question p.1 p.2) (zip (Questions req) (Questions resp))
  end.

(** A request that leaves the server.  What follows sends requests; each definition
    returns those it sent, in order, with its result. *)
Inductive Sent := SentUDP (addr : string) (m : Msg) | SentTCP (addr : string) (m : Msg) | SentDoH (url data : string).

Definition resolveDirect (up : Upstreams) (r : Msg) (viaTCP : bool) (s : Server) :
    list Sent * (option Msg * option string) :=
  let addr := DirectDNS (conf s) in
  let '(udp, err) := udp_exchange up r addr in
  let asked := [SentUDP addr r] in
  match err with
  | Some e => (asked, (udp, Some e))
  | None =>
      if negb (responseMatchesQuery r udp) then (asked, (None, Some "direct upstream answered a different question"))
      else match udp with
           | Some m =>
               if Truncated m then
                 let '(tcp, tcpErr) := tcp_exchange up r addr in
                 let asked := asked ++ [SentTCP addr r] in
                 if bool_decide (tcpErr = None) && responseMatchesQuery r tcp then (asked, (tcp, None))
                 else
                   let tcpErr := match tcpErr, tcp with
                                 | None, Some _ => Some "tcp retry answered a different question"
                                 | _, _ => tcpErr
                                 end in
                   if viaTCP
                   then (asked, (Some m, Some ("direct upstream truncated and TCP retry failed: " +:+
                                               default "upstream returned no TCP response" tcpErr)))
                   else (asked, (Some m, None))
               else (asked, (Some m, None))
           | None => (asked, (None, None))
           end
  end.

Definition resolveDoH (up : Upstreams) (r : Msg) (s : Server) : list Sent * result string Msg :=
  match Pack r with
  | Err e => ([], Err e)
  | Ok data =>
  let asked := [SentDoH (DoHURL (conf s)) data] in
  match http_post up (DoHURL (conf s)) data with
  | Err e => (asked, Err e)
  | Ok (status, body) =>
  if negb (status =? 200) then (asked, Err ("doh status error: " +:+ Itoa status))
  else match body with
  | Err e => (asked, Err e)
  | Ok body =>
  let respData := stake (Z.to_nat (maxDNSMessageSize + 1)) body in
  if maxDNSMessageSize <? slen respData
  then (asked, Err "doh response exceeds 65535-octet DNS message limit")
  else match Unpack respData with
  | Err e => (asked, Err e)
  | Ok m =>
  if negb (responseMatchesQuery r (Some m)) then (asked, Err "doh upstream answered a different question")
  else (asked, Ok (m <| Truncated := false |>))
  end
  end
  end
  end.

(** ** Resolution *)

(** The readings of the clock during one query: before the cache is used, when
    a hit is aged, when the query is recorded and when the answer is stored. *)
Record Clock := { t_check : time; t_age : time; t_stat : time; t_store : time }.

Definition q_name (q : Question) : string := ToLower (Trim is_dot (qName q)).

Definition cache_key (q : Question) : string :=
  q_name q +:+ "_" +:+ Itoa (Qtype q) +:+ "_" +:+ Itoa (Qclass q).

Definition record (t : time) (q : Question) (upstream : string) (err : option string) (s : Server) : Server :=
  s <| stats ::= Stats.RecordDNS t (q_name q) (qtypeString (Qtype q)) upstream err |>.

(** Step 1: the cache.  An expired entry is dropped. *)
Definition check_cache (ck : Clock) (r : Msg) (q : Question) (s : Server) : Server * option Msg :=
  match cache s !! cache_key q with
  | Some entry =>
      if t_check ck <? ExpiresAt entry then
        let s := record (t_stat ck) q "cache" None s in
        let resp := ageRRsTTL (eMsg entry) (uint32 ((t_age ck - StoredAt entry) `quot` second)) in
        (s, Some (resp <| Id := Id r |>))
      else (s <| cache ::= delete (cache_key q) |>, None)
  | None => (s, None)
  end.

(** Step 2: the upstream that answers, its answer and its error. *)
Definition is_direct (q : Question) (s : Server) : bool :=
  match cRouter (conf s) with Some rt => Router.ShouldDirectDomain rt (q_name q) | None => false end.

Definition ask_upstream (up : Upstreams) (r : Msg) (q : Question) (viaTCP : bool) (s : Server) :
    list Sent * (string * (option Msg * option string)) :=
  if is_direct q s then let '(asked, a) := resolveDirect up r viaTCP s in (asked, ("direct", a))
  else if negb (EnableIPv6 (conf s)) && (Qtype q =? TypeAAAA) then ([], ("synthetic", (Some (emptyReply r), None)))
  else let '(asked, a) := resolveDoH up r s in
       match a with
       | Ok m => (asked, ("doh", (Some m, None)))
       | Err _ => let '(asked', a) := resolveDirect up r viaTCP s in (asked ++ asked', ("direct", a))
       end.

(** A missing AAAA does not fail the lookup. *)
Definition soften_aaaa (r : Msg) (q : Question) (a : string * (option Msg * option string)) :
    string * (option Msg * option string) :=
  match a with
  | (_, (Some _, None)) => a
  | _ => if Qtype q =? TypeAAAA then ("synthetic", (Some (emptyReply r), None)) else a
  end.

(** Step 3: account for the query, cache the answer. *)
Definition conclude (ck : Clock) (r : Msg) (q : Question) (a : string * (option Msg * option string))
    (s : Server) : Server * (option Msg * option string) :=
  match a with
  | (upstream, (Some resp, None)) =>
      let s := record (t_stat ck) q upstream None s in
      let resp := resp <| Id := Id r |> in
      let s := if Truncated resp then s
               else cacheAndRecordIP (t_store ck) (q_name q) (cache_key q) resp s in
      (s, (Some resp, None))
  | (upstream, (_, err)) => (record (t_stat ck) q upstream err s, (None, err))
  end.

Definition resolve_sent (up : Upstreams) (ck : Clock) (r : Msg) (viaTCP : bool) (s : Server) :
    list Sent * (Server * (option Msg * option string)) :=
  match Questions r with
  | [] => ([], (s, (None, Some "empty question")))
  | q :: _ =>
      match check_cache ck r q s with
      | (s, Some resp) => ([], (s, (Some resp, None)))
      | (s, None) => let '(asked, a) := ask_upstream up r q viaTCP s in (asked, conclude ck r q (soften_aaaa r q a) s)
      end
  end.

(** The state and the result alone. *)
Definition resolve (up : Upstreams) (ck : Clock) (r : Msg) (viaTCP : bool) (s : Server) :
    Server * (option Msg * option string) := (resolve_sent up ck r viaTCP s).2.

Definition ResolveMsg (up : Upstreams) (ck : Clock) (r : Msg) (s : Server) := resolve up ck r false s.

(** ** Front ends *)

(** [network] is the transport of the client, ["udp"], ["tcp"] or
    ["tcp-tls"]. *)
Definition handleDNSRequest (up : Upstreams) (ck : Clock) (network : string) (r : Msg) (s : Server) :
    Server * Msg :=
  match resolve up ck r (HasPrefix network "tcp") s with
  | (s, (Some resp, None)) => (s, resp <| Id := Id r |>)
  | (s, _) => (s, HandleFailed r)
  end.

Record HTTPRequest := { Method : string; dnsParam : string; Body : result string string }.
Record HTTPResponse := { Status : Z; ContentType : string; CacheControl : string; payload : string }.

Definition http_error (msg : string) (code : Z) : HTTPResponse :=
  {| Status := code; ContentType := "text/plain; charset=utf-8"; CacheControl := ""; payload := msg |}.

(** The DNS message carried by the request, or the error response. *)
Definition doh_message (req : HTTPRequest) : result HTTPResponse string :=
  if String.eqb (Method req) "GET" then
    if String.eqb (dnsParam req) "" then Err (http_error "missing dns query parameter" 400)
    else match DecodeString true false (dnsParam req) with
         | Some raw => Ok raw
         | None => match DecodeString true true (dnsParam req) with
                   | Some raw => Ok raw
                   | None => Err (http_error "invalid base64url dns parameter" 400)
                   end
         end
  else if String.eqb (Method req) "POST" then
    match Body req with
    | Ok raw => if (maxDNSMessageSize <? slen raw) || String.eqb raw ""
                then Err (http_error "empty, oversized or invalid request body" 400)
                else Ok raw
    | Err _ => Err (http_error "empty, oversized or invalid request body" 400)
    end
  else Err (http_error "method not allowed" 405).

Definition handleDoHHTTP (up : Upstreams) (ck : Clock) (req : HTTPRequest) (s : Server) :
    Server * HTTPResponse :=
  match doh_message req with
  | Err e => (s, e)
  | Ok rawMsg =>
  if String.eqb rawMsg "" || (maxDNSMessageSize <? slen rawMsg)
  then (s, http_error "dns message size out of range" 400)
  else match Unpack rawMsg with
  | Err _ => (s, http_error "failed to unpack dns message" 400)
  | Ok reqMsg =>
  match resolve up ck reqMsg true s with
  | (s, (Some respMsg, None)) =>
      match Pack respMsg with
      | Err _ => (s, http_error "failed to pack dns response" 500)
      | Ok packed => (s, {| Status := 200; ContentType := "application/dns-message";
                            CacheControl := doHCacheControl respMsg; payload := packed |})
      end
  | (s, _) => (s, http_error "dns resolution failed" 502)
  end
  end
  end.
End dns.
End Dns.
