(* ===== verification/DnsProps.v ===== *)
(** * core/dns: what the resolver guarantees

    The cache invariant under interleaved queries, hits, failures, the two
    upstream paths, the reverse map and the listeners. *)

From S2P Require Import Prelude GoStrings GoNet Router Stats Dns.
Import Dns.

Module DnsProps.

(** ** Cache keys *)

Definition no_us (s : string) : bool := no_byte "_" s.

Lemma digits_no_us s : sforallb is_digit s = true → no_us s = true.
Proof.
  apply sforallb_impl. intros c Hc. apply negb_true_iff. destruct (Ascii.eqb_spec c "_"); [by subst|done].
Qed.

Lemma Itoa_no_us n : 0 ≤ n → no_us (Itoa n) = true.
Proof. intros. unfold Itoa. destruct (Z.ltb_spec n 0); [lia|]. by apply digits_no_us, show_uint_digits. Qed.

(** The text after the last underscore is determined by the whole. *)
Lemma split_last_us s1 t1 s2 t2 :
  no_us t1 = true → no_us t2 = true →
  s1 +:+ "_" +:+ t1 = s2 +:+ "_" +:+ t2 → s1 = s2 ∧ t1 = t2.
Proof.
  unfold no_us, no_byte. intros K1 K2. revert s2. induction s1 as [|c s1 IH]; intros [|d s2] E; cbn in E.
  - by injection E.
  - injection E as <- E. rewrite E in K1. exfalso. clear -K1. induction s2; cbn in K1; [done|].
    apply andb_true_iff in K1 as [_ K1]. auto.
  - injection E as -> E. rewrite <- E in K2. exfalso. clear -K2. induction s1; cbn in K2; [done|].
    apply andb_true_iff in K2 as [_ K2]. auto.
  - injection E as -> E. destruct (IH _ E) as [-> ->]. done.
Qed.

(** A trailing dot does not change the trimmed name. *)
Lemma TrimRight_dot s : TrimRight is_dot (s +:+ ".") = TrimRight is_dot s.
Proof. induction s as [|c s IH]; [done|]. cbn in *. by rewrite IH. Qed.

Lemma Trim_dot s : Trim is_dot (s +:+ ".") = Trim is_dot s.
Proof.
  unfold Trim. induction s as [|c s IH]; [done|]. cbn in *. destruct (is_dot c); [done|].
  exact (TrimRight_dot (String c s)).
Qed.

Lemma HasSuffix_app s p : HasSuffix s p = true → s = stake (String.length s - String.length p) s +:+ p.
Proof.
  unfold HasSuffix. intros [_ E%String.eqb_eq]%andb_true_iff. rewrite <- E at 2. by rewrite stake_sdrop.
Qed.

Lemma Trim_TrimSuffix s : Trim is_dot (TrimSuffix s ".") = Trim is_dot s.
Proof.
  unfold TrimSuffix. destruct (HasSuffix s ".") eqn:E; [|done].
  apply HasSuffix_app in E. rewrite E at 3. by rewrite Trim_dot.
Qed.

Lemma Trim_TrimSuffix_lower s :
  Trim is_dot (ascii_lower (TrimSuffix s ".")) = Trim is_dot (ascii_lower s).
Proof. by rewrite !Trim_lower, Trim_TrimSuffix. Qed.

Lemma is_ascii_TrimSuffix s p : is_ascii s = true → is_ascii (TrimSuffix s p) = true.
Proof. intros Hs. unfold TrimSuffix. case_match; [by apply sforallb_stake|done]. Qed.

Section dns.
Context `{UnicodeCase, RouterEnv, DNSLib, GoSort, Stats.TimeFormat}.

(** A question of a wire message: type and class are 16-bit. *)
Definition wire_question (q : Question) : Prop := 0 ≤ Qtype q < 2 ^ 16 ∧ 0 ≤ Qclass q < 2 ^ 16.

Lemma cache_key_eq q :
  cache_key q = (q_name q +:+ "_" +:+ Itoa (Qtype q)) +:+ "_" +:+ Itoa (Qclass q).
Proof. unfold cache_key. by rewrite !sapp_assoc. Qed.

(** cache keys do not collide.  Two questions share a cache entry only when
    their normalised names, types and classes are all equal. *)
Theorem cache_key_injective q1 q2 :
  wire_question q1 → wire_question q2 → cache_key q1 = cache_key q2 →
  q_name q1 = q_name q2 ∧ Qtype q1 = Qtype q2 ∧ Qclass q1 = Qclass q2.
Proof.
  intros [? ?] [? ?]. rewrite !cache_key_eq. intros E.
  apply split_last_us in E as [E Ec]; [|apply Itoa_no_us; lia..]. apply split_last_us in E as [E Et]; [|apply Itoa_no_us; lia..].
  split_and!; [done|by apply Itoa_inj|by apply Itoa_inj].
Qed.

(** A response question that matches the query has the query's key. *)
Lemma same_question_key q q' :
  is_ascii (qName q) = true → is_ascii (qName q') = true → same_question q q' = true →
  cache_key q' = cache_key q.
Proof.
  intros Ha Ha' Hs. unfold same_question in Hs.
  apply andb_true_iff in Hs as [[Ht Hc]%andb_true_iff Hn].
  apply Z.eqb_eq in Ht, Hc. unfold cache_key, q_name. rewrite Ht, Hc.
  rewrite !ToLower_ascii by by apply is_ascii_Trim.
  rewrite EqualFold_ascii in Hn by by apply is_ascii_TrimSuffix.
  rewrite <- !Trim_lower. rewrite <- (Trim_TrimSuffix_lower (qName q)), <- (Trim_TrimSuffix_lower (qName q')).
  by rewrite Hn.
Qed.

(** ** The cache invariant *)

(** Both pairs of questions agree, so does the first. *)
Lemma matches_head r m q qs :
  responseMatchesQuery r (Some m) = true → Questions r = q :: qs →
  ∃ q' qs', Questions m = q' :: qs' ∧ same_question q q' = true.
Proof.
  unfold responseMatchesQuery. intros Hm Hq. rewrite Hq in Hm.
  apply andb_true_iff in Hm as [[_ Hl]%andb_true_iff Hz]. apply Nat.eqb_eq in Hl.
  destruct (Questions m) as [|q' qs']; [done|]. exists q', qs'. split; [done|].
  cbn in Hz. by apply andb_true_iff in Hz as [Hz _].
Qed.

(** [m] answers [q], or carries no answer. *)
Definition answers (q : Question) (m : Msg) : Prop :=
  Answer m = [] ∨ ∃ q' qs', Questions m = q' :: qs' ∧ same_question q q' = true.

Record entry_ok (k : string) (e : DNSCacheEntry) : Prop := {
  en_key : ∃ q q' qs', k = cache_key q ∧ Questions (eMsg e) = q' :: qs' ∧ same_question q q' = true;
  en_rcode : Rcode (eMsg e) = RcodeSuccess;
  en_tc : Truncated (eMsg e) = false;
  en_answer : Answer (eMsg e) ≠ [];
  en_life : ∃ ttl, ExpiresAt e = StoredAt e + ttl * second ∧ 0 < ttl ≤ 300 ∧
            Forall (λ rr, ttl ≤ Ttl rr) (Answer (eMsg e));
}.

Definition cache_ok (s : Server) : Prop := map_Forall entry_ok (cache s).

(** TTLs are unsigned. *)
Definition ttls_ok (m : Msg) : Prop := Forall (λ rr, 0 ≤ Ttl rr < 2 ^ 32) (Answer m ++ Ns m ++ Extra m).

Lemma min_ttl_spec acc l :
  0 < acc → Forall (λ rr, 0 ≤ Ttl rr) l →
  let t := min_ttl acc l in
  0 ≤ t ≤ acc ∧ (0 < t → Forall (λ rr, t ≤ Ttl rr) l).
Proof.
  intros Hacc Hl. revert acc Hacc. induction Hl as [|rr l Hrr Hl IH]; intros acc Hacc; cbn.
  - split; [lia|]. intros _. apply Forall_nil_2.
  - destruct (Z.eqb_spec (Ttl rr) 0) as [E|E]; [split; lia|].
    destruct (Z.ltb_spec (Ttl rr) acc).
    + destruct (IH (Ttl rr)) as [K1 K2]; [lia|]. split; [lia|]. intros Ht. apply Forall_cons. split; [lia|auto].
    + destruct (IH acc Hacc) as [K1 K2]. split; [lia|]. intros Ht. apply Forall_cons. split; [lia|auto].
Qed.

Lemma cacheAndRecordIP_ok now q m s :
  answers q m → Truncated m = false → ttls_ok m →
  cache_ok s → cache_ok (cacheAndRecordIP now (q_name q) (cache_key q) m s).
Proof.
  intros Hans Htc Httl Hs. unfold cacheAndRecordIP.
  destruct (Z.eqb_spec (Rcode m) RcodeSuccess) as [Hrc|]; [|done]. cbn [negb orb].
  destruct (Nat.eqb_spec (length (Answer m)) 0) as [|Hlen]; [done|]. cbv zeta.
  assert (Forall (λ rr, 0 ≤ Ttl rr) (Answer m)) as Hn.
  { apply Forall_app in Httl as [Ha _]. eapply Forall_impl; [exact Ha|]. cbn. lia. }
  destruct (min_ttl_spec 300 (Answer m) ltac:(lia) Hn) as [Hr Hle].
  destruct (Z.eqb_spec (min_ttl 300 (Answer m)) 0) as [|Hne].
  - apply map_Forall_delete. exact Hs.
  - apply map_Forall_insert_2; [|exact Hs]. split; cbn; try done.
    + destruct Hans as [E|(q' & qs' & Eq & Esame)]; [by rewrite E in Hlen|]. by exists q, q', qs'.
    + by destruct (Answer m).
    + eexists. split; [reflexivity|]. split; [lia|]. apply Hle. lia.
Qed.

Lemma check_cache_ok ck r q s : cache_ok s → cache_ok (check_cache ck r q s).1.
Proof.
  intros Hs. unfold check_cache. destruct (cache s !! cache_key q); [|done].
  case_match; [exact Hs|]. apply map_Forall_delete. exact Hs.
Qed.

(** An upstream that keeps to the wire format. *)
Record wire_ok (up : Upstreams) : Prop := {
  wo_udp : ∀ r a m e, udp_exchange up r a = (Some m, e) → ttls_ok m;
  wo_tcp : ∀ r a m e, tcp_exchange up r a = (Some m, e) → ttls_ok m;
  wo_unpack : ∀ w m, Unpack w = Ok m → ttls_ok m;
}.

(** An answer on its way from the upstreams to the cache. *)
Definition pending_ok (q : Question) (a : string * (option Msg * option string)) : Prop :=
  ∀ u m, a = (u, (Some m, None)) → answers q m ∧ ttls_ok m.

Lemma emptyReply_ok r q u : pending_ok q (u, (Some (emptyReply r), None)).
Proof.
  intros u' m [= <- <-]. unfold emptyReply. destruct (SetReply_spec r) as (_ & _ & _ & _ & E1 & E2 & E3).
  split; [by left|]. unfold ttls_ok. rewrite E1, E2, E3. apply Forall_nil_2.
Qed.

Lemma resolveDirect_ok up r q qs via s u :
  wire_ok up → Questions r = q :: qs → pending_ok q (u, (resolveDirect up r via s).2).
Proof.
  intros [Hu Ht _] Hq u' m. unfold resolveDirect. cbv zeta.
  destruct (udp_exchange up r (DirectDNS (conf s))) as [udp err] eqn:Eu.
  destruct err as [e|]; [by intros [=]|].
  destruct (responseMatchesQuery r udp) eqn:Em; cbn [negb]; [|by intros [=]].
  destruct udp as [mu|]; [|done].
  assert (answers q mu ∧ ttls_ok mu) as Hmu.
  { split; [|by eapply Hu]. right. by eapply matches_head. }
  destruct (Truncated mu); [|by intros [= _ <-]].
  destruct (tcp_exchange up r (DirectDNS (conf s))) as [tcp terr] eqn:Et.
  destruct (bool_decide (terr = None) && responseMatchesQuery r tcp) eqn:E.
  - apply andb_true_iff in E as [_ E]. destruct tcp as [mt|]; [|done]. intros [= _ <-].
    split; [|by eapply Ht]. right. by eapply matches_head.
  - destruct via; [by intros [=]|by intros [= _ <-]].
Qed.

Lemma resolveDoH_Ok up r s m :
  (resolveDoH up r s).2 = Ok m →
  ∃ w m0, Unpack w = Ok m0 ∧ responseMatchesQuery r (Some m0) = true ∧ m = m0 <| Truncated := false |>.
Proof.
  unfold resolveDoH. intros E. repeat (case_match; try done). injection E as <-.
  do 2 eexists. split; [eassumption|]. split; [by apply negb_false_iff|done].
Qed.

Lemma ask_upstream_ok up r q qs via s :
  wire_ok up → Questions r = q :: qs → pending_ok q (soften_aaaa r q (ask_upstream up r q via s).2).
Proof.
  intros Hw Hq. assert (pending_ok q (ask_upstream up r q via s).2) as Ha.
  { pose proof (λ u, resolveDirect_ok up r q qs via s u Hw Hq) as Hd. unfold ask_upstream.
    destruct (resolveDirect up r via s) as [l a]. case_match; [apply Hd|]. case_match; [apply emptyReply_ok|].
    pose proof (resolveDoH_Ok up r s) as Hh. destruct (resolveDoH up r s) as [l' [m|e]]; [|apply Hd].
    destruct (Hh m eq_refl) as (w & m0 & Ew & Em & ->). intros u m' [= _ <-].
    apply (wo_unpack _ Hw) in Ew. split; [|exact Ew]. right. by eapply (matches_head r m0). }
  unfold soften_aaaa. destruct (ask_upstream up r q via s).2 as [u [[m|] [e|]]]; [|exact Ha|..];
    (case_match; [apply emptyReply_ok|exact Ha]).
Qed.

Lemma conclude_ok ck r q a s :
  pending_ok q a → cache_ok s → cache_ok (conclude ck r q a s).1.
Proof.
  intros Ha Hs. unfold conclude. destruct a as [u [[m|] [e|]]]; try exact Hs.
  destruct (Ha u m eq_refl) as [Hans Httl]. cbv zeta. cbn [fst].
  destruct (Truncated (m <| Id := Id r |>)) eqn:Et; [exact Hs|].
  apply cacheAndRecordIP_ok; [exact Hans|exact Et|exact Httl|exact Hs].
Qed.

(** ** Interleaved queries

    Requests run concurrently: between the cache lookup of one and the moment
    its answer is stored, others may do the same, the reaper may run, and the
    reverse map may be consulted.  A configuration is the server and the queries
    waiting for their upstream. *)

Definition waiting : Type := Msg * Question * (string * (option Msg * option string)).

Inductive step : Server * list waiting → Server * list waiting → Prop :=
  | step_hit ck r q qs s s' resp p :
      Questions r = q :: qs → check_cache ck r q s = (s', Some resp) → step (s, p) (s', p)
  | step_miss up ck r q qs via s s' p :
      Questions r = q :: qs → wire_ok up → check_cache ck r q s = (s', None) →
      step (s, p) (s', (r, q, soften_aaaa r q (ask_upstream up r q via s').2) :: p)
  | step_conclude ck r q a s p p' :
      p ≡ₚ (r, q, a) :: p' → step (s, p) ((conclude ck r q a s).1, p')
  | step_sweep now s p : step (s, p) (sweepExpired now s, p)
  | step_lookup now ip s p : step (s, p) ((LookupDomainByIP now ip s).1, p).

Definition config_ok (c : Server * list waiting) : Prop :=
  cache_ok c.1 ∧ Forall (λ w, pending_ok w.1.2 w.2) c.2.

Lemma step_ok c c' : step c c' → config_ok c → config_ok c'.
Proof.
  intros Hstep [Hs Hp]. destruct Hstep as [ck r q qs s s' resp p Hq E|up ck r q qs via s s' p Hq Hw E
    |ck r q a s p p' E|now s p|now ip s p]; cbn in *.
  - split; [|done]. pose proof (check_cache_ok ck r q s Hs) as H'. by rewrite E in H'.
  - split; [pose proof (check_cache_ok ck r q s Hs) as H'; by rewrite E in H'|].
    apply Forall_cons. split; [by eapply ask_upstream_ok|done].
  - rewrite E in Hp. apply Forall_cons in Hp as [Ha Hp]. split; [by apply conclude_ok|done].
  - split; [|done]. intros k e Hk. apply Hs. cbn in Hk. by apply map_lookup_filter_Some in Hk as [Hk _].
  - split; [|done]. unfold LookupDomainByIP. by repeat case_match.
Qed.

Lemma NewServer_ok cfg s : NewServer cfg = Ok s → cache_ok s.
Proof. unfold NewServer. case_match; [done|]. intros [= <-]. apply map_Forall_empty. Qed.

(** C3: the cache is not poisoned.  However queries, upstream answers, sweeps and
    lookups interleave, every entry answers the question it is filed under
    (same name up to case and trailing dot, same type and class), is a complete
    NOERROR answer without the TC bit, and lives at most 300 seconds and no longer
    than its shortest answer TTL, which is positive. *)
Theorem cache_never_poisoned cfg s0 s p k e :
  NewServer cfg = Ok s0 → rtc step (s0, []) (s, p) → cache s !! k = Some e → entry_ok k e.
Proof.
  intros K0 Hrtc He.
  assert (config_ok (s, p)) as [Hs _]; [|by apply Hs].
  assert (config_ok (s0, [])) as Hc by (split; [by eapply NewServer_ok|apply Forall_nil_2]).
  revert Hc. generalize (s, p), (s0, @nil waiting), Hrtc. clear.
  intros c' c Hrtc. induction Hrtc; [done|]. intros Hc. apply IHHrtc. by eapply step_ok.
Qed.

(** ** Hits *)

Lemma quot_elapsed a b ttl : a ≤ b → b < a + ttl * second → 0 ≤ (b - a) `quot` second < ttl.
Proof.
  intros. rewrite Z.quot_div_nonneg by (unfold second; lia). split; [apply Z.div_pos; unfold second; lia|].
  apply Z.div_lt_upper_bound; unfold second in *; lia.
Qed.

(** C27: a hit is an aged answer.  While an entry of the cache lives, the query it
    belongs to is answered from it, whatever the upstreams would say: the answer
    carries the query's id and, record for record, the stored TTL less the whole
    seconds spent in the cache, which is still positive. *)
Theorem hit_serves_aged_answer up ck r q qs via s e :
  Questions r = q :: qs → cache s !! cache_key q = Some e → entry_ok (cache_key q) e →
  t_check ck < ExpiresAt e → StoredAt e ≤ t_age ck < ExpiresAt e →
  ∃ s' resp, resolve up ck r via s = (s', (Some resp, None)) ∧ cache s' = cache s ∧
    Id resp = Id r ∧ Questions resp = Questions (eMsg e) ∧
    Forall2 (λ old new, rdata new = rdata old ∧ Rrtype new = Rrtype old ∧ 0 < Ttl new ∧
               Ttl new = if is_opt old then Ttl old else Ttl old - (t_age ck - StoredAt e) `quot` second)
            (Answer (eMsg e)) (Answer resp).
Proof.
  intros Hq He [_ _ _ _ (ttl & Hexp & Httl & Hall)] Hck Hage. unfold resolve, resolve_sent. rewrite Hq. unfold check_cache.
  rewrite He. destruct (Z.ltb_spec (t_check ck) (ExpiresAt e)); [|lia]. cbv zeta.
  do 2 eexists. split; [reflexivity|]. split_and!; [done..|].
  destruct (quot_elapsed (StoredAt e) (t_age ck) ttl) as [Ha Hb]; [lia..|].
  rewrite uint32_id by lia. set (n := (t_age ck - StoredAt e) `quot` second) in *.
  cbn. clear He Hexp. induction Hall as [|rr l Hrr Hl IH]; [constructor|]. cbn. constructor; [|done].
  unfold age. destruct (is_opt rr); [split_and!; try done; lia|].
  destruct (Z.ltb_spec n (Ttl rr)); [|lia]. split_and!; try done; cbn; lia.
Qed.

(** an expired entry is never served.  Once its lifetime is over, the query
    goes to its upstreams, and the entry is gone. *)
Theorem expired_goes_upstream up ck r q qs via s e :
  Questions r = q :: qs → cache s !! cache_key q = Some e → ExpiresAt e ≤ t_check ck →
  let s' := s <| cache ::= delete (cache_key q) |> in
  resolve up ck r via s = conclude ck r q (soften_aaaa r q (ask_upstream up r q via s').2) s'.
Proof.
  intros Hq He Hle s'. unfold resolve, resolve_sent. rewrite Hq. unfold check_cache. rewrite He.
  destruct (Z.ltb_spec (t_check ck) (ExpiresAt e)); [lia|]. fold s'. by destruct (ask_upstream up r q via s').
Qed.

(** ** Outcomes *)

(** a AAAA query never fails.  Whatever the upstreams do, a query whose first
    question is AAAA is answered, with no error. *)
Theorem aaaa_never_fails up ck r q qs via s :
  Questions r = q :: qs → Qtype q = TypeAAAA →
  ∃ s' resp, resolve up ck r via s = (s', (Some resp, None)) ∧ Id resp = Id r.
Proof.
  intros Hq Ht. unfold resolve, resolve_sent. rewrite Hq. destruct (check_cache ck r q s) as [s1 [resp|]] eqn:E.
  - do 2 eexists. split; [done|]. unfold check_cache in E. repeat (case_match; try done). by injection E as _ <-.
  - destruct (ask_upstream up r q via s1) as [l a]. assert (∃ u m, soften_aaaa r q a = (u, (Some m, None))) as (u & m & ->).
    { unfold soften_aaaa. rewrite Ht, Z.eqb_refl. destruct a as [u [[m|] [e|]]]; eauto. }
    unfold conclude. cbv zeta. cbn [snd]. eauto.
Qed.

Definition queries (s : Server) : option Z := (λ c, Stats.Queries (Stats.dns c)) <$> stats s.

Lemma recordError_queries now scope h msg c :
  Stats.Queries (Stats.dns (Stats.recordErrorLocked now scope h msg c)) = Stats.Queries (Stats.dns c).
Proof. unfold Stats.recordErrorLocked. cbv zeta. cbn. by rewrite Stats.rotate_dns. Qed.

Lemma record_queries t q u err s :
  queries (record t q u err s) = Z.succ <$> queries s.
Proof.
  unfold queries, record. cbn. destruct (stats s) as [c|]; [|done]. cbn [fmap option_fmap option_map Stats.RecordDNS].
  unfold Stats.record_dns. cbv zeta. f_equal.
  set (c1 := Stats.rotateLocked t c).
  assert (Stats.Queries (Stats.dns c1) = Stats.Queries (Stats.dns c)) as Eq by (unfold c1; by rewrite Stats.rotate_dns).
  clearbody c1. rewrite <- Eq. clear Eq.
  set (c2 := if String.eqb (qtypeString (Qtype q)) "" then _ else _).
  assert (Stats.Queries (Stats.dns c2) = Z.succ (Stats.Queries (Stats.dns c1))) as <-.
  { unfold c2. case_match; cbn; lia. }
  clearbody c2. set (c3 := if String.eqb u "cache" then _ else _).
  assert (Stats.Queries (Stats.dns c3) = Stats.Queries (Stats.dns c2)) as <- by (unfold c3; by repeat case_match).
  clearbody c3. set (c4 := match err with Some _ => _ | None => _ end).
  assert (Stats.Queries (Stats.dns c4) = Stats.Queries (Stats.dns c3)) as <-.
  { unfold c4. destruct err; [|done]. by rewrite recordError_queries. }
  clearbody c4. by case_match.
Qed.

Lemma cacheAndRecordIP_stats now d k m s : stats (cacheAndRecordIP now d k m s) = stats s.
Proof. unfold cacheAndRecordIP. by repeat case_match. Qed.

(** every query is counted once.  A query with a question adds exactly one to
    the collector's DNS total, whether it hits the cache, reaches an upstream, is
    answered synthetically or fails. *)
Theorem resolve_counts_once up ck r q qs via s :
  Questions r = q :: qs → queries (resolve up ck r via s).1 = Z.succ <$> queries s.
Proof.
  intros Hq. unfold resolve, resolve_sent. rewrite Hq. unfold check_cache.
  assert (∀ s a, queries (conclude ck r q a s).1 = Z.succ <$> queries s) as Hc.
  { intros s0 [u [[m|] [e|]]]; unfold conclude; cbv zeta; try apply record_queries.
    case_match; [apply record_queries|]. cbn [fst]. unfold queries. rewrite cacheAndRecordIP_stats.
    apply (record_queries (t_stat ck) q u None s0). }
  assert (∀ s0, queries (let '(asked, a) := ask_upstream up r q via s0 in
    (asked, conclude ck r q (soften_aaaa r q a) s0)).2.1 = Z.succ <$> queries s0) as Ha.
  { intros s0. destruct (ask_upstream up r q via s0). apply Hc. }
  destruct (cache s !! cache_key q) as [e|]; [|apply Ha].
  destruct (t_check ck <? ExpiresAt e); [apply record_queries|by rewrite Ha].
Qed.

(** ** Routing *)

(** What a direct lookup sends: the query over UDP and, when the answer to it is
    truncated, once more over TCP. *)
Definition direct_requests (up : Upstreams) (r : Msg) (addr : string) : list Sent :=
  SentUDP addr r ::
  match udp_exchange up r addr with
  | (Some m, None) => if responseMatchesQuery r (Some m) && Truncated m then [SentTCP addr r] else []
  | _ => []
  end.

Lemma resolveDirect_sent up r via s : (resolveDirect up r via s).1 = direct_requests up r (DirectDNS (conf s)).
Proof.
  unfold resolveDirect, direct_requests. cbv zeta. destruct (udp_exchange up r (DirectDNS (conf s))) as [[m|] [e|]]; try done.
  destruct (responseMatchesQuery r (Some m)); cbn [negb andb]; [|done]. destruct (Truncated m); [|done].
  destruct (tcp_exchange up r (DirectDNS (conf s))) as [tcp terr]. destruct (_ && _); [done|]. by destruct via.
Qed.

(** What a DoH lookup sends: the packed query, once. *)
Definition doh_requests (r : Msg) (url : string) : list Sent :=
  match Pack r with Ok data => [SentDoH url data] | Err _ => [] end.

Lemma resolveDoH_sent up r s : (resolveDoH up r s).1 = doh_requests r (DoHURL (conf s)).
Proof. unfold resolveDoH, doh_requests. destruct (Pack r); [|done]. cbv zeta. by repeat case_match. Qed.

Lemma check_cache_conf ck r q s : conf (check_cache ck r q s).1 = conf s.
Proof. unfold check_cache. by repeat case_match. Qed.

(** C26: resolution follows the routing rules.  A query answered from the cache sends
    nothing.  Any other one, when its domain is listed as direct, is sent to the direct
    resolver and nowhere else: it never reaches the DoH upstream.  When the domain is not
    listed, nothing is sent for an AAAA query while IPv6 is off; otherwise the query goes
    to the DoH upstream alone, and to the direct resolver as well only if that failed.  The
    direct resolver is asked over UDP, and again over TCP exactly when its answer is
    truncated. *)
Theorem split_horizon up ck r q qs via s :
  Questions r = q :: qs →
  let asked := (resolve_sent up ck r via s).1 in
  let direct := direct_requests up r (DirectDNS (conf s)) in
  let doh := doh_requests r (DoHURL (conf s)) in
  match (check_cache ck r q s).2 with
  | Some _ => asked = []
  | None =>
      if is_direct q s then asked = direct
      else if negb (EnableIPv6 (conf s)) && (Qtype q =? TypeAAAA) then asked = []
      else match (resolveDoH up r s).2 with Ok _ => asked = doh | Err _ => asked = doh ++ direct end
  end.
Proof.
  intros Hq asked direct doh. unfold asked, resolve_sent. rewrite Hq. pose proof (check_cache_conf ck r q s) as Ec.
  destruct (check_cache ck r q s) as [s1 [resp|]]; cbn [fst snd] in *; [done|]. unfold ask_upstream.
  assert (is_direct q s1 = is_direct q s) as -> by (unfold is_direct; by rewrite Ec).
  assert ((resolveDirect up r via s1).1 = direct) as Ed by (rewrite resolveDirect_sent; by rewrite Ec).
  assert ((resolveDoH up r s1).1 = doh) as Eh by (rewrite resolveDoH_sent; by rewrite Ec).
  assert (resolveDoH up r s = resolveDoH up r s1) as -> by (unfold resolveDoH; by rewrite Ec). rewrite Ec.
  destruct (resolveDirect up r via s1) as [l a]. cbn [fst] in Ed. subst l. destruct (is_direct q s); [done|].
  destruct (_ && _); [done|]. destruct (resolveDoH up r s1) as [l [m|e]]; cbn [fst snd] in *; by subst l.
Qed.

(** ** Truncation *)

(** A truncated answer comes from the TCP retry of a direct lookup. *)
Definition retried (up : Upstreams) (r : Msg) (addr : string) (m : Msg) : Prop :=
  ∃ mu, udp_exchange up r addr = (Some mu, None) ∧ Truncated mu = true ∧
    tcp_exchange up r addr = (Some m, None) ∧ responseMatchesQuery r (Some m) = true.

Lemma resolveDirect_truncated up r s m :
  (resolveDirect up r true s).2 = (Some m, None) → Truncated m = true → retried up r (DirectDNS (conf s)) m.
Proof.
  unfold resolveDirect, retried. cbv zeta. destruct (udp_exchange up r (DirectDNS (conf s))) as [udp [e|]]; [by intros [=]|].
  destruct (negb _); [by intros [=]|]. destruct udp as [mu|]; [|by intros [=]]. destruct (Truncated mu) eqn:Et; [|intros [= <-]; congruence].
  destruct (tcp_exchange up r (DirectDNS (conf s))) as [tcp te]. destruct (bool_decide (te = None) && responseMatchesQuery r tcp) eqn:E.
  - apply andb_true_iff in E as [->%bool_decide_eq_true E]. intros [= ->] _. by exists mu.
  - by intros [=].
Qed.

Lemma asked_truncated up r q s u m :
  soften_aaaa r q (ask_upstream up r q true s).2 = (u, (Some m, None)) → Truncated m = true →
  retried up r (DirectDNS (conf s)) m.
Proof.
  assert (Truncated (emptyReply r) = false) as He by by destruct (SetReply_spec r) as (_ & _ & ? & _).
  pose proof (resolveDirect_truncated up r s) as Hd. pose proof (resolveDoH_Ok up r s) as Hh.
  assert (∀ u m, (ask_upstream up r q true s).2 = (u, (Some m, None)) → Truncated m = true → retried up r (DirectDNS (conf s)) m) as Ha.
  { clear u m. intros u m. unfold ask_upstream. destruct (resolveDirect up r true s) as [l a]. cbn [snd] in Hd.
    case_match; [intros [= _ E]; by apply Hd|]. case_match; [intros [= _ <-]; congruence|].
    destruct (resolveDoH up r s) as [l' [m0|e]]; [|intros [= _ E]; by apply Hd].
    destruct (Hh m0 eq_refl) as (? & ? & _ & _ & ->). by intros [= _ <-]. }
  unfold soften_aaaa. destruct (ask_upstream up r q true s).2 as [u0 [[m0|] [e|]]]; [|apply Ha|..];
    (case_match; [intros [= _ <-]; congruence|by intros [=]]).
Qed.

(** C28: truncation towards stream clients.  A client on TCP, TLS or DoH is handed an
    answer with TC in one case only: the direct resolver was asked, truncated its UDP
    answer, and set TC again in its answer to the TCP retry, which is what the client is
    given.  No other upstream, retry failure or cache entry leads to one. *)
Theorem stream_answer_truncation up ck r q qs s s' resp :
  cache_ok s → Questions r = q :: qs →
  resolve up ck r true s = (s', (Some resp, None)) → Truncated resp = true →
  ∃ mu mt, udp_exchange up r (DirectDNS (conf s)) = (Some mu, None) ∧ Truncated mu = true ∧
    tcp_exchange up r (DirectDNS (conf s)) = (Some mt, None) ∧ Truncated mt = true ∧
    responseMatchesQuery r (Some mt) = true ∧ resp = mt <| Id := Id r |>.
Proof.
  intros Hs Hq. unfold resolve, resolve_sent. rewrite Hq. pose proof (check_cache_conf ck r q s) as Ec.
  destruct (check_cache ck r q s) as [s1 [m|]] eqn:E; cbn [fst snd] in *.
  - intros [= _ <-] Ht. exfalso. unfold check_cache in E. destruct (cache s !! cache_key q) as [e|] eqn:Ee; [|done].
    destruct (t_check ck <? ExpiresAt e); [|done]. injection E as _ <-. cbn in Ht. pose proof (en_tc _ _ (Hs _ _ Ee)) as Hc. congruence.
  - pose proof (asked_truncated up r q s1) as Ha. destruct (ask_upstream up r q true s1) as [l a]. cbn [snd] in *.
    destruct (soften_aaaa r q a) as [u [[m|] [e|]]]; unfold conclude; try by intros [=]. cbv zeta. intros [= _ <-] Ht.
    destruct (Ha u m eq_refl Ht) as (mu & E1 & E2 & E3 & E4). rewrite Ec in E1, E3. by exists mu, m.
Qed.

(** ** The reverse map *)

Lemma record_ip_lookup now d m l ip :
  (∃ rr, rr ∈ l ∧ (rdata rr = RD_A ip ∨ rdata rr = RD_AAAA ip)) →
  foldl (record_ip now d) m l !! ip_string ip = Some {| domain := d; expires := now + ipMappingTTL |}.
Proof.
  set (v := {| domain := d; expires := now + ipMappingTTL |}).
  assert (∀ l m, m !! ip_string ip = Some v → foldl (record_ip now d) m l !! ip_string ip = Some v) as Hkeep.
  { clear. intros l. induction l as [|rr l IH]; intros m Hm; [done|]. cbn. apply IH. unfold record_ip.
    destruct (rdata rr) as [ip'|ip'|w]; [..|done];
      (destruct (decide (ip_string ip' = ip_string ip)) as [->|]; [apply lookup_insert_eq|by rewrite lookup_insert_ne]). }
  revert m. induction l as [|rr l IH]; intros m (rr' & Hin & Hrr); [by apply elem_of_nil in Hin|].
  apply elem_of_cons in Hin as [->|Hin]; cbn; [|eauto].
  apply Hkeep. unfold record_ip. destruct Hrr as [->| ->]; apply lookup_insert_eq.
Qed.

(** C29: the reverse map remembers what was resolved.  Once a NOERROR answer for a
    domain has been processed, every spelling of each of its addresses looks up to
    that domain for exactly thirty minutes, unless another answer claims it. *)
Theorem learned_domain now d k m s ip spelling t rr :
  Rcode m = RcodeSuccess → rr ∈ Answer m → (rdata rr = RD_A ip ∨ rdata rr = RD_AAAA ip) →
  ip_key spelling = ip_string ip →
  (LookupDomainByIP t spelling (cacheAndRecordIP now d k m s)).2 =
  (if t <=? now + ipMappingTTL then Some d else None).
Proof.
  intros Hrc Hin Hrr Hsp. unfold cacheAndRecordIP. rewrite Hrc, Z.eqb_refl. cbn [negb orb].
  destruct (Nat.eqb_spec (length (Answer m)) 0) as [E|_].
  { destruct (Answer m); [by apply elem_of_nil in Hin|done]. }
  cbv zeta. assert (∀ x, ipToDomain x = foldl (record_ip now d) (ipToDomain s) (Answer m) →
    (LookupDomainByIP t spelling x).2 = if t <=? now + ipMappingTTL then Some d else None) as Hx.
  { intros x Ex. unfold LookupDomainByIP. cbv zeta. rewrite Hsp, Ex.
    rewrite (record_ip_lookup now d _ _ ip) by eauto. cbn [expires domain].
    destruct (Z.ltb_spec (now + ipMappingTTL) t), (Z.leb_spec t (now + ipMappingTTL)); (lia || done). }
  destruct (min_ttl 300 (Answer m) =? 0); by apply Hx.
Qed.

(** sweeping is invisible.  Removing expired state at one time changes neither
    the cache decision of a query nor a reverse lookup made at or after it. *)
Theorem sweep_transparent now ck r q t ip s :
  now ≤ t_check ck → now ≤ t →
  (check_cache ck r q (sweepExpired now s)).2 = (check_cache ck r q s).2 ∧
  (LookupDomainByIP t ip (sweepExpired now s)).2 = (LookupDomainByIP t ip s).2.
Proof.
  intros Hck Ht. split.
  - unfold check_cache. cbn [cache sweepExpired]. cbn. destruct (cache s !! cache_key q) as [e|] eqn:E.
    + destruct (decide (ExpiresAt e < now)) as [Hlt|Hge].
      * rewrite (map_lookup_filter_None_2 _ _ (cache_key q)); [by destruct (Z.ltb_spec (t_check ck) (ExpiresAt e)); [lia|]|].
        right. intros e' He' Hn. rewrite E in He'. injection He' as <-. done.
      * rewrite (map_lookup_filter_Some_2 _ _ _ e); [|done|done]. by case_match.
    + rewrite (map_lookup_filter_None_2 _ _ (cache_key q)); [done|]. by left.
  - unfold LookupDomainByIP. cbv zeta. cbn. destruct (ipToDomain s !! ip_key ip) as [e|] eqn:E.
    + destruct (decide (expires e < now)) as [Hlt|Hge].
      * rewrite (map_lookup_filter_None_2 _ _ (ip_key ip)); [by destruct (Z.ltb_spec (expires e) t); [|lia]|].
        right. intros e' He' Hn. rewrite E in He'. injection He' as <-. done.
      * rewrite (map_lookup_filter_Some_2 _ _ _ e); [|done|done]. by case_match.
    + rewrite (map_lookup_filter_None_2 _ _ (ip_key ip)); [done|]. by left.
Qed.

(** ** DoH freshness *)

Definition real_rrs (m : Msg) : list RR := filter (λ rr, is_opt rr = false) (Answer m ++ Ns m ++ Extra m).

Lemma fold_min l acc :
  let f := foldl (λ a rr, if is_opt rr then a else min_step a rr) in
  match f acc l with
  | None => acc = None ∧ filter (λ rr, is_opt rr = false) l = []
  | Some t => (∀ t0, acc = Some t0 → t ≤ t0) ∧ Forall (λ rr, t ≤ Ttl rr) (filter (λ rr, is_opt rr = false) l) ∧
              (acc = Some t ∨ ∃ rr, rr ∈ filter (λ rr, is_opt rr = false) l ∧ Ttl rr = t)
  end.
Proof.
  cbv zeta. revert acc. induction l as [|rr l IH]; intros acc.
  - cbn. destruct acc; [|done]. split_and!; [by intros ? [= ->]|by apply Forall_nil_2|by left].
  - cbn [foldl]. rewrite !filter_cons. destruct (is_opt rr) eqn:Eo.
    { rewrite decide_False by done. apply IH. }
    rewrite decide_True by done. specialize (IH (min_step acc rr)).
    destruct (foldl _ (min_step acc rr) l) as [t|]; [|by unfold min_step in IH; destruct IH as [IH _]; repeat case_match].
    destruct IH as (Hle & Hall & Hor).
    assert (t ≤ Ttl rr ∧ ∀ t0, acc = Some t0 → t ≤ t0) as [Ht Hacc].
    { unfold min_step in Hle. destruct acc as [t0|].
      - destruct (Z.ltb_spec (Ttl rr) t0); specialize (Hle _ eq_refl); (split; [lia|]); intros ? [= <-]; lia.
      - specialize (Hle _ eq_refl). split; [lia|by intros ? [=]]. }
    split_and!; [done|by apply Forall_cons|].
    destruct Hor as [Hor|(rr' & Hin & E)]; [|right; exists rr'; split; [set_solver|done]].
    unfold min_step in Hor. destruct acc as [t0|]; [destruct (Z.ltb_spec (Ttl rr) t0)|]; injection Hor as <-;
      try (right; exists rr; split; [set_solver|done]). by left.
Qed.

(** a DoH answer is cacheable no longer than its records.  The directive is
    [no-store] exactly when the message has no real record; otherwise its max-age
    is the smallest TTL, at most one day. *)
Theorem cache_control_min m :
  ttls_ok m →
  (real_rrs m = [] → doHCacheControl m = "no-store") ∧
  (real_rrs m ≠ [] → ∃ n, doHCacheControl m = "max-age=" +:+ Itoa n ∧ 0 ≤ n ≤ 86400 ∧
     Forall (λ rr, n ≤ Ttl rr) (real_rrs m) ∧ (n = 86400 ∨ ∃ rr, rr ∈ real_rrs m ∧ Ttl rr = n)).
Proof.
  intros Hok. unfold doHCacheControl, forEachRR, real_rrs. pose proof (fold_min (Answer m ++ Ns m ++ Extra m) None) as Hf.
  cbv zeta in Hf. change (doHMaxAgeCap `quot` second) with 86400.
  destruct (foldl _ None (Answer m ++ Ns m ++ Extra m)) as [t|].
  - destruct Hf as (_ & Hall & [|(rr & Hin & E)]); [done|]. split; [intros E'; rewrite E' in Hin; by apply elem_of_nil in Hin|].
    intros _. assert (0 ≤ t).
    { apply list_elem_of_filter in Hin as [_ Hin]. unfold ttls_ok in Hok. rewrite Forall_forall in Hok.
      pose proof (Hok rr Hin). cbn in *. lia. }
    destruct (Z.ltb_spec 86400 t).
    + exists 86400. split_and!; try done; [|by left]. eapply Forall_impl; [exact Hall|]. cbn. lia.
    + exists t. split_and!; try done; try lia. right. eauto.
  - destruct Hf as [_ ->]. by split.
Qed.

(** ** Listeners *)

Definition holds (s : Server) : bool * bool * bool * bool := (l_udp s, l_tcp s, l_doh s, l_dot s).

Lemma Start_spec b s s' err :
  holds s = (false, false, false, false) → janitor s = false → stopped s = false →
  Start b s = (s', err) →
  (match err with
   | Some _ => holds s' = (false, false, false, false) ∧ janitor s' = false
   | None => holds s' = (true, true, negb (String.eqb (DoHListenAddr (conf s)) ""),
                         negb (String.eqb (DoTListenAddr (conf s)) "")) ∧ janitor s' = true
   end) ∧
  holds (Stop s') = (false, false, false, false) ∧ janitor (Stop s') = false ∧ Stop (Stop s') = Stop s'.
Proof.
  unfold holds. intros [= E1 E2 E3 E4] Ej Es. unfold Start.
  destruct (b_udp b); [intros [= <- <-]|destruct (b_tcp b); [intros [= <- <-]|]].
  1,2: unfold Stop; cbn; rewrite ?Es; cbn; by rewrite ?E1, ?E2, ?E3, ?E4, ?Ej, ?Es.
  unfold startJanitor, Stop. cbn. rewrite !Es. cbn.
  destruct (String.eqb (DoHListenAddr (conf s)) "") eqn:Eh; [|destruct (b_doh b)]; cbn; rewrite ?Es; cbn;
    (destruct (String.eqb (DoTListenAddr (conf s)) "") eqn:Et; [|destruct (b_cert b); [|destruct (b_dot b)]]); cbn;
    rewrite ?Es; cbn; intros [= <- <-]; cbn; rewrite ?Es, ?E1, ?E2, ?E3, ?E4; cbn; split_and!; done.
Qed.

(** starting is all or nothing.  From a server that holds no listener and was
    not stopped, a failed [Start] leaves no listener bound and no reaper running,
    and a successful one holds exactly the listeners the configuration asks for;
    stopping releases them all, and stopping again does nothing. *)
Theorem start_all_or_nothing b s s' err :
  holds s = (false, false, false, false) → janitor s = false → stopped s = false →
  Start b s = (s', err) →
  (match err with
   | Some _ => holds s' = (false, false, false, false) ∧ janitor s' = false
   | None => holds s' = (true, true, negb (String.eqb (DoHListenAddr (conf s)) ""),
                         negb (String.eqb (DoTListenAddr (conf s)) "")) ∧ janitor s' = true
   end) ∧
  holds (Stop s') = (false, false, false, false) ∧ janitor (Stop s') = false ∧ Stop (Stop s') = Stop s'.
Proof. apply Start_spec. Qed.
End dns.

(** ** A concrete resolver *)

Definition demo_reply (r : Msg) : Msg :=
  {| Id := Id r; Response := true; Opcode := Opcode r; Truncated := false; Rcode := RcodeSuccess;
     mRest := 0; Questions := Questions r; Answer := []; Ns := []; Extra := [] |}.

#[program] Definition demo_lib : DNSLib := {|
  type_to_string t := if t =? TypeA then Some "A" else None;
  Unpack _ := Err "short buffer"; Pack _ := Ok "packed";
  SetReply := demo_reply; HandleFailed := demo_reply |}.
Next Obligation. done. Qed.

#[local] Existing Instance demo_lib.
#[local] Instance dns_case : UnicodeCase := ascii_case.
#[local] Instance dns_router : RouterEnv := RouterProps.demo_env.
#[local] Instance dns_sort : GoSort := merge_GoSort.
#[local] Instance dns_format : Stats.TimeFormat := λ _, String.EmptyString.

Definition demo_q : Question := {| qName := "Example.com."; Qtype := TypeA; Qclass := 1 |}.
Definition demo_query : Msg := (demo_reply
  {| Id := 7; Response := false; Opcode := 0; Truncated := false; Rcode := 0; mRest := 0;
     Questions := [demo_q]; Answer := []; Ns := []; Extra := [] |}) <| Response := false |>.

Definition demo_rr (ttl : Z) : RR := {| Rrtype := TypeA; Ttl := ttl; rdata := RD_A [10; 0; 0; 1] |}.

Definition demo_answer (tc : bool) : Msg :=
  (demo_reply demo_query) <| Answer := [demo_rr 60] |> <| Truncated := tc |>.

(** An upstream whose DoH side is down; [tc] is the TC bit of its answers. *)
Definition demo_up (tc : bool) : Upstreams := {|
  udp_exchange _ _ := (Some (demo_answer tc), None);
  tcp_exchange _ _ := (Some (demo_answer tc), None);
  http_post _ _ := Err "connection refused" |}.

Definition demo_cfg : Config :=
  {| ListenAddr := ""; DoHListenAddr := ""; DoTListenAddr := ""; TLSCertFile := ""; TLSKeyFile := "";
     DoHURL := ""; DirectDNS := ""; Socks5Addr := ""; cRouter := None; EnableIPv6 := false;
     cStats := Some (Stats.New (100 * second) (Stats.Build_Config 0 0 "" 0 0 0)) |}.

Definition demo_server : Server :=
  match NewServer demo_cfg with
  | Ok s => s
  | Err _ => {| conf := demo_cfg; cache := ∅; ipToDomain := ∅; stats := None; l_udp := false;
                l_tcp := false; l_doh := false; l_dot := false; janitor := false; stopped := false |}
  end.

Definition at_time (t : time) : Clock := {| t_check := t; t_age := t; t_stat := t; t_store := t |}.

(** The server once the demo query has been answered. *)
Definition warm : Server :=
  (conclude (at_time (100 * second)) demo_query demo_q
     (soften_aaaa demo_query demo_q (ask_upstream (demo_up false) demo_query demo_q false demo_server).2)
     demo_server).1.

Lemma demo_wire tc : wire_ok (demo_up tc).
Proof.
  assert (ttls_ok (demo_answer tc)) by (unfold ttls_ok; cbn; apply Forall_singleton; cbn; lia).
  split; [| |done]; by intros r a m e [= <- _].
Defined.

Lemma warm_entry : cache warm !! "example.com_1_1" =
  Some {| eMsg := demo_answer false; ExpiresAt := 160 * second; StoredAt := 100 * second |}.
Proof. vm_compute. reflexivity. Defined.

Lemma demo_reachable : rtc step (demo_server, []) (warm, []).
Proof.
  eapply rtc_l; [eapply (step_miss (demo_up false) (at_time (100 * second)) demo_query demo_q [] false);
    [reflexivity|apply demo_wire|vm_compute; reflexivity]|].
  apply rtc_once. exact (step_conclude (at_time (100 * second)) demo_query demo_q _ _ _ [] (reflexivity _)).
Defined.

Lemma cache_never_poisoned_witness : ∃ e, cache warm !! "example.com_1_1" = Some e ∧ entry_ok "example.com_1_1" e.
Proof.
  eexists. split; [exact warm_entry|].
  exact (cache_never_poisoned demo_cfg demo_server warm [] "example.com_1_1" _ eq_refl demo_reachable warm_entry).
Defined.

Lemma cache_key_injective_witness :
  q_name demo_q = q_name {| qName := "example.COM"; Qtype := 1; Qclass := 1 |}.
Proof. apply cache_key_injective; [vm_compute; done..|vm_compute; reflexivity]. Defined.

(** Half a minute later the hit has thirty seconds less to live. *)
Lemma hit_serves_aged_answer_witness : ∃ s' resp,
  resolve (demo_up true) (at_time (130 * second)) demo_query true warm = (s', (Some resp, None)) ∧
  Ttl <$> Answer resp = [30].
Proof.
  destruct (hit_serves_aged_answer (demo_up true) (at_time (130 * second)) demo_query demo_q [] true warm _
    eq_refl warm_entry) as (s' & resp & E & _ & _ & _ & Hall).
  - split; try done.
    + exists demo_q, demo_q, []. split; [vm_compute; reflexivity|done].
    + exists 60. split; [reflexivity|]. split; [lia|]. apply Forall_singleton. vm_compute. by intros [=].
  - vm_compute. reflexivity.
  - vm_compute. split; [by intros [=]|reflexivity].
  - exists s', resp. split; [exact E|]. cbn [Answer demo_answer eMsg] in Hall.
    inversion_clear Hall as [|? x ? l (_ & _ & _ & Hx) Hl]. inversion_clear Hl. cbn. rewrite Hx. reflexivity.
Defined.

Lemma expired_goes_upstream_witness :
  (resolve (demo_up true) (at_time (200 * second)) demo_query true warm).2 = (Some (demo_answer true), None).
Proof.
  rewrite (expired_goes_upstream (demo_up true) (at_time (200 * second)) demo_query demo_q [] true warm _
    eq_refl warm_entry); [vm_compute; reflexivity|vm_compute; by intros [=]].
Defined.

Lemma aaaa_never_fails_witness : ∃ s' resp,
  resolve {| udp_exchange _ _ := (None, Some "timeout"); tcp_exchange _ _ := (None, None); http_post _ _ := Err "down" |}
    (at_time 0) (demo_query <| Questions := [{| qName := "a."; Qtype := TypeAAAA; Qclass := 1 |}] |>) false demo_server
  = (s', (Some resp, None)) ∧ Id resp = 7.
Proof. eapply aaaa_never_fails; reflexivity. Defined.

Lemma resolve_counts_once_witness :
  queries demo_server = Some 0 ∧
  queries (resolve (demo_up false) (at_time (100 * second)) demo_query false demo_server).1 = Some 1.
Proof. split; [reflexivity|]. by rewrite (resolve_counts_once _ _ _ demo_q []). Defined.

Definition listed : Server :=
  demo_server <| conf ::= λ c, c <| cRouter := Some (Router.AddDirectDomain Router.NewRouter "example.com") |> |>.

Lemma split_horizon_witness :
  is_direct demo_q listed = true ∧
  (resolve_sent (demo_up true) (at_time 0) demo_query true listed).1 = [SentUDP "1.1.1.1:53" demo_query; SentTCP "1.1.1.1:53" demo_query].
Proof.
  split; [vm_compute; reflexivity|].
  exact (split_horizon (demo_up true) (at_time 0) demo_query demo_q [] true listed eq_refl).
Defined.

(** The name that is not listed goes to DoH, which is down here, and then to the direct
    resolver. *)
Example doh_then_direct :
  (resolve_sent (demo_up false) (at_time 0) demo_query true demo_server).1 =
  [SentDoH "https://1.1.1.1/dns-query" "packed"; SentUDP "1.1.1.1:53" demo_query].
Proof. vm_compute. reflexivity. Qed.

(** The TCP retry's own TC bit is not looked at: when the direct resolver sets it there
    as well, a client on a stream transport is handed the truncated answer. *)
Lemma stream_answer_truncation_witness : ∃ s' resp,
  resolve (demo_up true) (at_time 0) demo_query true demo_server = (s', (Some resp, None)) ∧
  Truncated resp = true ∧ resp = demo_answer true.
Proof.
  do 2 eexists. split; [vm_compute; reflexivity|]. split; [reflexivity|].
  destruct (stream_answer_truncation (demo_up true) (at_time 0) demo_query demo_q [] demo_server
    (resolve (demo_up true) (at_time 0) demo_query true demo_server).1 (demo_answer true)) as (mu & mt & _ & _ & Em & _ & _ & Er);
    [apply map_Forall_empty|reflexivity|vm_compute; reflexivity|reflexivity|].
  injection Em as <-. exact Er.
Defined.

Lemma learned_domain_witness :
  (LookupDomainByIP (200 * second) "::ffff:10.0.0.1"
     (cacheAndRecordIP (100 * second) "example.com" "k" (demo_answer false) demo_server)).2 = Some "example.com".
Proof.
  rewrite (learned_domain _ _ _ _ _ [10; 0; 0; 1] _ _ (demo_rr 60)); [reflexivity..| |by left|vm_compute; reflexivity].
  apply list_elem_of_here.
Defined.

Lemma sweep_transparent_witness :
  (check_cache (at_time (130 * second)) demo_query demo_q (sweepExpired (120 * second) warm)).2 =
  (check_cache (at_time (130 * second)) demo_query demo_q warm).2.
Proof.
  refine (proj1 (sweep_transparent (120 * second) (at_time (130 * second)) demo_query demo_q (130 * second) "" warm _ _));
    vm_compute; by intros [=].
Defined.

Lemma cache_control_min_witness : ∃ n, doHCacheControl (demo_answer false) = "max-age=" +:+ Itoa n ∧ 0 ≤ n ≤ 86400.
Proof.
  destruct (cache_control_min (demo_answer false)) as [_ Hc].
  - unfold ttls_ok. cbn. apply Forall_singleton. cbn. lia.
  - destruct Hc as (n & E & Hn & _); [by vm_compute|]. exists n. by split.
Defined.

Lemma start_all_or_nothing_witness :
  holds (Start {| b_udp := None; b_tcp := Some "in use"; b_doh := None; b_cert := None; b_dot := None |} demo_server).1 =
  (false, false, false, false).
Proof.
  refine (proj1 (proj1 (start_all_or_nothing
    {| b_udp := None; b_tcp := Some "in use"; b_doh := None; b_cert := None; b_dot := None |}
    demo_server _ (Some _) eq_refl eq_refl eq_refl eq_refl))).
Defined.
End DnsProps.
