(* ===== verification/Float64.v ===== *)
(** * Doubles: the order of the Standard Library's IEEE arithmetic

    [SpecFloat] defines the operations on binary64 by rounding exact results to
    nearest even.  Its order compares exponents before mantissas, so it is the order of
    the numbers on canonical doubles only.  This file shows that a quotient is canonical
    and that taking a positive number away never makes a canonical double larger. *)

From Stdlib Require Import SpecFloat.
From S2P Require Import Prelude.

Module Float64.

Abbreviation fexp64 := (fexp 53 1024).
Abbreviation round64 := (binary_round_aux 53 1024).

(** ** Digits *)

Lemma digits_log2 p : Z.pos (digits2_pos p) = Z.log2 (Z.pos p) + 1.
Proof.
  assert (∀ p, digits2_pos p = Pos.size p) as E by (induction p0; cbn; congruence).
  rewrite E. destruct p; cbn; lia.
Qed.

(** Below a power of two is having as few digits. *)
Lemma digits_le m k : 0 ≤ m → 0 ≤ k → Zdigits2 m ≤ k ↔ m < 2 ^ k.
Proof.
  intros Hm Hk. destruct m as [|p|p]; [|cbn [Zdigits2]|lia].
  - cbn. pose proof (Z.pow_pos_nonneg 2 k). lia.
  - rewrite digits_log2, Z.log2_lt_pow2 by lia. lia.
Qed.

Lemma digits_nonneg m : 0 ≤ Zdigits2 m.
Proof. by destruct m. Qed.

Lemma digits_ge m k : 0 ≤ m → 0 ≤ k → k < Zdigits2 m ↔ 2 ^ k ≤ m.
Proof. intros Hm Hk. pose proof (digits_le m k Hm Hk). lia. Qed.

Lemma digits_mono a b : 0 ≤ a ≤ b → Zdigits2 a ≤ Zdigits2 b.
Proof. intros [Ha Hb]. apply digits_le; [done|apply digits_nonneg|]. apply (Z.le_lt_trans _ b); [done|]. apply digits_le; [lia|apply digits_nonneg|done]. Qed.

Lemma digits_shift m k : 0 < m → 0 ≤ k → Zdigits2 (m * 2 ^ k) = Zdigits2 m + k.
Proof.
  intros Hm Hk. assert (0 < 2 ^ k) by (apply Z.pow_pos_nonneg; lia). assert (0 < m * 2 ^ k) by nia.
  destruct m as [|p|p]; try lia. destruct (Z.pos p * 2 ^ k) as [|q|q] eqn:E; try lia. cbn [Zdigits2].
  rewrite !digits_log2, <- E, Z.log2_mul_pow2 by lia. lia.
Qed.

(** ** Rounding *)

Lemma shr_1_m r : 0 ≤ shr_m r → shr_m (shr_1 r) = shr_m r / 2.
Proof. destruct r as [m b s]. cbn. intros Hm. rewrite <- Z.div2_div. by destruct m as [|[]|]. Qed.

Lemma shr_iter_m p r : 0 ≤ shr_m r → shr_m (SpecFloat.iter_pos shr_1 p r) = shr_m r / 2 ^ Z.pos p.
Proof.
  revert r. induction p as [p IH|p IH|]; intros r Hr; cbn [SpecFloat.iter_pos].
  - assert (0 ≤ shr_m r / 2) as H1 by (apply Z.div_pos; lia).
    assert (0 ≤ shr_m (shr_1 r)) as H2 by by rewrite shr_1_m.
    rewrite IH, IH, shr_1_m, !Z.div_div; try lia; try (rewrite IH by done; apply Z.div_pos; lia).
    f_equal. rewrite <- !Z.pow_add_r, <- Z.pow_succ_r by lia. f_equal. lia.
  - rewrite IH, IH, Z.div_div; try lia; try (rewrite IH by done; apply Z.div_pos; lia).
    f_equal. rewrite <- Z.pow_add_r by lia. f_equal. lia.
  - by apply shr_1_m.
Qed.

(** One shift to the exponent of a double. *)
Lemma shr_fexp_spec m e l :
  0 ≤ m →
  let t := fexp64 (Zdigits2 m + e) in
  shr_m (shr_fexp 53 1024 m e l).1 = m / 2 ^ (Z.max 0 (t - e)) ∧ (shr_fexp 53 1024 m e l).2 = Z.max e t.
Proof.
  intros Hm t. unfold shr_fexp. fold t. assert (shr_m (shr_record_of_loc m l) = m) as E by by destruct l as [|[]].
  destruct (t - e) as [|p|p] eqn:Et; cbn [shr fst snd]; rewrite ?E.
  - cbn. rewrite Z.div_1_r. lia.
  - rewrite shr_iter_m, E by (rewrite E; done). split; [f_equal; f_equal; lia|lia].
  - rewrite Z.max_l by lia. cbn. rewrite Z.div_1_r. lia.
Qed.

Lemma round_even_near m l : m ≤ round_nearest_even m l ≤ m + 1.
Proof. unfold round_nearest_even. repeat case_match; lia. Qed.

Lemma quot_nonneg m k q : 0 ≤ m → 0 ≤ k → m / 2 ^ k ≤ q → 0 ≤ q.
Proof. intros Hm Hk Hq. assert (0 ≤ m / 2 ^ k); [|lia]. apply Z.div_pos; [done|]. apply Z.pow_pos_nonneg; lia. Qed.

(** Rounding: the exponent is the double's, the mantissa is the quotient or one more,
    renormalised when that needs a digit too many. *)
Lemma round_spec s m e l :
  0 ≤ m → e ≤ fexp64 (Zdigits2 m + e) →
  let e1 := fexp64 (Zdigits2 m + e) in
  ∃ m2 m3 e3,
    m / 2 ^ (e1 - e) ≤ m2 ≤ m / 2 ^ (e1 - e) + 1 ∧
    ((m3, e3) = (m2, e1) ∧ m2 < 2 ^ 53 ∨ m2 = 2 ^ 53 ∧ (m3, e3) = (2 ^ 52, e1 + 1)) ∧
    round64 s m e l = match m3 with
                      | Z0 => S754_zero s
                      | Z.pos p => if e3 <=? 971 then S754_finite s p e3 else S754_infinity s
                      | _ => S754_nan
                      end.
Proof.
  intros Hm He e1. unfold binary_round_aux. destruct (shr_fexp_spec m e l Hm) as [H1 H2]. cbv zeta in H1, H2. fold e1 in H1, H2, He.
  destruct (shr_fexp 53 1024 m e l) as [r1 e1'] eqn:E1. cbn [fst snd] in H1, H2. rewrite Z.max_r in H1 by lia.
  assert (e1' = e1) as -> by lia. clear H2.
  set (m2 := round_nearest_even _ _). pose proof (round_even_near (shr_m r1) (loc_of_shr_record r1)) as Hr. fold m2 in Hr. clearbody m2.
  assert (0 ≤ shr_m r1 < 2 ^ 53) as Hm1.
  { rewrite H1. split; [apply Z.div_pos; lia|]. apply Z.div_lt_upper_bound; [lia|]. rewrite <- Z.pow_add_r by lia.
    apply digits_le; [done|lia|]. unfold e1, fexp. lia. }
  exists m2. rewrite <- H1. destruct (shr_fexp_spec m2 e1 loc_Exact ltac:(lia)) as [H3 H4]. cbv zeta in H3, H4.
  destruct (shr_fexp 53 1024 m2 e1 loc_Exact) as [r3 e3] eqn:E3. cbn [fst snd] in H3, H4.
  exists (shr_m r3), e3. split; [done|]. split; [|by destruct (shr_m r3)].
  assert (-1074 ≤ e1) as Hmin by (unfold e1, fexp, emin; lia).
  destruct (Z.lt_ge_cases m2 (2 ^ 53)) as [Hlt|Hge].
  - left. split; [|done]. pose proof (proj2 (digits_le m2 53 ltac:(lia) ltac:(lia)) Hlt) as Hd.
    assert (fexp64 (Zdigits2 m2 + e1) ≤ e1) by (unfold fexp, emin; lia).
    rewrite H3, H4, !Z.max_l by lia. by rewrite Z.div_1_r.
  - right. assert (m2 = 2 ^ 53) as E2 by lia. split; [done|]. rewrite H3, H4, E2. change (Zdigits2 (2 ^ 53)) with 54.
    assert (fexp64 (54 + e1) = e1 + 1) as -> by (unfold fexp, emin; lia). f_equal; [|lia].
    by replace (Z.max 0 (e1 + 1 - e1)) with 1 by lia.
Qed.

(** ** Canonical doubles *)

(** A double as the operations return it. *)
Definition canonical (x : spec_float) : Prop :=
  match x with S754_finite _ m e => fexp64 (Z.pos (digits2_pos m) + e) = e ∧ e ≤ 971 | _ => True end.

Lemma round_canonical s m e l : 0 ≤ m → e ≤ fexp64 (Zdigits2 m + e) → canonical (round64 s m e l).
Proof.
  intros Hm He. destruct (round_spec s m e l Hm He) as (m2 & m3 & e3 & H1 & H2 & ->). cbv zeta in H1, H2.
  set (e1 := fexp64 (Zdigits2 m + e)) in *. destruct m3 as [|p|p]; [done| |done].
  destruct (Z.leb_spec e3 971) as [H971|]; [|done]. split; [|done]. fold (Zdigits2 (Z.pos p)).
  assert (-1074 ≤ e1) as Hmin by (unfold e1, fexp, emin; lia).
  destruct H2 as [[[E ->]%pair_equal_spec Hlt]|[_ [E ->]%pair_equal_spec]].
  - rewrite E. pose proof (proj2 (digits_le m2 53 ltac:(lia) ltac:(lia)) Hlt) as Hd.
    destruct (Z.eq_dec e1 (-1074)) as [->|Hne]; [unfold fexp, emin; lia|].
    assert (Zdigits2 m = 53 + (e1 - e)) as Em by (unfold e1, fexp, emin in *; lia).
    assert (2 ^ 52 ≤ m2).
    { etransitivity; [|exact (proj1 H1)]. apply Z.div_le_lower_bound; [lia|]. rewrite <- Z.pow_add_r by lia.
      apply digits_ge; lia. }
    assert (52 < Zdigits2 m2) by (apply digits_ge; lia). unfold fexp, emin. lia.
  - rewrite E. change (Zdigits2 (2 ^ 52)) with 53. unfold fexp, emin. lia.
Qed.

Lemma div_canonical x y : canonical (SFdiv 53 1024 x y).
Proof.
  destruct x as [s|s| |s m e], y as [t|t| |t n f]; try done. cbn [SFdiv].
  unfold SFdiv_core_binary. set (e' := Z.min _ _). set (sh := e - f - e').
  assert (0 ≤ sh) as Hsh by (unfold sh, e'; lia).
  set (m' := match sh with Z0 => _ | Z.pos _ => _ | Z.neg _ => _ end).
  assert (m' = Z.pos m * 2 ^ sh) as Em.
  { unfold m'. destruct sh eqn:E; [lia| |lia]. rewrite Z.shiftl_mul_pow2 by lia. done. }
  assert (0 < 2 ^ sh) by (apply Z.pow_pos_nonneg; lia).
  destruct (Z.div_eucl m' (Z.pos n)) as [q r] eqn:Eq. pose proof (Z_div_mod m' (Z.pos n) eq_refl) as Hq. rewrite Eq in Hq.
  assert (q = m' / Z.pos n) as -> by (unfold Z.div; by rewrite Eq). clear Eq Hq.
  apply round_canonical; [apply Z.div_pos; lia|].
  assert (Zdigits2 (Z.pos m) + sh - Zdigits2 (Z.pos n) ≤ Zdigits2 (m' / Z.pos n)) as Hd.
  { pose proof (digits_nonneg (m' / Z.pos n)). set (d := Zdigits2 (Z.pos m) + sh - Zdigits2 (Z.pos n)) in *.
    destruct (Z.le_gt_cases d 0); [lia|]. assert (d - 1 < Zdigits2 (m' / Z.pos n)); [|lia].
    apply digits_ge; [apply Z.div_pos; lia|lia|]. apply Z.div_le_lower_bound; [lia|].
    pose proof (proj1 (digits_le (Z.pos n) _ ltac:(lia) (digits_nonneg _)) (Z.le_refl _)) as Hn.
    assert (2 ^ (Zdigits2 (Z.pos m) + sh - 1) ≤ m') as Hm'.
    { apply digits_ge; [nia| |]; [cbn; lia|]. rewrite Em, digits_shift by lia. lia. }
    replace (Zdigits2 (Z.pos m) + sh - 1) with (Zdigits2 (Z.pos n) + (d - 1)) in Hm' by (unfold d; lia).
    rewrite Z.pow_add_r in Hm' by (try apply digits_nonneg; lia).
    assert (0 < 2 ^ (d - 1)) by (apply Z.pow_pos_nonneg; lia). nia. }
  assert (e' ≤ fexp64 (Zdigits2 (Z.pos m) + e - (Zdigits2 (Z.pos n) + f))) as He by (unfold e'; lia).
  unfold sh, fexp in *. lia.
Qed.

(** ** Order *)

(** The order of magnitudes: exponents first. *)
Definition below (m : positive) (e : Z) (k : positive) (f : Z) : Prop := e < f ∨ e = f ∧ (m ≤ k)%positive.

(** What rounding a magnitude under, or over, a canonical double returns. *)
Definition rounds_under (x : spec_float) (s : bool) (k : positive) (f : Z) : Prop :=
  x = S754_zero s ∨ ∃ p e, x = S754_finite s p e ∧ below p e k f.
Definition rounds_over (x : spec_float) (s : bool) (k : positive) (f : Z) : Prop :=
  x = S754_infinity s ∨ ∃ p e, x = S754_finite s p e ∧ below k f p e.

Lemma round_under s m e k f :
  0 < m → e ≤ fexp64 (Zdigits2 m + e) → e ≤ f → canonical (S754_finite s k f) → m < Z.pos k * 2 ^ (f - e) →
  rounds_under (round64 s m e loc_Exact) s k f.
Proof.
  intros Hm He Hf [Hk H971] Hlt. destruct (round_spec s m e loc_Exact ltac:(lia) He) as (m2 & m3 & e3 & H1 & H2 & ->).
  cbv zeta in H1, H2. set (e1 := fexp64 (Zdigits2 m + e)) in *. fold (Zdigits2 (Z.pos k)) in Hk.
  assert (Zdigits2 m + e ≤ Zdigits2 (Z.pos k) + f) as Hd.
  { pose proof (digits_mono m (Z.pos k * 2 ^ (f - e)) ltac:(lia)) as Hd. rewrite digits_shift in Hd by lia. lia. }
  assert (e1 ≤ f) as Hle by (rewrite <- Hk; unfold e1, fexp; lia).
  assert (0 ≤ m2) by (apply (quot_nonneg m (e1 - e)); lia).
  assert (0 ≤ m3 ∧ (e3 < f ∨ e3 = f ∧ m3 ≤ Z.pos k)) as [H0 Hb].
  { destruct (Z.eq_dec e1 f) as [E|Hne].
    - assert (m / 2 ^ (e1 - e) < Z.pos k) as Hq.
      { apply Z.div_lt_upper_bound; [apply Z.pow_pos_nonneg; lia|]. rewrite E. lia. }
      assert (Z.pos k < 2 ^ 53) as Hk53.
      { apply digits_le; [lia..|]. unfold fexp in Hk. lia. }
      revert H1 Hq. generalize (m / 2 ^ (e1 - e)). intros q [_ H1] Hq. clearbody e1.
      destruct H2 as [[[-> ->]%pair_equal_spec _]|[E2 _]]; lia.
    - destruct H2 as [[[-> ->]%pair_equal_spec _]|[E2 [-> ->]%pair_equal_spec]]; [lia|]. split; [lia|].
      destruct (Z.eq_dec (e1 + 1) f) as [E3|]; [right|lia]. split; [done|].
      apply (digits_ge (Z.pos k) 52); [lia..|]. assert (-1074 ≤ e1) by (unfold e1, fexp, emin; lia).
      unfold fexp, emin in Hk. lia. }
  destruct m3 as [|p|p]; [by left| |lia]. right. exists p, e3. assert ((e3 <=? 971) = true) as -> by lia.
  split; [done|]. unfold below. lia.
Qed.

Lemma round_over s m e k f :
  0 < m → e ≤ fexp64 (Zdigits2 m + e) → e ≤ f → canonical (S754_finite s k f) → Z.pos k * 2 ^ (f - e) < m →
  rounds_over (round64 s m e loc_Exact) s k f.
Proof.
  intros Hm He Hf [Hk H971] Hlt. destruct (round_spec s m e loc_Exact ltac:(lia) He) as (m2 & m3 & e3 & H1 & H2 & ->).
  cbv zeta in H1, H2. set (e1 := fexp64 (Zdigits2 m + e)) in *. fold (Zdigits2 (Z.pos k)) in Hk.
  assert (Zdigits2 (Z.pos k) + f ≤ Zdigits2 m + e) as Hd.
  { pose proof (digits_mono (Z.pos k * 2 ^ (f - e)) m) as Hd. rewrite digits_shift in Hd by lia.
    assert (0 < 2 ^ (f - e)) by (apply Z.pow_pos_nonneg; lia). nia. }
  assert (f ≤ e1) as Hle by (rewrite <- Hk; unfold e1, fexp; lia).
  assert (f = e1 → Z.pos k ≤ m2) as Hm2.
  { intros E. etransitivity; [|exact (proj1 H1)]. apply Z.div_le_lower_bound; [apply Z.pow_pos_nonneg; lia|]. rewrite <- E. lia. }
  assert (0 ≤ m2) by (apply (quot_nonneg m (e1 - e)); lia).
  assert (0 < m2 ∨ e1 ≠ f) as H0 by lia.
  assert (0 < m3 ∧ (f < e3 ∨ f = e3 ∧ Z.pos k ≤ m3)) as [H3 Hb].
  { destruct H2 as [[[-> ->]%pair_equal_spec _]|[E2 [-> ->]%pair_equal_spec]]; [|lia].
    destruct (Z.eq_dec e1 f) as [|Hne]; [lia|]. split; [|lia].
    assert (-1074 ≤ f) by (rewrite <- Hk; unfold fexp, emin; lia).
    assert (2 ^ 52 ≤ m2); [|lia]. etransitivity; [|exact (proj1 H1)].
    apply Z.div_le_lower_bound; [apply Z.pow_pos_nonneg; lia|]. rewrite <- Z.pow_add_r by lia.
    apply digits_ge; [lia..|]. unfold e1, fexp, emin in *. lia. }
  destruct m3 as [|p|p]; [lia| |lia]. destruct (Z.leb_spec e3 971); [|by left]. right. exists p, e3.
  split; [done|]. unfold below. lia.
Qed.

Lemma shl_align_mul m e ez : ez ≤ e → Z.pos (shl_align m e ez).1 = Z.pos m * 2 ^ (e - ez).
Proof.
  intros He. unfold shl_align. destruct (ez - e) as [|d|d] eqn:E; [|lia|]; cbn [fst].
  - replace (e - ez) with 0 by lia. lia.
  - replace (e - ez) with (Z.pos d) by lia. rewrite <- Z.shiftl_mul_pow2 by lia. unfold Z.shiftl.
    rewrite <- (Pos.iter_swap_gen _ _ Z.pos xO (Z.mul 2)) by done. done.
Qed.

(** Rounding an exact difference first brings it to a double's exponent. *)
Lemma binary_round_align s m e k f :
  e ≤ f → canonical (S754_finite s k f) →
  (Z.pos m < Z.pos k * 2 ^ (f - e) → rounds_under (binary_round 53 1024 s m e) s k f) ∧
  (Z.pos k * 2 ^ (f - e) < Z.pos m → rounds_over (binary_round 53 1024 s m e) s k f).
Proof.
  intros Hf Hk. unfold binary_round. set (t := fexp64 _). fold (Zdigits2 (Z.pos m)) in t.
  destruct (Z.le_gt_cases e t) as [Ht|Ht].
  - assert (shl_align m e t = (m, e)) as -> by (unfold shl_align; by destruct (t - e) eqn:E; [..|lia]).
    split; intros; [apply round_under|apply round_over]; done.
  - pose proof (shl_align_mul m e t ltac:(lia)) as Em.
    assert ((shl_align m e t).2 = t) as Et by (unfold shl_align; by destruct (t - e) eqn:E; [lia..|]).
    destruct (shl_align m e t) as [mz ez]. cbn [fst snd] in Em, Et. subst ez.
    assert (0 < 2 ^ (e - t)) by (apply Z.pow_pos_nonneg; lia).
    assert (t ≤ fexp64 (Zdigits2 (Z.pos mz) + t)) as Hn.
    { rewrite Em, digits_shift by lia. replace (Zdigits2 (Z.pos m) + (e - t) + t) with (Zdigits2 (Z.pos m) + e) by lia. done. }
    assert (2 ^ (f - t) = 2 ^ (f - e) * 2 ^ (e - t)) as Ef by (rewrite <- Z.pow_add_r by lia; f_equal; lia).
    split; intros; [apply round_under|apply round_over]; try done; try lia; rewrite Em, Ef; nia.
Qed.

(** Rounding keeps the sign. *)
Lemma binary_round_sign s m e :
  let x := binary_round 53 1024 s m e in
  x = S754_zero s ∨ x = S754_infinity s ∨ ∃ p f, x = S754_finite s p f.
Proof.
  unfold binary_round. destruct (shl_align m e _) as [mz ez]. cbv zeta. unfold binary_round_aux.
  destruct (shr_fexp_spec (Z.pos mz) ez loc_Exact) as [H1 _]; [done|].
  destruct (shr_fexp 53 1024 (Z.pos mz) ez loc_Exact) as [r1 e1]. cbn [fst] in H1.
  pose proof (round_even_near (shr_m r1) (loc_of_shr_record r1)) as Hr. set (m2 := round_nearest_even _ _) in *. clearbody m2.
  assert (0 ≤ shr_m r1) as H0.
  { rewrite H1. apply Z.div_pos; [done|]. apply Z.pow_pos_nonneg; lia. }
  destruct (shr_fexp_spec m2 e1 loc_Exact) as [H2 _]; [lia|].
  destruct (shr_fexp 53 1024 m2 e1 loc_Exact) as [r2 e2]. cbn [fst] in H2.
  assert (0 ≤ shr_m r2) by (rewrite H2; apply Z.div_pos; [lia|apply Z.pow_pos_nonneg; lia]).
  destruct (shr_m r2); [by left| |lia]. case_match; [right; right; eauto|by right; left].
Qed.

Ltac order_cases :=
  unfold SFltb, SFleb; cbn [SFcompare];
  repeat match goal with
  | |- context [Z.compare ?a ?b] => destruct (Z.compare_spec a b)
  | |- context [Pos.compare_cont Eq ?a ?b] => change (Pos.compare_cont Eq a b) with (Pos.compare a b); destruct (Pos.compare_spec a b)
  end; cbn [CompOpp]; try done; try lia.

Lemma ltb_leb_trans x y z : SFltb x y = true → SFleb y z = true → SFltb x z = true.
Proof.
  destruct x as [[]|[]| |[] ? ?], y as [[]|[]| |[] ? ?], z as [[]|[]| |[] ? ?]; try done; order_cases.
Qed.

(** Not below is at least, unless one of the two is not a number. *)
Lemma ltb_le_dichotomy x y z : SFltb x y = true → SFltb z y = false → SFleb z x = false.
Proof.
  destruct x as [[]|[]| |[] ? ?], y as [[]|[]| |[] ? ?], z as [[]|[]| |[] ? ?]; try done; order_cases.
Qed.

Lemma ltb_leb x y : SFltb x y = true → SFleb y x = false.
Proof. destruct x as [[]|[]| |[] ? ?], y as [[]|[]| |[] ? ?]; try done; order_cases. Qed.

Lemma leb_ltb_trans x y z : SFleb x y = true → SFltb y z = true → SFleb x z = true.
Proof.
  destruct x as [[]|[]| |[] ? ?], y as [[]|[]| |[] ? ?], z as [[]|[]| |[] ? ?]; try done; order_cases.
Qed.

(** Taking a positive number away does not make a canonical double larger. *)
Lemma sub_le y n g : canonical y → y ≠ S754_nan → SFleb (SFsub 53 1024 y (S754_finite false n g)) y = true.
Proof.
  intros Hy Hnan. destruct y as [s|s| |s k f]; [done|by destruct s|done|]. cbn [SFsub].
  set (ez := Z.min f g). rewrite !shl_align_mul by (unfold ez; lia). pose proof (Z.le_min_l f g : ez ≤ f) as Hez.
  set (a := Z.pos k * 2 ^ (f - ez)).
  assert (0 < Z.pos n * 2 ^ (g - ez)) as Hb.
  { assert (0 < 2 ^ (g - ez)) by (apply Z.pow_pos_nonneg; unfold ez; lia). nia. }
  assert (0 < a) as Ha by (unfold a; assert (0 < 2 ^ (f - ez)) by (apply Z.pow_pos_nonneg; lia); nia).
  revert Hb. generalize (Z.pos n * 2 ^ (g - ez)). intros b Hb. clearbody ez. unfold cond_Zopp. destruct s.
  - destruct (- a - b) as [|p|p] eqn:E; [lia..|]. cbn [binary_normalize].
    destruct (proj2 (binary_round_align true p ez k f Hez Hy)) as [->|(q & e & -> & Hq)]; [fold a; lia|done|].
    revert Hq. unfold below. order_cases.
  - destruct (a - b) as [|p|p] eqn:E; cbn [binary_normalize]; [done| |].
    + destruct (proj1 (binary_round_align false p ez k f Hez Hy)) as [->|(q & e & -> & Hq)]; [fold a; lia|done|].
      revert Hq. unfold below. order_cases.
    + by destruct (binary_round_sign true p ez) as [->|[->|(q & e & ->)]].
Qed.

(** A number below [y] less a positive number is below [y]. *)
Lemma ltb_sub x y n g :
  canonical y → SFltb x (SFsub 53 1024 y (S754_finite false n g)) = true → SFltb x y = true.
Proof.
  intros Hy Hx. eapply ltb_leb_trans; [done|]. apply sub_le; [done|]. intros ->.
  cbn in Hx. by destruct x.
Qed.
End Float64.
