(* ===== verification/Spp.v ===== *)
(** * core/sppclient: upstream nodes, health and selection (manager.go, client.go, pingtunnel.go)

    [Manager] owns one [nodeRuntime] per configured node; the source's slices of
    runtime pointers are lists of indices into [runtimes].  The SPP, pingtunnel
    and gohome/network libraries and the network itself are the parameters
    [SppLib] and the observations passed to the operations that make them.
    Costs are IEEE doubles, computed with the Standard Library's [SpecFloat]. *)

From Stdlib Require Import SpecFloat.
From S2P Require Import Prelude GoStrings GoNet.

Module Spp.

(** ** Doubles *)

Definition float64 := spec_float.
Definition of_int (z : Z) : float64 := binary_normalize 53 1024 z 0 false.
Definition fadd : float64 → float64 → float64 := SFadd 53 1024.
Definition fsub : float64 → float64 → float64 := SFsub 53 1024.
Definition fmul : float64 → float64 → float64 := SFmul 53 1024.
Definition fdiv : float64 → float64 → float64 := SFdiv 53 1024.
Definition fltb : float64 → float64 → bool := SFltb.
Definition fleb : float64 → float64 → bool := SFleb.

(** A decimal constant, rounded to nearest. *)
Definition const (num den : Z) : float64 := fdiv (of_int num) (of_int den).

(** ** Nodes *)

Record Node := {
  Name : string; Server : string; ServerProto : string; Key : string; Encrypt : string; Compress : Z;
  Priority : Z; Bandwidth : Z; KcpFecData : Z; KcpFecParity : Z;
  RdnsDomain : string; RdnsUpstream : string; RdnsPsk : string; RdnsQueryType : string; nodeAlive : bool;
}.
#[global] Instance Node_eta : Eta Node := λ n,
  {| Name := Name n; Server := Server n; ServerProto := ServerProto n; Key := Key n; Encrypt := Encrypt n;
     Compress := Compress n; Priority := Priority n; Bandwidth := Bandwidth n; KcpFecData := KcpFecData n;
     KcpFecParity := KcpFecParity n; RdnsDomain := RdnsDomain n; RdnsUpstream := RdnsUpstream n;
     RdnsPsk := RdnsPsk n; RdnsQueryType := RdnsQueryType n; nodeAlive := nodeAlive n |}.

Definition getEffectivePriority (n : Node) : Z := if Priority n <=? 0 then 10 else Priority n.
Definition getEffectiveBandwidth (n : Node) : Z := if Bandwidth n <=? 0 then 100 else Bandwidth n.

Definition defaultHealthCheckInterval : duration := 10 * second.
Definition nodeProbeTimeout : duration := 3 * second.

(** The configuration handed to a client. *)
Record ClientConfig := {
  cServerProto : string; cServer : string; cKey : string; cEncrypt : string; cCompress : Z;
  cLocalSocks5 : string; cName : string; cKcpFecData : Z; cKcpFecParity : Z;
  cRdnsDomain : string; cRdnsUpstream : string; cRdnsPsk : string; cRdnsQueryType : string;
}.

(** The settings of the SPP library the client overrides. *)
Record SppConfig := {
  ConnBuffer : Z; MainBuffer : Z; MainWriteChannelTimeoutMs : Z; ConnTimeout : Z;
  pKey : string; pEncrypt : string; pCompress : Z; KcpFecDataShards : Z; KcpFecParityShards : Z;
  pRdnsDomain : string; pRdnsUpstream : string; pRdnsPsk : string; pRdnsQueryType : string;
}.
#[global] Instance SppConfig_eta : Eta SppConfig := λ c,
  {| ConnBuffer := ConnBuffer c; MainBuffer := MainBuffer c;
     MainWriteChannelTimeoutMs := MainWriteChannelTimeoutMs c; ConnTimeout := ConnTimeout c;
     pKey := pKey c; pEncrypt := pEncrypt c; pCompress := pCompress c;
     KcpFecDataShards := KcpFecDataShards c; KcpFecParityShards := KcpFecParityShards c;
     pRdnsDomain := pRdnsDomain c; pRdnsUpstream := pRdnsUpstream c; pRdnsPsk := pRdnsPsk c;
     pRdnsQueryType := pRdnsQueryType c |}.

(** The rdns transport's own settings. *)
Record RdnsConfig := { Domain : string; Upstream : string; PSK : string; QueryType : string }.
#[global] Instance RdnsConfig_eta : Eta RdnsConfig := λ c,
  {| Domain := Domain c; Upstream := Upstream c; PSK := PSK c; QueryType := QueryType c |}.

(** github.com/esrrhs/spp, pingtunnel and gohome/network: defaults and
    password rules.  [None] is a mode or password the library rejects. *)
Class SppLib := {
  DefaultConfig : SppConfig;
  defaultRdns : RdnsConfig;
  EncMode : Type;
  NoEncryption : EncMode;
  CHACHA20 : EncMode;
  encmode_eqb : EncMode → EncMode → bool;
  ParseEncryptionMode : string → result string EncMode;
  ValidatePassword : string → option string;
  DeriveAuthCode : string → Z;
  NewCryptoConfig : EncMode → string → option string;
}.

(** ** Protocols *)

Definition ProtoPingTunnel : string := "pingtunnel".

Section spp.
Context `{UnicodeCase, SppLib}.

Definition proto_of (proto : string) : string := ToLower (TrimSpace proto).

Definition isPingTunnelProto (proto : string) : bool :=
  let p := proto_of proto in String.eqb p ProtoPingTunnel || String.eqb p "icmp".

Definition dialNetworkForProto (proto : string) : string :=
  let p := proto_of proto in
  if String.eqb p "" || String.eqb p "tcp" || String.eqb p "rhttp" then "tcp" else "udp".

Definition protoRobustnessBase (proto : string) : Z :=
  let p := proto_of proto in
  if String.eqb p "ricmp" then 100
  else if String.eqb p "kcp" then 95
  else if String.eqb p "rudp" then 85
  else if String.eqb p ProtoPingTunnel || String.eqb p "icmp" then 70
  else if String.eqb p "tcp" || String.eqb p "" then 50
  else if String.eqb p "rdns" then 25
  else if String.eqb p "quic" then 15
  else if String.eqb p "rhttp" then 10
  else 30.

Definition pingTunnelHost (server : string) : string :=
  let server := TrimSpace server in
  match SplitHostPort server with
  | Some (host, _) => if String.eqb host "" then server else host
  | None => server
  end.

(** The authentication code and the cipher, or an error. *)
Definition parsePingTunnelAuthAndCrypto (password encrypt : string) : result string (Z * EncMode) :=
  let password := TrimSpace password in
  match ValidatePassword password with
  | Some e => Err ("pingtunnel password invalid: " +:+ e)
  | None =>
  let authCode := DeriveAuthCode password in
  let encrypt := TrimSpace encrypt in
  let mode :=
    if negb (String.eqb encrypt "") && negb (EqualFold encrypt "default") then
      let modeStr := match Cut encrypt ":" with Some (m, _) => m | None => encrypt end in
      match ParseEncryptionMode (TrimSpace modeStr) with
      | Err e => Err e
      | Ok mode => Ok (if encmode_eqb mode NoEncryption then CHACHA20 else mode)
      end
    else Ok CHACHA20 in
  match mode with
  | Err e => Err e
  | Ok encMode =>
      match NewCryptoConfig encMode password with
      | Some e => Err ("failed to create pingtunnel crypto: " +:+ e)
      | None => Ok (authCode, encMode)
      end
  end
  end.

(** ** Clients *)

Definition or_else (s d : string) : string := if String.eqb s "" then d else s.

(** The library configuration [NewClient] builds. *)
Definition spp_config (cfg : ClientConfig) : SppConfig :=
  let c := DefaultConfig <| ConnBuffer := 32 |> <| MainBuffer := 128 |>
             <| MainWriteChannelTimeoutMs := 0 |> <| ConnTimeout := 0 |> <| pKey := cKey cfg |> in
  let enc := TrimSpace (cEncrypt cfg) in
  let enc := if EqualFold enc "default" then "" else enc in
  let c := c <| pEncrypt := enc |> <| pCompress := cCompress cfg |> in
  let c := if 0 <? cKcpFecData cfg then c <| KcpFecDataShards := cKcpFecData cfg |> else c in
  let c := if 0 <? cKcpFecParity cfg then c <| KcpFecParityShards := cKcpFecParity cfg |> else c in
  c <| pRdnsDomain ::= or_else (cRdnsDomain cfg) |> <| pRdnsUpstream ::= or_else (cRdnsUpstream cfg) |>
    <| pRdnsPsk ::= or_else (cRdnsPsk cfg) |> <| pRdnsQueryType ::= or_else (cRdnsQueryType cfg) |>.

(** The arguments of the library's constructor. *)
Record SppCall := {
  sc_config : SppConfig; sc_proto : string; sc_server : string; sc_name : string;
  sc_type : string; sc_protos : list string; sc_from : list string; sc_to : list string;
}.

Definition NewClient (cfg : ClientConfig) : result string SppCall :=
  if String.eqb (cServer cfg) "" then Err "spp server address cannot be empty"
  else Ok {| sc_config := spp_config cfg; sc_proto := ToLower (or_else (cServerProto cfg) "tcp");
             sc_server := cServer cfg; sc_name := or_else (cName cfg) "yellowsocks_spp"; sc_type := "SOCKS5";
             sc_protos := ["tcp"]; sc_from := [or_else (cLocalSocks5 cfg) "127.0.0.1:10808"]; sc_to := [""] |}.

Record PingCall := { pc_listen : string; pc_server : string; pc_auth : Z; pc_mode : EncMode; pc_udp : bool; pc_socks5 : bool }.

Definition newPingTunnelClient (cfg : ClientConfig) : result string PingCall :=
  if String.eqb (TrimSpace (cServer cfg)) "" then Err "pingtunnel server address cannot be empty"
  else match parsePingTunnelAuthAndCrypto (cKey cfg) (cEncrypt cfg) with
       | Err e => Err e
       | Ok (auth, mode) =>
           Ok {| pc_listen := or_else (cLocalSocks5 cfg) "127.0.0.1:10808"; pc_server := pingTunnelHost (cServer cfg);
                 pc_auth := auth; pc_mode := mode; pc_udp := false; pc_socks5 := true |}
       end.

(** ** Probing *)

(** What the network answers to a probe: [None] is an error or a timeout. *)
Record Net := {
  n_tcp : string → option duration;
  n_new_conn : string → bool;
  n_dial : string → option RdnsConfig → string → option duration;
  n_ping : PingCall → option duration;
  n_client : SppCall → option string;
  n_ping_client : PingCall → option string;
}.

Definition probePingTunnel (net : Net) (node : Node) : bool * duration :=
  match parsePingTunnelAuthAndCrypto (Key node) (Encrypt node) with
  | Err _ => (false, 0)
  | Ok (auth, mode) =>
      match n_ping net {| pc_listen := "127.0.0.1:0"; pc_server := pingTunnelHost (Server node);
                          pc_auth := auth; pc_mode := mode; pc_udp := true; pc_socks5 := false |} with
      | Some rtt => (true, rtt)
      | None => (false, 0)
      end
  end.

Definition rdns_overlay (node : Node) (cf : RdnsConfig) : RdnsConfig :=
  cf <| Domain ::= or_else (RdnsDomain node) |> <| Upstream ::= or_else (RdnsUpstream node) |>
     <| PSK ::= or_else (RdnsPsk node) |> <| QueryType ::= or_else (RdnsQueryType node) |>.

Definition probeNodeWithRTT (net : Net) (node : Node) : bool * duration :=
  if isPingTunnelProto (ServerProto node) then probePingTunnel net node
  else
    let proto := proto_of (ServerProto node) in
    if String.eqb proto "" || String.eqb proto "tcp" then
      match n_tcp net (Server node) with Some rtt => (true, rtt) | None => (false, 0) end
    else if negb (n_new_conn net proto) then (false, 0)
    else
      let rc := if String.eqb proto "rdns" then Some (rdns_overlay node defaultRdns) else None in
      match n_dial net proto rc (Server node) with Some rtt => (true, rtt) | None => (false, 0) end.

Definition probeNode (net : Net) (node : Node) : bool := (probeNodeWithRTT net node).1.

(** ** Runtimes *)

(** [client] and [clientPtr] are set and cleared together: [running]. *)
Record nodeRuntime := {
  node : Node; localSocks5 : string; running : bool; alive : bool; rttMs : Z;
  consecutiveOks : Z; consecutiveFails : Z; activeConns : Z; lastUploadNano : Z; lastDownloadNano : Z;
}.
#[global] Instance nodeRuntime_eta : Eta nodeRuntime := λ r,
  {| node := node r; localSocks5 := localSocks5 r; running := running r; alive := alive r; rttMs := rttMs r;
     consecutiveOks := consecutiveOks r; consecutiveFails := consecutiveFails r; activeConns := activeConns r;
     lastUploadNano := lastUploadNano r; lastDownloadNano := lastDownloadNano r |}.

(** What one look at a node's traffic sees: the clock and whether its client
    reports traffic. *)
Record Look := { l_now : time; l_client : bool }.

Definition hasRecentTraffic (k : Look) (window : duration) (nr : nodeRuntime) : bool :=
  let window := if window <=? 0 then defaultHealthCheckInterval else window in
  let up := lastUploadNano nr in
  let down := lastDownloadNano nr in
  if (0 <? up) && (0 <? down) && (l_now k - up <=? window) && (l_now k - down <=? window) then true
  else running nr && l_client k.

Definition calcCost (nr : nodeRuntime) : float64 :=
  let rtt := of_int (rttMs nr) in
  let rtt := if fltb rtt (of_int 10) then of_int 10 else rtt in
  let conns := of_int (activeConns nr) in
  let fails := of_int (consecutiveFails nr) in
  let bw := of_int (getEffectiveBandwidth (node nr)) in
  let bw := if fleb bw (of_int 0) then of_int 100 else bw in
  let robust := fdiv (of_int (protoRobustnessBase (ServerProto (node nr)))) (of_int 100) in
  let robust := if fleb robust (const 1 10) then const 7 10 else robust in
  fdiv (fmul (fmul rtt (fadd conns (of_int 1))) (fadd (of_int 1) (fmul fails (of_int 2)))) (fmul bw robust).

Definition robustnessScore (nr : nodeRuntime) : Z :=
  let base := protoRobustnessBase (ServerProto (node nr)) in
  let score := base + consecutiveOks nr * 2 - consecutiveFails nr * 20 in
  if 100 <? rttMs nr then score - (rttMs nr - 100) `quot` 50 else score.

Definition isBetterThan (a b : nodeRuntime) : bool :=
  let scoreA := robustnessScore a in
  let scoreB := robustnessScore b in
  if 10 <? scoreA - scoreB then true
  else if 10 <? scoreB - scoreA then false
  else
    let bwA := getEffectiveBandwidth (node a) in
    let bwB := getEffectiveBandwidth (node b) in
    if negb (bwA =? bwB) then bwB <? bwA
    else if negb (scoreA =? scoreB) then scoreB <? scoreA
    else if (0 <? rttMs a) && (0 <? rttMs b) then rttMs a <? rttMs b
    else true.

(** ** The manager *)

Record Manager := {
  runtimes : list nodeRuntime; activeIndex : Z; mLocalSocks5 : string; closed : bool;
  healthInterval : duration; triggered : bool;
}.
#[global] Instance Manager_eta : Eta Manager := λ m,
  {| runtimes := runtimes m; activeIndex := activeIndex m; mLocalSocks5 := mLocalSocks5 m; closed := closed m;
     healthInterval := healthInterval m; triggered := triggered m |}.

Definition upd (i : nat) (f : nodeRuntime → nodeRuntime) (m : Manager) : Manager :=
  m <| runtimes ::= alter f i |>.

Definition ok_count (r : nodeRuntime) : nodeRuntime := r <| consecutiveOks ::= Z.add 1 |> <| consecutiveFails := 0 |>.

(** One goroutine of [probeAllNodes]: the traffic before and after the probe. *)
Definition probe_one (net : Net) (interval : duration) (before after : Look) (rt : nodeRuntime) : nodeRuntime :=
  if alive rt && hasRecentTraffic before interval rt then ok_count rt
  else
    let '(ok, rtt) := probeNodeWithRTT net (node rt) in
    if negb ok && alive rt && hasRecentTraffic after interval rt then ok_count rt
    else
      let rt := rt <| alive := ok |> in
      if ok then ok_count (rt <| rttMs := rtt `quot` millisecond |>)
      else rt <| consecutiveFails ::= Z.add 1 |> <| consecutiveOks := 0 |>.

(** The goroutines touch one runtime each, so their order does not matter. *)
Definition probeAllNodes (net : Net) (looks : nat → Look * Look) (m : Manager) : Manager :=
  m <| runtimes ::= imap (λ i, probe_one net (healthInterval m) (looks i).1 (looks i).2) |>.

Definition min_pri (acc : Z) (rt : nodeRuntime) : Z :=
  let pri := getEffectivePriority (node rt) in
  if (acc =? -1) || (pri <? acc) then pri else acc.

Definition getActivePriorityTierLocked (m : Manager) : Z :=
  let minPri := foldl min_pri (-1) (filter (λ rt, alive rt = true) (runtimes m)) in
  if negb (minPri =? -1) then minPri else foldl min_pri (-1) (runtimes m).

(** The indices of the runtimes a test accepts, in order. *)
Definition indices (f : nodeRuntime → bool) (m : Manager) : list nat :=
  omap (λ i, match runtimes m !! i with Some rt => if f rt then Some i else None | None => None end)
       (seq 0 (length (runtimes m))).

Definition in_tier (tier : Z) (rt : nodeRuntime) : bool := getEffectivePriority (node rt) =? tier.

Definition getActiveTierCandidatesLocked (m : Manager) : list nat :=
  let tier := getActivePriorityTierLocked m in
  if tier =? -1 then []
  else
    let aliveInTier := indices (λ rt, in_tier tier rt && alive rt) m in
    if negb (length aliveInTier =? 0)%nat then aliveInTier
    else
      let anyAlive := indices alive m in
      if negb (length anyAlive =? 0)%nat then anyAlive else indices (in_tier tier) m.

Definition cost_of (m : Manager) (i : nat) : float64 :=
  match runtimes m !! i with Some rt => calcCost rt | None => S754_nan end.

Definition pick_step (m : Manager) (st : nat * float64) (c : nat) : nat * float64 :=
  let cost := cost_of m c in
  if fltb cost (fsub st.2 (const 1 1000000)) then (c, cost) else st.

Definition pickCandidateLocked (candidates : list nat) (m : Manager) : option nat :=
  match candidates with
  | [] => None
  | c0 :: rest => Some (foldl (pick_step m) (c0, cost_of m c0) rest).1
  end.

Definition client_config (rt : nodeRuntime) : ClientConfig :=
  let n := node rt in
  {| cServerProto := ServerProto n; cServer := Server n; cKey := Key n; cEncrypt := Encrypt n;
     cCompress := Compress n; cLocalSocks5 := localSocks5 rt; cName := Name n; cKcpFecData := KcpFecData n;
     cKcpFecParity := KcpFecParity n; cRdnsDomain := RdnsDomain n; cRdnsUpstream := RdnsUpstream n;
     cRdnsPsk := RdnsPsk n; cRdnsQueryType := RdnsQueryType n |}.

(** Starting a client for a runtime: the error, if any. *)
Definition start_client (net : Net) (rt : nodeRuntime) : option string :=
  if isPingTunnelProto (ServerProto (node rt)) then
    match newPingTunnelClient (client_config rt) with Err e => Some e | Ok call => n_ping_client net call end
  else
    match NewClient (client_config rt) with
    | Err e => Some e
    | Ok call => (λ e, "failed to init SPP client: " +:+ e) <$> n_client net call
    end.

Definition ensureClientRunningLocked (net : Net) (i : nat) (m : Manager) : Manager * option string :=
  if closed m then (m, Some "spp manager is closed")
  else match runtimes m !! i with
       | None => (m, None)
       | Some rt =>
           if running rt then (m, None)
           else match start_client net rt with
                | Some e => (m, Some e)
                | None => (upd i (λ r, r <| running := true |>) m, None)
                end
       end.

Definition ensure_all (net : Net) (l : list nat) (m : Manager) : Manager :=
  foldl (λ m i, (ensureClientRunningLocked net i m).1) m l.

(** Base port of the local SOCKS5 listeners. *)
Definition local_addrs (localSocks5 : string) (n : nat) : list string :=
  let '(host, basePort) :=
    match SplitHostPort localSocks5 with
    | Some (host, portStr) => (host, default 10808 (Atoi portStr))
    | None => ("127.0.0.1", 10808)
    end in
  (λ i, host +:+ ":" +:+ Itoa (basePort + Z.of_nat i)) <$> seq 0 n.

Definition new_runtime (n : Node) (addr : string) : nodeRuntime :=
  {| node := n; localSocks5 := addr; running := false; alive := false; rttMs := 0; consecutiveOks := 0;
     consecutiveFails := 0; activeConns := 0; lastUploadNano := 0; lastDownloadNano := 0 |}.

Definition newManager (net : Net) (looks : nat → Look * Look) (nodes : list Node) (localSocks5 : string)
    (interval : duration) : result string Manager :=
  match nodes with
  | [] => Err "no spp nodes provided"
  | _ =>
      let localSocks5 := or_else localSocks5 "127.0.0.1:10808" in
      let interval := if interval <=? 0 then defaultHealthCheckInterval else interval in
      let m := {| runtimes := zip_with new_runtime nodes (local_addrs localSocks5 (length nodes));
                  activeIndex := -1; mLocalSocks5 := localSocks5; closed := false;
                  healthInterval := interval; triggered := false |} in
      let m := probeAllNodes net looks m in
      let candidates := getActiveTierCandidatesLocked m in
      Ok (match candidates with
          | [] => (ensureClientRunningLocked net 0 m).1 <| activeIndex := 0 |>
          | _ => let m := ensure_all net candidates m in
                 match pickCandidateLocked candidates m with
                 | Some best => m <| activeIndex := Z.of_nat best |>
                 | None => m
                 end
          end)
  end.

Definition NewManager (net : Net) (looks : nat → Look * Look) (nodes : list Node) (localSocks5 : string) :=
  newManager net looks nodes localSocks5 defaultHealthCheckInterval.

(** ** Picking *)

(** Address, node name and the index whose connection count the release
    function takes back. *)
Definition PickNode (net : Net) (m : Manager) : Manager * (string * string * option nat) :=
  if closed m then (m, ("", "", None))
  else
    let candidates := getActiveTierCandidatesLocked m in
    match candidates with
    | [] => (m, (mLocalSocks5 m, "", None))
    | c0 :: _ =>
        let chosen := default c0 (pickCandidateLocked candidates m) in
        let m := (ensureClientRunningLocked net chosen m).1 in
        let m := upd chosen (λ r, r <| activeConns ::= Z.add 1 |>) m in
        match runtimes m !! chosen with
        | Some rt => (m, (localSocks5 rt, Name (node rt), Some chosen))
        | None => (m, ("", "", None))
        end
    end.

(** The body of the release function's [once.Do]. *)
Definition release (i : nat) (m : Manager) : Manager := upd i (λ r, r <| activeConns ::= λ n, n - 1 |>) m.

Definition Socks5Addr (net : Net) (m : Manager) : Manager * string :=
  let '(m, (addr, _, rel)) := PickNode net m in
  let m := match rel with Some i => release i m | None => m end in
  (m, if negb (String.eqb addr "") then addr else mLocalSocks5 m).

(** ** Failover and reports *)

Definition switchNode (net : Net) (index : Z) (m : Manager) : Manager * option string :=
  if closed m then (m, Some "spp manager is closed")
  else if (index <? 0) || (Z.of_nat (length (runtimes m)) <=? index) then (m, Some "node index out of range")
  else
    let i := Z.to_nat index in
    match ensureClientRunningLocked net i m with
    | (m, Some e) => (upd i (λ r, r <| alive := false |>) m, Some e)
    | (m, None) => ((upd i (λ r, r <| alive := true |>) m) <| activeIndex := index |>, None)
    end.

Definition fallback_step (exclude : Z) (m : Manager) (best : option nat) (i : nat) : option nat :=
  match runtimes m !! i with
  | None => best
  | Some rt =>
      if (Z.of_nat i =? exclude) || negb (alive rt) then best
      else match best with
           | None => Some i
           | Some b =>
               match runtimes m !! b with
               | None => best
               | Some rb =>
                   let priCurr := getEffectivePriority (node rt) in
                   let priBest := getEffectivePriority (node rb) in
                   if (priCurr <? priBest) || ((priCurr =? priBest) && isBetterThan rt rb) then Some i else best
               end
           end
  end.

Definition fallbackLocked (net : Net) (exclude : Z) (m : Manager) : Manager * Z :=
  match foldl (fallback_step exclude m) None (seq 0 (length (runtimes m))) with
  | None => (m, -1)
  | Some b =>
      match switchNode net (Z.of_nat b) m with
      | (m, None) => (m, Z.of_nat b)
      | (m, Some _) => (m, -1)
      end
  end.

Definition set_active (best : option nat) (m : Manager) : Manager :=
  match best with Some i => m <| activeIndex := Z.of_nat i |> | None => m end.

Definition alive_at (m : Manager) (i : nat) : bool :=
  match runtimes m !! i with Some rt => alive rt | None => false end.

Definition checkNodes (net : Net) (looks : nat → Look * Look) (m : Manager) : Manager :=
  let m := probeAllNodes net looks m in
  if closed m then m
  else
    let candidates := getActiveTierCandidatesLocked m in
    let live := filter (λ i, alive_at m i = true) candidates in
    let m := ensure_all net live m in
    set_active (pickCandidateLocked candidates m) m.

(** [healthLoop]: one turn, by the channel its [select] receives from: [false] ends the
    goroutine.  [checkStopCh] can be received from once [Close] has closed it,
    [triggerCheckCh] when it holds its one token; a channel that is not ready is
    not chosen. *)
Inductive Wake := WStop | WTick | WTrigger.

Definition healthLoop (net : Net) (looks : nat → Look * Look) (w : Wake) (m : Manager) : Manager * bool :=
  match w with
  | WStop => (m, negb (closed m))
  | WTick => (checkNodes net looks m, true)
  | WTrigger => (if triggered m then checkNodes net looks (m <| triggered := false |>) else m, true)
  end.

(** The first runtime with the name. *)
Definition find_node (name : string) (m : Manager) : option nat :=
  fst <$> list_find (λ rt, Name (node rt) = name) (runtimes m).

Definition RecordNodeTraffic (now : time) (name : string) (up down : Z) (m : Manager) : Manager :=
  if closed m || String.eqb name "" then m
  else match find_node name m with
       | None => m
       | Some i => upd i (λ rt,
           let rt := if 0 <? up then rt <| lastUploadNano := now |> else rt in
           let rt := if 0 <? down then rt <| lastDownloadNano := now |> else rt in
           if (0 <? up) && (0 <? down) then rt <| alive := true |> <| consecutiveFails := 0 |> else rt) m
       end.

Definition HasRecentNodeTraffic (k : Look) (name : string) (window : duration) (m : Manager) : bool :=
  if closed m || String.eqb name "" then false
  else match find_node name m with
       | None => false
       | Some i => match runtimes m !! i with Some rt => hasRecentTraffic k window rt | None => false end
       end.

(** [ReportNodeFailure]: the new state and, after a second failure in a row,
    the runtime whose liveness a goroutine will check. *)
Definition ReportNodeFailure (k : Look) (name : string) (m : Manager) : Manager * option nat :=
  if closed m || String.eqb name "" then (m, None)
  else match find_node name m with
       | None => (m, None)
       | Some i =>
           match runtimes m !! i with
           | None => (m, None)
           | Some rt =>
               if alive rt && hasRecentTraffic k (healthInterval m) rt then (m, None)
               else (upd i (λ r, r <| consecutiveFails ::= Z.add 1 |> <| consecutiveOks := 0 |>) m,
                     if 2 <=? consecutiveFails rt + 1 then Some i else None)
           end
       end.

(** That goroutine. *)
Definition confirm_failure (net : Net) (before after : Look) (i : nat) (m : Manager) : Manager :=
  match runtimes m !! i with
  | None => m
  | Some r =>
      if alive r && hasRecentTraffic before (healthInterval m) r then upd i (λ r, r <| consecutiveFails := 0 |>) m
      else
        let '(ok, rtt) := probeNodeWithRTT net (node r) in
        if negb ok && alive r && hasRecentTraffic after (healthInterval m) r
        then upd i (λ r, r <| consecutiveFails := 0 |>) m
        else if ok then upd i (λ r, r <| alive := true |> <| rttMs := rtt `quot` millisecond |> <| consecutiveFails := 0 |>) m
        else (upd i (λ r, r <| alive := false |>) m) <| triggered := true |>
  end.

Definition ActiveNodeName (m : Manager) : string :=
  if (activeIndex m <? 0) || (Z.of_nat (length (runtimes m)) <=? activeIndex m) then ""
  else match runtimes m !! Z.to_nat (activeIndex m) with Some rt => Name (node rt) | None => "" end.

Definition Socks5Auth : string * string := ("", "").

Definition ReportFailure (k : Look) (m : Manager) : Manager * option nat :=
  let name := ActiveNodeName m in
  if String.eqb name "" then (m, None) else ReportNodeFailure k name m.

Record NodeStatus := {
  sName : string; sServer : string; sProto : string; sPriority : Z; sBandwidth : Z; sRTTMs : Z;
  sAlive : bool; sActive : bool; sActiveConns : Z;
}.

Definition NodeStatuses (m : Manager) : list NodeStatus :=
  let tier := getActivePriorityTierLocked m in
  (λ rt, {| sName := Name (node rt); sServer := Server (node rt); sProto := ServerProto (node rt);
            sPriority := getEffectivePriority (node rt); sBandwidth := getEffectiveBandwidth (node rt);
            sRTTMs := rttMs rt; sAlive := alive rt; sActive := alive rt && in_tier tier rt;
            sActiveConns := activeConns rt |}) <$> runtimes m.

Definition NodeAlive (index : Z) (m : Manager) : bool :=
  if (index <? 0) || (Z.of_nat (length (runtimes m)) <=? index) then false
  else match runtimes m !! Z.to_nat index with Some rt => alive rt | None => false end.

(** [Close] raises the flag, then, under the lock, stops every client. *)
Definition close_flag (m : Manager) : Manager := m <| closed := true |>.
Definition close_clients (m : Manager) : Manager :=
  m <| runtimes ::= fmap (λ rt, rt <| running := false |>) |>.

Definition Close (m : Manager) : Manager := if closed m then m else close_clients (close_flag m).
End spp.
End Spp.
