(* ===== verification/SppClient.v ===== *)
(** * core/sppclient: the running clients (client.go, pingtunnel.go)

    A node's client wraps a client of the SPP or of the pingtunnel library and is used
    through the interface [upstream] (manager.go): [Close] and [HasRecentTraffic].
    [lib] is what the library's client says when asked; [stops] counts how often it was
    told to stop. *)

From S2P Require Import Prelude GoStrings GoNet Spp.
Import Spp.

Module SppClient.

(** What a library client answers: recent traffic within a window, and the round-trip
    time, which pingtunnel zeroes after three silent seconds. *)
Record Lib := { l_traffic : duration → bool; l_rtt : duration }.

(** [Client] of client.go: the library's client may be nil. *)
Record Client := { sppProxy : option Lib; cClosed : bool; cStops : nat }.
#[global] Instance Client_eta : Eta Client := λ c, {| sppProxy := sppProxy c; cClosed := cClosed c; cStops := cStops c |}.

Definition Client_HasRecentTraffic (window : duration) (c : option Client) : bool :=
  match c with
  | None => false
  | Some c =>
      match sppProxy c with
      | Some p => if cClosed c then false else l_traffic p window
      | None => false
      end
  end.

Definition Client_Close (c : Client) : Client :=
  if cClosed c then c
  else
    let c := c <| cClosed := true |> in
    match sppProxy c with Some _ => c <| cStops ::= S |> | None => c end.

(** [pingTunnelClient] of pingtunnel.go. *)
Record PingClient := { pLib : Lib; pClosed : bool; pStops : nat }.
#[global] Instance PingClient_eta : Eta PingClient := λ p, {| pLib := pLib p; pClosed := pClosed p; pStops := pStops p |}.

Definition Ping_HasRecentTraffic (window : duration) (p : option PingClient) : bool :=
  match p with None => false | Some p => negb (pClosed p) && (0 <? l_rtt (pLib p)) end.

Definition Ping_Close (p : PingClient) : PingClient :=
  if pClosed p then p else p <| pClosed := true |> <| pStops ::= S |>.

(** ** The interface *)

(** [upstream], with what the manager relies on: closing twice is closing once, stops
    the library's client at most once, and a closed client has no traffic. *)
Class upstream (U : Type) := {
  up_Close : U → U;
  up_HasRecentTraffic : duration → option U → bool;
  up_stops : U → nat;
  up_closed : U → bool;
  up_close_idemp u : up_Close (up_Close u) = up_Close u;
  up_close_closed u : up_closed (up_Close u) = true;
  up_close_stops u : up_closed u = false → (up_stops (up_Close u) ≤ S (up_stops u))%nat;
  up_closed_silent w u : up_closed u = true → up_HasRecentTraffic w (Some u) = false;
  up_nil_silent w : up_HasRecentTraffic w None = false;
}.

#[export, program] Instance Client_upstream : upstream Client :=
  {| up_Close := Client_Close; up_HasRecentTraffic := Client_HasRecentTraffic; up_stops := cStops; up_closed := cClosed |}.
Next Obligation. intros [[p|] [] n]; done. Qed.
Next Obligation. intros [[p|] [] n]; done. Qed.
Next Obligation. intros [[p|] [] n] [=]; cbn; lia. Qed.
Next Obligation. intros w [[p|] [] n] [=]; done. Qed.
Next Obligation. done. Qed.

#[export, program] Instance Ping_upstream : upstream PingClient :=
  {| up_Close := Ping_Close; up_HasRecentTraffic := Ping_HasRecentTraffic; up_stops := pStops; up_closed := pClosed |}.
Next Obligation. intros [p [] n]; done. Qed.
Next Obligation. intros [p [] n]; done. Qed.
Next Obligation. intros [p [] n] [=]; cbn; lia. Qed.
Next Obligation. intros w [p [] n] [=]; done. Qed.
Next Obligation. done. Qed.

Section client.
Context {U : Type} `{upstream U}.

(** What [hasRecentTraffic] sees of a node's client: the pointer is nil once the
    client is let go, and the window has its default by then. *)
Definition look (now : time) (window : duration) (client : option U) : Look :=
  {| l_now := now; l_client := up_HasRecentTraffic (if window <=? 0 then defaultHealthCheckInterval else window) client |}.

(** Any number of closes stop the library's client at most once, and nothing is seen of
    it afterwards. *)
Lemma closes_once u n : up_closed u = false →
  let u' := Nat.iter (S n) up_Close u in
  (up_stops u' ≤ S (up_stops u))%nat ∧ ∀ now w, l_client (look now w (Some u')) = false.
Proof.
  intros Hu u'. assert (u' = up_Close u) as ->.
  { unfold u'. clear. induction n as [|n IH]; [done|]. change (up_Close (Nat.iter (S n) up_Close u) = up_Close u). rewrite IH. apply up_close_idemp. }
  split; [by apply up_close_stops|]. intros now w. apply up_closed_silent, up_close_closed.
Qed.
End client.
End SppClient.
