(* ===== verification/SppProps.v ===== *)
(** * core/sppclient: what the node manager guarantees

    Tier selection, the choice of a node, connection accounting and shutdown
    over any sequence of operations. *)

From Stdlib Require Import SpecFloat.
From S2P Require Import Prelude GoStrings GoNet Float64 Spp.
Import Spp.

Module SppProps.

(** ** Selection *)

Lemma getEffectivePriority_pos n : 0 < getEffectivePriority n.
Proof. unfold getEffectivePriority. destruct (Z.leb_spec (Priority n) 0); lia. Qed.

Definition pri (rt : nodeRuntime) : Z := getEffectivePriority (node rt).

(** The running minimum, where -1 stands for none yet. *)
Lemma min_pri_spec l acc :
  (acc = -1 ∨ 0 < acc) →
  let r := foldl min_pri acc l in
  (l = [] ∧ r = acc ∨ 0 < r) ∧ (0 < acc → r ≤ acc) ∧ Forall (λ rt, r ≤ pri rt) l ∧
  (r = acc ∨ ∃ rt, rt ∈ l ∧ r = pri rt).
Proof.
  revert acc. induction l as [|rt l IH]; intros acc Hacc; cbn zeta.
  - split_and!; [by left|cbn; lia|apply Forall_nil_2|by left].
  - cbn [foldl]. pose proof (getEffectivePriority_pos (node rt)) as Hp.
    assert (0 < min_pri acc rt ∧ (0 < acc → min_pri acc rt ≤ acc) ∧ min_pri acc rt ≤ pri rt ∧
            (min_pri acc rt = acc ∨ min_pri acc rt = pri rt)) as (H1 & H2 & H3 & H4).
    { unfold min_pri, pri. destruct (Z.eqb_spec acc (-1)), (Z.ltb_spec (getEffectivePriority (node rt)) acc); cbn; lia. }
    destruct (IH (min_pri acc rt) (or_intror H1)) as (I1 & I2 & I3 & I4). specialize (I2 H1).
    split_and!.
    + right. destruct I1 as [[_ ->]|]; lia.
    + intros. specialize (H2 H). lia.
    + apply Forall_cons. split; [lia|done].
    + destruct I4 as [->|(rt' & Hin & E)]; [|right; exists rt'; split; [by right|done]].
      destruct H4 as [H4|H4]; [by left|right; exists rt; split; [by left|done]].
Qed.

Lemma indices_spec f m i : i ∈ indices f m ↔ ∃ rt, runtimes m !! i = Some rt ∧ f rt = true.
Proof.
  unfold indices. rewrite list_elem_of_omap. split.
  - intros (j & _ & Hj). destruct (runtimes m !! j) as [rt|] eqn:E; [|done].
    destruct (f rt) eqn:Ef; [|done]. injection Hj as <-. eauto.
  - intros (rt & E & Ef). exists i. rewrite E, Ef. split; [|done].
    apply elem_of_seq. apply lookup_lt_Some in E. lia.
Qed.

Lemma length_zero {A} (l : list A) : (length l =? 0)%nat = true ↔ l = [].
Proof. rewrite Nat.eqb_eq. destruct l; split; by intros [=]. Qed.

(** The best priority among a set of runtimes. *)
Definition best_in (P : nodeRuntime → Prop) (m : Manager) (rt : nodeRuntime) : Prop :=
  P rt ∧ ∀ j rt', runtimes m !! j = Some rt' → P rt' → pri rt ≤ pri rt'.

Lemma tier_alive m :
  let t := getActivePriorityTierLocked m in
  (∃ i rt, runtimes m !! i = Some rt ∧ alive rt = true) →
  (∃ i rt, runtimes m !! i = Some rt ∧ alive rt = true ∧ pri rt = t) ∧
  ∀ j rt, runtimes m !! j = Some rt → alive rt = true → t ≤ pri rt.
Proof.
  intros t (i & rt & Hrt & Ha). unfold t, getActivePriorityTierLocked.
  set (l := filter (λ rt, alive rt = true) (runtimes m)).
  assert (rt ∈ l) as Hin by (apply list_elem_of_filter; split; [done|by eapply list_elem_of_lookup_2]).
  destruct (min_pri_spec l (-1) ltac:(by left)) as (H1 & _ & H3 & H4). cbv zeta in *.
  destruct H1 as [[E _]|Hpos]; [rewrite E in Hin; by apply elem_of_nil in Hin|].
  destruct (Z.eqb_spec (foldl min_pri (-1) l) (-1)) as [|_]; [lia|]. cbn [negb]. split.
  - destruct H4 as [|(rt' & Hin' & E)]; [lia|]. apply list_elem_of_filter in Hin' as [Ha' Hin'].
    apply list_elem_of_lookup in Hin' as [j Hj]. by exists j, rt'.
  - intros j rt' Hj Ha'. rewrite Forall_forall in H3. apply H3. apply list_elem_of_filter.
    split; [done|by eapply list_elem_of_lookup_2].
Qed.

Lemma tier_none m :
  let t := getActivePriorityTierLocked m in
  runtimes m ≠ [] → (∀ i rt, runtimes m !! i = Some rt → alive rt = false) →
  (∃ i rt, runtimes m !! i = Some rt ∧ pri rt = t) ∧
  ∀ j rt, runtimes m !! j = Some rt → t ≤ pri rt.
Proof.
  intros t Hne Hdead. unfold t, getActivePriorityTierLocked.
  assert (filter (λ rt, alive rt = true) (runtimes m) = []) as ->.
  { apply elem_of_nil_inv. intros rt [Ha Hin]%list_elem_of_filter. apply list_elem_of_lookup in Hin as [i Hi].
    by rewrite (Hdead i rt Hi) in Ha. }
  change (negb (foldl min_pri (-1) [] =? -1)) with false. cbv iota.
  destruct (min_pri_spec (runtimes m) (-1) ltac:(by left)) as (H1 & _ & H3 & H4). cbv zeta in *.
  destruct H1 as [[E _]|Hpos]; [done|]. split.
  - destruct H4 as [|(rt & Hin & E)]; [lia|]. apply list_elem_of_lookup in Hin as [i Hi]. by exists i, rt.
  - intros j rt Hj. rewrite Forall_forall in H3. apply H3. by eapply list_elem_of_lookup_2.
Qed.

Lemma candidates_spec m :
  runtimes m ≠ [] →
  getActiveTierCandidatesLocked m ≠ [] ∧
  ∀ i, i ∈ getActiveTierCandidatesLocked m ↔ ∃ rt, runtimes m !! i = Some rt ∧
    ((alive rt = true ∧ best_in (λ rt, alive rt = true) m rt) ∨
     ((∀ j rt', runtimes m !! j = Some rt' → alive rt' = false) ∧ best_in (λ _, True) m rt)).
Proof.
  intros Hne. unfold getActiveTierCandidatesLocked. cbv zeta. set (t := getActivePriorityTierLocked m).
  destruct (decide (Exists (λ rt, alive rt = true) (runtimes m))) as [Hex|Hno].
  - apply Exists_exists in Hex as (rt0 & Hin0 & Ha0). apply list_elem_of_lookup in Hin0 as [i0 Hi0].
    destruct (tier_alive m) as [(i1 & rt1 & Hi1 & Ha1 & Ht) Hle]; [by eauto|]. fold t in Ht, Hle.
    pose proof (getEffectivePriority_pos (node rt1)) as Hpos. fold (pri rt1) in Hpos.
    destruct (Z.eqb_spec t (-1)); [lia|].
    assert (i1 ∈ indices (λ rt, in_tier t rt && alive rt) m) as Hin.
    { apply indices_spec. exists rt1. split; [done|]. apply andb_true_iff. split; [by apply Z.eqb_eq|done]. }
    destruct (length (indices (λ rt, in_tier t rt && alive rt) m) =? 0)%nat eqn:El.
    { apply length_zero in El. rewrite El in Hin. by apply elem_of_nil in Hin. }
    cbn [negb]. split; [intros E; rewrite E in Hin; by apply elem_of_nil in Hin|].
    intros i. rewrite indices_spec. split.
    + intros (rt & Hi & [Htier Ha]%andb_true_iff). apply Z.eqb_eq in Htier. fold (pri rt) in Htier.
      exists rt. split; [done|]. left. split; [done|]. split; [done|]. intros j rt' Hj Haj.
      rewrite Htier. by eapply Hle.
    + intros (rt & Hi & [[Ha [_ Hbest]]|[Hdead _]]).
      * exists rt. split; [done|]. apply andb_true_iff. split; [|done]. apply Z.eqb_eq. fold (pri rt).
        pose proof (Hbest i1 rt1 Hi1 Ha1). pose proof (Hle i rt Hi Ha). lia.
      * by rewrite (Hdead i0 rt0 Hi0) in Ha0.
  - assert (∀ i rt, runtimes m !! i = Some rt → alive rt = false) as Hdead.
    { intros i rt Hi. destruct (alive rt) eqn:Ha; [|done]. destruct Hno. apply Exists_exists. exists rt.
      split; [by eapply list_elem_of_lookup_2|done]. }
    destruct (tier_none m Hne Hdead) as [(i1 & rt1 & Hi1 & Ht) Hle]. fold t in Ht, Hle.
    pose proof (getEffectivePriority_pos (node rt1)) as Hpos. fold (pri rt1) in Hpos.
    destruct (Z.eqb_spec t (-1)); [lia|].
    assert (∀ f, indices (λ rt, f rt && alive rt) m = []) as E0.
    { intros f. apply elem_of_nil_inv. intros i (rt & Hi & [_ Ha]%andb_true_iff)%indices_spec.
      by rewrite (Hdead i rt Hi) in Ha. }
    rewrite (E0 (in_tier t)). specialize (E0 (λ _, true)). cbn in E0. change (λ rt, alive rt) with alive in E0.
    rewrite E0. cbn [length Nat.eqb negb].
    assert (∀ i, i ∈ indices (in_tier t) m ↔ ∃ rt, runtimes m !! i = Some rt ∧ pri rt = t) as Hidx.
    { intros i. rewrite indices_spec. unfold in_tier. by setoid_rewrite Z.eqb_eq. }
    split; [intros E; assert (i1 ∈ indices (in_tier t) m) as Hin by (apply Hidx; eauto); rewrite E in Hin; by apply elem_of_nil in Hin|].
    intros i. rewrite Hidx. split.
    + intros (rt & Hi & Hp). exists rt. split; [done|]. right. split; [done|]. split; [done|].
      intros j rt' Hj _. rewrite Hp. by eapply Hle.
    + intros (rt & Hi & [[Ha _]|[_ [_ Hbest]]]); [by rewrite (Hdead i rt Hi) in Ha|].
      exists rt. split; [done|]. pose proof (Hbest i1 rt1 Hi1 I). pose proof (Hle i rt Hi). lia.
Qed.

(** strict priority with failover.  The candidates for new connections are
    exactly the alive nodes of the best priority that has an alive node; when no
    node is alive, they are the nodes of the best priority configured.  There is
    always a candidate. *)
Theorem candidates_by_priority m :
  runtimes m ≠ [] →
  getActiveTierCandidatesLocked m ≠ [] ∧
  ∀ i, i ∈ getActiveTierCandidatesLocked m ↔ ∃ rt, runtimes m !! i = Some rt ∧
    ((alive rt = true ∧ best_in (λ rt, alive rt = true) m rt) ∨
     ((∀ j rt', runtimes m !! j = Some rt' → alive rt' = false) ∧ best_in (λ _, True) m rt)).
Proof. apply candidates_spec. Qed.

(** ** The choice among candidates *)

Section spp.
Context `{UnicodeCase, SppLib}.

(** [c] undercuts [b] by more than the tolerance. *)
Definition undercuts (m : Manager) (c b : nat) : bool :=
  fltb (cost_of m c) (fsub (cost_of m b) (const 1 1000000)).

Lemma cost_canonical m i : Float64.canonical (cost_of m i).
Proof. unfold cost_of. destruct (runtimes m !! i); [|done]. apply Float64.div_canonical. Qed.

Lemma undercuts_lt m c b : undercuts m c b = true → fltb (cost_of m c) (cost_of m b) = true.
Proof.
  assert (∃ n g, const 1 1000000 = S754_finite false n g) as (n & g & E) by (do 2 eexists; vm_compute; reflexivity).
  unfold undercuts. rewrite E. apply Float64.ltb_sub, cost_canonical.
Qed.

(** The outcome of the loop over the candidates. *)
Definition least (m : Manager) (candidates pre : list nat) (best : nat) (post : list nat) : Prop :=
  candidates = pre ++ best :: post ∧
  Forall (λ c, fleb (cost_of m c) (cost_of m best) = false) pre ∧
  Forall (λ c, undercuts m c best = false) post ∧
  (pre ≠ [] → ∃ p, pickCandidateLocked pre m = Some p ∧ undercuts m best p = true).

Lemma pick_fold m rest b :
  ∃ pre best post,
    foldl (pick_step m) (b, cost_of m b) rest = (best, cost_of m best) ∧ least m (b :: rest) pre best post.
Proof.
  induction rest as [|c rest IH] using rev_ind.
  - exists [], b, []. split; [done|]. split_and!; [done|apply Forall_nil_2|apply Forall_nil_2|done].
  - rewrite foldl_app. destruct IH as (pre & best & post & E & El & Hpre & Hpost & Hlast). rewrite E.
    cbn [foldl]. unfold pick_step at 1. cbn [fst snd]. fold (undercuts m c best).
    destruct (undercuts m c best) eqn:Eu.
    + exists (b :: rest), c, []. split; [done|]. pose proof (undercuts_lt m c best Eu) as Hlt. split_and!.
      * by rewrite app_comm_cons.
      * rewrite El. apply Forall_app. split; [|apply Forall_cons; split; [by apply Float64.ltb_leb|]].
        -- eapply Forall_impl; [exact Hpre|]. intros x Hx. cbn in Hx. apply not_true_iff_false. intros Hle.
           by rewrite (Float64.leb_ltb_trans _ _ _ Hle Hlt : fleb _ _ = true) in Hx.
        -- eapply Forall_impl; [exact Hpost|]. intros x Hx. exact (Float64.ltb_le_dichotomy _ _ _ Eu Hx).
      * apply Forall_nil_2.
      * intros _. exists best. split; [|done]. cbn [pickCandidateLocked]. by rewrite E.
    + exists pre, best, (post ++ [c]). split; [done|]. split_and!; [|done| |done].
      * rewrite app_comm_cons, El. by rewrite <- app_assoc.
      * apply Forall_app. split; [done|by apply Forall_singleton].
Qed.

(** C30: the pick has the least cost, up to the tolerance.  The picked node is a
    candidate.  Every candidate before it costs strictly more (or its cost is not a
    number), and no candidate after it is cheaper by more than one millionth: the loop
    stays with the earlier node on near ties.  A pick that is not the first candidate
    undercuts, by more than that, the node that would have been picked among the ones
    before it. *)
Theorem pick_minimal_cost m candidates :
  candidates ≠ [] →
  ∃ pre best post, pickCandidateLocked candidates m = Some best ∧ candidates = pre ++ best :: post ∧
    Forall (λ c, fleb (cost_of m c) (cost_of m best) = false) pre ∧
    Forall (λ c, fltb (cost_of m c) (fsub (cost_of m best) (const 1 1000000)) = false) post ∧
    (pre ≠ [] → ∃ p, pickCandidateLocked pre m = Some p ∧
                     fltb (cost_of m best) (fsub (cost_of m p) (const 1 1000000)) = true).
Proof.
  destruct candidates as [|b rest]; [done|]. intros _. unfold pickCandidateLocked at 1.
  destruct (pick_fold m rest b) as (pre & best & post & E & H1 & H2 & H3 & H4). exists pre, best, post.
  by rewrite E.
Qed.

Lemma pick_in m candidates i : pickCandidateLocked candidates m = Some i → i ∈ candidates.
Proof.
  destruct candidates as [|b rest]; [done|]. unfold pickCandidateLocked.
  destruct (pick_fold m rest b) as (pre & best & post & E & El & _). rewrite E. intros [= <-]. rewrite El. set_solver.
Qed.

Lemma pick_some m c0 rest : is_Some (pickCandidateLocked (c0 :: rest) m).
Proof. by eexists. Qed.

(** ** What operations leave alone *)

Lemma upd_lookup m i f j :
  runtimes (upd i f m) !! j = if decide (i = j) then f <$> runtimes m !! j else runtimes m !! j.
Proof.
  unfold upd. cbn. case_decide as E; [subst; apply list_lookup_alter_eq|by apply list_lookup_alter_ne].
Qed.

(** [P] holds of every runtime. *)
Definition every (P : nat → nodeRuntime → Prop) (m : Manager) : Prop :=
  ∀ i rt, runtimes m !! i = Some rt → P i rt.

Lemma every_upd P i f m : (∀ rt, P i rt → P i (f rt)) → every P m → every P (upd i f m).
Proof.
  intros Hf Hm j rt. rewrite upd_lookup. case_decide as E; [subst|by apply Hm].
  intros (rt0 & Hrt & ->)%fmap_Some. apply Hf. by apply Hm.
Qed.

(** Properties kept by the operations that are not about connection counts or
    clients: those of the remaining fields may be anything. *)
Definition stable (P : nat → nodeRuntime → Prop) : Prop :=
  ∀ i rt a r o f u d, P i rt →
    P i (rt <| alive := a |> <| rttMs := r |> <| consecutiveOks := o |> <| consecutiveFails := f |>
            <| lastUploadNano := u |> <| lastDownloadNano := d |>).

Lemma stable_eq P i rt rt' :
  stable P → node rt' = node rt → localSocks5 rt' = localSocks5 rt → running rt' = running rt →
  activeConns rt' = activeConns rt → P i rt → P i rt'.
Proof.
  intros HP E1 E2 E3 E4 Hrt.
  pose proof (HP i rt (alive rt') (rttMs rt') (consecutiveOks rt') (consecutiveFails rt')
    (lastUploadNano rt') (lastDownloadNano rt') Hrt) as H'.
  destruct rt, rt'. cbn in *. by subst.
Qed.

Lemma probe_one_stable P net iv b a i rt : stable P → P i rt → P i (probe_one net iv b a rt).
Proof.
  intros HP Hrt. unfold probe_one. case_match; [by eapply (stable_eq P i rt)|].
  destruct (probeNodeWithRTT net (node rt)) as [ok rtt]. case_match; [by eapply (stable_eq P i rt)|].
  destruct ok; by eapply (stable_eq P i rt).
Qed.

Lemma probeAll_every P net looks m : stable P → every P m → every P (probeAllNodes net looks m).
Proof.
  intros HP Hm i rt. unfold probeAllNodes. cbn. rewrite list_lookup_imap.
  intros (rt0 & Hrt & ->)%fmap_Some. apply probe_one_stable; [done|by apply Hm].
Qed.

(** Clients only start, and only while the manager is open. *)
Definition startable (P : nat → nodeRuntime → Prop) : Prop := ∀ i rt, P i rt → P i (rt <| running := true |>).

Lemma ensure_closed net i m : closed (ensureClientRunningLocked net i m).1 = closed m.
Proof. unfold ensureClientRunningLocked. by repeat case_match. Qed.

Lemma ensure_every P net i m :
  (closed m = false → startable P) → every P m → every P (ensureClientRunningLocked net i m).1.
Proof.
  intros HP Hm. unfold ensureClientRunningLocked. destruct (closed m) eqn:Ec; [done|].
  repeat (case_match; try done). apply every_upd; [|done]. by apply HP.
Qed.

Lemma ensure_local net i m : mLocalSocks5 (ensureClientRunningLocked net i m).1 = mLocalSocks5 m.
Proof. unfold ensureClientRunningLocked. by repeat case_match. Qed.

Lemma ensure_all_local net l m : mLocalSocks5 (ensure_all net l m) = mLocalSocks5 m.
Proof.
  revert m. induction l as [|i l IH]; intros m; [done|]. cbn. rewrite <- (ensure_local net i m). apply IH.
Qed.

Lemma ensure_all_closed net l m : closed (ensure_all net l m) = closed m.
Proof. unfold ensure_all. revert m. induction l as [|i l IH]; intros m; [done|]. cbn. by rewrite IH, ensure_closed. Qed.

Lemma ensure_all_every P net l m :
  (closed m = false → startable P) → every P m → every P (ensure_all net l m).
Proof.
  unfold ensure_all. revert m. induction l as [|i l IH]; intros m HP Hm; [done|]. cbn. apply IH.
  - by rewrite ensure_closed.
  - by apply ensure_every.
Qed.

(** ** Histories *)

Inductive event :=
  | EvPick (net : Net)
  | EvRelease (ticket : nat)
  | EvHealth (net : Net) (looks : nat → Look * Look) (w : Wake)
  | EvTraffic (now : time) (name : string) (up down : Z)
  | EvFailure (k : Look) (name : string)
  | EvConfirm (net : Net) (before after : Look) (i : nat)
  | EvSwitch (net : Net) (index : Z)
  | EvFallback (net : Net) (exclude : Z)
  | EvCloseFlag
  | EvCloseClients.

(** The manager and the release functions handed out: the runtime each one
    counts on, and whether its [once] has fired. *)
Record World := { mgr : Manager; tickets : list (nat * bool) }.
#[global] Instance World_eta : Eta World := λ w, {| mgr := mgr w; tickets := tickets w |}.

Definition apply (w : World) (e : event) : World :=
  match e with
  | EvPick net =>
      let '(m, (_, _, rel)) := PickNode net (mgr w) in
      {| mgr := m; tickets := tickets w ++ (match rel with Some i => [(i, false)] | None => [] end) |}
  | EvRelease t =>
      match tickets w !! t with
      | Some (i, false) => {| mgr := release i (mgr w); tickets := <[t := (i, true)]> (tickets w) |}
      | _ => w
      end
  | EvHealth net looks k => w <| mgr ::= λ m, (healthLoop net looks k m).1 |>
  | EvTraffic now name up down => w <| mgr ::= RecordNodeTraffic now name up down |>
  | EvFailure k name => w <| mgr ::= λ m, (ReportNodeFailure k name m).1 |>
  | EvConfirm net before after i => w <| mgr ::= confirm_failure net before after i |>
  | EvSwitch net index => w <| mgr ::= λ m, (switchNode net index m).1 |>
  | EvFallback net exclude => w <| mgr ::= λ m, (fallbackLocked net exclude m).1 |>
  | EvCloseFlag => w <| mgr ::= close_flag |>
  | EvCloseClients => if closed (mgr w) then w <| mgr ::= close_clients |> else w
  end.

Definition run (log : list event) (w : World) : World := foldl apply w log.

Definition is_conn (e : event) : bool :=
  match e with EvPick _ | EvRelease _ | EvCloseClients => true | _ => false end.

Lemma switch_every P net index m :
  stable P → (closed m = false → startable P) → every P m → every P (switchNode net index m).1.
Proof.
  intros HP Hs Hm. pose proof (ensure_every P net (Z.to_nat index) m Hs Hm) as He.
  unfold switchNode. case_match; [done|]. case_match; [done|]. cbv zeta.
  destruct (ensureClientRunningLocked net (Z.to_nat index) m) as [m' [e|]]; cbn [fst] in *.
  - apply (every_upd P (Z.to_nat index)); [|done]. intros rt Hrt. by eapply (stable_eq P _ rt).
  - apply (every_upd P (Z.to_nat index) (λ r, r <| alive := true |>) m'); [|done].
    intros rt Hrt. by eapply (stable_eq P _ rt).
Qed.

Lemma check_every P net looks m :
  stable P → (closed m = false → startable P) → every P m → every P (checkNodes net looks m).
Proof.
  intros HP Hs Hm. unfold checkNodes. pose proof (probeAll_every P net looks m HP Hm) as Hp.
  set (m1 := probeAllNodes net looks m) in *. assert (closed m1 = closed m) as Ec by done. clearbody m1.
  destruct (closed m1) eqn:Ec1; [done|]. set (m2 := ensure_all net _ m1). assert (every P m2) as Hm2.
  { apply ensure_all_every; [intros _; apply Hs; congruence|done]. }
  unfold set_active. by case_match.
Qed.

Lemma health_every P net looks w m :
  stable P → (closed m = false → startable P) → every P m → every P (healthLoop net looks w m).1.
Proof.
  intros HP Hs Hm. destruct w; [done|by apply check_every|]. cbn. destruct (triggered m); [|done].
  by apply check_every.
Qed.

(** The operations that touch neither counts nor stop clients. *)
Lemma apply_every P w e :
  is_conn e = false → stable P → (closed (mgr w) = false → startable P) →
  every P (mgr w) → every P (mgr (apply w e)).
Proof.
  intros He HP Hs Hm. destruct e; try done; cbn.
  - by apply health_every.
  - unfold RecordNodeTraffic. case_match; [done|]. case_match; [|done]. apply every_upd; [|done].
    intros rt Hrt. cbv zeta. repeat case_match; by eapply (stable_eq P _ rt).
  - unfold ReportNodeFailure. repeat (case_match; try done); cbn [fst]; (apply every_upd; [|done]);
      intros rt Hrt; by eapply (stable_eq P _ rt).
  - unfold confirm_failure. case_match; [|done]. case_match.
    { apply every_upd; [|done]. intros rt Hrt. by eapply (stable_eq P _ rt). }
    destruct (probeNodeWithRTT _ _) as [ok rtt].
    case_match; [apply every_upd; [|done]; intros rt Hrt; by eapply (stable_eq P _ rt)|].
    destruct ok; [apply (every_upd P i); [|done]|
      apply (every_upd P i (λ r, r <| alive := false |>) (mgr w)); [|done]];
      intros rt Hrt; by eapply (stable_eq P _ rt).
  - by apply switch_every.
  - unfold fallbackLocked. case_match; [|done].
    pose proof (switch_every P net (Z.of_nat n) (mgr w) HP Hs Hm) as Hsw.
    destruct (switchNode net (Z.of_nat n) (mgr w)) as [m' [e|]]; done.
Qed.

(** ** Picking a node *)

Lemma pick_spec net m :
  closed m = false → runtimes m ≠ [] →
  ∃ i rt, i ∈ getActiveTierCandidatesLocked m ∧
    pickCandidateLocked (getActiveTierCandidatesLocked m) m = Some i ∧
    runtimes m !! i = Some rt ∧
    PickNode net m = (upd i (λ r, r <| activeConns ::= Z.add 1 |>) (ensureClientRunningLocked net i m).1,
                      (localSocks5 rt, Name (node rt), Some i)).
Proof.
  intros Hc Hne. destruct (candidates_spec m Hne) as [Hc0 Hspec]. unfold PickNode. rewrite Hc.
  destruct (getActiveTierCandidatesLocked m) as [|c0 rest] eqn:Ec; [done|].
  destruct (pick_some m c0 rest) as [i Hi]. pose proof (pick_in m _ _ Hi) as Hin.
  pose proof Hin as (rt & Hrt & _)%Hspec. exists i, rt. split_and!; [done..|]. rewrite Hi. change (default c0 (Some i)) with i. cbv zeta.
  rewrite upd_lookup, decide_True by done.
  assert (∃ rt', runtimes (ensureClientRunningLocked net i m).1 !! i = Some rt' ∧
            localSocks5 rt' = localSocks5 rt ∧ node rt' = node rt) as (rt' & -> & El & En).
  { unfold ensureClientRunningLocked. rewrite Hc, Hrt. repeat case_match; cbn [fst]; try by exists rt.
    rewrite upd_lookup, decide_True, Hrt by done. by eexists. }
  cbn. by rewrite El, En.
Qed.

(** a connection goes to the chosen candidate.  While the manager is open,
    [PickNode] hands out the address and name of the candidate the cost selects,
    with a release function for it, and raises only that node's connection count. *)
Theorem pick_node_spec net m :
  closed m = false → runtimes m ≠ [] →
  ∃ i rt, pickCandidateLocked (getActiveTierCandidatesLocked m) m = Some i ∧ runtimes m !! i = Some rt ∧
    (PickNode net m).2 = (localSocks5 rt, Name (node rt), Some i) ∧
    ∀ j, activeConns <$> runtimes (PickNode net m).1 !! j =
         (λ n, if decide (i = j) then 1 + n else n) <$> (activeConns <$> runtimes m !! j).
Proof.
  intros Hc Hne. destruct (pick_spec net m Hc Hne) as (i & rt & _ & Hi & Hrt & ->). exists i, rt.
  split_and!; [done..|]. intros j. cbn [fst]. rewrite upd_lookup.
  assert (activeConns <$> runtimes (ensureClientRunningLocked net i m).1 !! j = activeConns <$> runtimes m !! j) as <-.
  { unfold ensureClientRunningLocked. repeat (case_match; try done). cbn [fst]. rewrite upd_lookup.
    case_decide; [|done]. by destruct (runtimes m !! j). }
  by case_decide; destruct (runtimes (ensureClientRunningLocked net i m).1 !! j).
Qed.

(** ** Connection accounting *)

(** Release functions of runtime [i] not called yet. *)
Definition held (i : nat) (ts : list (nat * bool)) : Z :=
  Z.of_nat (length (filter (λ t, t = (i, false)) ts)).

Definition counted (w : World) : Prop := every (λ i rt, activeConns rt = held i (tickets w)) (mgr w).

Lemma held_app i l1 l2 : held i (l1 ++ l2) = held i l1 + held i l2.
Proof. unfold held. rewrite filter_app, length_app. lia. Qed.

Lemma held_one i j : held i [(j, false)] = if decide (j = i) then 1 else 0.
Proof.
  unfold held. rewrite filter_cons, filter_nil. case_decide as E; case_decide; try done.
  - by injection E.
  - by subst.
Qed.

Lemma held_fire i j t ts :
  ts !! t = Some (j, false) → held i (<[t := (j, true)]> ts) = held i ts - if decide (j = i) then 1 else 0.
Proof.
  intros Ht. rewrite insert_take_drop by by eapply lookup_lt_Some.
  rewrite <- (take_drop_middle ts t (j, false) Ht) at 3.
  rewrite (cons_middle (j, true)), (cons_middle (j, false)), !held_app, held_one.
  assert (held i [(j, true)] = 0) as ->; [|case_decide; lia].
  unfold held. rewrite filter_cons, filter_nil. by case_decide.
Qed.

Lemma stable_counts f : stable (λ i rt, activeConns rt = f i).
Proof. intros i rt a r o g u d Hrt. exact Hrt. Qed.
Lemma startable_counts f : startable (λ i rt, activeConns rt = f i).
Proof. intros i rt Hrt. exact Hrt. Qed.

Lemma apply_counted w e : counted w → counted (apply w e).
Proof.
  intros Hw. destruct (is_conn e) eqn:Ee.
  - destruct e; try done; cbn.
    + destruct (closed (mgr w)) eqn:Ec; [unfold PickNode; rewrite Ec; unfold counted; cbn; by rewrite app_nil_r|].
      destruct (decide (runtimes (mgr w) = [])) as [E0|Hne].
      { intros i rt Hi. exfalso. revert Hi. unfold PickNode. rewrite Ec.
        assert (getActiveTierCandidatesLocked (mgr w) = []) as ->.
        { unfold getActiveTierCandidatesLocked, getActivePriorityTierLocked. by rewrite E0. }
        cbn. by rewrite E0. }
      destruct (pick_spec net (mgr w) Ec Hne) as (i & rt & _ & _ & Hrt & ->). unfold counted. cbn [mgr tickets].
      set (m1 := (ensureClientRunningLocked net i (mgr w)).1).
      assert (every (λ i rt, activeConns rt = held i (tickets w)) m1) as Hm1.
      { apply ensure_every; [intros _; apply startable_counts|exact Hw]. }
      intros j rt'. rewrite upd_lookup, held_app, held_one. case_decide as Ej.
      * intros (rt0 & Hrt0 & ->)%fmap_Some. cbn. rewrite (Hm1 _ _ Hrt0). lia.
      * intros Hj. rewrite (Hm1 _ _ Hj). lia.
    + destruct (tickets w !! ticket) as [[i []]|] eqn:Et; [done| |done].
      intros j rt'. cbn [mgr tickets]. unfold release. rewrite upd_lookup, (held_fire _ _ _ _ Et). case_decide as Ej.
      * intros (rt0 & Hrt0 & ->)%fmap_Some. cbn. by rewrite (Hw _ _ Hrt0).
      * intros Hj. rewrite (Hw _ _ Hj). lia.
    + case_match; [|done]. intros j rt'. cbn. rewrite list_lookup_fmap.
      intros (rt0 & Hrt0 & ->)%fmap_Some. cbn. by apply Hw.
  - assert (tickets (apply w e) = tickets w) as Et by by destruct e.
    unfold counted. rewrite Et. apply apply_every; [done|apply stable_counts|intros _; apply startable_counts|exact Hw].
Qed.

Lemma run_keeps (P : World → Prop) log w : (∀ w e, P w → P (apply w e)) → P w → P (run log w).
Proof. intros Hstep. revert w. induction log as [|e log IH]; intros w Hw; [done|]. apply IH. by apply Hstep. Qed.

Lemma newManager_every P net looks nodes addr iv m :
  stable P → startable P →
  (∀ i n a, nodes !! i = Some n → P i (new_runtime n a)) →
  newManager net looks nodes addr iv = Ok m → every P m.
Proof.
  intros HP Hs Hnew. unfold newManager. destruct nodes as [|n0 nodes]; [done|]. cbv zeta.
  set (m0 := probeAllNodes net looks _).
  assert (every P m0) as Hm0.
  { apply probeAll_every; [done|]. intros i rt Hi. cbn [runtimes] in Hi.
    apply lookup_zip_with_Some in Hi as (n & a & -> & Hn & _). by apply Hnew. }
  clearbody m0. intros [= <-]. destruct (getActiveTierCandidatesLocked m0) as [|c0 rest].
  - exact (ensure_every P net 0 m0 (λ _, Hs) Hm0).
  - pose proof (ensure_all_every P net (c0 :: rest) m0 (λ _, Hs) Hm0) as Ha. by case_match.
Qed.

(** C4: connection counts are exact.  From a new manager, after any sequence of
    picks, releases (each release function any number of times), probes, traffic
    and failure reports, failovers and shutdown, each node's connection count is
    the number of release functions for it that have not been called. *)
Theorem conns_exact net looks nodes addr iv m log :
  newManager net looks nodes addr iv = Ok m →
  let w := run log {| mgr := m; tickets := [] |} in
  ∀ i rt, runtimes (mgr w) !! i = Some rt → activeConns rt = held i (tickets w) ∧ 0 ≤ activeConns rt.
Proof.
  intros Hm w i rt Hi.
  assert (counted w) as Hw.
  { apply (run_keeps counted); [apply apply_counted|].
    refine (newManager_every (λ i rt, activeConns rt = held i []) _ _ _ _ _ _ _ _ _ Hm);
      [apply stable_counts|apply startable_counts|done]. }
  rewrite (Hw i rt Hi). split; [done|]. unfold held. lia.
Qed.

(** ** Shutdown *)

Definition drained (w : World) : Prop := closed (mgr w) = true ∧ every (λ _ rt, running rt = false) (mgr w).

Lemma apply_closed w e : closed (mgr w) = true → closed (mgr (apply w e)) = true.
Proof.
  intros Hc. destruct e; cbn.
  - unfold PickNode. by rewrite Hc.
  - by repeat case_match.
  - assert (∀ m, closed m = true → closed (checkNodes net looks m) = true) as Hk by (intros m Hm; unfold checkNodes; cbn; by rewrite Hm).
    destruct w0; cbn; [done|by apply Hk|]. case_match; [by apply Hk|done].
  - unfold RecordNodeTraffic. by rewrite Hc.
  - unfold ReportNodeFailure. by rewrite Hc.
  - unfold confirm_failure. by repeat case_match.
  - unfold switchNode. by rewrite Hc.
  - unfold fallbackLocked, switchNode. rewrite Hc. by case_match.
  - done.
  - by case_match.
Qed.

Lemma apply_drained w e : drained w → drained (apply w e).
Proof.
  intros [Hc Hr]. split; [by apply apply_closed|]. destruct (is_conn e) eqn:Ee.
  - destruct e; try done; cbn.
    + unfold PickNode. by rewrite Hc.
    + case_match; [|done]. destruct p as [i []]; [done|]. apply every_upd; [intros rt Hrt; exact Hrt|done].
    + rewrite Hc. intros i rt. cbn. rewrite list_lookup_fmap. by intros (rt0 & _ & ->)%fmap_Some.
  - apply apply_every; [done| |by rewrite Hc|done]. intros i rt a r o g u d Hrt. exact Hrt.
Qed.

Lemma PickNode_local net m : mLocalSocks5 (PickNode net m).1 = mLocalSocks5 m.
Proof.
  unfold PickNode. destruct (closed m); [done|].
  destruct (getActiveTierCandidatesLocked m) as [|c cs]; [done|]. cbv zeta.
  case_match; exact (ensure_local net _ m).
Qed.

Lemma healthLoop_local net looks k m : mLocalSocks5 (healthLoop net looks k m).1 = mLocalSocks5 m.
Proof.
  assert (∀ m, mLocalSocks5 (checkNodes net looks m) = mLocalSocks5 m) as Hk.
  { intros m0. unfold checkNodes, set_active. cbv zeta. case_match; [done|].
    case_match; cbn -[ensure_all probeAllNodes]; by rewrite ensure_all_local. }
  destruct k; cbn; [done|apply Hk|]. case_match; [by rewrite Hk|done].
Qed.

(** No operation changes the address the manager was given. *)
Lemma apply_local w e : mLocalSocks5 (mgr (apply w e)) = mLocalSocks5 (mgr w).
Proof.
  assert (∀ net i m, mLocalSocks5 (switchNode net i m).1 = mLocalSocks5 m) as Hs.
  { intros net i m. unfold switchNode. case_match; [done|]. case_match; [done|]. cbv zeta.
    pose proof (ensure_local net (Z.to_nat i) m) as He. by destruct (ensureClientRunningLocked net (Z.to_nat i) m) as [m' [e'|]]. }
  destruct e; cbn.
  - rewrite <- (PickNode_local net (mgr w)). by destruct (PickNode net (mgr w)) as [m' [[addr name] rel]].
  - by repeat case_match.
  - apply healthLoop_local.
  - unfold RecordNodeTraffic. by repeat case_match.
  - unfold ReportNodeFailure. by repeat case_match.
  - unfold confirm_failure. by repeat case_match.
  - apply Hs.
  - unfold fallbackLocked. case_match; [|done]. pose proof (Hs net (Z.of_nat n) (mgr w)) as E.
    by destruct (switchNode net (Z.of_nat n) (mgr w)) as [m' [e'|]].
  - done.
  - by case_match.
Qed.

Lemma run_local log w : mLocalSocks5 (mgr (run log w)) = mLocalSocks5 (mgr w).
Proof. revert w. induction log as [|e log IH]; intros w; [done|]. unfold run. cbn [foldl]. fold (run log (apply w e)). by rewrite IH, apply_local. Qed.

(** C31: shutdown is final.  Once [Close] of an open manager has run, no sequence
    of operations, late picks and health checks included, leaves a client running.  A
    pick then hands out nothing and counts nothing, a switch and a failover refuse, and
    the health loop ends when it next looks at its stop channel.  [Socks5Addr] alone
    still answers: the address the manager was configured with, whoever listens there. *)
Theorem closed_is_final w log net :
  closed (mgr w) = false →
  let m := mgr (run log (w <| mgr ::= Close |>)) in
  (∀ i rt, runtimes m !! i = Some rt → running rt = false) ∧
  PickNode net m = (m, ("", "", None)) ∧
  (∀ index, switchNode net index m = (m, Some "spp manager is closed")) ∧
  (∀ exclude, fallbackLocked net exclude m = (m, -1)) ∧
  (∀ looks, (healthLoop net looks WStop m).2 = false) ∧
  Socks5Addr net m = (m, mLocalSocks5 (mgr w)).
Proof.
  intros Hc m. assert (drained (run log (w <| mgr ::= Close |>))) as [Hcl Hr].
  { apply (run_keeps drained); [apply apply_drained|]. unfold drained, Close. cbn. rewrite Hc. split; [done|].
    intros i rt. cbn. rewrite list_lookup_fmap. by intros (rt0 & _ & ->)%fmap_Some. }
  fold m in Hcl, Hr. assert (mLocalSocks5 m = mLocalSocks5 (mgr w)) as <-.
  { unfold m. rewrite run_local. cbn. unfold Close. by rewrite Hc. }
  assert (PickNode net m = (m, ("", "", None))) as Ep by (unfold PickNode; by rewrite Hcl).
  assert (∀ index, switchNode net index m = (m, Some "spp manager is closed")) as Es by (intros; unfold switchNode; by rewrite Hcl).
  split_and!; [exact Hr|exact Ep|exact Es| | |].
  - intros ex. unfold fallbackLocked. case_match; [by rewrite Es|done].
  - intros looks. cbn. by rewrite Hcl.
  - unfold Socks5Addr. by rewrite Ep.
Qed.

(** ** Health *)

(** what one health round decides.  A node is up after it exactly when the
    probe reached it or, being up, it showed two-way traffic before or after the
    probe; up adds a success and clears the failures, down adds a failure and
    clears the successes. *)
Theorem probe_verdict net iv before after rt :
  let rt' := probe_one net iv before after rt in
  alive rt' = (probeNodeWithRTT net (node rt)).1 ||
              (alive rt && (hasRecentTraffic before iv rt || hasRecentTraffic after iv rt)) ∧
  (if alive rt' then consecutiveOks rt' = 1 + consecutiveOks rt ∧ consecutiveFails rt' = 0
   else consecutiveOks rt' = 0 ∧ consecutiveFails rt' = 1 + consecutiveFails rt) ∧
  node rt' = node rt ∧ activeConns rt' = activeConns rt ∧ running rt' = running rt.
Proof.
  cbv zeta. unfold probe_one. destruct (probeNodeWithRTT net (node rt)) as [ok rtt]. cbn [fst].
  destruct (alive rt) eqn:Ea; cbn [andb]; [destruct (hasRecentTraffic before iv rt)|];
    destruct ok; cbn [andb negb orb]; cbn; rewrite ?Ea; try (by split_and!).
  destruct (hasRecentTraffic after iv rt); cbn; rewrite ?Ea; by split_and!.
Qed.

(** ** Local listeners *)

Lemma app_inj_l s t u : s +:+ t = s +:+ u → t = u.
Proof. induction s as [|c s IH]; [done|]. cbn. intros [= E]. auto. Qed.

(** nodes never share a local port.  The local SOCKS5 addresses the manager
    gives its nodes are pairwise different. *)
Theorem local_addrs_distinct addr n : NoDup (local_addrs addr n).
Proof.
  unfold local_addrs. destruct (match SplitHostPort addr with Some _ => _ | None => _ end) as [host base].
  apply NoDup_fmap_2_strong; [|apply NoDup_seq]. intros i j _ _ E.
  apply app_inj_l in E. injection E as E. apply Itoa_inj in E. lia.
Qed.

(** an IPv6 listen address loses its brackets.  For ["[::1]:10808"] the
    nodes' addresses are not valid host:port pairs. *)
Theorem local_addrs_ipv6 :
  local_addrs "[::1]:10808" 1 = ["::1:10808"] ∧ SplitHostPort "::1:10808" = None.
Proof. split; vm_compute; reflexivity. Qed.
End spp.

(** ** A concrete manager *)

Definition demo_node (name proto : string) (prio : Z) : Node :=
  {| Name := name; Server := name +:+ ".example:8888"; ServerProto := proto; Key := ""; Encrypt := "";
     Compress := 0; Priority := prio; Bandwidth := 0; KcpFecData := 0; KcpFecParity := 0; RdnsDomain := "";
     RdnsUpstream := ""; RdnsPsk := ""; RdnsQueryType := ""; nodeAlive := false |}.

Definition demo_lib : SppLib := {|
  DefaultConfig := {| ConnBuffer := 0; MainBuffer := 0; MainWriteChannelTimeoutMs := 0; ConnTimeout := 0;
    pKey := ""; pEncrypt := ""; pCompress := 0; KcpFecDataShards := 10; KcpFecParityShards := 3;
    pRdnsDomain := ""; pRdnsUpstream := ""; pRdnsPsk := ""; pRdnsQueryType := "" |};
  defaultRdns := {| Domain := ""; Upstream := ""; PSK := ""; QueryType := "TXT" |};
  EncMode := bool; NoEncryption := false; CHACHA20 := true; encmode_eqb := Bool.eqb;
  ParseEncryptionMode s := if String.eqb s "none" then Ok false else Ok true;
  ValidatePassword s := if String.eqb s "" then Some "empty" else None;
  DeriveAuthCode _ := 1; NewCryptoConfig _ _ := None |}.

#[local] Existing Instance demo_lib.
#[local] Instance spp_case : UnicodeCase := ascii_case.

(** Every TCP server answers in 50 ms except those named down. *)
Definition demo_net : Net := {|
  n_tcp s := if String.eqb s "down.example:8888" then None else Some (50 * millisecond);
  n_new_conn _ := true; n_dial _ _ _ := Some (50 * millisecond); n_ping _ := None;
  n_client _ := None; n_ping_client _ := None |}.

Definition quiet (_ : nat) : Look * Look := ({| l_now := 0; l_client := false |}, {| l_now := 0; l_client := false |}).

Definition demo_nodes : list Node := [demo_node "down" "tcp" 1; demo_node "a" "tcp" 2; demo_node "b" "tcp" 2].

Definition demo_manager : Manager :=
  match NewManager demo_net quiet demo_nodes "" with
  | Ok m => m
  | Err _ => {| runtimes := []; activeIndex := 0; mLocalSocks5 := ""; closed := true; healthInterval := 0; triggered := false |}
  end.

Lemma candidates_by_priority_witness : getActiveTierCandidatesLocked demo_manager = [1; 2]%nat ∧
  (1%nat ∈ getActiveTierCandidatesLocked demo_manager ↔ ∃ rt, runtimes demo_manager !! 1%nat = Some rt ∧
    ((alive rt = true ∧ best_in (λ rt, alive rt = true) demo_manager rt) ∨
     ((∀ j rt', runtimes demo_manager !! j = Some rt' → alive rt' = false) ∧ best_in (λ _, True) demo_manager rt))).
Proof. split; [vm_compute; reflexivity|]. refine (proj2 (candidates_by_priority demo_manager _) 1%nat). vm_compute. by intros [=]. Defined.

Lemma pick_minimal_cost_witness : ∃ best, pickCandidateLocked [1; 2]%nat demo_manager = Some best.
Proof. destruct (pick_minimal_cost demo_manager [1; 2]%nat) as (_ & best & _ & E & _); [by intros [=]|]. by exists best. Defined.

Lemma pick_node_spec_witness : ∃ i rt, runtimes demo_manager !! i = Some rt ∧
  (PickNode demo_net demo_manager).2 = (localSocks5 rt, Name (node rt), Some i).
Proof.
  destruct (pick_node_spec demo_net demo_manager) as (i & rt & _ & H1 & H2 & _);
    [vm_compute; reflexivity|vm_compute; by intros [=]|]. exists i, rt. exact (conj H1 H2).
Defined.

Lemma conns_exact_witness :
  let w := run [EvPick demo_net; EvPick demo_net; EvRelease 0; EvRelease 0; EvCloseFlag] {| mgr := demo_manager; tickets := [] |} in
  (activeConns <$> runtimes (mgr w)) = [0; 0; 1] ∧
  ∀ rt, runtimes (mgr w) !! 1%nat = Some rt → 0 ≤ activeConns rt.
Proof.
  split; [vm_compute; reflexivity|]. intros rt Hrt.
  refine (proj2 (conns_exact demo_net quiet demo_nodes "" defaultHealthCheckInterval demo_manager
    [EvPick demo_net; EvPick demo_net; EvRelease 0; EvRelease 0; EvCloseFlag] _ 1%nat rt Hrt)).
  vm_compute. reflexivity.
Defined.

Lemma closed_is_final_witness :
  let w := {| mgr := demo_manager; tickets := [] |} in
  existsb running (runtimes (mgr w)) = true ∧
  let m := mgr (run [EvPick demo_net; EvHealth demo_net quiet WTick] (w <| mgr ::= Close |>)) in
  PickNode demo_net m = (m, ("", "", None)).
Proof.
  split; [vm_compute; reflexivity|].
  refine (proj1 (proj2 (closed_is_final {| mgr := demo_manager; tickets := [] |}
    [EvPick demo_net; EvHealth demo_net quiet WTick] demo_net _))). vm_compute. reflexivity.
Defined.

(** the least robust protocol is not the most expensive.  With the same round
    trip, load and bandwidth an rhttp node (robustness 10, the lowest) costs less
    than a tcp node (50): its weight is exactly one tenth, which the cost replaces
    by seven tenths. *)
Theorem rhttp_undercuts_tcp :
  let rt proto := (new_runtime (demo_node "n" proto 1) "127.0.0.1:1") <| rttMs := 50 |> in
  protoRobustnessBase "rhttp" < protoRobustnessBase "tcp" ∧
  fltb (calcCost (rt "rhttp")) (calcCost (rt "tcp")) = true.
Proof. split; [done|vm_compute; reflexivity]. Qed.
End SppProps.
