(* ===== verification/Http.v ===== *)
(** * core/proxy: addresses and the HTTP request head (addr.go, http.go)

    Everything between the bytes a client sends and the decision what to dial
    and what to forward.  A connection's input is the string of bytes it will
    deliver; when they are used up, a read fails. *)

From S2P Require Import Prelude GoStrings GoNet Base64.
Import Base64.

Module Addr.

(** [[host]] without its brackets. *)
Definition strip_brackets (host : string) : string :=
  match host with
  | String "[" rest =>
      match slast rest with
      | Some "]"%char => stake (String.length rest - 1) rest
      | _ => host
      end
  | _ => host
  end.

Definition canonicalHost (host : string) : string :=
  let host := strip_brackets (TrimSpace host) in
  let ip := ParseIP host in
  if is_nil ip then host
  else let v4 := To4 ip in if is_nil v4 then ip_string ip else ip_string v4.

Definition isIPv6Literal (host : string) : bool :=
  let ip := ParseIP (strip_brackets (TrimSpace host)) in
  negb (is_nil ip) && is_nil (To4 ip).

Definition joinDialAddr (host : string) (port : Z) : string := JoinHostPort (canonicalHost host) (Itoa port).

(** [addr.String()] of a possibly nil address. *)
Definition addrString (a : option string) : string := default "" a.

(** The family of the socket [listenUDPFor] opens. *)
Definition listenUDPFor (host : string) : string :=
  let ip := ParseIP (canonicalHost host) in
  if negb (is_nil ip) && is_nil (To4 ip) then "udp6" else "udp".

Definition addrIP (addr : option string) : IP :=
  match addr with
  | None => nilIP
  | Some a => match SplitHostPort a with Some (host, _) => ParseIP host | None => ParseIP a end
  end.

(** [listenClientUDPRelay]: network and reply host for a client whose
    connection has these two ends. *)
Definition relay_family (local remote : IP) : string * string :=
  let ipv6 := negb (is_nil remote) && is_nil (To4 remote) in
  let ipv6 := if is_nil remote && negb (is_nil local) && is_nil (To4 local) then true else ipv6 in
  let network := if ipv6 then "udp6" else "udp4" in
  let replyIP :=
    if ipv6 then
      if negb (is_nil local) && is_nil (To4 local) && negb (IsUnspecified local) then ip_string local else "::1"
    else if negb (is_nil local) then
      let v4 := To4 local in if negb (is_nil v4) && negb (IsUnspecified v4) then ip_string v4 else "127.0.0.1"
    else "127.0.0.1" in
  (network, replyIP).

(** The relay's network and the address told to the client; [port] is the one
    the system assigned. *)
Definition listenClientUDPRelay (local remote : option string) (port : Z) : string * string :=
  let '(network, replyIP) := relay_family (addrIP local) (addrIP remote) in
  (network, JoinHostPort replyIP (Itoa port)).

Record UDPAddr := { uIP : IP; uPort : Z }.

Definition sameUDPAddr (a b : option UDPAddr) : bool :=
  match a, b with
  | Some a, Some b => (uPort a =? uPort b) && ip_equal (uIP a) (uIP b)
  | None, None => true
  | _, _ => false
  end.

(** ** The direct UDP sessions of an association

    A session is its socket, a number unique in the registry, and the endpoint
    the name resolved to. *)

Definition maxDirectUDPSessions : Z := 256.

Record directUDPSession := { conn : nat; addr : UDPAddr }.
Record directUDPRegistry := { sessions : gmap string directUDPSession; opened : nat; closedSocks : gset nat }.
#[global] Instance directUDPRegistry_eta : Eta directUDPRegistry := λ r,
  {| sessions := sessions r; opened := opened r; closedSocks := closedSocks r |}.

Definition newDirectUDPRegistry : directUDPRegistry := {| sessions := ∅; opened := 0; closedSocks := ∅ |}.

(** [resolve] and [listen] are the outcomes of name resolution and of opening
    the socket, on the address resolved to. *)
Definition get (resolve : string → result string UDPAddr) (listen : string → option string)
    (targetAddr : string) (r : directUDPRegistry) :
    directUDPRegistry * result string (directUDPSession * bool) :=
  match sessions r !! targetAddr with
  | Some s => (r, Ok (s, false))
  | None =>
      if maxDirectUDPSessions <=? Z.of_nat (size (sessions r)) then (r, Err "too many direct UDP sessions (256 cap)")
      else match resolve targetAddr with
           | Err e => (r, Err e)
           | Ok a =>
               match listen (listenUDPFor (ip_string (uIP a))) with
               | Some e => (r, Err e)
               | None =>
                   let sess := {| conn := opened r; addr := a |} in
                   (r <| sessions ::= <[targetAddr := sess]> |> <| opened ::= S |>, Ok (sess, true))
               end
           end
  end.

Definition closeAll (r : directUDPRegistry) : directUDPRegistry :=
  r <| closedSocks ::= union (list_to_set (conn <$> (map_to_list (sessions r)).*2)) |> <| sessions := ∅ |>.
End Addr.

Module Http.
Import Addr.

(** ** Reading lines under a budget *)

Definition maxHTTPHeaderBytes : Z := 2 ^ 20.

(** The size of [bufio]'s buffer. *)
Definition bufSize : nat := 4096.

Inductive slice_end := Line | Full | Failed.

Definition lf : ascii := byte_of 10.

(** [br.ReadSlice('\n')]: a line, a full buffer without one, or what was left
    before the read error. *)
Definition ReadSlice (s : string) : string * slice_end * string :=
  match IndexByte (stake bufSize s) lf with
  | Some i => (stake (S i) s, Line, sdrop (S i) s)
  | None =>
      if (bufSize <=? String.length s)%nat then (stake bufSize s, Full, sdrop bufSize s)
      else (s, Failed, "")
  end.

Inductive read_error := TooLarge | ReadFailed.

(** The line, the budget left and the input left. *)
Fixpoint read_line (fuel : nat) (s : string) (remaining : Z) (line : string) :
    option (result read_error (string * Z * string)) :=
  match fuel with
  | O => None
  | S fuel =>
      let '(chunk, e, rest) := ReadSlice s in
      let n := Z.of_nat (String.length chunk) in
      if remaining <? n then Some (Err TooLarge)
      else
        let line := line +:+ chunk in
        match e with
        | Line => Some (Ok (line, remaining - n, rest))
        | Failed => Some (Err ReadFailed)
        | Full => read_line fuel rest (remaining - n) line
        end
  end.

Definition readLimitedLine (s : string) (remaining : Z) : result read_error (string * Z * string) :=
  default (Err ReadFailed) (read_line (S (String.length s)) s remaining "").

(** ** Checks *)

Definition isPrintableASCII (s : string) : bool := sforallb (in_range 32 126) s.

Definition containsControl (s : string) : bool :=
  sexistsb (λ c, ((byte_val c <? 32) && negb (byte_val c =? 9)) || (byte_val c =? 127)) s.

Definition parseTargetPort (p : string) : option Z :=
  match Atoi p with
  | Some port => if (port <? 1) || (65535 <? port) then None else Some port
  | None => None
  end.

Record HTTPConfig := { ListenAddr : string; Username : string; Password : string; EnableIPv6 : bool }.

Definition crlf : string := String (byte_of 13) (String (byte_of 10) "").

Definition http400 : string := "HTTP/1.1 400 Bad Request" +:+ crlf +:+ "Content-Length: 0" +:+ crlf +:+ crlf.
Definition dquote : string := String (byte_of 34) "".
Definition http407 : string :=
  "HTTP/1.1 407 Proxy Authentication Required" +:+ crlf +:+
  "Proxy-Authenticate: Basic realm=" +:+ dquote +:+ "YellowSocks" +:+ dquote +:+ crlf +:+
  "Content-Length: 0" +:+ crlf +:+ crlf.
Definition http502 : string := "HTTP/1.1 502 Bad Gateway" +:+ crlf +:+ "Content-Length: 0" +:+ crlf +:+ crlf.
Definition http200 : string := "HTTP/1.1 200 Connection Established" +:+ crlf +:+ crlf.

Section http.
Context `{UnicodeCase} (cfg : HTTPConfig).

Definition checkAuth (authHeader : string) : bool :=
  if String.eqb (Username cfg) "" && String.eqb (Password cfg) "" then true
  else if String.eqb authHeader "" then false
  else
    let prefix := "Basic " in
    let n := String.length prefix in
    if (String.length authHeader <? n)%nat || negb (EqualFold (stake n authHeader) prefix) then false
    else match DecodeString false true (TrimSpace (sdrop n authHeader)) with
         | None => false
         | Some decoded => String.eqb decoded (Username cfg +:+ ":" +:+ Password cfg)
         end.

Definition http_scheme : string := "http://".

(** Host and port; an empty host or port 0 is a bad target. *)
Definition parseTarget (method rawURI hostHeader : string) : string * Z :=
  if String.eqb method "CONNECT" then
    match SplitHostPort rawURI with
    | Some (h, p) => match parseTargetPort p with Some port => (h, port) | None => ("", 0) end
    | None => (rawURI, 443)
    end
  else
    let host :=
      if HasPrefix rawURI http_scheme then
        let uriTrimmed := TrimPrefix rawURI http_scheme in
        match IndexByte uriTrimmed "/" with
        | Some (S i) => stake (S i) uriTrimmed
        | _ => uriTrimmed
        end
      else hostHeader in
    match SplitHostPort host with
    | Some (h, p) => match parseTargetPort p with
                     | Some port => (canonicalHost h, port)
                     | None => ("", 0)
                     end
    | None => (canonicalHost host, 80)
    end.

(** ** The head *)

(** What the header loop has collected. *)
Record Headers := { rawHeaders : list string; hostHeader : string; hostSeen : bool; proxyAuthHeader : string }.
#[global] Instance Headers_eta : Eta Headers := λ h,
  {| rawHeaders := rawHeaders h; hostHeader := hostHeader h; hostSeen := hostSeen h; proxyAuthHeader := proxyAuthHeader h |}.
Definition noHeaders : Headers := {| rawHeaders := []; hostHeader := ""; hostSeen := false; proxyAuthHeader := "" |}.

(** One header line, already trimmed and free of control bytes. *)
Definition header_line (trimmed : string) (h : Headers) : Headers :=
  let keep h := h <| rawHeaders ::= λ l, l ++ [trimmed +:+ crlf] |> in
  match IndexByte trimmed ":" with
  | Some (S i) =>
      let k := TrimSpace (stake (S i) trimmed) in
      let v := TrimSpace (sdrop (S (S i)) trimmed) in
      if EqualFold k "Proxy-Authorization" then h <| proxyAuthHeader := v |>
      else if EqualFold k "Proxy-Connection" then h <| rawHeaders ::= λ l, l ++ ["Connection: " +:+ v +:+ crlf] |>
      else if EqualFold k "Host" then keep (h <| hostHeader := v |> <| hostSeen := true |>)
      else keep h
  | _ => keep h
  end.

(** A response sent before the connection is closed; [None] closes it without
    one. *)
Definition refusal : Type := option string.

Definition refuse_read (e : read_error) : refusal := match e with TooLarge => Some http400 | ReadFailed => None end.

Fixpoint read_headers (fuel : nat) (s : string) (budget : Z) (h : Headers) : result refusal (Headers * string) :=
  match fuel with
  | O => Err None
  | S fuel =>
      match readLimitedLine s budget with
      | Err e => Err (refuse_read e)
      | Ok (headerLine, budget, s) =>
          let trimmed := TrimRight is_crlf headerLine in
          if String.eqb trimmed "" then Ok (h, s)
          else if containsControl trimmed then Err (Some http400)
          else read_headers fuel s budget (header_line trimmed h)
      end
  end.

(** The three tokens of the request line. *)
Definition request_line (line : string) : option (string * string * string) :=
  match Split line " " with
  | [m; u; v] =>
      if String.eqb m "" || String.eqb u "" || String.eqb v "" || negb (isPrintableASCII line) ||
         negb (HasPrefix v "HTTP/")
      then None else Some (m, u, v)
  | _ => None
  end.

Record Request := {
  method : string; rawURI : string; protoVer : string; headers : Headers;
  targetHost : string; targetPort : Z; unread : string;
}.

(** [handleClient] up to the dispatch on the method: the refusal, or the
    request and the input that follows its head. *)
Definition handleClient (input : string) : result refusal Request :=
  match readLimitedLine input maxHTTPHeaderBytes with
  | Err e => Err (refuse_read e)
  | Ok (reqLine, budget, s) =>
      match request_line (TrimRight is_crlf reqLine) with
      | None => Err (Some http400)
      | Some (m, uri, ver) =>
          let m := ToUpper m in
          match read_headers (S (String.length s)) s budget noHeaders with
          | Err e => Err e
          | Ok (h, s) =>
              if negb (checkAuth (proxyAuthHeader h)) then Err (Some http407)
              else
                let '(th, tp) := parseTarget m uri (hostHeader h) in
                if String.eqb th "" || (tp <=? 0) then Err (Some http400)
                else Ok {| method := m; rawURI := uri; protoVer := ver; headers := h;
                           targetHost := th; targetPort := tp; unread := s |}
          end
      end
  end.

(** ** The forwarded head *)

Definition relPath (rawURI : string) : string :=
  if HasPrefix rawURI http_scheme then
    let trimmed := TrimPrefix rawURI http_scheme in
    match IndexByte trimmed "/" with Some i => sdrop i trimmed | None => "/" end
  else rawURI.

(** The lines [handleStandardHTTP] writes, without their line ends. *)
Definition synthetic_host (host : string) (port : Z) : string :=
  if negb (port =? 80) then JoinHostPort host (Itoa port) else host.

Definition reqBuf (r : Request) : string :=
  let host := canonicalHost (targetHost r) in
  method r +:+ " " +:+ relPath (rawURI r) +:+ " " +:+ protoVer r +:+ crlf +:+
  (if hostSeen (headers r) then "" else "Host: " +:+ synthetic_host host (targetPort r) +:+ crlf) +:+
  foldr String.append "" (rawHeaders (headers r)) +:+ crlf.
End http.
End Http.
