(* ===== verification/HttpProps.v ===== *)
(** * core/proxy: what the HTTP head parser and the UDP registry guarantee *)

From S2P Require Import Prelude GoStrings GoNet Base64 Http.
Import Base64 Addr Http.

Module HttpProps.

(** ** Lines under a budget *)

Lemma IndexByte_stake n s c :
  IndexByte (stake n s) c =
  match IndexByte s c with Some i => if (i <? n)%nat then Some i else None | None => None end.
Proof.
  revert s. induction n as [|n IH]; intros [|d s]; try done; cbn [stake IndexByte].
  - destruct (Ascii.eqb d c); [done|]. by destruct (IndexByte s c).
  - destruct (Ascii.eqb d c); [done|]. rewrite IH. destruct (IndexByte s c) as [i|]; [|done].
    cbn [fmap option_fmap option_map].
    destruct (Nat.ltb_spec i n), (Nat.ltb_spec (S i) (S n)); try lia; done.
Qed.

Lemma IndexByte_sdrop n s c i :
  IndexByte (stake n s) c = None → IndexByte (sdrop n s) c = Some i → IndexByte s c = Some (n + i)%nat.
Proof.
  revert s. induction n as [|n IH]; intros [|d s]; try done; cbn [stake sdrop IndexByte].
  destruct (Ascii.eqb d c); [done|]. intros H1 H2. destruct (IndexByte (stake n s) c) eqn:E; [done|].
  by rewrite (IH s E H2).
Qed.

Lemma IndexByte_sdrop_None n s c :
  IndexByte (stake n s) c = None → IndexByte (sdrop n s) c = None → IndexByte s c = None.
Proof.
  revert s. induction n as [|n IH]; intros [|d s]; try done; cbn [stake sdrop IndexByte].
  destruct (Ascii.eqb d c); [done|]. intros H1 H2. destruct (IndexByte (stake n s) c) eqn:E; [done|].
  by rewrite (IH s E H2).
Qed.

Lemma IndexByte_lt s c i : IndexByte s c = Some i → (i < String.length s)%nat.
Proof. intros E. by destruct (IndexByte_Some _ _ _ E) as (_ & _ & ?). Qed.

Lemma stake_add n m s : stake (n + m) s = stake n s +:+ stake m (sdrop n s).
Proof. revert s. induction n as [|n IH]; intros [|c s]; cbn; [done..|by destruct m|by rewrite IH]. Qed.

(** The whole line at once. *)
Definition take_line (s : string) (remaining : Z) : result read_error (string * Z * string) :=
  match IndexByte s lf with
  | Some i =>
      if remaining <? Z.of_nat (S i) then Err TooLarge
      else Ok (stake (S i) s, remaining - Z.of_nat (S i), sdrop (S i) s)
  | None => if remaining <? Z.of_nat (String.length s) then Err TooLarge else Err ReadFailed
  end.

Lemma bufSize_pos : (0 < bufSize)%nat.
Proof. by apply Nat.ltb_lt. Qed.

#[local] Opaque bufSize.

Lemma read_line_spec fuel s remaining line :
  (String.length s < fuel)%nat →
  read_line fuel s remaining line =
  Some match take_line s remaining with
       | Ok (l, r, rest) => Ok (line +:+ l, r, rest)
       | Err e => Err e
       end.
Proof.
  revert s remaining line. induction fuel as [|fuel IH]; intros s remaining line Hf; [lia|].
  cbn [read_line]. unfold ReadSlice. rewrite IndexByte_stake. unfold take_line at 1.
  destruct (IndexByte s lf) as [i|] eqn:E; [destruct (Nat.ltb_spec i bufSize) as [Hi|Hi]|].
  - pose proof (IndexByte_lt _ _ _ E). rewrite slen_stake, Nat.min_l by lia.
    by destruct (remaining <? Z.of_nat (S i)).
  - pose proof (IndexByte_lt _ _ _ E). destruct (Nat.leb_spec bufSize (String.length s)); [|lia].
    rewrite slen_stake, Nat.min_l by lia. destruct (Z.ltb_spec remaining (Z.of_nat bufSize)).
    { destruct (Z.ltb_spec remaining (Z.of_nat (S i))); [done|lia]. }
    pose proof bufSize_pos.
    rewrite IH by (rewrite slen_sdrop; lia). unfold take_line.
    assert (IndexByte (stake bufSize s) lf = None) as Hnone.
    { rewrite IndexByte_stake, E. by destruct (Nat.ltb_spec i bufSize); [lia|]. }
    destruct (IndexByte (sdrop bufSize s) lf) as [j|] eqn:Ej.
    2:{ by rewrite (IndexByte_sdrop_None _ _ _ Hnone Ej) in E. }
    pose proof (IndexByte_sdrop _ _ _ _ Hnone Ej) as E'. rewrite E in E'. injection E' as ->.
    destruct (Z.ltb_spec (remaining - Z.of_nat bufSize) (Z.of_nat (S j)));
      destruct (Z.ltb_spec remaining (Z.of_nat (S (bufSize + j)))); try lia; [done|].
    replace (S (bufSize + j)) with (bufSize + S j)%nat by lia.
    rewrite stake_add, sapp_assoc. rewrite sdrop_sdrop.
    by replace (remaining - Z.of_nat (bufSize + S j)) with (remaining - Z.of_nat bufSize - Z.of_nat (S j)) by lia.
  - destruct (Nat.leb_spec bufSize (String.length s)).
    + rewrite slen_stake, Nat.min_l by lia. destruct (Z.ltb_spec remaining (Z.of_nat bufSize)).
      { destruct (Z.ltb_spec remaining (Z.of_nat (String.length s))); [done|lia]. }
      pose proof bufSize_pos.
      rewrite IH by (rewrite slen_sdrop; lia). unfold take_line.
      destruct (IndexByte (sdrop bufSize s) lf) as [j|] eqn:Ej.
      { assert (IndexByte (stake bufSize s) lf = None) as Hnone by (by rewrite IndexByte_stake, E).
        by rewrite (IndexByte_sdrop _ _ _ _ Hnone Ej) in E. }
      rewrite slen_sdrop.
      destruct (Z.ltb_spec (remaining - Z.of_nat bufSize) (Z.of_nat (String.length s - bufSize)));
        destruct (Z.ltb_spec remaining (Z.of_nat (String.length s))); try lia; done.
    + by destruct (remaining <? Z.of_nat (String.length s)).
Qed.

Lemma readLimitedLine_take s remaining : readLimitedLine s remaining = take_line s remaining.
Proof.
  unfold readLimitedLine. rewrite read_line_spec by lia. cbn [default].
  by destruct (take_line s remaining) as [[[l r] rest]|e].
Qed.

(** C39: the chunked reader reads lines.  However the line falls across buffer
    boundaries, [readLimitedLine] returns the input up to and with the first line
    feed, charges exactly its length to the budget, and refuses a line that
    exceeds the budget; it never takes more than the budget allows. *)
Theorem readLimitedLine_spec s remaining :
  readLimitedLine s remaining =
  match IndexByte s lf with
  | Some i =>
      if remaining <? Z.of_nat (S i) then Err TooLarge
      else Ok (stake (S i) s, remaining - Z.of_nat (S i), sdrop (S i) s)
  | None => if remaining <? Z.of_nat (String.length s) then Err TooLarge else Err ReadFailed
  end.
Proof. apply readLimitedLine_take. Qed.

(** ** The forwarded head *)

Lemma sforallb_trim_left f fuel s : sforallb f s = true → sforallb f (trim_space_left fuel s) = true.
Proof.
  revert s. induction fuel as [|fuel IH]; intros s Hs; [done|]. cbn. destruct (space_len s); [done|].
  by apply IH, (sforallb_sdrop _ (S n)).
Qed.

Lemma sforallb_trim_right f s : sforallb f s = true → sforallb f (trim_space_right s) = true.
Proof.
  induction s as [|c s IH]; cbn [trim_space_right]; intros Hs; [by case_match|]. case_match; [done|].
  cbn in *. apply andb_true_iff in Hs as [-> Hs]. by apply IH.
Qed.

Lemma sforallb_TrimSpace f s : sforallb f s = true → sforallb f (TrimSpace s) = true.
Proof. intros. by apply sforallb_trim_right, sforallb_trim_left. Qed.

Lemma sforallb_TrimRight f cut s : sforallb f s = true → sforallb f (TrimRight cut s) = true.
Proof.
  induction s as [|c s IH]; [done|]. cbn. intros [Hc Hs]%andb_true_iff. case_match; [done|].
  cbn. by rewrite Hc, IH.
Qed.

Lemma sforallb_Split f s c : sforallb f s = true → Forall (λ p, sforallb f p = true) (Split s c).
Proof.
  induction s as [|d s IH]; cbn; [intros; by apply Forall_singleton|].
  intros [Hd Hs]%andb_true_iff. specialize (IH Hs). destruct (Ascii.eqb d c); [by apply Forall_cons|].
  destruct (Split s c) as [|p ps]; [apply Forall_singleton; cbn; by rewrite Hd|].
  apply Forall_cons in IH as [Hp Hps]. apply Forall_cons. split; [cbn; by rewrite Hd|done].
Qed.

Lemma no_byte_Split s c : Forall (λ p, no_byte c p = true) (Split s c).
Proof.
  unfold no_byte. induction s as [|d s IH]; cbn; [by apply Forall_singleton|].
  destruct (Ascii.eqb d c) eqn:E; [by apply Forall_cons|].
  destruct (Split s c) as [|p ps]; [apply Forall_singleton; cbn; by rewrite E|].
  apply Forall_cons in IH as [Hp Hps]. apply Forall_cons. split; [cbn; by rewrite E|done].
Qed.

(** One line of text: no carriage return and no line feed. *)
Definition one_line (s : string) : bool := sforallb (λ c, negb (is_crlf c)) s.

(** A token of the request line: visible ASCII. *)
Definition visible (s : string) : bool := sforallb (in_range 33 126) s.

Lemma no_control_one_line s : containsControl s = false → one_line s = true.
Proof.
  unfold containsControl, sexistsb. rewrite negb_false_iff. apply sforallb_impl. intros c Hc.
  apply negb_true_iff in Hc. apply orb_false_iff in Hc as [Hc _]. apply negb_true_iff. unfold is_crlf.
  destruct (Z.eqb_spec (byte_val c) 13) as [E|]; [by rewrite E in Hc|].
  destruct (Z.eqb_spec (byte_val c) 10) as [E|]; [by rewrite E in Hc|]. done.
Qed.

Lemma printable_visible s : isPrintableASCII s = true → no_byte " " s = true → visible s = true.
Proof.
  unfold isPrintableASCII, no_byte, visible. induction s as [|c s IH]; [done|]. cbn.
  intros [Hc Hs]%andb_true_iff [Hn Hns]%andb_true_iff. rewrite IH by done. rewrite andb_true_r.
  apply in_range_spec in Hc. apply in_range_spec.
  assert (byte_val c ≠ 32); [|lia]. intros E. assert (c = " "%char) as -> by (by apply byte_val_inj). done.
Qed.

Definition is_visible : ascii → bool := in_range 33 126.

Lemma visible_app s t : visible (s +:+ t) = visible s && visible t.
Proof. apply sforallb_app. Qed.

Lemma visible_one_line s : visible s = true → one_line s = true.
Proof.
  apply sforallb_impl. intros c Hc%in_range_spec. unfold is_crlf.
  destruct (Z.eqb_spec (byte_val c) 13), (Z.eqb_spec (byte_val c) 10); try lia; done.
Qed.

Lemma digits_visible s : sforallb is_digit s = true → visible s = true.
Proof. apply sforallb_impl. intros c Hc%in_range_spec. apply in_range_spec. lia. Qed.

Lemma Itoa_visible n : visible (Itoa n) = true.
Proof.
  unfold Itoa. destruct (Z.ltb_spec n 0); cbn; apply digits_visible, show_uint_digits; lia.
Qed.

Lemma hex_char_visible n : is_visible (hex_char (n `mod` 16)) = true.
Proof.
  pose proof (hex_char_hex (n `mod` 16) (Z.mod_pos_bound n 16 ltac:(lia))) as Hh. unfold is_hex in Hh.
  apply orb_true_iff in Hh as [Hh|Hh]; apply in_range_spec in Hh; apply in_range_spec; lia.
Qed.

Lemma hex_digits_visible fuel n acc : visible acc = true → visible (hex_digits fuel n acc) = true.
Proof.
  revert n acc. induction fuel as [|fuel IH]; intros n acc Ha; [done|]. cbn [hex_digits].
  assert (visible (String (hex_char (n `mod` 16)) acc) = true) as Hs.
  { unfold visible. cbn [sforallb]. by rewrite hex_char_visible. }
  destruct (n <? 16); [done|by apply IH].
Qed.

Lemma v6_print_visible fuel ip zs zl i : visible (v6_print fuel ip zs zl i) = true.
Proof.
  revert i. induction fuel as [|fuel IH]; intros i; [done|]. cbn [v6_print].
  destruct (Nat.leb 8 i); [done|]. destruct (Nat.eqb i zs && Nat.ltb 0 zl).
  - cbv zeta. destruct (Nat.leb 8 (zs + zl)); [done|]. by rewrite !visible_app, hex_digits_visible, IH.
  - rewrite !visible_app, hex_digits_visible, IH by done. by destruct (Nat.ltb 0 i).
Qed.

Lemma concat_visible sep l : visible sep = true → Forall (λ s, visible s = true) l → visible (String.concat sep l) = true.
Proof.
  intros Hsep. induction 1 as [|x l Hx Hl IH]; [done|]. cbn [String.concat]. destruct l; [done|].
  by rewrite !visible_app, Hx, Hsep, IH.
Qed.

(** A printed address is visible text. *)
Lemma ip_string_visible s : ParseIP s ≠ nilIP →
  visible (ip_string (ParseIP s)) = true ∧ visible (ip_string (To4 (ParseIP s))) = true.
Proof.
  intros Hs. apply ParseIP_length in Hs. unfold ip_string. rewrite To4_idemp.
  assert (visible (v4_string (To4 (ParseIP s))) = true) as H4.
  { unfold v4_string. apply concat_visible; [done|]. apply Forall_fmap, Forall_true. apply Itoa_visible. }
  assert (visible (v6_string (ParseIP s)) = true) as H6 by (unfold v6_string; destruct (longest_run _); apply v6_print_visible).
  split; [|by destruct (is_nil (To4 _))].
  destruct (is_nil (ParseIP s)); [done|]. destruct (is_nil (To4 _)); cbn [negb]; [|done]. by rewrite Hs.
Qed.

Lemma canonicalHost_visible s : visible s = true → visible (canonicalHost s) = true.
Proof.
  intros Hs. unfold canonicalHost. cbv zeta.
  assert (visible (strip_brackets (TrimSpace s)) = true) as Ht.
  { assert (visible (TrimSpace s) = true) as Ht by by apply sforallb_TrimSpace. unfold strip_brackets.
    destruct (TrimSpace s) as [|c rest]; [done|]. unfold visible in *. cbn [sforallb] in Ht.
    apply andb_true_iff in Ht as [Hc Hr]. repeat case_match; try (by cbn [sforallb]; rewrite ?Hc, ?Hr).
    by apply sforallb_stake. }
  set (h := strip_brackets (TrimSpace s)) in *. destruct (is_nil (ParseIP h)) eqn:E; [done|].
  destruct (ip_string_visible h) as [H1 H2]; [by intros E'; rewrite E' in E|]. by case_match.
Qed.

Lemma SplitHostPort_visible s h p : SplitHostPort s = Some (h, p) → visible s = true → visible h = true.
Proof.
  unfold SplitHostPort, visible. intros E Hs. destruct (LastIndexByte s ":") as [i|]; [|done].
  assert (∀ n, sforallb is_visible (stake n s) = true) as Ht by (intros; by apply sforallb_stake).
  cbv zeta in E. destruct (HasPrefix s "[").
  - destruct (IndexByte s "]") as [e|]; [|done]. destruct (Nat.eqb (S e) i); [|done].
    destruct (no_byte _ _ && no_byte _ _); [|done]. injection E as <- _. apply (sforallb_sdrop _ 1 (stake e s)), Ht.
  - destruct (no_byte ":" (stake i s)); [|done]. destruct (no_byte _ _ && no_byte _ _); [|done]. injection E as <- _. apply Ht.
Qed.

(** The host of a request without a Host line comes from its target. *)
Lemma parseTarget_visible m u th tp :
  visible u = true → parseTarget m u "" = (th, tp) → th = "" ∨ visible th = true.
Proof.
  intros Hu. unfold parseTarget. destruct (String.eqb m "CONNECT").
  - destruct (SplitHostPort u) as [[h p]|] eqn:E; [|intros [= <- _]; by right]. apply SplitHostPort_visible in E; [|done].
    case_match; intros [= <- _]; auto.
  - cbv zeta. set (host := if HasPrefix u http_scheme then _ else _).
    assert (visible host = true) as Hh.
    { unfold host. destruct (HasPrefix u http_scheme) eqn:Ep; [|done]. unfold TrimPrefix, CutPrefix. rewrite Ep. cbn [default].
      repeat case_match; first [by apply sforallb_stake, sforallb_sdrop|by apply sforallb_sdrop]. }
    destruct (SplitHostPort host) as [[h p]|] eqn:E; [apply SplitHostPort_visible in E; [|done]; case_match|];
      intros [= <- _]; auto using canonicalHost_visible.
Qed.

Lemma JoinHostPort_visible h p : visible h = true → visible p = true → visible (JoinHostPort h p) = true.
Proof. intros Hh Hp. unfold JoinHostPort. case_match; by rewrite !visible_app, Hh, Hp. Qed.

Lemma Split_joined s c : Split s c ≠ [] ∧ s = String.concat (String c "") (Split s c).
Proof.
  induction s as [|d s [IH1 IH2]]; [done|]. cbn [Split]. destruct (Ascii.eqb_spec d c) as [->|_].
  - split; [done|]. destruct (Split s c) as [|p ps]; [done|]. cbn [String.concat String.append]. f_equal. exact IH2.
  - destruct (Split s c) as [|p ps]; [done|]. split; [done|]. destruct ps; cbn in *; congruence.
Qed.

Section http.
Context `{UnicodeCase} (cfg : HTTPConfig).

Definition header_key (l : string) : option string :=
  match IndexByte l ":" with Some (S i) => Some (TrimSpace (stake (S i) l)) | _ => None end.

Definition header_value (l : string) : string :=
  match IndexByte l ":" with Some i => TrimSpace (sdrop (S i) l) | None => "" end.

(** What becomes of a client's header line: credentials are kept back, a
    [Proxy-Connection] is renamed, any other line is passed on as it is. *)
Definition forwarded (l : string) : option string :=
  match header_key l with
  | Some k => if EqualFold k "Proxy-Authorization" then None
              else if EqualFold k "Proxy-Connection" then Some ("Connection: " +:+ header_value l)
              else Some l
  | None => Some l
  end.

Definition is_host (l : string) : bool :=
  match header_key l with
  | Some k => negb (EqualFold k "Proxy-Authorization") && negb (EqualFold k "Proxy-Connection") && EqualFold k "Host"
  | None => false
  end.

Definition ended (l : string) : string := l +:+ crlf.

(** A header line the proxy may pass on. *)
Definition passable (l : string) : Prop :=
  one_line l = true ∧ l ≠ "" ∧
  ∀ k, header_key l = Some k →
    EqualFold k "Proxy-Authorization" = false ∧ EqualFold k "Proxy-Connection" = false.

Lemma connection_passable v : one_line v = true → passable ("Connection: " +:+ v).
Proof.
  intros Hv. split_and!; [|done|].
  - unfold one_line in *. rewrite sforallb_app, Hv. done.
  - intros k. cbn. intros [= <-]. split; reflexivity.
Qed.

Lemma host_passable v : visible v = true → passable ("Host: " +:+ v).
Proof.
  intros Hv. split_and!; [|done|].
  - apply visible_one_line in Hv. unfold one_line in *. rewrite sforallb_app, Hv. done.
  - intros k. cbn. intros [= <-]. split; reflexivity.
Qed.

Lemma forwarded_passable l l' : one_line l = true → l ≠ "" → forwarded l = Some l' → passable l'.
Proof.
  intros Hl Hne. unfold forwarded. destruct (header_key l) as [k|] eqn:Ek.
  - destruct (EqualFold k "Proxy-Authorization") eqn:Ea; [done|]. destruct (EqualFold k "Proxy-Connection") eqn:Ec; intros [= <-].
    + apply connection_passable. unfold header_value. case_match; [|done]. by apply sforallb_TrimSpace, sforallb_sdrop.
    + split_and!; [done..|]. rewrite Ek. by intros ? [= <-].
  - intros [= <-]. split_and!; [done..|]. by rewrite Ek.
Qed.

(** One header line. *)
Lemma header_line_spec l h :
  rawHeaders (header_line l h) = rawHeaders h ++ (ended <$> option_list (forwarded l)) ∧
  hostSeen (header_line l h) = hostSeen h || is_host l ∧
  (hostSeen (header_line l h) = false → hostHeader (header_line l h) = hostHeader h).
Proof.
  unfold header_line, forwarded, is_host, header_key, header_value.
  destruct (IndexByte l ":") as [[|i]|]; [by rewrite orb_false_r| |by rewrite orb_false_r]. cbv zeta.
  destruct (EqualFold (TrimSpace (stake (S i) l)) "Proxy-Authorization"); cbn [negb andb].
  { cbn. by rewrite app_nil_r, orb_false_r. }
  destruct (EqualFold (TrimSpace (stake (S i) l)) "Proxy-Connection"); cbn [negb andb]; [by rewrite orb_false_r|].
  destruct (EqualFold (TrimSpace (stake (S i) l)) "Host"); [by rewrite orb_true_r|by rewrite orb_false_r].
Qed.

Lemma header_lines_spec ls h :
  let h' := foldl (λ h l, header_line l h) h ls in
  rawHeaders h' = rawHeaders h ++ (ended <$> omap forwarded ls) ∧
  hostSeen h' = hostSeen h || existsb is_host ls ∧
  (hostSeen h' = false → hostHeader h' = hostHeader h).
Proof.
  revert h. induction ls as [|l ls IH]; intros h; cbv zeta; [by rewrite app_nil_r, orb_false_r|]. cbn [foldl].
  destruct (header_line_spec l h) as (E1 & E2 & E3), (IH (header_line l h)) as (-> & F2 & F3). cbv zeta in F2, F3. split_and!.
  - rewrite E1, <- app_assoc, <- fmap_app. do 2 f_equal. csimpl. by destruct (forwarded l).
  - rewrite F2, E2. cbn [existsb]. by rewrite orb_assoc.
  - intros Hf. rewrite F3 by done. apply E3. rewrite F2 in Hf. by apply orb_false_iff in Hf as [? _].
Qed.

(** A line of the input, its line feed included. *)
Definition is_line (s : string) : Prop := ∃ b, s = b +:+ String lf "" ∧ no_byte lf b = true.

Lemma stake_index s c i : IndexByte s c = Some i → stake (S i) s = stake i s +:+ String c "".
Proof.
  revert i. induction s as [|d s IH]; intros i; [done|]. cbn [IndexByte]. destruct (Ascii.eqb_spec d c) as [->|_]; [by intros [= <-]|].
  destruct (IndexByte s c) as [j|]; [|done]. intros [= <-]. cbn [stake String.append]. f_equal. by apply IH.
Qed.

Lemma readLimitedLine_line s n l n' rest : readLimitedLine s n = Ok (l, n', rest) → is_line l ∧ s = l +:+ rest.
Proof.
  rewrite readLimitedLine_take. unfold take_line. destruct (IndexByte s lf) as [i|] eqn:E; [|by case_match].
  case_match; [done|]. pose proof (stake_sdrop (S i) s) as Es. pose proof (stake_index s lf i E) as Ei.
  destruct (IndexByte_Some _ _ _ E) as (_ & E2 & _). revert Es Ei. generalize (stake (S i) s) (sdrop (S i) s).
  intros l0 r0 <- -> [= <- _ <-]. split; [by eexists|done].
Qed.

(** The header loop reads lines up to an empty one. *)
Lemma read_headers_spec fuel s budget h h' rest :
  read_headers fuel s budget h = Ok (h', rest) →
  ∃ raws blank, s = joined raws +:+ blank +:+ rest ∧ Forall is_line (raws ++ [blank]) ∧ TrimRight is_crlf blank = "" ∧
    Forall (λ l, l ≠ "" ∧ one_line l = true) (TrimRight is_crlf <$> raws) ∧
    h' = foldl (λ h l, header_line l h) h (TrimRight is_crlf <$> raws).
Proof.
  revert s budget h. induction fuel as [|fuel IH]; intros s budget h; [done|]. cbn [read_headers].
  destruct (readLimitedLine s budget) as [[[line b] s']|e] eqn:El; [|done]. cbv zeta. apply readLimitedLine_line in El as [Hl ->].
  destruct (String.eqb_spec (TrimRight is_crlf line) "") as [He|Hne].
  { intros [= <- <-]. exists [], line. split_and!; try done; by apply Forall_singleton. }
  destruct (containsControl (TrimRight is_crlf line)) eqn:Ec; [done|].
  intros (raws & blank & -> & H1 & H2 & H3 & H4)%IH. exists (line :: raws), blank. split_and!; [|by apply Forall_cons|done| |done].
  - cbn [joined foldr]. by rewrite sapp_assoc.
  - cbn. apply Forall_cons. split; [|done]. split; [done|by apply no_control_one_line].
Qed.

Lemma upper_visible s : visible s = true → visible (ToUpper s) = true.
Proof.
  intros Hs. assert (is_ascii s = true) as Ha.
  { revert Hs. apply sforallb_impl. intros c Hc%in_range_spec. unfold is_ascii_byte. apply Z.ltb_lt. lia. }
  unfold ToUpper. rewrite Ha. unfold ascii_upper, visible in *. clear Ha. induction s as [|c s IH]; [done|].
  cbn in *. apply andb_true_iff in Hs as [Hc Hs]. rewrite IH by done. rewrite andb_true_r.
  apply in_range_spec in Hc. unfold upper_byte. case_match; [|by apply in_range_spec].
  apply in_range_spec in H0. apply in_range_spec. rewrite byte_val_of; lia.
Qed.

Lemma upper_nonempty s : s ≠ "" → is_ascii s = true → ToUpper s ≠ "".
Proof. intros Hs Ha. unfold ToUpper. rewrite Ha. by destruct s. Qed.

Lemma visible_ascii s : visible s = true → is_ascii s = true.
Proof. apply sforallb_impl. intros c Hc%in_range_spec. unfold is_ascii_byte. apply Z.ltb_lt. lia. Qed.

Lemma relPath_visible u : u ≠ "" → visible u = true → visible (relPath u) = true ∧ relPath u ≠ "".
Proof.
  intros Hne Hu. unfold relPath. destruct (HasPrefix u http_scheme) eqn:Ep; [|done]. cbv zeta.
  destruct (IndexByte (TrimPrefix u http_scheme) "/") as [i|] eqn:E; [|done]. split.
  - apply sforallb_sdrop. unfold TrimPrefix, CutPrefix. destruct (HasPrefix u http_scheme); [|done].
    cbn [default]. by apply sforallb_sdrop.
  - apply IndexByte_lt in E. intros E'. apply (f_equal String.length) in E'. rewrite slen_sdrop in E'. cbn in E'. lia.
Qed.

Lemma request_line_spec line m u v :
  request_line line = Some (m, u, v) →
  (m ≠ "" ∧ visible m = true) ∧ (u ≠ "" ∧ visible u = true) ∧ (v ≠ "" ∧ visible v = true).
Proof.
  unfold request_line. pose proof (no_byte_Split line " ") as Hno. pose proof (sforallb_Split (in_range 32 126) line " ") as Hpr.
  destruct (Split line " ") as [|p1 [|p2 [|p3 [|]]]]; try done.
  destruct (String.eqb_spec p1 ""), (String.eqb_spec p2 ""), (String.eqb_spec p3 ""); try done. cbn [orb].
  destruct (isPrintableASCII line) eqn:Ep; [|done]. cbn [negb orb]. case_match; [done|]. intros [= <- <- <-].
  specialize (Hpr Ep). rewrite !Forall_cons in Hno, Hpr. destruct Hno as (N1 & N2 & N3 & _), Hpr as (V1 & V2 & V3 & _).
  split_and!; try done; by apply printable_visible.
Qed.

Lemma request_line_split line m u v : request_line line = Some (m, u, v) → line = m +:+ " " +:+ u +:+ " " +:+ v.
Proof.
  unfold request_line. destruct (Split_joined line " ") as [_ E]. destruct (Split line " ") as [|p1 [|p2 [|p3 [|]]]]; try done.
  case_match; [done|]. intros [= <- <- <-]. exact E.
Qed.

(** The head written to the target: the start line and the header lines, each ended by
    CRLF, then the empty line. *)
Lemma reqBuf_lines r ls host :
  rawHeaders (headers r) = ended <$> ls →
  host = (if hostSeen (headers r) then [] else ["Host: " +:+ synthetic_host (canonicalHost (targetHost r)) (targetPort r)]) →
  reqBuf r = joined (ended <$> (method r +:+ " " +:+ relPath (rawURI r) +:+ " " +:+ protoVer r) :: host ++ ls) +:+ crlf.
Proof.
  intros E ->. unfold reqBuf. rewrite E. cbv zeta. fold (joined (ended <$> ls)). cbn [fmap list_fmap joined foldr].
  unfold ended at 2. rewrite !sapp_assoc. do 6 f_equal. destruct (hostSeen (headers r)); [done|].
  cbn [app fmap list_fmap foldr]. unfold ended at 2. by rewrite !sapp_assoc.
Qed.

(** C6: no request smuggling through the forwarded head.  When the parser accepts a
    request, its input is a first line, header lines, an empty line and what follows; the
    first line is a method, a target and a version.  What the proxy writes to the target
    is then exactly: the start line (the method in upper case, the target's path, the
    version, each non-empty visible ASCII); a Host line made from the target when the
    client sent none; and each of the client's header lines in order, the
    [Proxy-Authorization] ones left out and the [Proxy-Connection] ones renamed; every
    line ended by CRLF, then an empty one.  Each header line written is non-empty, has no
    CR or LF inside, and is no [Proxy-Authorization] or [Proxy-Connection]. *)
Theorem forwarded_head_safe input r :
  handleClient cfg input = Ok r →
  ∃ first raws blank m u v,
    input = first +:+ joined raws +:+ blank +:+ unread r ∧
    Forall is_line (first :: raws ++ [blank]) ∧ TrimRight is_crlf blank = "" ∧
    TrimRight is_crlf first = m +:+ " " +:+ u +:+ " " +:+ v ∧
    let client := TrimRight is_crlf <$> raws in
    let host := if existsb is_host client then []
                else ["Host: " +:+ synthetic_host (canonicalHost (targetHost r)) (targetPort r)] in
    let lines := host ++ omap forwarded client in
    reqBuf r = joined (ended <$> (ToUpper m +:+ " " +:+ relPath u +:+ " " +:+ v) :: lines) +:+ crlf ∧
    Forall passable lines ∧
    Forall (λ t, t ≠ "" ∧ visible t = true) [ToUpper m; relPath u; v].
Proof.
  unfold handleClient. destruct (readLimitedLine input maxHTTPHeaderBytes) as [[[line b] s]|e] eqn:E1; [|done].
  apply readLimitedLine_line in E1 as [Hl1 ->].
  destruct (request_line (TrimRight is_crlf line)) as [[[m u] v]|] eqn:El; [|done].
  pose proof (request_line_split _ _ _ _ El) as Esp. apply request_line_spec in El as ([M1 M2] & [U1 U2] & [V1 V2]). cbv zeta.
  destruct (read_headers (S (String.length s)) s b noHeaders) as [[h s']|e] eqn:Eh; [|done].
  apply read_headers_spec in Eh as (raws & blank & -> & Hr1 & Hr2 & Hr3 & ->).
  set (client := TrimRight is_crlf <$> raws) in *.
  destruct (header_lines_spec client noHeaders) as (H1 & H2 & H3). cbn [noHeaders rawHeaders hostSeen hostHeader app orb] in H1, H2, H3.
  set (h := foldl _ _ client) in *. clearbody h.
  destruct (checkAuth _ _); [|done]. cbn [negb]. destruct (parseTarget (ToUpper m) u (hostHeader h)) as [th tp] eqn:Et.
  destruct (String.eqb_spec th "") as [|Hth]; [done|]. destruct (tp <=? 0); [done|]. cbn [orb]. intros [= <-].
  exists line, raws, blank, m, u, v. cbn [unread targetHost targetPort]. cbv zeta. fold client. split_and!; [done|by apply Forall_cons|done|done| | |].
  - apply (reqBuf_lines {| method := ToUpper m; rawURI := u; protoVer := v; headers := h; targetHost := th; targetPort := tp; unread := s' |});
      cbn [headers targetHost targetPort]; [done|by rewrite H2].
  - apply Forall_app. split; [|apply list.Forall_forall; intros x (l & Hin & Hf)%list_elem_of_omap].
    + destruct (existsb is_host client) eqn:Eb; [by apply Forall_nil_2|]. apply Forall_singleton, host_passable.
      rewrite H3 in Et by done. apply parseTarget_visible in Et as [|Hv]; [done| |done]. apply canonicalHost_visible in Hv.
      unfold synthetic_host. case_match; [|done]. apply JoinHostPort_visible; [done|apply Itoa_visible].
    + rewrite list.Forall_forall in Hr3. destruct (Hr3 l Hin) as [Hne Hone]. by apply (forwarded_passable l).
  - destruct (relPath_visible u U1 U2). repeat (apply Forall_cons; split); [..|apply Forall_nil_2]; split; try done.
    + apply upper_nonempty; [done|by apply visible_ascii].
    + by apply upper_visible.
Qed.

Lemma parseTargetPort_range p port : parseTargetPort p = Some port → 1 ≤ port ≤ 65535.
Proof.
  unfold parseTargetPort. destruct (Atoi p) as [n|]; [|done]. case_match eqn:E; [done|]. intros [= <-].
  apply orb_false_iff in E as [?%Z.ltb_ge ?%Z.ltb_ge]. lia.
Qed.

Lemma parseTarget_range m u h th tp : parseTarget m u h = (th, tp) → 0 ≤ tp ≤ 65535.
Proof.
  unfold parseTarget. case_match.
  - destruct (SplitHostPort u) as [[h' p]|]; [|intros [= _ <-]; lia].
    destruct (parseTargetPort p) eqn:E; intros [= _ <-]; [|lia]. apply parseTargetPort_range in E. lia.
  - cbv zeta. destruct (SplitHostPort _) as [[h' p]|]; [|intros [= _ <-]; lia].
    destruct (parseTargetPort p) eqn:E; intros [= _ <-]; [|lia]. apply parseTargetPort_range in E. lia.
Qed.

(** only authorised, well-targeted requests get through.  An accepted request
    has passed the credential check and names a host and a port in 1..65535. *)
Theorem accepted_request input r :
  handleClient cfg input = Ok r →
  checkAuth cfg (proxyAuthHeader (headers r)) = true ∧ targetHost r ≠ "" ∧ 1 ≤ targetPort r ≤ 65535.
Proof.
  unfold handleClient. destruct (readLimitedLine input maxHTTPHeaderBytes) as [[[line b] s]|e]; [|done].
  destruct (request_line (TrimRight is_crlf line)) as [[[m u] v]|]; [|done]. cbv zeta.
  destruct (read_headers (S (String.length s)) s b noHeaders) as [[h s']|e]; [|done].
  destruct (checkAuth cfg (proxyAuthHeader h)) eqn:Ea; [|done]. cbn [negb].
  destruct (parseTarget (ToUpper m) u (hostHeader h)) as [th tp] eqn:Et.
  destruct (String.eqb_spec th ""), (Z.leb_spec tp 0); try done. cbn [orb]. intros [= <-].
  apply parseTarget_range in Et. cbn. split_and!; [done..|lia|lia].
Qed.

(** ** Credentials *)

Lemma space_len_plain c s :
  is_ascii_byte c = true → 32 < byte_val c → space_len (String c s) = 0%nat.
Proof.
  intros Ha Hc. unfold is_ascii_byte in Ha. apply Z.ltb_lt in Ha. unfold space_len.
  destruct (Z.eqb_spec (byte_val c) 32); [lia|]. destruct (Z.leb_spec (byte_val c) 13); [lia|]. rewrite andb_false_r. cbn [orb].
  destruct s as [|d s]; [done|]. cbv zeta.
  destruct (Z.eqb_spec (byte_val c) 194); [lia|]. cbn [andb].
  destruct s as [|e s]; [done|].
  destruct (Z.eqb_spec (byte_val c) 225), (Z.eqb_spec (byte_val c) 226), (Z.eqb_spec (byte_val c) 227); try lia. done.
Qed.

Definition plain (s : string) : bool := sforallb (in_range 33 126) s.

Lemma TrimSpace_plain s : plain s = true → TrimSpace s = s.
Proof.
  intros Hs. unfold TrimSpace.
  assert (∀ s, plain s = true → trim_space_left (String.length s) s = s) as Hl.
  { clear. intros [|c s] Hs; [done|]. cbn [String.length trim_space_left]. cbn in Hs.
    apply andb_true_iff in Hs as [Hc%in_range_spec _].
    rewrite space_len_plain; [done|unfold is_ascii_byte; apply Z.ltb_lt; lia|lia]. }
  rewrite Hl by done. revert Hs. induction s as [|c s IH]; intros Hs; [done|]. cbn [trim_space_right].
  unfold all_space. rewrite Hl by done. cbn [is_empty]. f_equal. apply IH. cbn in Hs. by apply andb_true_iff in Hs as [_ ?].
Qed.

Lemma b64_char_visible url v : 0 ≤ v < 64 → in_range 33 126 (b64_char url v) = true.
Proof.
  intros Hv. apply (sextet_forall (λ v, in_range 33 126 (b64_char url v))); [|done].
  destruct url; vm_compute; reflexivity.
Qed.

Lemma encode_visible url s : plain (EncodeToString url s) = true.
Proof.
  assert (∀ v i, in_range 33 126 (b64_char url ((v `div` i) `mod` 64)) = true) as Hc.
  { intros. apply b64_char_visible, Z.mod_pos_bound. lia. }
  induction s as [|x|x y|x y z s IH] using string_ind3; [done|..]; cbn [EncodeToString plain sforallb]; rewrite !Hc; cbn; [done..|exact IH].
Qed.

(** the credential check is exact.  With credentials configured, a
    [Proxy-Authorization] value passes exactly when it is the Basic scheme followed
    by base64 that decodes to user, colon, password; the standard encoding of the
    configured credentials does pass. *)
Theorem checkAuth_exact h :
  (Username cfg ≠ "" ∨ Password cfg ≠ "") →
  (checkAuth cfg h = true ↔
   (6 ≤ String.length h)%nat ∧ EqualFold (stake 6 h) "Basic " = true ∧
   DecodeString false true (TrimSpace (sdrop 6 h)) = Some (Username cfg +:+ ":" +:+ Password cfg)) ∧
  checkAuth cfg ("Basic " +:+ EncodeToString false (Username cfg +:+ ":" +:+ Password cfg)) = true.
Proof.
  intros Hcred. unfold checkAuth at 1 2.
  assert (String.eqb (Username cfg) "" && String.eqb (Password cfg) "" = false) as Ecred.
  { apply andb_false_iff. destruct Hcred as [Hu|Hp]; [left|right]; by apply String.eqb_neq. }
  rewrite Ecred. cbv zeta. change (String.length "Basic ") with 6%nat. split.
  - destruct (String.eqb_spec h "") as [->|Hne]; [split; [done|intros [? _]; cbn in *; lia]|].
    destruct (Nat.ltb_spec (String.length h) 6); [split; [done|intros [? _]; lia]|]. cbn [orb].
    destruct (EqualFold (stake 6 h) "Basic "); [|by split; [|intros (_ & ? & _)]]. cbn [negb].
    destruct (DecodeString false true (TrimSpace (sdrop 6 h))) as [d|]; [|by split; [|intros (_ & _ & ?)]].
    rewrite String.eqb_eq. split; [by intros ->|by intros (_ & _ & [= ->])].
  - set (e := EncodeToString false _). set (h0 := "Basic " +:+ e).
    assert (String.eqb h0 "" = false) as -> by done. assert (stake 6 h0 = "Basic ") as -> by done.
    assert (sdrop 6 h0 = e) as -> by done. assert (EqualFold "Basic " "Basic " = true) as -> by done.
    destruct (Nat.ltb_spec (String.length h0) 6) as [Hlt|_]; [cbn in Hlt; lia|]. cbn [orb negb].
    rewrite TrimSpace_plain by apply encode_visible. unfold e. rewrite decode_encode. apply String.eqb_refl.
Qed.
End http.

(** ** The UDP session registry *)

Record registry_ok (r : directUDPRegistry) : Prop := {
  rk_cap : Z.of_nat (size (sessions r)) ≤ maxDirectUDPSessions;
  rk_live : ∀ t x, sessions r !! t = Some x → (conn x < opened r)%nat ∧ conn x ∉ closedSocks r;
  rk_inj : ∀ t t' x x', sessions r !! t = Some x → sessions r !! t' = Some x' → conn x = conn x' → t = t';
  rk_track : ∀ c, (c < opened r)%nat → c ∈ closedSocks r ∨ ∃ t x, sessions r !! t = Some x ∧ conn x = c;
  rk_closed : ∀ c, c ∈ closedSocks r → (c < opened r)%nat;
}.

Lemma new_registry_ok : registry_ok newDirectUDPRegistry.
Proof. split; cbn; try done; try lia; intros; by rewrite ?lookup_empty in *; set_solver. Qed.

Lemma get_ok resolve listen t r : registry_ok r → registry_ok (get resolve listen t r).1.
Proof.
  intros Hr. pose proof Hr as [K1 K2 K3 K4 K5]. unfold get. destruct (sessions r !! t) as [x|] eqn:Et; [done|].
  destruct (Z.leb_spec maxDirectUDPSessions (Z.of_nat (size (sessions r)))); [done|].
  destruct (resolve t) as [a|]; [|done]. destruct (listen (listenUDPFor (ip_string (uIP a)))); [done|]. cbn [fst]. split; cbn.
  - rewrite map_size_insert_None by done. lia.
  - intros t' x. destruct (decide (t = t')) as [<-|].
    + rewrite lookup_insert_eq. intros [= <-]. cbn. split; [lia|]. intros Hc. specialize (K5 _ Hc). lia.
    + rewrite lookup_insert_ne by done. intros Hx. destruct (K2 _ _ Hx). split; [lia|done].
  - intros t1 t2 x1 x2. destruct (decide (t = t1)) as [<-|], (decide (t = t2)) as [<-|]; [done|..];
      rewrite ?lookup_insert_eq, ?lookup_insert_ne by done.
    + intros [= <-] Hx E. cbn in E. destruct (K2 _ _ Hx). lia.
    + intros Hx [= <-] E. cbn in E. destruct (K2 _ _ Hx). lia.
    + apply K3.
  - intros c Hc. destruct (decide (c = opened r)) as [->|].
    + right. exists t. eexists. by rewrite lookup_insert_eq.
    + destruct (K4 c) as [?|(t' & x & Hx & E)]; [lia|by left|]. right. exists t', x. split; [|done].
      rewrite lookup_insert_ne; [done|congruence].
  - intros c Hc. specialize (K5 c Hc). lia.
Qed.

Lemma closeAll_closes r : registry_ok r → closedSocks (closeAll r) = list_to_set (seq 0 (opened r)).
Proof.
  intros [K1 K2 K3 K4 K5]. apply set_eq. intros c. cbn.
  rewrite elem_of_union, !elem_of_list_to_set, list_elem_of_fmap, elem_of_seq. split.
  - intros [(x & -> & Hx)|Hc].
    + apply list_elem_of_fmap in Hx as ([t x'] & -> & Hx%elem_of_map_to_list). apply K2 in Hx as [? _]. cbn. lia.
    + apply K5 in Hc. lia.
  - intros [_ Hc]. destruct (K4 c Hc) as [?|(t & x & Hx & <-)]; [by right|]. left. exists x. split; [done|].
    apply list_elem_of_fmap. exists (t, x). split; [done|]. by apply elem_of_map_to_list.
Qed.

(** A datagram's target with the outcomes of resolving it and of opening a
    socket. *)
Definition lookup_event : Type := (string → result string UDPAddr) * (string → option string) * string.

Definition gets (l : list lookup_event) (r : directUDPRegistry) : directUDPRegistry :=
  foldl (λ r e, (get e.1.1 e.1.2 e.2 r).1) r l.

(** a UDP association's sockets are bounded, sticky and released.  After any
    sequence of datagram targets there are at most 256 sessions; a target that has
    one keeps it, socket and resolved endpoint included, whatever it resolves to
    later; and closing the association closes every socket ever opened. *)
Theorem udp_registry (l : list lookup_event) t x resolve listen :
  let r := gets l newDirectUDPRegistry in
  Z.of_nat (size (sessions r)) ≤ 256 ∧
  (sessions r !! t = Some x → get resolve listen t r = (r, Ok (x, false))) ∧
  closedSocks (closeAll r) = list_to_set (seq 0 (opened r)) ∧ sessions (closeAll r) = ∅.
Proof.
  intros r. assert (registry_ok r) as Hr.
  { unfold r. generalize newDirectUDPRegistry new_registry_ok. induction l as [|e l IH]; intros r0 H0; [done|].
    cbn. apply IH. by apply get_ok. }
  split_and!; [by apply Hr| |by apply closeAll_closes|done].
  intros Hx. unfold get. by rewrite Hx.
Qed.

(** ** A concrete request *)

#[local] Transparent bufSize.

#[local] Instance http_case : UnicodeCase := ascii_case.

Definition demo_cfg : HTTPConfig := {| ListenAddr := ""; Username := "u"; Password := "p"; EnableIPv6 := false |}.

Definition demo_input : string :=
  "get http://example.com:8080/x?y HTTP/1.1" +:+ crlf +:+ "Host: example.com:8080" +:+ crlf +:+
  "Proxy-Authorization: Basic dTpw" +:+ crlf +:+ "Proxy-Connection: keep-alive" +:+ crlf +:+ crlf +:+ "body".

Definition demo_request : Request :=
  match handleClient demo_cfg demo_input with
  | Ok r => r
  | Err _ => {| method := ""; rawURI := ""; protoVer := ""; headers := noHeaders; targetHost := ""; targetPort := 0; unread := "" |}
  end.

Example demo_forwarded : reqBuf demo_request =
  "GET /x?y HTTP/1.1" +:+ crlf +:+ "Host: example.com:8080" +:+ crlf +:+ "Connection: keep-alive" +:+ crlf +:+ crlf.
Proof. vm_compute. reflexivity. Qed.

Lemma forwarded_head_safe_witness :
  ∃ start lines, reqBuf demo_request = joined (ended <$> start :: lines) +:+ crlf ∧ Forall passable lines.
Proof.
  destruct (forwarded_head_safe demo_cfg demo_input demo_request) as (first & raws & blank & m & u & v & _ & _ & _ & _ & E & Hp & _);
    [vm_compute; reflexivity|].
  exact (ex_intro _ _ (ex_intro _ _ (conj E Hp))).
Defined.

Lemma accepted_request_witness : targetPort demo_request = 8080 ∧ 1 ≤ targetPort demo_request ≤ 65535.
Proof.
  split; [vm_compute; reflexivity|].
  refine (proj2 (proj2 (accepted_request demo_cfg demo_input demo_request _))). vm_compute. reflexivity.
Defined.

Lemma checkAuth_exact_witness : checkAuth demo_cfg ("Basic " +:+ EncodeToString false "u:p") = true.
Proof. refine (proj2 (checkAuth_exact demo_cfg "" _)). left. by intros [=]. Defined.

Lemma udp_registry_witness :
  let r := gets [(λ _, Ok {| uIP := [1; 2; 3; 4]; uPort := 53 |}, λ _, None, "dns.example:53")] newDirectUDPRegistry in
  get (λ _, Err "changed") (λ _, None) "dns.example:53" r =
  (r, Ok ({| conn := 0; addr := {| uIP := [1; 2; 3; 4]; uPort := 53 |} |}, false)).
Proof.
  refine (proj1 (proj2 (udp_registry [(λ _, Ok {| uIP := [1; 2; 3; 4]; uPort := 53 |}, λ _, None, "dns.example:53")]
    "dns.example:53" _ _ _)) _). vm_compute. reflexivity.
Defined.
End HttpProps.
