(* ===== verification/Conn.v ===== *)
(** * core/proxy: carrying a connection (socks5.go, http.go)

    The handlers between an accepted request and the end of its relay, over the
    components they use: the router decides, the DNS server's reverse map names
    the destination, the upstream lends a node, the collector keeps the session.
    A handler is a function from the state of these components and the outcomes
    of its network operations to the new state, with what was said to the client
    and what was dialled.  The upstream is used through the interface
    [SmartUpstream]; the node manager implements it. *)

From S2P Require Import Prelude GoStrings GoNet Router Stats Dns Spp SppProps Http.
Import Router.Router.

(** ** The upstream interface

    [up_load] is the connections each node carries.  A release gives back what
    the pick took, the other operations leave the load alone. *)
Class SmartUpstream (U : Type) := {
  token : Type;
  up_load : U → list Z;
  up_pick : U → U * (string * string * option token);
  up_release : token → U → U;
  up_fail : string → U → U;
  up_traffic : string → Z → Z → U → U;
  up_active : U → string;
  up_release_load t u u' : up_load u = up_load u' → up_load (up_release t u) = up_load (up_release t u');
  up_pick_release u u' a n t : up_pick u = (u', (a, n, Some t)) → up_load (up_release t u') = up_load u;
  up_pick_none u u' a n : up_pick u = (u', (a, n, None)) → up_load u' = up_load u;
  up_fail_load n u : up_load (up_fail n u) = up_load u;
  up_traffic_load n a b u : up_load (up_traffic n a b u) = up_load u;
}.

Module SppUpstream.
Import Spp SppProps.
Section manager.
Context `{UnicodeCase, SppLib} (net : Net) (now : time) (k : Look).

Definition loads (m : Manager) : list Z := activeConns <$> runtimes m.

Lemma loads_upd i f m :
  (∀ rt, activeConns (f rt) = activeConns rt) → loads (upd i f m) = loads m.
Proof.
  intros Hf. unfold loads, upd. cbn. apply list_eq. intros j. rewrite !list_lookup_fmap.
  destruct (decide (i = j)) as [<-|]; [rewrite list_lookup_alter_eq|by rewrite list_lookup_alter_ne].
  destruct (runtimes m !! i); [|done]. cbn. by rewrite Hf.
Qed.

Lemma loads_release i m : loads (release i m) = alter (λ n, n - 1) i (loads m).
Proof.
  unfold loads, release, upd. cbn. apply list_eq. intros j. rewrite list_lookup_fmap.
  destruct (decide (i = j)) as [<-|].
  - rewrite !list_lookup_alter_eq, list_lookup_fmap. by destruct (runtimes m !! i).
  - by rewrite !list_lookup_alter_ne, list_lookup_fmap.
Qed.

Lemma loads_ensure i m : loads (ensureClientRunningLocked net i m).1 = loads m.
Proof. unfold ensureClientRunningLocked. repeat (case_match; try done). by apply loads_upd. Qed.

Lemma PickNode_loads m m' a n t :
  PickNode net m = (m', (a, n, t)) →
  match t with Some i => loads (release i m') = loads m | None => loads m' = loads m end.
Proof.
  intros E. destruct (closed m) eqn:Ec.
  { unfold PickNode in E. rewrite Ec in E. by injection E as <- _ _ <-. }
  destruct (decide (runtimes m = [])) as [E0|Hne].
  { unfold PickNode in E. rewrite Ec in E. assert (getActiveTierCandidatesLocked m = []) as Eg.
    { unfold getActiveTierCandidatesLocked, getActivePriorityTierLocked. by rewrite E0. }
    rewrite Eg in E. by injection E as <- _ _ <-. }
  destruct (pick_spec net m Ec Hne) as (i & rt & _ & _ & _ & E'). rewrite E in E'. injection E' as -> _ _ ->.
  rewrite loads_release. rewrite <- (loads_ensure i m). unfold loads, upd. cbn. apply list_eq. intros j.
  destruct (decide (i = j)) as [<-|].
  - rewrite list_lookup_alter_eq, !list_lookup_fmap, list_lookup_alter_eq.
    destruct (_ !! i); [|done]. cbn. f_equal. lia.
  - by rewrite list_lookup_alter_ne, !list_lookup_fmap, list_lookup_alter_ne.
Qed.

#[program] Definition manager_upstream : SmartUpstream Manager := {|
  token := nat; up_load := loads; up_pick := PickNode net; up_release := release;
  up_fail n m := if String.eqb n "" then (ReportFailure k m).1 else (ReportNodeFailure k n m).1;
  up_traffic n a b m := RecordNodeTraffic now n a b m; up_active := ActiveNodeName |}.
Next Obligation. intros t m m' E. by rewrite !loads_release, E. Qed.
Next Obligation. intros m m' a n t E. by apply PickNode_loads in E. Qed.
Next Obligation. intros m m' a n E. by apply PickNode_loads in E. Qed.
Next Obligation.
  assert (∀ n m, loads (ReportNodeFailure k n m).1 = loads m) as Hr.
  { intros n m. unfold ReportNodeFailure. repeat (case_match; try done); cbn [fst]; by apply loads_upd. }
  intros n m. cbn. case_match; [|apply Hr]. unfold ReportFailure. cbv zeta. case_match; [done|apply Hr].
Qed.
Next Obligation.
  intros n a b m. cbn. unfold RecordNodeTraffic. destruct (closed m || String.eqb n ""); [done|].
  destruct (find_node n m); [|done]. apply loads_upd. intros rt. cbv zeta. by repeat case_match.
Qed.
End manager.
End SppUpstream.

Module Conn.
Import Stats Addr.

(** statsDecision *)
Definition statsDecision (d : RouteDecision) : Decision :=
  match d with Direct => DecisionDirect | Proxy => DecisionProxy end.

(** What is dialled: a direct target, an upstream's local SOCKS5, a target
    through it. *)
Inductive Dial := DialDirect (addr : string) | DialUpstream (addr : string) | ConnectVia (host : string) (port : Z).

(** The outcomes of the handler's network operations ([None] is success) and
    the times it reads; [e_relay] is what the relay moves: when, whether it is
    upload, how many bytes. *)
Record Env := {
  t_route : time; t_begin : time; t_fail : time; t_end : time;
  e_direct : option string; e_resolve : option string; e_dial : option string; e_handshake : option string;
  e_connect : option string; e_write : bool; e_relay : list (time * bool * Z);
}.

(** A protocol's answers to its client. *)
Record Dialect (R : Type) := {
  proto_of : Proto; r_ok : R; r_direct_failed : R; r_ipv6 : R; r_failed : R;
}.
Arguments proto_of {R}. Arguments r_ok {R}. Arguments r_direct_failed {R}.
Arguments r_ipv6 {R}. Arguments r_failed {R}.

(** SOCKS5 reply codes. *)
Definition socks5 : Dialect Z :=
  {| proto_of := ProtoSOCKS5; r_ok := 0; r_direct_failed := 5; r_ipv6 := 3; r_failed := 1 |}.

Definition http_connect : Dialect string :=
  {| proto_of := ProtoHTTP; r_ok := Http.http200; r_direct_failed := Http.http502; r_ipv6 := Http.http502;
     r_failed := Http.http502 |}.

Section conn.
Context `{UnicodeCase, RouterEnv, Dns.DNSLib, GoSort, TimeFormat, SmartUpstream U} {R : Type}.
Context (router : option Router) (EnableIPv6 : bool).

Record St := {
  coll : option Collector; up : option U; dnsS : option Dns.Server; out : list R; dials : list Dial;
  sent : list string;
}.
#[local] Instance St_eta : Eta St := λ s,
  {| coll := coll s; up := up s; dnsS := dnsS s; out := out s; dials := dials s; sent := sent s |}.

Definition reply (r : R) (s : St) : St := s <| out ::= λ l, l ++ [r] |>.
Definition dial (d : Dial) (s : St) : St := s <| dials ::= λ l, l ++ [d] |>.

(** A method of a possibly nil session. *)
Definition on_session (f : Z → Collector → Collector) (sess : option Z) (s : St) : St :=
  match sess with Some i => s <| coll ::= fmap (f i) |> | None => s end.

Definition Fail (env : Env) (msg : string) : option Z → St → St :=
  on_session (λ i, End_ (t_fail env) i (Some msg)).

(** The reverse map may name an address literal; the literal is kept for the
    address rules. *)
Definition routeDecision (env : Env) (host : string) (s : St) : St * (RouteDecision * string) :=
  let parsedIP := ParseIP host in
  let '(s, realHost) :=
    match dnsS s with
    | Some d => let '(d, name) := Dns.LookupDomainByIP (t_route env) host d in
                (s <| dnsS := Some d |>, default host name)
    | None => (s, host)
    end in
  let decision := match router with Some r => Decide r realHost parsedIP | None => Proxy end in
  (s, (decision, realHost)).

Definition beginSession (env : Env) (p : Proto) (client host : string) (port : Z) (decision : RouteDecision)
    (s : St) : St * option Z :=
  let sd := statsDecision decision in
  let node := match sd, up s with DecisionProxy, Some u => up_active u | _, _ => "" end in
  match coll s with
  | None => (s, None)
  | Some c => let '(c, i) := Begin (t_begin env) p client host port sd node c in (s <| coll := Some c |>, Some i)
  end.

Definition recordNodeTraffic (nodeName : string) (a b : Z) (s : St) : St :=
  if String.eqb nodeName "" then s else s <| up ::= fmap (up_traffic nodeName a b) |>.

(** One read of [relayStreamsWithNode]. *)
Definition relay_chunk (sess : option Z) (nodeName : string) (s : St) (ch : time * bool * Z) : St :=
  let '(now, is_up, n) := ch in
  if is_up then recordNodeTraffic nodeName n 0 (on_session (λ i, AddUpload now i n) sess s)
  else recordNodeTraffic nodeName 0 n (on_session (λ i, AddDownload now i n) sess s).

Definition relayStreams (env : Env) (sess : option Z) (nodeName : string) (s : St) : St :=
  foldl (relay_chunk sess nodeName) s (e_relay env).

Definition PickNode (s : St) : St * (string * string * option token) :=
  match up s with
  | Some u => let '(u, r) := up_pick u in (s <| up := Some u |>, r)
  | None => (s, ("", "", None))
  end.

Definition release (tok : option token) (s : St) : St :=
  match tok with Some t => s <| up ::= fmap (up_release t) |> | None => s end.

Definition report (nodeName : string) (s : St) : St := s <| up ::= fmap (up_fail nodeName) |>.

Definition SetNode_ (nodeName : string) (sess : option Z) (s : St) : St :=
  if String.eqb nodeName "" then s else on_session (λ i, SetNode i nodeName) sess s.

(** ** CONNECT *)

Definition via_direct (d : Dialect R) (env : Env) (targetAddr : string) (sess : option Z) (s : St) : St :=
  let s := dial (DialDirect targetAddr) s in
  match e_direct env with
  | Some e => reply (r_direct_failed d) (Fail env ("direct dial " +:+ targetAddr +:+ ": " +:+ e) sess s)
  | None =>
      let s := reply (r_ok d) s in
      if e_write env then relayStreams env sess "" s else s
  end.

Definition spp_connect (d : Dialect R) (env : Env) (host : string) (port : Z) (sppAddr nodeName : string)
    (sess : option Z) (s : St) : St :=
  if String.eqb sppAddr "" then reply (r_failed d) (Fail env "no upstream SPP proxy available" sess s)
  else match e_resolve env with
  | Some e => reply (r_failed d) (Fail env ("resolve SPP upstream: " +:+ e) sess s)
  | None =>
  let s := dial (DialUpstream sppAddr) s in
  match e_dial env with
  | Some e => reply (r_failed d) (Fail env ("dial SPP upstream: " +:+ e) sess (report nodeName s))
  | None =>
  match e_handshake env with
  | Some e => reply (r_failed d) (Fail env ("SPP upstream handshake: " +:+ e) sess (report nodeName s))
  | None =>
  let s := dial (ConnectVia host port) s in
  match e_connect env with
  | Some e => reply (r_failed d) (Fail env ("SPP upstream connect: " +:+ e) sess s)
  | None =>
      let s := reply (r_ok d) (recordNodeTraffic nodeName 1 1 s) in
      if e_write env then relayStreams env sess nodeName s else s
  end
  end
  end
  end.

Definition via_spp (d : Dialect R) (env : Env) (host : string) (port : Z) (sess : option Z) (s : St) : St :=
  if negb EnableIPv6 && isIPv6Literal host then reply (r_ipv6 d) s
  else
    let '(s, (sppAddr, nodeName, tok)) := PickNode s in
    let s := SetNode_ nodeName sess s in
    release tok (spp_connect d env host port sppAddr nodeName sess s).

(** [handleConnect] of both servers; the deferred calls run in reverse order. *)
Definition handleConnect (d : Dialect R) (env : Env) (client targetHost : string) (targetPort : Z) (s : St) : St :=
  let host := canonicalHost targetHost in
  let '(s, (decision, realHost)) := routeDecision env host s in
  let targetAddr := joinDialAddr host targetPort in
  let '(s, sess) := beginSession env (proto_of d) client realHost targetPort decision s in
  let s := match decision with
           | Direct => via_direct d env targetAddr sess s
           | Proxy => via_spp d env host targetPort sess s
           end in
  on_session (λ i, End_ (t_end env) i None) sess s.
End conn.
Arguments St {_} U R.

(** ** Plain HTTP requests *)

Section standard.
Context `{UnicodeCase, RouterEnv, Dns.DNSLib, GoSort, TimeFormat, SmartUpstream U}.
Context (router : option Router) (EnableIPv6 : bool).

(** Bytes written to the target before the relay. *)
Definition send (b : string) (s : St U string) : St U string :=
  {| coll := coll s; up := up s; dnsS := dnsS s; out := out s; dials := dials s; sent := sent s ++ [b] |}.

(** The connection through the upstream: the new state and whether there is a
    connection. *)
Definition open_spp (env : Env) (host : string) (port : Z) (sppAddr nodeName : string) (s : St U string) :
    St U string * bool :=
  match e_resolve env with
  | Some _ => (s, false)
  | None =>
  let s := dial (DialUpstream sppAddr) s in
  match e_dial env, e_handshake env with
  | None, None =>
      let s := dial (ConnectVia host port) s in
      match e_connect env with
      | Some _ => (s, false)
      | None => (recordNodeTraffic nodeName 1 1 s, true)
      end
  | _, _ => (s, false)
  end
  end.

(** Writing the head, then the relay; [conn] is whether the target was reached. *)
Definition forward (env : Env) (head nodeName : string) (sess : option Z) (conn : bool) (s : St U string) : St U string :=
  if conn then
    let s := send head s in
    if e_write env then relayStreams env sess nodeName s else s
  else reply Http.http502 s.

Definition handleStandardHTTP (env : Env) (client : string) (req : Http.Request) (s : St U string) : St U string :=
  let host := canonicalHost (Http.targetHost req) in
  let port := Http.targetPort req in
  let '(s, (decision, realHost)) := routeDecision router env host s in
  let targetAddr := joinDialAddr host port in
  let '(s, sess) := beginSession env ProtoHTTP client realHost port decision s in
  let head := Http.reqBuf req in
  let s :=
    match decision with
    | Direct =>
        let s := dial (DialDirect targetAddr) s in
        match e_direct env with
        | Some e => forward env head "" sess false (Fail env ("direct dial " +:+ targetAddr +:+ ": " +:+ e) sess s)
        | None => forward env head "" sess true s
        end
    | Proxy =>
        if negb EnableIPv6 && isIPv6Literal host then reply Http.http502 s
        else
          let '(s, (sppAddr, nodeName, tok)) := PickNode s in
          let s := SetNode_ nodeName sess s in
          let s :=
            if String.eqb sppAddr "" then reply Http.http502 s
            else
              let '(s, ok) := open_spp env host port sppAddr nodeName s in
              let s := if ok then s else Fail env "spp connection failed" sess s in
              forward env head nodeName sess ok s in
          release tok s
    end in
  on_session (λ i, End_ (t_end env) i None) sess s.
End standard.

(** ** The SOCKS5 request *)

(** Reading exactly [n] bytes. *)
Definition ReadFull (n : nat) (s : string) : option (string * string) :=
  if (String.length s <? n)%nat then None else Some (stake n s, sdrop n s).

Definition byte_list (s : string) : list Z := byte_val <$> String.list_ascii_of_string s.

Definition readSocks5Addr (atyp : Z) (s : string) : option (string * Z * string) :=
  hs ← (if atyp =? 1 then
          '(ip, s) ← ReadFull 4 s; Some (ip_string (byte_list ip), s)
        else if atyp =? 3 then
          '(l, s) ← ReadFull 1 s;
          match byte_list l with [n] => ReadFull (Z.to_nat n) s | _ => None end
        else if atyp =? 4 then
          '(ip, s) ← ReadFull 16 s; Some (ip_string (byte_list ip), s)
        else None);
  let '(host, s) := hs in
  '(p, s) ← ReadFull 2 s;
  match byte_list p with
  | [hi; lo] => Some (canonicalHost host, Z.lor (Z.shiftl hi 8) lo, s)
  | _ => None
  end.

(** What [handleClient] does after the handshake. *)
Inductive Command := Close_ | Refuse (code : Z) | Connect (host : string) (port : Z) | UDPAssociate (host : string) (port : Z).

Definition handleClient (input : string) : Command * string :=
  match ReadFull 4 input with
  | None => (Close_, input)
  | Some (h, s) =>
      match byte_list h with
      | [ver; cmd; _; atyp] =>
          if negb (ver =? 5) then (Close_, s)
          else match readSocks5Addr atyp s with
               | None => (Refuse 8, s)
               | Some (host, port, s) =>
                   if cmd =? 1 then (Connect host port, s)
                   else if cmd =? 3 then (UDPAssociate host port, s)
                   else (Refuse 7, s)
               end
      | _ => (Close_, s)
      end
  end.
End Conn.
