(* ===== verification/ConnProps.v ===== *)
(** * core/proxy: what the connection handlers guarantee

    For every outcome of the network operations: the session is accounted and
    closed, the node is given back, and nothing is dialled against the routing
    decision. *)

From S2P Require Import Prelude GoStrings GoNet Router Stats StatsProps Dns DnsProps Spp SppProps Http HttpProps Conn.
Import Router.Router Addr Stats StatsProps Conn.

Module ConnProps.

(** ** One session's life in the collector *)

(** [c] is [c0] after session [i] was begun and moved [ub] and [db] bytes. *)
Record own (c0 : Collector) (i ub db : Z) (c : Collector) : Prop := {
  ow_reg : registry c;
  ow_next : nextID c = i;
  ow_other : ∀ j, j ≠ i → sessions c !! j = sessions c0 !! j;
  ow_self : ∃ s, sessions c !! i = Some s ∧ upload s = ub ∧ download s = db ∧
    bytes c = (cUpload (totals c0) + ub, cDownload (totals c0) + db, cConns (totals c0) + done_count s) ∧
    active c = if done s then active c0 else {[i]} ∪ active c0;
}.

Section own.
Context `{GoSort, TimeFormat}.

Lemma own_begin now p cl h prt d nd c0 :
  registry c0 → own c0 (nextID c0 + 1) 0 0 (Begin now p cl h prt d nd c0).1.
Proof.
  intros HR. split.
  - exact (apply_registry c0 (now, EvBegin p cl h prt d nd) I HR).
  - done.
  - intros j Hj. cbn. by rewrite lookup_insert_ne.
  - eexists. split; [cbn; apply lookup_insert_eq|]. cbn. split_and!; try done. unfold bytes, done_count. cbn.
    by rewrite !Z.add_0_r.
Qed.

Lemma own_touched c0 i ub db du dd c c' :
  touched du dd i c c' → bytes c' = (cUpload (totals c) + du, cDownload (totals c) + dd, cConns (totals c)) →
  own c0 i ub db c → own c0 i (ub + du) (db + dd) c'.
Proof.
  intros Ht Hb [R1 R2 R3 (s & Hs & Hu & Hd & Hbc & Ha)]. pose proof (registry_touched _ _ _ _ _ Ht R1) as HR.
  destruct Ht as (Ea & En & g & Eg & Hg). destruct (Hg s) as (_ & E2 & _ & E4 & E5). split; [done|congruence| |].
  - intros j Hj. rewrite Eg, lookup_alter_ne by done. by apply R3.
  - exists (g s). rewrite Eg, lookup_alter_eq, Hs. split; [done|]. rewrite E4, E5, E2, Ea, Hb.
    unfold bytes, done_count in *. rewrite E2. injection Hbc as B1 B2 B3. split_and!; try done; try lia.
    repeat first [apply (f_equal2 pair)|lia].
Qed.

Lemma own_same c0 i ub db c c' : ids c' = ids c → own c0 i ub db c → own c0 i ub db c'.
Proof.
  intros E Ho. rewrite <- (Z.add_0_r ub), <- (Z.add_0_r db). apply (own_touched _ _ _ _ 0 0 c); [by apply ids_touched| |done].
  rewrite !Z.add_0_r. unfold ids, bytes in *. congruence.
Qed.

Lemma own_upload c0 i ub db now n c :
  own c0 i ub db c → own c0 i (ub + Z.max 0 n) db (AddUpload now i n c).
Proof.
  intros Ho. pose proof Ho as [_ _ _ (s & Hs & _)]. destruct (Z.leb_spec n 0) as [Hn|Hn].
  - replace (ub + Z.max 0 n) with ub by lia. revert Ho. apply own_same. unfold AddUpload. rewrite Hs.
    by destruct (Z.leb_spec n 0); [|lia].
  - destruct (AddUpload_spec now i n c s Hs Hn) as [Ht Hb]. rewrite <- (Z.add_0_r db).
    replace (Z.max 0 n) with n by lia. apply (own_touched _ _ _ _ _ _ c _ Ht); [by rewrite Z.add_0_r|done].
Qed.

Lemma own_download c0 i ub db now n c :
  own c0 i ub db c → own c0 i ub (db + Z.max 0 n) (AddDownload now i n c).
Proof.
  intros Ho. pose proof Ho as [_ _ _ (s & Hs & _)]. destruct (Z.leb_spec n 0) as [Hn|Hn].
  - replace (db + Z.max 0 n) with db by lia. revert Ho. apply own_same. unfold AddDownload. rewrite Hs.
    by destruct (Z.leb_spec n 0); [|lia].
  - destruct (AddDownload_spec now i n c s Hs Hn) as [Ht Hb]. rewrite <- (Z.add_0_r ub).
    replace (Z.max 0 n) with n by lia. apply (own_touched _ _ _ _ _ _ c _ Ht); [by rewrite Z.add_0_r|done].
Qed.

Lemma own_setnode c0 i ub db name c : own c0 i ub db c → own c0 i ub db (SetNode i name c).
Proof.
  intros Ho. unfold SetNode. case_match; [done|]. rewrite <- (Z.add_0_r ub), <- (Z.add_0_r db).
  apply (own_touched _ _ _ _ 0 0 c); [|by rewrite !Z.add_0_r|done].
  apply touched_upd. intros s. cbn. split_and!; auto with lia.
Qed.

Lemma own_end c0 i ub db now err c :
  i ∉ active c0 → own c0 i ub db c →
  own c0 i ub db (End_ now i err c) ∧ ∃ s, sessions (End_ now i err c) !! i = Some s ∧ done s = true.
Proof.
  intros Hfresh Ho. pose proof Ho as [R1 R2 R3 (s & Hs & Hu & Hd & Hb & Ha)].
  destruct (done s) eqn:Ed.
  { assert (End_ now i err c = c) as -> by (unfold End_; by rewrite Hs, Ed). eauto. }
  destruct (rg_id _ R1 _ _ Hs) as [Hid _].
  destruct (End_spec now i err c s Hs Hid Ed) as ((g & Eg & G1 & G2 & G3 & G4) & Ea & En & Eb).
  pose proof (apply_registry c (now, EvEnd i err) I R1) as HR. cbn in HR.
  assert (sessions (End_ now i err c) !! i = Some (g s)) as Hgs by (by rewrite Eg, lookup_alter_eq, Hs).
  split; [|eauto]. split; [done|congruence| |].
  - intros j Hj. rewrite Eg, lookup_alter_ne by done. by apply R3.
  - exists (g s). rewrite G2, G3, G4, Ea, Eb, Ha. unfold bytes, done_count in *. rewrite Ed in Hb. rewrite G2.
    injection Hb as B1 B2 B3. split_and!; try done; [|set_solver].
    rewrite B1, B2, B3. by rewrite Z.add_0_r.
Qed.
End own.

Section conn.
Context `{UnicodeCase, RouterEnv, Dns.DNSLib, GoSort, TimeFormat, SmartUpstream U} {R : Type}.
Context (router : option Router) (EnableIPv6 : bool).

Definition owns (c0 : Collector) (i ub db : Z) (s : St U R) : Prop :=
  match coll s with Some c => own c0 i ub db c | None => False end.

(** Bytes the relay moves in one direction. *)
Definition moved (dir : bool) (l : list (time * bool * Z)) : Z :=
  foldr (λ ch n, (if Bool.eqb ch.1.2 dir then Z.max 0 ch.2 else 0) + n) 0 l.

Lemma owns_coll c0 i ub db (s s' : St U R) : coll s' = coll s → owns c0 i ub db s → owns c0 i ub db s'.
Proof. unfold owns. by intros ->. Qed.

Lemma owns_session c0 i ub db ub' db' f (s : St U R) :
  (∀ c, own c0 i ub db c → own c0 i ub' db' (f i c)) →
  owns c0 i ub db s → owns c0 i ub' db' (on_session f (Some i) s).
Proof. unfold owns, on_session. cbn. destruct (coll s); [cbn; auto|done]. Qed.

Lemma record_coll n a b (s : St U R) : coll (recordNodeTraffic n a b s) = coll s.
Proof. unfold recordNodeTraffic. by case_match. Qed.

Lemma relay_owns c0 i ub db env n (s : St U R) :
  owns c0 i ub db s →
  owns c0 i (ub + moved true (e_relay env)) (db + moved false (e_relay env)) (relayStreams env (Some i) n s).
Proof.
  unfold relayStreams. generalize (e_relay env). intros l. revert ub db s.
  induction l as [|[[t dir] x] l IH]; intros ub db s Hs; cbn [moved foldr foldl fst snd].
  - by rewrite !Z.add_0_r.
  - fold (moved true l) (moved false l). destruct dir; cbn [Bool.eqb relay_chunk].
    + rewrite Z.add_assoc, Z.add_0_l. apply IH. eapply owns_coll; [apply record_coll|].
      eapply owns_session; [|exact Hs]. intros. by apply own_upload.
    + rewrite (Z.add_assoc db), Z.add_0_l. apply IH. eapply owns_coll; [apply record_coll|].
      eapply owns_session; [|exact Hs]. intros. by apply own_download.
Qed.

Lemma fail_owns c0 i ub db env msg (s : St U R) :
  i ∉ active c0 → owns c0 i ub db s → owns c0 i ub db (Fail env msg (Some i) s).
Proof. intros Hf. apply owns_session. intros c Hc. by apply own_end. Qed.

Lemma pick_coll (s : St U R) : coll (PickNode s).1 = coll s.
Proof. unfold PickNode. destruct (up s); [|done]. by destruct (up_pick u). Qed.

(** The relay answers nothing and dials nothing. *)
Lemma relay_frame env sess n (s : St U R) :
  out (relayStreams env sess n s) = out s ∧ dials (relayStreams env sess n s) = dials s ∧
  sent (relayStreams env sess n s) = sent s.
Proof.
  unfold relayStreams. generalize (e_relay env). intros l. revert s. induction l as [|[[t dir] x] l IH]; intros s; [done|].
  cbn [foldl]. destruct (IH (relay_chunk sess n s (t, dir, x))) as (-> & -> & ->).
  unfold relay_chunk, recordNodeTraffic, on_session. destruct dir, sess; by case_match.
Qed.

Lemma relay_out env sess n (s : St U R) : out (relayStreams env sess n s) = out s.
Proof. apply relay_frame. Qed.

Lemma relay_dials env sess n (s : St U R) : dials (relayStreams env sess n s) = dials s.
Proof. apply relay_frame. Qed.

(** The connections the upstream's nodes carry. *)
Definition load (s : St U R) : option (list Z) := up_load <$> up s.

Lemma record_load n a b (s : St U R) : load (recordNodeTraffic n a b s) = load s.
Proof. unfold recordNodeTraffic, load. case_match; [done|]. cbn. destruct (up s); [|done]. cbn. by rewrite up_traffic_load. Qed.

Lemma session_load f sess (s : St U R) : load (on_session f sess s) = load s.
Proof. by destruct sess. Qed.

Lemma session_frame f sess (s : St U R) :
  out (on_session f sess s) = out s ∧ dials (on_session f sess s) = dials s ∧ sent (on_session f sess s) = sent s.
Proof. by destruct sess. Qed.

Lemma relay_load env sess n (s : St U R) : load (relayStreams env sess n s) = load s.
Proof.
  unfold relayStreams. generalize (e_relay env). intros l. revert s. induction l as [|[[t dir] x] l IH]; intros s; [done|].
  cbn [foldl]. rewrite IH. unfold relay_chunk. by destruct dir; rewrite record_load, session_load.
Qed.

Lemma report_load n (s : St U R) : load (report n s) = load s.
Proof. unfold report, load. cbn. destruct (up s); [|done]. cbn. by rewrite up_fail_load. Qed.

Lemma release_load tok (s s' : St U R) : load s = load s' → load (release tok s) = load (release tok s').
Proof.
  unfold release, load. destruct tok as [t|]; [|done]. cbn. destruct (up s), (up s'); cbn; try done.
  intros [= E]. f_equal. by apply up_release_load.
Qed.

Lemma pick_release_load (s s' : St U R) a n tok :
  PickNode s = (s', (a, n, tok)) → load (release tok s') = load s.
Proof.
  unfold PickNode. destruct (up s) as [u|] eqn:Eu; [|intros [= <- _ _ <-]; done].
  destruct (up_pick u) as [u' [[a' n'] t]] eqn:Ep. intros [= <- _ _ <-]. unfold load. rewrite Eu. destruct t as [t|]; cbn.
  - by rewrite (up_pick_release _ _ _ _ _ Ep).
  - by rewrite (up_pick_none _ _ _ _ Ep).
Qed.

(** *** What the client is told and what is relayed

    An outcome table: whether the target is reached, by decision and by the network's
    outcomes, and the answer and the bytes that follow from it. *)
Definition succeeds {A} (o : option A) : bool := match o with None => true | Some _ => false end.

(** The address the upstream lends. *)
Definition picked (s : St U R) : string := (PickNode s).2.1.1.

Definition agreed (env : Env) (addr : string) : bool :=
  negb (String.eqb addr "") && succeeds (e_resolve env) && succeeds (e_dial env) && succeeds (e_handshake env) &&
  succeeds (e_connect env).

Definition blocked (host : string) : bool := negb EnableIPv6 && isIPv6Literal host.

Definition reached (env : Env) (dec : RouteDecision) (host : string) (s : St U R) : bool :=
  match dec with Direct => succeeds (e_direct env) | Proxy => negb (blocked host) && agreed env (picked s) end.

Definition answer (d : Dialect R) (env : Env) (dec : RouteDecision) (host : string) (s : St U R) : R :=
  if reached env dec host s then r_ok d
  else match dec with Direct => r_direct_failed d | Proxy => if blocked host then r_ipv6 d else r_failed d end.

(** The bytes relayed in a direction, if the target is reached ([b]) and the client
    takes the answer. *)
Definition conveyed (b : bool) (dir : bool) (env : Env) : Z := if b && e_write env then moved dir (e_relay env) else 0.

(** What the direct path and the upstream path do: the answer [r], the session's bytes,
    the dials. *)
Record path (env : Env) (ok : list Dial → Prop) (r : R) (b : bool) (i : Z) (s s' : St U R) : Prop := {
  pa_out : out s' = out s ++ [r];
  pa_own : ∀ c0, i ∉ active c0 → owns c0 i 0 0 s → owns c0 i (conveyed b true env) (conveyed b false env) s';
  pa_dials : ∃ ds, dials s' = dials s ++ ds ∧ ok ds;
}.

(** The end of a path that reached its target: the answer, then the relay. *)
Lemma relayed_path env ok r ds n i (s s1 : St U R) :
  coll s1 = coll s → out s1 = out s ++ [r] → dials s1 = dials s ++ ds → ok ds →
  path env ok r true i s (if e_write env then relayStreams env (Some i) n s1 else s1).
Proof.
  intros Ec Eo Ed Hok. destruct (e_write env) eqn:Ew; split; rewrite ?relay_out, ?relay_dials; eauto;
    intros c0 Hf Ho; unfold conveyed; rewrite Ew; [apply (relay_owns c0 i 0 0)|]; by eapply owns_coll.
Qed.

(** The end of a path that failed: the error, then the answer. *)
Lemma failed_path env ok r msg ds i (s s1 : St U R) :
  coll s1 = coll s → out s1 = out s → dials s1 = dials s ++ ds → ok ds →
  path env ok r false i s (reply r (Fail env msg (Some i) s1)).
Proof.
  intros Ec Eo Ed Hok. split; [cbn; by rewrite Eo| |by exists ds].
  intros c0 Hf Ho. apply (fail_owns c0 i 0 0 env msg s1 Hf). by eapply owns_coll.
Qed.

Lemma via_direct_path d env addr host i (s : St U R) :
  path env (λ ds, ds = [DialDirect addr]) (answer d env Direct host s) (reached env Direct host s) i s
    (via_direct d env addr (Some i) s) ∧
  load (via_direct d env addr (Some i) s) = load s.
Proof.
  unfold via_direct, answer, reached. cbv zeta. destruct (e_direct env) as [e|]; cbn [succeeds].
  - split; [|done]. by apply (failed_path env _ _ _ [DialDirect addr] i s (dial (DialDirect addr) s)).
  - split; [|destruct (e_write env); by rewrite ?relay_load]. by apply (relayed_path env _ _ [DialDirect addr]).
Qed.

(** Dials that respect a proxied decision: never the target directly, and an
    IPv6 literal only when IPv6 is on. *)
Definition proxied (host : string) (port : Z) (ds : list Dial) : Prop :=
  Forall (λ x, match x with
               | DialDirect _ => False
               | DialUpstream _ => True
               | ConnectVia h p => h = host ∧ p = port ∧ (EnableIPv6 = true ∨ isIPv6Literal host = false)
               end) ds.

Lemma spp_connect_path d env host port a n i (s : St U R) :
  (EnableIPv6 = true ∨ isIPv6Literal host = false) →
  path env (proxied host port) (if agreed env a then r_ok d else r_failed d) (agreed env a) i s
    (spp_connect d env host port a n (Some i) s) ∧
  load (spp_connect d env host port a n (Some i) s) = load s.
Proof.
  intros H6. unfold spp_connect, agreed. cbv zeta.
  assert (proxied host port []) as Hp0 by apply Forall_nil_2.
  assert (proxied host port [DialUpstream a]) as Hp1 by by apply Forall_singleton.
  assert (proxied host port [DialUpstream a; ConnectVia host port]) as Hp2
    by (apply Forall_cons; split; [done|by apply Forall_singleton]).
  destruct (String.eqb a ""); cbn [negb andb]; [split; [apply (failed_path env _ _ _ [] i s s); by rewrite ?app_nil_r|done]|].
  destruct (e_resolve env); cbn [succeeds andb]; [split; [apply (failed_path env _ _ _ [] i s s); by rewrite ?app_nil_r|done]|].
  set (s1 := dial (DialUpstream a) s).
  destruct (e_dial env); cbn [succeeds andb];
    [split; [by apply (failed_path env _ _ _ [DialUpstream a] i s (report n s1))|exact (report_load n s1)]|].
  destruct (e_handshake env); cbn [succeeds andb];
    [split; [by apply (failed_path env _ _ _ [DialUpstream a] i s (report n s1))|exact (report_load n s1)]|].
  set (s2 := dial (ConnectVia host port) s1).
  assert (dials s2 = dials s ++ [DialUpstream a; ConnectVia host port]) as Ed2 by (cbn; by rewrite <- app_assoc).
  destruct (e_connect env); cbn [succeeds andb];
    [split; [by apply (failed_path env _ _ _ [DialUpstream a; ConnectVia host port] i s s2)|done]|].
  assert (out (recordNodeTraffic n 1 1 s2) = out s ∧ dials (recordNodeTraffic n 1 1 s2) = dials s2) as [Eo3 Ed3]
    by (unfold recordNodeTraffic; by case_match).
  split; [|destruct (e_write env); rewrite ?relay_load; exact (record_load n 1 1 s2)].
  apply (relayed_path env _ _ [DialUpstream a; ConnectVia host port]); cbn; rewrite ?record_coll, ?Eo3, ?Ed3; done.
Qed.

Lemma release_same tok (s : St U R) :
  coll (release tok s) = coll s ∧ out (release tok s) = out s ∧ dials (release tok s) = dials s.
Proof. by destruct tok. Qed.

Lemma via_spp_path d env host port i (s : St U R) :
  path env (proxied host port) (answer d env Proxy host s) (reached env Proxy host s) i s
    (via_spp EnableIPv6 d env host port (Some i) s) ∧
  load (via_spp EnableIPv6 d env host port (Some i) s) = load s.
Proof.
  unfold via_spp, answer, reached, picked. destruct (negb EnableIPv6 && isIPv6Literal host) eqn:E6; unfold blocked; rewrite E6.
  { split; [|done]. split; [done|auto|]. exists []. rewrite app_nil_r. split; [done|apply Forall_nil_2]. }
  assert (EnableIPv6 = true ∨ isIPv6Literal host = false) as H6.
  { apply andb_false_iff in E6 as [?%negb_false_iff|?]; auto. }
  pose proof (pick_coll s) as Epc. destruct (PickNode s) as [s1 [[a n] tok]] eqn:Ep. cbn [fst snd negb andb] in *.
  assert (out s1 = out s ∧ dials s1 = dials s) as [Eo1 Ed1].
  { unfold PickNode in Ep. destruct (up s) as [u|]; [destruct (up_pick u)|]; by injection Ep as <- _. }
  set (s2 := SetNode_ n (Some i) s1).
  assert (out s2 = out s1 ∧ dials s2 = dials s1 ∧ load s2 = load s1) as (Eo2 & Ed2 & El2)
    by (unfold s2, SetNode_; by case_match).
  assert (∀ c0, owns c0 i 0 0 s → owns c0 i 0 0 s2) as Hc2.
  { intros c0 Ho. unfold s2, SetNode_. assert (owns c0 i 0 0 s1) by by eapply owns_coll. case_match; [done|].
    eapply owns_session; [|done]. intros c. apply own_setnode. }
  destruct (spp_connect_path d env host port a n i s2 H6) as [[Er Hr (ds & Eds & Hds)] El3].
  set (s3 := spp_connect d env host port a n (Some i) s2) in *. clearbody s3.
  destruct (release_same tok s3) as (Ec4 & Eo4 & Ed4). split.
  - split; [by rewrite Eo4, Er, Eo2, Eo1| |by exists ds; rewrite Ed4, Eds, Ed2, Ed1].
    intros c0 Hf Ho. eapply owns_coll; [exact Ec4|]. by apply Hr, Hc2.
  - rewrite <- (pick_release_load _ _ _ _ _ Ep). apply release_load. by rewrite El3.
Qed.

(** ** The whole handler *)

Lemma route_frame env host (s s' : St U R) r :
  routeDecision router env host s = (s', r) →
  coll s' = coll s ∧ up s' = up s ∧ out s' = out s ∧ dials s' = dials s.
Proof.
  unfold routeDecision. destruct (dnsS s) as [x|]; [|by intros [= <- _]].
  destruct (Dns.LookupDomainByIP (t_route env) host x). by intros [= <- _].
Qed.

Lemma begin_frame env p cl h port dec (s s' : St U R) sess :
  beginSession env p cl h port dec s = (s', sess) →
  up s' = up s ∧ out s' = out s ∧ dials s' = dials s ∧
  match coll s with
  | None => sess = None ∧ coll s' = None
  | Some c0 => sess = Some (nextID c0 + 1) ∧ (registry c0 → owns c0 (nextID c0 + 1) 0 0 s')
  end.
Proof.
  unfold beginSession. cbv zeta. destruct (coll s) as [c0|] eqn:Ec; [|by intros [= <- <-]].
  cbn [Begin]. intros [= <- <-]. split_and!; try done. intros HR. unfold owns. cbn [coll]. by apply own_begin.
Qed.

(** Closing the session leaves it in the collector with the bytes it moved. *)
Record closed_session (c0 : Collector) (i ub db : Z) (c : Collector) (ss : Session) : Prop := {
  cs_reg : registry c;
  cs_self : sessions c !! i = Some ss;
  cs_done : done ss = true;
  cs_active : active c = active c0;
  cs_conns : cConns (totals c) = cConns (totals c0) + 1;
  cs_up : cUpload (totals c) = cUpload (totals c0) + ub ∧ upload ss = ub;
  cs_down : cDownload (totals c) = cDownload (totals c0) + db ∧ download ss = db;
}.

Lemma end_owns c0 i ub db now (s : St U R) :
  i ∉ active c0 → owns c0 i ub db s →
  ∃ c ss, coll (on_session (λ i, End_ now i None) (Some i) s) = Some c ∧ closed_session c0 i ub db c ss.
Proof.
  intros Hf. unfold owns, on_session. cbn. destruct (coll s) as [c3|]; [|done]. intros Ho.
  destruct (own_end c0 i ub db now None c3 Hf Ho) as [[R1 R2 R3 (ss & Hss & Hu & Hd & Hb & Ha)] (ss' & Hss' & Hdone)].
  rewrite Hss in Hss'. injection Hss' as <-. rewrite Hdone in Ha. unfold bytes, done_count in Hb. rewrite Hdone in Hb.
  injection Hb as B1 B2 B3. exists (End_ now i None c3), ss. split; [done|]. by split.
Qed.

Lemma registry_fresh c : registry c → nextID c + 1 ∉ active c.
Proof. intros [R1 R2 R3] (s & Hs & _)%R2. apply R1 in Hs. lia. Qed.

(** What the answer depends on is not changed before the paths begin. *)
Lemma reached_same env dec host (s s' : St U R) : up s' = up s → reached env dec host s' = reached env dec host s.
Proof. intros E. unfold reached, picked, PickNode. rewrite E. destruct dec, (up s) as [u|]; try done. by destruct (up_pick u). Qed.

(** C1: every connection is accounted, exactly once and completely.  For every decision
    and every outcome of the network, a handled CONNECT answers the client exactly once,
    with success exactly when the target was reached (directly, or through an upstream
    that was lent, resolved, dialled, and agreed); it leaves no live session behind, adds
    one connection to the totals, and adds to its session and to the totals exactly the
    bytes the relay carried, which are none unless the target was reached and the client
    took the answer. *)
Theorem connect_accounted d env client host port (s : St U R) c0 :
  coll s = Some c0 → registry c0 →
  let s' := handleConnect router EnableIPv6 d env client host port s in
  let h := canonicalHost host in
  let dec := (routeDecision router env h s).2.1 in
  let b := reached env dec h s in
  out s' = out s ++ [answer d env dec h s] ∧
  ∃ c ss, coll s' = Some c ∧ registry c ∧ sessions c !! (nextID c0 + 1) = Some ss ∧ done ss = true ∧
    active c = active c0 ∧ cConns (totals c) = cConns (totals c0) + 1 ∧
    upload ss = conveyed b true env ∧ download ss = conveyed b false env ∧
    cUpload (totals c) = cUpload (totals c0) + conveyed b true env ∧
    cDownload (totals c) = cDownload (totals c0) + conveyed b false env.
Proof.
  intros Hc HR. unfold handleConnect. cbv zeta.
  destruct (routeDecision router env (canonicalHost host) s) as [s1 [dec real]] eqn:E1.
  apply route_frame in E1 as (Ec1 & Eu1 & Eo1 & _).
  destruct (beginSession env (proto_of d) client real port dec s1) as [s2 sess] eqn:E2. cbn [fst snd].
  apply begin_frame in E2 as (Eu2 & Eo2 & _ & Hs2). rewrite Ec1, Hc in Hs2. destruct Hs2 as [-> Ho2]. specialize (Ho2 HR).
  set (i := nextID c0 + 1) in *. pose proof (registry_fresh c0 HR) as Hf. fold i in Hf.
  set (h := canonicalHost host) in *. set (s3 := match dec with Direct => _ | Proxy => _ end).
  assert (∃ ok, path env ok (answer d env dec h s2) (reached env dec h s2) i s2 s3) as [ok [Er Hr _]].
  { unfold s3. destruct dec; eexists; [apply via_direct_path|apply via_spp_path]. }
  unfold answer in Er. rewrite (reached_same env dec h s s2) in Er, Hr by congruence. fold (answer d env dec h s) in Er. clearbody s3.
  destruct (session_frame (λ i, End_ (t_end env) i None) (Some i) s3) as (-> & _ & _). split; [by rewrite Er, Eo2, Eo1|].
  destruct (end_owns c0 i _ _ (t_end env) s3 Hf (Hr c0 Hf Ho2)) as (c & ss & E & [R1 R2 R3 R4 R5 [R6 E6] [R7 E7]]). by exists c, ss.
Qed.

(** C9: dialling follows the routing decision.  A direct decision dials the target
    itself and nothing else; a proxied one never dials the target, asks the upstream
    only for the requested host and port, and never for an IPv6 literal while IPv6
    is off. *)
Theorem connect_respects_route d env client host port (s : St U R) c0 :
  coll s = Some c0 →
  let h := canonicalHost host in
  ∃ ds, dials (handleConnect router EnableIPv6 d env client host port s) = dials s ++ ds ∧
    match (routeDecision router env h s).2.1 with
    | Direct => ds = [DialDirect (joinDialAddr h port)]
    | Proxy => proxied h port ds
    end.
Proof.
  intros Hc. cbv zeta. unfold handleConnect. cbv zeta.
  destruct (routeDecision router env (canonicalHost host) s) as [s1 [dec real]] eqn:E1. cbn [fst snd].
  apply route_frame in E1 as (Ec1 & _ & _ & Ed1).
  destruct (beginSession env (proto_of d) client real port dec s1) as [s2 sess] eqn:E2.
  apply begin_frame in E2 as (_ & _ & Ed2 & Hs2). rewrite Ec1, Hc in Hs2. destruct Hs2 as [-> _].
  cbn [on_session dials]. destruct dec; cbn.
  - destruct (via_direct_path d env (joinDialAddr (canonicalHost host) port) host (nextID c0 + 1) s2) as [[_ _ (ds & Eds & Hds)] _].
    exists ds. by rewrite Eds, Ed2, Ed1.
  - destruct (via_spp_path d env (canonicalHost host) port (nextID c0 + 1) s2) as [[_ _ (ds & Eds & Hds)] _].
    exists ds. by rewrite Eds, Ed2, Ed1.
Qed.

(** C21: nodes are always given back.  Whatever the network does, after a CONNECT
    every node of the upstream carries as many connections as before it. *)
Theorem connect_gives_back d env client host port (s : St U R) c0 :
  coll s = Some c0 → load (handleConnect router EnableIPv6 d env client host port s) = load s.
Proof.
  intros Hc. unfold handleConnect. cbv zeta.
  destruct (routeDecision router env (canonicalHost host) s) as [s1 [dec real]] eqn:E1.
  apply route_frame in E1 as (Ec1 & Eu1 & _ & _).
  destruct (beginSession env (proto_of d) client real port dec s1) as [s2 sess] eqn:E2.
  apply begin_frame in E2 as (Eu2 & _ & _ & Hs2). rewrite Ec1, Hc in Hs2. destruct Hs2 as [-> _].
  rewrite session_load. assert (load s2 = load s) as <- by (unfold load; by rewrite Eu2, Eu1).
  destruct dec; [by apply (via_direct_path d env _ host)|apply via_spp_path].
Qed.
End conn.

(** ** Plain HTTP requests *)

Section standard.
Context `{UnicodeCase, RouterEnv, Dns.DNSLib, GoSort, TimeFormat, SmartUpstream U}.
Context (router : option Router) (EnableIPv6 : bool).

(** The body of the handler between the session's begin and its end: one 502 and
    nothing sent, or the head sent once and nothing answered by the proxy itself. *)
Record std_path (env : Env) (head : string) (ok : list Dial → Prop) (i : Z) (s s' : St U string) : Prop := {
  st_io : (out s' = out s ++ [Http.http502] ∧ sent s' = sent s ∧
           ∀ c0, i ∉ active c0 → owns c0 i 0 0 s → owns c0 i 0 0 s') ∨
          (out s' = out s ∧ sent s' = sent s ++ [head] ∧
           ∀ c0, i ∉ active c0 → owns c0 i 0 0 s →
             if e_write env then owns c0 i (moved true (e_relay env)) (moved false (e_relay env)) s'
             else owns c0 i 0 0 s');
  st_dials : ∃ ds, dials s' = dials s ++ ds ∧ ok ds;
  st_load : load s' = load s;
}.

Lemma forward_true env head n i ok (s s0 : St U string) ds :
  coll s = coll s0 → out s = out s0 → sent s = sent s0 → load s = load s0 → dials s = dials s0 ++ ds → ok ds →
  std_path env head ok i s0 (forward env head n (Some i) true s).
Proof.
  intros Ec Eo Es El Ed Hok. unfold forward. cbv zeta.
  destruct (relay_frame env (Some i) n (send head s)) as (Ro & Rd & Rs).
  destruct (e_write env) eqn:Ew; split; try (exists ds; by rewrite ?Rd); try (rewrite ?relay_load; done).
  - right. rewrite Ro, Rs, Ew. cbn. rewrite Eo, Es. split_and!; [done..|]. intros c0 Hf Ho.
    apply (relay_owns c0 i 0 0). by eapply owns_coll; [|exact Ho].
  - right. rewrite Ew. cbn. rewrite Eo, Es. split_and!; [done..|]. intros c0 Hf Ho. by eapply owns_coll; [|exact Ho].
Qed.

Lemma refuse_path env head i ok (s s0 : St U string) ds :
  (∀ c0, i ∉ active c0 → owns c0 i 0 0 s0 → owns c0 i 0 0 s) →
  out s = out s0 → sent s = sent s0 → load s = load s0 → dials s = dials s0 ++ ds → ok ds →
  std_path env head ok i s0 (reply Http.http502 s).
Proof.
  intros Ec Eo Es El Ed Hok. split; [|by exists ds|done]. left. cbn. by rewrite Eo, Es.
Qed.

Lemma fail_path env head msg i ok (s s0 : St U string) ds :
  coll s = coll s0 → out s = out s0 → sent s = sent s0 → load s = load s0 → dials s = dials s0 ++ ds → ok ds →
  std_path env head ok i s0 (reply Http.http502 (Fail env msg (Some i) s)).
Proof.
  intros Ec Eo Es El Ed Hok.
  destruct (session_frame (λ i, End_ (t_fail env) i (Some msg)) (Some i) s) as (Fo & Fd & Fs).
  pose proof (session_load (λ i, End_ (t_fail env) i (Some msg)) (Some i) s) as Fl.
  eapply (refuse_path env head i ok _ s0 ds); unfold Fail; rewrite ?Fo, ?Fd, ?Fs, ?Fl; [|assumption..].
  intros c0 Hf Ho. apply fail_owns; [done|]. by eapply owns_coll.
Qed.

Lemma open_spp_frame env host port a n (s s' : St U string) b :
  (EnableIPv6 = true ∨ isIPv6Literal host = false) → open_spp env host port a n s = (s', b) →
  coll s' = coll s ∧ out s' = out s ∧ sent s' = sent s ∧ load s' = load s ∧
  ∃ ds, dials s' = dials s ++ ds ∧ proxied EnableIPv6 host port ds.
Proof.
  intros H6. unfold open_spp. cbv zeta.
  assert (proxied EnableIPv6 host port [DialUpstream a]) as Hp1 by by apply Forall_singleton.
  assert (proxied EnableIPv6 host port [DialUpstream a; ConnectVia host port]) as Hp2
    by (apply Forall_cons; split; [done|by apply Forall_singleton]).
  destruct (e_resolve env); [intros [= <- _]; split_and!; try done; exists []; rewrite app_nil_r; split; [done|apply Forall_nil_2]|].
  destruct (e_dial env), (e_handshake env); try (intros [= <- _]; split_and!; try done; by exists [DialUpstream a]).
  set (s2 := dial (ConnectVia host port) (dial (DialUpstream a) s)).
  assert (dials s2 = dials s ++ [DialUpstream a; ConnectVia host port]) as Ed2 by (cbn; by rewrite <- app_assoc).
  destruct (e_connect env); intros [= <- _]; [split_and!; try done; by exists [DialUpstream a; ConnectVia host port]|].
  split_and!; [by rewrite record_coll| | |by rewrite record_load|exists [DialUpstream a; ConnectVia host port]; split; [|done]];
    unfold recordNodeTraffic; by case_match.
Qed.

Lemma std_release env head ok i tok (s s0 s1 s' : St U string) :
  load (release tok s1) = load s → load s' = load s1 →
  (∀ c0, owns c0 i 0 0 s0 → owns c0 i 0 0 s1) → out s0 = out s1 → sent s0 = sent s1 → dials s0 = dials s1 →
  load s0 = load s →
  std_path env head ok i s1 s' → std_path env head ok i s0 (release tok s').
Proof.
  intros E1 E2 Ec Eo Es Ed El [Hio Hd _].
  assert (coll (release tok s') = coll s' ∧ out (release tok s') = out s' ∧ sent (release tok s') = sent s' ∧
    dials (release tok s') = dials s') as (C & O & S & D) by by destruct tok.
  split; [|by rewrite D, Ed|by rewrite El, <- E1; apply release_load].
  rewrite O, S, Eo, Es. destruct Hio as [(Io & Is & Hc)|(Io & Is & Hc)]; [left|right]; (split_and!; [done..|]);
    intros c0 Hf Ho; specialize (Hc c0 Hf (Ec c0 Ho)).
  - by eapply owns_coll.
  - destruct (e_write env); by eapply owns_coll.
Qed.
Lemma std_proxy_path env host port head i (s : St U string) :
  std_path env head (proxied EnableIPv6 host port) i s
    (if negb EnableIPv6 && isIPv6Literal host then reply Http.http502 s
     else
       let '(s, (sppAddr, nodeName, tok)) := PickNode s in
       let s := SetNode_ nodeName (Some i) s in
       release tok
         (if String.eqb sppAddr "" then reply Http.http502 s
          else
            let '(s, ok) := open_spp env host port sppAddr nodeName s in
            let s := if ok then s else Fail env "spp connection failed" (Some i) s in
            forward env head nodeName (Some i) ok s)).
Proof.
  assert (proxied EnableIPv6 host port []) as Hnil by apply Forall_nil_2.
  destruct (negb EnableIPv6 && isIPv6Literal host) eqn:E6.
  { apply (refuse_path env head i _ s s []); [auto|done..|by rewrite app_nil_r|done]. }
  assert (EnableIPv6 = true ∨ isIPv6Literal host = false) as H6.
  { apply andb_false_iff in E6 as [?%negb_false_iff|?]; auto. }
  pose proof (pick_coll s) as Epc. destruct (PickNode s) as [s1 [[a n] tok]] eqn:Ep. cbn [fst] in Epc.
  assert (out s1 = out s ∧ dials s1 = dials s ∧ sent s1 = sent s) as (Eo1 & Ed1 & Es1).
  { unfold PickNode in Ep. destruct (up s) as [u|]; [destruct (up_pick u)|]; by injection Ep as <- _. }
  cbv zeta. set (s2 := SetNode_ n (Some i) s1).
  assert (out s2 = out s1 ∧ dials s2 = dials s1 ∧ sent s2 = sent s1 ∧ load s2 = load s1) as (Eo2 & Ed2 & Es2 & El2)
    by (unfold s2, SetNode_; by case_match).
  apply (std_release env head (proxied EnableIPv6 host port) i tok s s s2).
  - rewrite <- (pick_release_load _ _ _ _ _ Ep). by apply release_load.
  - destruct (String.eqb a ""); [done|]. destruct (open_spp env host port a n s2) as [s3 b] eqn:E3.
    apply open_spp_frame in E3 as (_ & _ & _ & El3 & _); [|done]. unfold forward.
    destruct b; [|cbn; done]. destruct (e_write env); [by rewrite relay_load|done].
  - intros c0 Ho. unfold s2, SetNode_. assert (owns c0 i 0 0 s1) by by eapply owns_coll. case_match; [done|].
    eapply owns_session; [|done]. intros c. apply own_setnode.
  - by rewrite Eo2.
  - by rewrite Es2.
  - by rewrite Ed2.
  - done.
  - destruct (String.eqb a "").
    { apply (refuse_path env head i _ s2 s2 []); [auto|done..|by rewrite app_nil_r|done]. }
    destruct (open_spp env host port a n s2) as [s3 b] eqn:E3.
    apply open_spp_frame in E3 as (Ec3 & Eo3 & Es3 & El3 & ds & Ed3 & Hds); [|done]. destruct b.
    + by apply (forward_true env head n i _ s3 s2 ds).
    + by apply (fail_path env head _ i _ s3 s2 ds).
Qed.

(** C24: a plain HTTP request is carried or refused, never both.  Whatever the network
    does: either the client gets one 502 and nothing is written to any target, or the
    rewritten head is written once, before the relay, and the proxy answers nothing
    itself.  The session is closed with exactly the relayed bytes and one connection,
    the node is given back, and the dials follow the routing decision. *)
Theorem standard_http_session env client req (s : St U string) c0 :
  coll s = Some c0 → registry c0 →
  let s' := handleStandardHTTP router EnableIPv6 env client req s in
  let h := canonicalHost (Http.targetHost req) in
  load s' = load s ∧
  (∃ ds, dials s' = dials s ++ ds ∧
    match (routeDecision router env h s).2.1 with
    | Direct => ds = [DialDirect (joinDialAddr h (Http.targetPort req))]
    | Proxy => proxied EnableIPv6 h (Http.targetPort req) ds
    end) ∧
  ∃ c ss ub db, coll s' = Some c ∧ closed_session c0 (nextID c0 + 1) ub db c ss ∧
    (out s' = out s ++ [Http.http502] ∧ sent s' = sent s ∧ ub = 0 ∧ db = 0 ∨
     out s' = out s ∧ sent s' = sent s ++ [Http.reqBuf req] ∧
     ub = (if e_write env then moved true (e_relay env) else 0) ∧
     db = (if e_write env then moved false (e_relay env) else 0)).
Proof.
  intros Hc HR. unfold handleStandardHTTP. cbv zeta.
  destruct (routeDecision router env (canonicalHost (Http.targetHost req)) s) as [s1 [dec real]] eqn:E1. cbn [fst snd].
  pose proof E1 as Ef. apply route_frame in Ef as (Ec1 & Eu1 & Eo1 & Ed1).
  assert (sent s1 = sent s) as Es1 by (unfold routeDecision in E1; destruct (dnsS s); [destruct (Dns.LookupDomainByIP _ _ _)|]; by injection E1 as <- _).
  destruct (beginSession env ProtoHTTP client real (Http.targetPort req) dec s1) as [s2 sess] eqn:E2.
  assert (sent s2 = sent s1) as Es2 by (unfold beginSession in E2; destruct (coll s1); [cbn in E2|]; by injection E2 as <- _).
  apply begin_frame in E2 as (Eu2 & Eo2 & Ed2 & Hs2). rewrite Ec1, Hc in Hs2. destruct Hs2 as [-> Ho2]. specialize (Ho2 HR).
  set (i := nextID c0 + 1) in *. pose proof (registry_fresh c0 HR) as Hf. fold i in Hf.
  set (h := canonicalHost (Http.targetHost req)) in *. set (p := Http.targetPort req) in *.
  set (s3 := match dec with Direct => _ | Proxy => _ end).
  assert (std_path env (Http.reqBuf req)
    (λ ds, match dec with Direct => ds = [DialDirect (joinDialAddr h p)] | Proxy => proxied EnableIPv6 h p ds end) i s2 s3)
    as [Hio (ds & Eds & Hds) El].
  { unfold s3. destruct dec; [|apply std_proxy_path].
    destruct (e_direct env) as [e|]; [|by apply (forward_true env _ "" i _ _ s2 [DialDirect (joinDialAddr h p)])].
    by apply (fail_path env _ _ i _ (dial (DialDirect (joinDialAddr h p)) s2) s2 [DialDirect (joinDialAddr h p)]). }
  clearbody s3. destruct (session_frame (λ i, End_ (t_end env) i None) (Some i) s3) as (-> & -> & ->). split_and!.
  - rewrite session_load, El. unfold load. by rewrite Eu2, Eu1.
  - exists ds. by rewrite Eds, Ed2, Ed1.
  - rewrite <- Eo1, <- Eo2, <- Es1, <- Es2. destruct Hio as [(Io & Is & Ho)|(Io & Is & Ho)]; specialize (Ho c0 Hf Ho2).
    + destruct (end_owns c0 i _ _ (t_end env) s3 Hf Ho) as (c & ss & E & Hcs). exists c, ss, 0, 0.
      split; [exact E|]. split; [exact Hcs|]. left. auto.
    + destruct (e_write env); destruct (end_owns c0 i _ _ (t_end env) s3 Hf Ho) as (c & ss & E & Hcs);
        exists c, ss; do 2 eexists; (split; [exact E|]); (split; [exact Hcs|]); right; auto.
Qed.
End standard.

(** ** The SOCKS5 request *)

(** A destination as RFC 1928 writes it. *)
Inductive Dest := V4 (ip : IP) | Domain (name : string) | V6 (ip : IP).

Definition bytes_str (l : list Z) : string := String.string_of_list_ascii (byte_of <$> l).

Definition is_byte (b : Z) : Prop := 0 ≤ b < 256.

Definition dest_ok (d : Dest) : Prop :=
  match d with
  | V4 ip => length ip = 4%nat ∧ Forall is_byte ip
  | Domain name => (String.length name < 256)%nat
  | V6 ip => length ip = 16%nat ∧ Forall is_byte ip
  end.

Definition dest_wire (d : Dest) : Z * string :=
  match d with
  | V4 ip => (1, bytes_str ip)
  | Domain name => (3, String (byte_of (Z.of_nat (String.length name))) name)
  | V6 ip => (4, bytes_str ip)
  end.

Definition dest_host (d : Dest) : string := match d with V4 ip | V6 ip => ip_string ip | Domain name => name end.

Definition request_wire (cmd : Z) (d : Dest) (port : Z) : string :=
  bytes_str [5; cmd; 0; (dest_wire d).1] +:+ (dest_wire d).2 +:+ bytes_str [port `div` 256; port `mod` 256].

Lemma byte_list_str l : Forall is_byte l → byte_list (bytes_str l) = l.
Proof.
  unfold byte_list, bytes_str. rewrite String.list_ascii_of_string_of_list_ascii.
  induction 1 as [|b l Hb _ IH]; [done|]. cbn. by rewrite byte_val_of, IH.
Qed.

Lemma slen_bytes l : String.length (bytes_str l) = length l.
Proof. unfold bytes_str. induction l as [|b l IH]; [done|]. cbn. by rewrite IH. Qed.

Lemma ReadFull_app s t n : String.length s = n → ReadFull n (s +:+ t) = Some (s, t).
Proof.
  intros <-. unfold ReadFull. rewrite slen_app, stake_app, sdrop_app. by destruct (Nat.ltb_spec (String.length s + String.length t) (String.length s)); [lia|].
Qed.

Lemma ReadFull_bytes l t n : length l = n → ReadFull n (bytes_str l +:+ t) = Some (bytes_str l, t).
Proof. intros <-. apply ReadFull_app, slen_bytes. Qed.

Lemma port_bytes port : 0 ≤ port < 65536 → Forall is_byte [port `div` 256; port `mod` 256].
Proof. intros. repeat constructor; unfold is_byte; Z.to_euclidean_division_equations; lia. Qed.

Lemma port_join port : 0 ≤ port < 65536 → Z.lor (Z.shiftl (port `div` 256) 8) (port `mod` 256) = port.
Proof.
  intros Hp. rewrite Z.shiftl_mul_pow2 by lia. change 256 with (2 ^ 8). rewrite <- Z.land_ones by lia.
  rewrite <- Z.shiftl_mul_pow2, <- Z.shiftr_div_pow2 by lia. apply Z.bits_inj'. intros k Hk.
  rewrite Z.lor_spec, Z.land_spec, Z.shiftl_spec by done.
  rewrite Z.testbit_ones by lia. destruct (Z.ltb_spec k 8).
  - rewrite (Z.testbit_neg_r _ (k - 8)) by lia. destruct (Z.leb_spec 0 k); [|lia]. by rewrite andb_true_r.
  - rewrite Z.shiftr_spec by lia. replace (k - 8 + 8) with k by lia. by rewrite !andb_false_r, orb_false_r.
Qed.

Lemma readSocks5Addr_wire d port rest :
  dest_ok d → 0 ≤ port < 65536 →
  readSocks5Addr (dest_wire d).1 ((dest_wire d).2 +:+ bytes_str [port `div` 256; port `mod` 256] +:+ rest) =
    Some (canonicalHost (dest_host d), port, rest).
Proof.
  intros Hd Hp. unfold readSocks5Addr. destruct d as [ip|name|ip]; cbn [dest_wire fst snd dest_host].
  - destruct Hd as [Hl Hb]. cbn [Z.eqb Pos.eqb]. rewrite (ReadFull_bytes ip _ 4 Hl). cbn [mbind option_bind].
    rewrite byte_list_str by done. rewrite ReadFull_bytes by done. cbn [mbind option_bind].
    rewrite byte_list_str by by apply port_bytes. by rewrite port_join.
  - cbn [Z.eqb Pos.eqb]. cbn in Hd. change (String ?a ?s +:+ ?t) with (String a (s +:+ t)).
    change (ReadFull 1 (String ?a ?s)) with (Some (String a "", s)). cbn [mbind option_bind].
    change (byte_list (String ?a "")) with [byte_val a]. cbn iota. rewrite byte_val_of by lia. rewrite Nat2Z.id.
    rewrite ReadFull_app by done. cbn [mbind option_bind]. rewrite ReadFull_bytes by done. cbn [mbind option_bind].
    rewrite byte_list_str by by apply port_bytes. by rewrite port_join.
  - destruct Hd as [Hl Hb]. cbn [Z.eqb Pos.eqb]. rewrite (ReadFull_bytes ip _ 16 Hl). cbn [mbind option_bind].
    rewrite byte_list_str by done. rewrite ReadFull_bytes by done. cbn [mbind option_bind].
    rewrite byte_list_str by by apply port_bytes. by rewrite port_join.
Qed.

(** the SOCKS5 request decoder inverts the RFC 1928 encoding.  For every kind of
    destination, port and command, the handler reads exactly the request, hands the
    rest of the stream on untouched, and refuses commands other than CONNECT and UDP
    ASSOCIATE with reply code 7. *)
Theorem socks5_request_roundtrip cmd d port rest :
  is_byte cmd → dest_ok d → 0 ≤ port < 65536 →
  handleClient (request_wire cmd d port +:+ rest) =
    (if cmd =? 1 then Connect (canonicalHost (dest_host d)) port
     else if cmd =? 3 then UDPAssociate (canonicalHost (dest_host d)) port else Refuse 7, rest).
Proof.
  intros Hc Hd Hp. unfold handleClient, request_wire. rewrite !sapp_assoc, ReadFull_bytes by done.
  rewrite byte_list_str. 2:{ unfold is_byte in *. destruct d; repeat constructor; cbn; lia. }
  cbn [Z.eqb Pos.eqb negb]. rewrite readSocks5Addr_wire by done. by repeat case_match.
Qed.

Lemma socks5_request_roundtrip_witness :
  handleClient (request_wire 1 (V4 [10; 0; 0; 1]) 8080 +:+ "GET") = (Connect "10.0.0.1" 8080, "GET").
Proof.
  refine (eq_trans (socks5_request_roundtrip 1 (V4 [10; 0; 0; 1]) 8080 "GET" _ _ _) _); [split; lia| |lia|vm_compute; reflexivity].
  split; [reflexivity|]. repeat constructor; unfold is_byte; lia.
Defined.

(** ** A concrete connection

    The node manager of [SppProps] with one node down and two up. *)

#[local] Instance conn_case : UnicodeCase := ascii_case.
#[local] Instance conn_router : RouterEnv := RouterProps.demo_env.
#[local] Instance conn_dns : Dns.DNSLib := DnsProps.demo_lib.
#[local] Instance conn_sort : GoSort := merge_GoSort.
#[local] Instance conn_format : TimeFormat := λ _, String.EmptyString.
#[local] Instance conn_spp : Spp.SppLib := SppProps.demo_lib.
#[local] Instance conn_upstream : SmartUpstream Spp.Manager :=
  SppUpstream.manager_upstream SppProps.demo_net 0 {| Spp.l_now := 0; Spp.l_client := false |}.

Definition demo_collector : Collector := New (90 * second) demo_config.

Definition demo_state : St Spp.Manager Z :=
  {| coll := Some demo_collector; up := Some SppProps.demo_manager; dnsS := None; out := []; dials := []; sent := [] |}.

(** The upstream answers and the relay moves 500 bytes up and 7000 down. *)
Definition demo_conn (dial_error : option string) : Env :=
  {| t_route := 100 * second; t_begin := 100 * second; t_fail := 101 * second; t_end := 200 * second;
     e_direct := None; e_resolve := None; e_dial := dial_error; e_handshake := None; e_connect := None;
     e_write := true; e_relay := [(101 * second, true, 500); (102 * second, false, 7000)] |}.

Definition demo_run (dial_error : option string) : St Spp.Manager Z :=
  handleConnect None false socks5 (demo_conn dial_error) "client" "a.com" 443 demo_state.

Lemma demo_collector_registry : registry demo_collector.
Proof. split; [by intros i s|set_solver|done]. Defined.

Lemma connect_accounted_witness :
  option_map (λ c, (cConns (totals c), cUpload (totals c), cDownload (totals c))) (coll (demo_run None)) =
    Some (1, 500, 7000) ∧
  ∃ c, coll (demo_run None) = Some c ∧ active c = active demo_collector.
Proof.
  split; [vm_compute; reflexivity|].
  destruct (connect_accounted None false socks5 (demo_conn None) "client" "a.com" 443 demo_state demo_collector eq_refl
    demo_collector_registry) as (_ & c & _ & E & _ & _ & _ & Ea & _).
  exact (ex_intro _ c (conj E Ea)).
Defined.

Lemma connect_respects_route_witness :
  dials (demo_run None) = [DialUpstream "127.0.0.1:10809"; ConnectVia "a.com" 443] ∧
  ∃ ds, dials (demo_run None) = [] ++ ds.
Proof.
  split; [vm_compute; reflexivity|].
  destruct (connect_respects_route None false socks5 (demo_conn None) "client" "a.com" 443 demo_state demo_collector eq_refl)
    as (ds & E & _).
  exact (ex_intro _ ds E).
Defined.

Lemma connect_gives_back_witness :
  out (demo_run (Some "refused")) = [1] ∧ load (demo_run (Some "refused")) = load demo_state.
Proof.
  split; [vm_compute; reflexivity|].
  exact (connect_gives_back None false socks5 (demo_conn (Some "refused")) "client" "a.com" 443 demo_state demo_collector eq_refl).
Defined.

Definition demo_http : St Spp.Manager string :=
  {| coll := Some demo_collector; up := Some SppProps.demo_manager; dnsS := None; out := []; dials := []; sent := [] |}.

Lemma standard_http_session_witness :
  let s' := handleStandardHTTP None false (demo_conn None) "client" HttpProps.demo_request demo_http in
  sent s' = [Http.reqBuf HttpProps.demo_request] ∧ load s' = load demo_http.
Proof.
  split; [vm_compute; reflexivity|].
  exact (proj1 (standard_http_session None false (demo_conn None) "client" HttpProps.demo_request demo_http demo_collector
    eq_refl demo_collector_registry)).
Defined.
End ConnProps.
