(* ===== verification/Udp.v ===== *)
(** * core/proxy: SOCKS5 UDP associations (socks5.go, handleUDPAssociate)

    One association owns a relay socket towards its client, at most one session
    with the upstream, and one socket per direct target.  Its goroutines (the
    reader of client datagrams, one reader per outbound socket, the watcher of the
    client's TCP connection) share these; each datagram one of them handles is one
    event, and an association's history is a sequence of events.  The datagram
    format is a function of the gohome/network library and a parameter. *)

From S2P Require Import Prelude GoStrings GoNet Router Stats Dns Spp SppProps Http Conn.
Import Router.Router Addr Stats Conn.

(** [Sock5UnpackUDP] and [Sock5PackUDP] of gohome/network: host, port, payload. *)
Class SocksUDP := {
  Sock5UnpackUDP : string → option (string * Z * string);
  Sock5PackUDP : string → Z → string → option string;
}.

Module Udp.
Section udp.
Context `{UnicodeCase, RouterEnv, Dns.DNSLib, GoSort, TimeFormat, SmartUpstream U, SocksUDP}.
Context (router : option Router) (EnableIPv6 : bool).

(** The replies on the TCP connection: code and bound address. *)
Definition UState : Type := St U (Z * string).

(** [spp]: the relay endpoint the upstream advertised and the node's release
    function, while [sppTCPConn] and [sppUDPConn] are open.  The three lists are
    the datagrams written so far: to the client (what was received, what was
    written), on a direct session's socket, to the upstream's relay. *)
Record Assoc := {
  st : UState; udpSess : option Z;
  assocClosed : bool; over : bool;
  activeClientUDP : option UDPAddr;
  spp : option (UDPAddr * option token);
  directSessions : directUDPRegistry;
  toClient : list (UDPAddr * string * string);
  toDirect : list (nat * UDPAddr * string);
  toRelay : list (UDPAddr * string);
}.
#[global] Instance Assoc_eta : Eta Assoc := λ a,
  {| st := st a; udpSess := udpSess a; assocClosed := assocClosed a; over := over a;
     activeClientUDP := activeClientUDP a; spp := spp a; directSessions := directSessions a;
     toClient := toClient a; toDirect := toDirect a; toRelay := toRelay a |}.

(** The reply and the session that open the association; [bnd] is the relay's
    address ([None]: it could not be bound), [wrote] whether the reply was sent. *)
Definition associate (now : time) (client : string) (bnd : option string) (wrote : bool) (s : UState) :
    UState * option Assoc :=
  match bnd with
  | None => (reply (1, "0.0.0.0:0") s, None)
  | Some bndAddr =>
      let s := reply (0, bndAddr) s in
      if wrote then
        let '(c, i) := match coll s with
                       | None => (None, None)
                       | Some c => let '(c, i) := Begin now ProtoUDP client "" 0 DecisionNone "" c in (Some c, Some i)
                       end in
        let s := {| coll := c; up := up s; dnsS := dnsS s; out := out s; dials := dials s; sent := sent s |} in
        (s, Some {| st := s; udpSess := i; assocClosed := false; over := false; activeClientUDP := None; spp := None;
                    directSessions := newDirectUDPRegistry; toClient := []; toDirect := []; toRelay := [] |})
      else (s, None)
  end.

Definition AddDatagram_ (now : time) (h : string) (d : Decision) (ub db : Z) (a : Assoc) : Assoc :=
  a <| st ::= on_session (λ i, AddDatagram now i h d ub db) (udpSess a) |>.

(** ** The upstream session *)

(** What setting it up meets: [None] is success; [o_bnd] is the address the
    upstream answers, [o_split] the error of splitting it, [o_remote] the
    upstream's own address. *)
Record SppOutcome := {
  o_resolve : option string; o_dial : option string; o_handshake : option string;
  o_bnd : result string string; o_split : string; o_remote : IP; o_listen : option string;
}.

(** [p, _ := strconv.Atoi(s)]: 0 for no number, the nearest int for one out of
    range. *)
Definition atoi_value (s : string) : Z :=
  let v := match s with
           | String "-" s' => Z.opp <$> parse_uint s'
           | String "+" s' => parse_uint s'
           | _ => parse_uint s
           end in
  match v with Some z => Z.max (- 2 ^ 63) (Z.min (2 ^ 63 - 1) z) | None => 0 end.

Definition relay_target (o : SppOutcome) (bnd : string) : option UDPAddr :=
  '(bndH, bndP) ← SplitHostPort bnd;
  let bndIP := ParseIP bndH in
  let bndIP := if is_nil bndIP || IsUnspecified bndIP then o_remote o else bndIP in
  Some {| uIP := bndIP; uPort := atoi_value bndP |}.

(** The relay endpoint, or the first error on the way to it. *)
Definition open_relay (o : SppOutcome) (sppAddr : string) : result string UDPAddr :=
  if String.eqb sppAddr "" then Err "no upstream SPP socks5 available"
  else match o_resolve o with
  | Some e => Err e
  | None =>
  match o_dial o with
  | Some e => Err e
  | None =>
  match o_handshake o with
  | Some e => Err e
  | None =>
  match o_bnd o with
  | Err e => Err e
  | Ok bnd =>
  match relay_target o bnd with
  | None => Err (o_split o)
  | Some t =>
  match o_listen o with
  | Some e => Err e
  | None => Ok t
  end
  end
  end
  end
  end
  end.

Definition getOrCreateSPPUDPSession (o : SppOutcome) (a : Assoc) : Assoc * result string UDPAddr :=
  match spp a with
  | Some (t, _) => (a, Ok t)
  | None =>
      let '(s, (sppAddr, nodeName, tok)) := PickNode (st a) in
      let s := if negb (String.eqb sppAddr "") && bool_decide (o_resolve o = None) then dial (DialUpstream sppAddr) s else s in
      match open_relay o sppAddr with
      | Err e => (a <| st := release tok s |>, Err e)
      | Ok t => (a <| st := SetNode_ nodeName (udpSess a) s |> <| spp := Some (t, tok) |>, Ok t)
      end
  end.

Definition closeSPP (a : Assoc) : Assoc :=
  match spp a with
  | None => a
  | Some (_, tok) => a <| st ::= release tok |> <| spp := None |>
  end.

(** ** Datagrams from the client *)

(** The outcomes one datagram meets: the times read, name resolution and socket
    creation for a direct target, the upstream session, the write to it. *)
Record Dgram := {
  g_now : time; g_resolve : string → result string UDPAddr; g_listen : string → option string;
  g_spp : SppOutcome; g_write : bool;
}.

Definition dgram_env (now : time) : Env :=
  {| t_route := now; t_begin := now; t_fail := now; t_end := now; e_direct := None; e_resolve := None; e_dial := None;
     e_handshake := None; e_connect := None; e_write := true; e_relay := [] |}.

Definition send_direct (g : Dgram) (dstHost targetAddr payload : string) (a : Assoc) : Assoc :=
  match get (g_resolve g) (g_listen g) targetAddr (directSessions a) with
  | (r, Err _) => a <| directSessions := r |>
  | (r, Ok (sess, _)) =>
      AddDatagram_ (g_now g) dstHost DecisionDirect (Z.of_nat (String.length payload)) 0
        (a <| directSessions := r |> <| toDirect ::= λ l, l ++ [(conn sess, addr sess, payload)] |>)
  end.

Definition RecordError_ (now : time) (h msg : string) (a : Assoc) : Assoc :=
  a <| st ::= λ s, {| coll := RecordError now "socks5" h msg (coll s); up := up s; dnsS := dnsS s; out := out s;
                      dials := dials s; sent := sent s |} |>.

Definition send_proxied (g : Dgram) (dstHost targetAddr pkt payload : string) (a : Assoc) : Assoc :=
  if negb EnableIPv6 && isIPv6Literal dstHost then a
  else match getOrCreateSPPUDPSession (g_spp g) a with
       | (a, Err e) => RecordError_ (g_now g) dstHost ("SPP UDP session for " +:+ targetAddr +:+ ": " +:+ e) a
       | (a, Ok t) =>
           if g_write g then
             AddDatagram_ (g_now g) dstHost DecisionProxy (Z.of_nat (String.length payload)) 0
               (a <| toRelay ::= λ l, l ++ [(t, pkt)] |>)
           else a
       end.

(** The body of the loop once the datagram's source is accepted. *)
Definition dispatch (g : Dgram) (pkt : string) (a : Assoc) : Assoc :=
  match Sock5UnpackUDP pkt with
  | None => a
  | Some (dstHost, dstPort, payload) =>
      if String.eqb payload "" then a
      else
        let dstHost := canonicalHost dstHost in
        let '(s, (decision, _)) := routeDecision router (dgram_env (g_now g)) dstHost (st a) in
        let a := a <| st := s |> in
        let targetAddr := joinDialAddr dstHost dstPort in
        match decision with
        | Direct => send_direct g dstHost targetAddr payload a
        | Proxy => send_proxied g dstHost targetAddr pkt payload a
        end
  end.

Definition on_client (g : Dgram) (src : UDPAddr) (pkt : string) (a : Assoc) : Assoc :=
  if String.eqb pkt "" then a
  else match activeClientUDP a with
       | None => dispatch g pkt (a <| activeClientUDP := Some src |>)
       | Some known => if sameUDPAddr (Some known) (Some src) then dispatch g pkt a else a
       end.

(** ** Datagrams from outside *)

(** A datagram on the upstream session's socket. *)
Definition on_relay (now : time) (from : UDPAddr) (buf : string) (a : Assoc) : Assoc :=
  match spp a, activeClientUDP a with
  | Some (relayTarget, _), Some cAddr =>
      if sameUDPAddr (Some from) (Some relayTarget) && negb (String.eqb buf "") then
        AddDatagram_ now "" DecisionProxy 0 (Z.of_nat (String.length buf))
          (a <| toClient ::= λ l, l ++ [(cAddr, buf, buf)] |>)
      else a
  | _, _ => a
  end.

(** A datagram on the socket of the direct session for [target]. *)
Definition on_direct (now : time) (target : string) (from : UDPAddr) (buf : string) (a : Assoc) : Assoc :=
  match Addr.sessions (directSessions a) !! target, activeClientUDP a with
  | Some sess, Some cAddr =>
      if sameUDPAddr (Some from) (Some (addr sess)) && negb (String.eqb buf "") then
        match Sock5PackUDP (ip_string (uIP from)) (uPort from) buf with
        | Some packed =>
            AddDatagram_ now "" DecisionDirect 0 (Z.of_nat (String.length buf))
              (a <| toClient ::= λ l, l ++ [(cAddr, buf, packed)] |>)
        | None => a
        end
      else a
  | _, _ => a
  end.

(** ** The association's life *)

Inductive event :=
  | EvClient (g : Dgram) (src : UDPAddr) (pkt : string)
  | EvRelay (now : time) (from : UDPAddr) (buf : string)
  | EvDirect (now : time) (target : string) (from : UDPAddr) (buf : string)
  | EvTCPClosed
  | EvExit (now : time).

(** The watcher closes the relay socket; the readers stop when they see it, and
    the main loop returns, running its deferred calls in reverse order. *)
Definition finish_assoc (now : time) (a : Assoc) : Assoc :=
  let a := a <| directSessions ::= closeAll |> in
  let a := closeSPP a in
  a <| st ::= on_session (λ i, End_ now i None) (udpSess a) |> <| over := true |>.

Definition step (a : Assoc) (e : event) : Assoc :=
  if over a then a
  else match e with
  | EvTCPClosed => a <| assocClosed := true |>
  | EvExit now => if assocClosed a then finish_assoc now a else a
  | EvClient g src pkt => if assocClosed a then a else on_client g src pkt a
  | EvRelay now from buf => if assocClosed a then a else on_relay now from buf a
  | EvDirect now target from buf => if assocClosed a then a else on_direct now target from buf a
  end.

Definition run (l : list event) (a : Assoc) : Assoc := foldl step a l.
End udp.
Arguments Assoc {_} U {_}.
Arguments UState {_} U.
End Udp.
