(* ===== verification/UdpProps.v ===== *)
(** * core/proxy: what a UDP association guarantees

    Over every sequence of datagrams and for every outcome of the network: replies
    come from the expected peers and go to the pinned client only, datagrams follow
    the routing decision, and the end of the association gives back its node, its
    sockets and its session. *)

From S2P Require Import Prelude GoStrings GoNet Router Stats StatsProps Dns DnsProps Spp SppProps Http HttpProps Conn ConnProps Udp.
Import Router.Router Addr Stats StatsProps HttpProps Conn ConnProps Udp.

Module UdpProps.
Section udp.
Context `{UnicodeCase, RouterEnv, Dns.DNSLib, GoSort, TimeFormat, SmartUpstream U, SocksUDP}.
Context (router : option Router) (EnableIPv6 : bool).

#[local] Abbreviation stepE := (Udp.step router EnableIPv6).
#[local] Abbreviation runE := (Udp.run router EnableIPv6).

(** ** Where the datagrams come from *)

(** The frame of the operations that only account for traffic. *)
Definition same_io (a a' : Assoc U) : Prop :=
  toClient a' = toClient a ∧ toDirect a' = toDirect a ∧ toRelay a' = toRelay a.

(** What one handled client datagram writes: at most one datagram, and to where
    the decision says. *)
Definition outgoing (pkt : string) (dec : RouteDecision) (h : string) (p : Z) (payload : string) (a a' : Assoc U) : Prop :=
  toClient a' = toClient a ∧
  (toDirect a' = toDirect a ∧ toRelay a' = toRelay a ∨
   dec = Direct ∧ toRelay a' = toRelay a ∧
     (∃ sess, Addr.sessions (directSessions a') !! joinDialAddr h p = Some sess ∧
        toDirect a' = toDirect a ++ [(conn sess, addr sess, payload)]) ∨
   dec = Proxy ∧ toDirect a' = toDirect a ∧ (EnableIPv6 = true ∨ isIPv6Literal h = false) ∧
     (∃ t tok, spp a' = Some (t, tok) ∧ toRelay a' = toRelay a ++ [(t, pkt)])).

Lemma get_lookup resolve listen t r r' s fresh :
  get resolve listen t r = (r', Ok (s, fresh)) → Addr.sessions r' !! t = Some s.
Proof.
  unfold get. destruct (Addr.sessions r !! t) as [s0|] eqn:E; [by intros [= <- <- _]|].
  case_match; [done|]. destruct (resolve t); [|done]. destruct (listen _); [done|]. intros [= <- <- _]. cbn.
  by rewrite lookup_insert_eq.
Qed.

Lemma session_get (o : SppOutcome) (a a' : Assoc U) r :
  getOrCreateSPPUDPSession o a = (a', r) →
  same_io a a' ∧ directSessions a' = directSessions a ∧ activeClientUDP a' = activeClientUDP a ∧
  assocClosed a' = assocClosed a ∧ over a' = over a ∧ udpSess a' = udpSess a ∧
  match r with Ok t => ∃ tok, spp a' = Some (t, tok) | Err _ => spp a' = spp a end.
Proof.
  unfold getOrCreateSPPUDPSession. destruct (spp a) as [[t tok]|] eqn:E.
  { intros [= <- <-]. split_and!; try done. by exists tok. }
  destruct (PickNode (st a)) as [s [[ad n] tok]]. cbv zeta. destruct (open_relay o ad); intros [= <- <-]; cbn; split_and!; try done.
  by exists tok.
Qed.

Lemma dispatch_out g pkt (a : Assoc U) h p payload :
  Sock5UnpackUDP pkt = Some (h, p, payload) →
  outgoing pkt (routeDecision router (dgram_env (g_now g)) (canonicalHost h) (st a)).2.1 (canonicalHost h) p payload a
    (dispatch router EnableIPv6 g pkt a).
Proof.
  intros E. unfold dispatch. rewrite E. case_match; [split; [done|by left]|].
  destruct (routeDecision router (dgram_env (g_now g)) (canonicalHost h) (st a)) as [s [dec real]]. cbv zeta. cbn [fst snd].
  destruct dec.
  - unfold send_direct. cbn [directSessions].
    destruct (get _ _ _ _) as [r [[sess fresh]|e]] eqn:Eg; [|split; [done|by left]].
    apply get_lookup in Eg. split; [done|]. right. left. split_and!; [done..|]. by exists sess.
  - unfold send_proxied. destruct (negb EnableIPv6 && isIPv6Literal (canonicalHost h)) eqn:E6; [split; [done|by left]|].
    assert (EnableIPv6 = true ∨ isIPv6Literal (canonicalHost h) = false) as K6
      by (apply andb_false_iff in E6 as [?%negb_false_iff|?]; auto).
    destruct (getOrCreateSPPUDPSession _ _) as [a' [t|e]] eqn:Es; apply session_get in Es as ((C & D & R) & _ & _ & _ & _ & _ & Ht).
    + destruct (g_write g); [|split; [done|by left]]. split; [done|]. right. right. split_and!; [done..|].
      destruct Ht as [tok Ht]. exists t, tok. split; [done|]. cbn. by rewrite R.
    + split; [done|]. left. by split.
Qed.

Lemma dispatch_none g pkt (a : Assoc U) : Sock5UnpackUDP pkt = None → dispatch router EnableIPv6 g pkt a = a.
Proof. intros E. unfold dispatch. by rewrite E. Qed.
(** ** Histories *)

Lemma runE_app l l' (a : Assoc U) : runE (l ++ l') a = runE l' (runE l a).
Proof. apply foldl_app. Qed.

(** What is in a log was there at the start or was put there by one event. *)
Lemma log_origin {A} (f : Assoc U → list A) (Q : Assoc U → event → A → Prop) l a x :
  (∀ a e x, x ∈ f (stepE a e) → x ∈ f a ∨ Q a e x) →
  x ∈ f (runE l a) → x ∈ f a ∨ ∃ l1 e l2, l = l1 ++ e :: l2 ∧ Q (runE l1 a) e x.
Proof.
  intros Hstep. induction l as [|e l IH] using rev_ind; [by left|]. rewrite runE_app. intros [Hx|Hx]%Hstep.
  - destruct (IH Hx) as [?|(l1 & e' & l2 & -> & ?)]; [by left|]. right. exists l1, e', (l2 ++ [e]). by rewrite <- app_assoc.
  - right. by exists l, e, [].
Qed.

Definition reply_from (a : Assoc U) (e : event) (x : UDPAddr * string * string) : Prop :=
  let '(dst, buf, written) := x in
  activeClientUDP a = Some dst ∧
  ((∃ now from t tok, e = EvRelay now from buf ∧ written = buf ∧
      spp a = Some (t, tok) ∧ sameUDPAddr (Some from) (Some t) = true) ∨
   (∃ now target from sess, e = EvDirect now target from buf ∧
      Sock5PackUDP (ip_string (uIP from)) (uPort from) buf = Some written ∧
      Addr.sessions (directSessions a) !! target = Some sess ∧ sameUDPAddr (Some from) (Some (addr sess)) = true)).

(** The association hears the client that pinned it, and the first to send. *)
Definition accepts (a : Assoc U) (src : UDPAddr) : Prop :=
  match activeClientUDP a with Some k => sameUDPAddr (Some k) (Some src) = true | None => True end.

Lemma closeSPP_io (a : Assoc U) : same_io a (closeSPP a) ∧ activeClientUDP (closeSPP a) = activeClientUDP a.
Proof. unfold closeSPP, same_io. by destruct (spp a) as [[]|]. Qed.

Lemma finish_io now (a : Assoc U) : same_io a (finish_assoc now a) ∧ activeClientUDP (finish_assoc now a) = activeClientUDP a.
Proof.
  unfold finish_assoc. cbv zeta. destruct (closeSPP_io (a <| directSessions ::= closeAll |>)) as [(C & D & R) P]. split; [|done].
  by unfold same_io.
Qed.

Lemma dispatch_client g pkt (a : Assoc U) :
  toClient (dispatch router EnableIPv6 g pkt a) = toClient a ∧
  activeClientUDP (dispatch router EnableIPv6 g pkt a) = activeClientUDP a.
Proof.
  destruct (Sock5UnpackUDP pkt) as [[[h p] payload]|] eqn:E; [|by rewrite dispatch_none].
  destruct (dispatch_out g pkt a h p payload E) as [-> _]. split; [done|]. unfold dispatch. rewrite E. case_match; [done|].
  destruct (routeDecision router (dgram_env (g_now g)) (canonicalHost h) (st a)) as [s [dec real]]. cbv zeta. destruct dec.
  - unfold send_direct. by destruct (get _ _ _ _) as [r [[sess fresh]|e]].
  - unfold send_proxied. case_match; [done|].
    destruct (getOrCreateSPPUDPSession _ _) as [a' [t|e]] eqn:Es; apply session_get in Es as (_ & _ & Ha & _); [|done].
    by destruct (g_write g).
Qed.

Lemma step_reply (a : Assoc U) e x : x ∈ toClient (stepE a e) → x ∈ toClient a ∨ reply_from a e x.
Proof.
  unfold Udp.step. destruct (over a); [by left|]. destruct e as [g src pkt|now from buf|now target from buf| |now].
  - destruct (assocClosed a); [by left|]. unfold on_client. destruct (String.eqb pkt ""); [by left|].
    destruct (activeClientUDP a); [destruct (sameUDPAddr _ _); [|by left]|];
      match goal with |- context [dispatch _ _ g pkt ?b] => destruct (dispatch_client g pkt b) as [-> _] end; by left.
  - destruct (assocClosed a); [by left|]. unfold on_relay.
    destruct (spp a) as [[t tok]|] eqn:Et; [|by left]. destruct (activeClientUDP a) as [c|] eqn:Ec; [|by left].
    destruct (sameUDPAddr (Some from) (Some t)) eqn:Ea; [|by left]. destruct (String.eqb buf ""); [by left|]. cbn.
    intros [Hx|Hx]%elem_of_app; [by left|]. apply list_elem_of_singleton in Hx as ->. right. split; [done|]. left. by exists now, from, t, tok.
  - destruct (assocClosed a); [by left|]. unfold on_direct.
    destruct (Addr.sessions _ !! target) as [sess|] eqn:Et; [|by left]. destruct (activeClientUDP a) as [c|] eqn:Ec; [|by left].
    destruct (sameUDPAddr _ _) eqn:Ea; [|by left]. destruct (String.eqb buf ""); [by left|]. cbn [andb negb].
    destruct (Sock5PackUDP _ _ _) as [w|] eqn:Ew; [|by left]. cbn.
    intros [Hx|Hx]%elem_of_app; [by left|]. apply list_elem_of_singleton in Hx as ->. right. split; [done|]. right. by exists now, target, from, sess.
  - by left.
  - destruct (assocClosed a); [|by left]. destruct (finish_io now a) as [(-> & _) _]. by left.
Qed.

(** The pin is set by the first datagram and never moves. *)
Lemma step_pin (a : Assoc U) e :
  activeClientUDP (stepE a e) = activeClientUDP a ∨
  activeClientUDP a = None ∧ ∃ g src pkt, e = EvClient g src pkt ∧ pkt ≠ "" ∧ activeClientUDP (stepE a e) = Some src.
Proof.
  unfold Udp.step. destruct (over a); [by left|]. destruct e as [g src pkt|now from buf|now target from buf| |now].
  - destruct (assocClosed a); [by left|]. unfold on_client. destruct (String.eqb_spec pkt ""); [by left|].
    destruct (activeClientUDP a) eqn:Ec.
    + destruct (sameUDPAddr _ _); [|by left]. left. by rewrite (proj2 (dispatch_client g pkt a)), Ec.
    + right. split; [done|]. exists g, src, pkt. split_and!; [done..|].
      by rewrite (proj2 (dispatch_client g pkt (a <| activeClientUDP := Some src |>))).
  - left. destruct (assocClosed a); [done|]. unfold on_relay. repeat (case_match; try done).
  - left. destruct (assocClosed a); [done|]. unfold on_direct. repeat (case_match; try done).
  - by left.
  - left. destruct (assocClosed a); [|done]. apply (finish_io now a).
Qed.

Lemma run_pin l (a : Assoc U) k : activeClientUDP a = Some k → activeClientUDP (runE l a) = Some k.
Proof.
  revert a. induction l as [|e l IH]; intros a Hk; [done|]. cbn. apply IH.
  destruct (step_pin a e) as [->|[E _]]; [done|congruence].
Qed.

(** The association just opened. *)
Definition opened_as (now : time) (client bnd : string) (s s' : UState U) (a0 : Assoc U) : Prop :=
  associate now client (Some bnd) true s = (s', Some a0).

(** C10: a client hears only its own peers.  Every datagram the association writes to a
    client goes to the first address that sent it one, whatever other addresses sent
    since; and it is the unchanged datagram of the upstream's advertised relay
    endpoint, or the wrapped datagram of the endpoint a direct target resolved to. *)
Theorem replies_authentic now client bnd s s' a0 l dst buf written :
  opened_as now client bnd s s' a0 → (dst, buf, written) ∈ toClient (runE l a0) →
  ∃ l1 e l2, l = l1 ++ e :: l2 ∧ reply_from (runE l1 a0) e (dst, buf, written) ∧
  ∃ l3 g pkt l4, l1 = l3 ++ EvClient g dst pkt :: l4 ∧ pkt ≠ "" ∧ activeClientUDP (runE l3 a0) = None.
Proof.
  unfold opened_as, associate. intros Ho Hx.
  assert (activeClientUDP a0 = None ∧ toClient a0 = []) as [Hn Hnil].
  { destruct (coll (reply (0, bnd) s)); [cbn in Ho|]; by injection Ho as _ <-. }
  destruct (log_origin toClient reply_from l a0 _ step_reply Hx) as [K|(l1 & e & l2 & -> & Hr)];
    [by rewrite Hnil in K; apply elem_of_nil in K|].
  exists l1, e, l2. split; [done|]. split; [done|]. destruct Hr as [Hd _]. clear -Hn Hd.
  induction l1 as [|e l1 IH] using rev_ind; [cbn in Hd; congruence|]. rewrite runE_app in Hd. cbn in Hd.
  destruct (step_pin (runE l1 a0) e) as [E|(E & g & src & pkt & -> & Hne & E')].
  - rewrite E in Hd. destruct (IH Hd) as (l3 & g & pkt & l4 & -> & ? & ?). exists l3, g, pkt, (l4 ++ [e]). by rewrite <- app_assoc.
  - rewrite E' in Hd. injection Hd as ->. exists l1, g, pkt, []. by split.
Qed.
(** ** Where the datagrams go *)

Definition decides (a : Assoc U) (g : Dgram) (h : string) : RouteDecision :=
  (routeDecision router (dgram_env (g_now g)) (canonicalHost h) (st a)).2.1.

Definition forwards_direct (a : Assoc U) (e : event) (x : nat * UDPAddr * string) : Prop :=
  ∃ g src pkt h port sess, e = EvClient g src pkt ∧ accepts a src ∧ Sock5UnpackUDP pkt = Some (h, port, x.2) ∧
    decides a g h = Direct ∧ x.1 = (conn sess, addr sess) ∧
    Addr.sessions (directSessions (stepE a e)) !! joinDialAddr (canonicalHost h) port = Some sess.

Definition forwards_relay (a : Assoc U) (e : event) (x : UDPAddr * string) : Prop :=
  ∃ g src h port payload tok, e = EvClient g src x.2 ∧ accepts a src ∧ Sock5UnpackUDP x.2 = Some (h, port, payload) ∧
    decides a g h = Proxy ∧ (EnableIPv6 = true ∨ isIPv6Literal (canonicalHost h) = false) ∧
    spp (stepE a e) = Some (x.1, tok).

(** The outgoing logs change only when a client's datagram is dispatched. *)
Lemma step_dispatch (a : Assoc U) e :
  (toDirect (stepE a e) = toDirect a ∧ toRelay (stepE a e) = toRelay a) ∨
  ∃ g src pkt a1, e = EvClient g src pkt ∧ accepts a src ∧ st a1 = st a ∧ toDirect a1 = toDirect a ∧
    toRelay a1 = toRelay a ∧ stepE a e = dispatch router EnableIPv6 g pkt a1.
Proof.
  unfold Udp.step. destruct (over a); [by left|]. destruct e as [g src pkt|now from buf|now target from buf| |now].
  - destruct (assocClosed a); [by left|]. unfold on_client. destruct (String.eqb pkt ""); [by left|].
    destruct (activeClientUDP a) eqn:Ec.
    + destruct (sameUDPAddr _ _) eqn:Es; [|by left]. right. exists g, src, pkt, a. unfold accepts. by rewrite Ec.
    + right. exists g, src, pkt, (a <| activeClientUDP := Some src |>). unfold accepts. by rewrite Ec.
  - left. destruct (assocClosed a); [done|]. unfold on_relay. repeat (case_match; try done).
  - left. destruct (assocClosed a); [done|]. unfold on_direct. repeat (case_match; try done).
  - by left.
  - left. destruct (assocClosed a); [|done]. destruct (finish_io now a) as [(_ & -> & ->) _]. done.
Qed.

Lemma step_out (a : Assoc U) e :
  (∀ x, x ∈ toDirect (stepE a e) → x ∈ toDirect a ∨ forwards_direct a e x) ∧
  (∀ x, x ∈ toRelay (stepE a e) → x ∈ toRelay a ∨ forwards_relay a e x).
Proof.
  destruct (step_dispatch a e) as [[-> ->]|(g & src & pkt & a1 & -> & Ha & Es & Ed & Er & E)]; [by split; left|].
  destruct (Sock5UnpackUDP pkt) as [[[h p] payload]|] eqn:Eu.
  2:{ rewrite E, dispatch_none by done. rewrite Ed, Er. by split; left. }
  pose proof (dispatch_out g pkt a1 h p payload Eu) as [_ Ho]. rewrite Es, <- E, Ed, Er in Ho. fold (decides a g h) in Ho.
  destruct Ho as [[-> ->]|[(Hd & -> & sess & Hs & ->)|(Hd & -> & K6 & ra & tok & Hs & ->)]]; [by split; left|..].
  - split; [|by left]. intros x [Hx|Hx]%elem_of_app; [by left|]. apply list_elem_of_singleton in Hx as ->. right.
    by exists g, src, pkt, h, p, sess.
  - split; [by left|]. intros x [Hx|Hx]%elem_of_app; [by left|]. apply list_elem_of_singleton in Hx as ->. right.
    by exists g, src, h, p, payload, tok.
Qed.

(** C23: datagrams follow the routing decision.  Whatever is written on a direct
    socket is the payload of a datagram of the pinned client whose destination was
    decided direct, sent to the endpoint the registry holds for that destination;
    whatever is written to the upstream is a datagram of the pinned client, whole, whose
    destination was decided proxied and is no IPv6 literal while IPv6 is off, sent to
    the relay endpoint the upstream advertised. *)
Theorem forwarding_follows_route now client bnd s s' a0 l :
  opened_as now client bnd s s' a0 →
  (∀ x, x ∈ toDirect (runE l a0) → ∃ l1 e l2, l = l1 ++ e :: l2 ∧ forwards_direct (runE l1 a0) e x) ∧
  (∀ x, x ∈ toRelay (runE l a0) → ∃ l1 e l2, l = l1 ++ e :: l2 ∧ forwards_relay (runE l1 a0) e x).
Proof.
  unfold opened_as, associate. intros Ho.
  assert (toDirect a0 = [] ∧ toRelay a0 = []) as [Hd Hr].
  { destruct (coll (reply (0, bnd) s)); [cbn in Ho|]; by injection Ho as _ <-. }
  split; intros x Hx.
  - destruct (log_origin toDirect forwards_direct l a0 x (λ a e, proj1 (step_out a e)) Hx) as [K|?]; [|done].
    by rewrite Hd in K; apply elem_of_nil in K.
  - destruct (log_origin toRelay forwards_relay l a0 x (λ a e, proj2 (step_out a e)) Hx) as [K|?]; [|done].
    by rewrite Hr in K; apply elem_of_nil in K.
Qed.
(** ** What an association holds and gives back *)

Definition byte_len (s : string) : Z := Z.of_nat (String.length s).

Definition payload_len (pkt : string) : Z :=
  match Sock5UnpackUDP pkt with Some (_, _, payload) => byte_len payload | None => 0 end.

Definition total {A} (f : A → Z) (l : list A) : Z := foldr (λ x n, f x + n) 0 l.

Lemma total_app {A} (f : A → Z) l l' : total f (l ++ l') = total f l + total f l'.
Proof. induction l as [|x l IH]; [done|]. change (f x + total f (l ++ l') = f x + total f l + total f l'). rewrite IH. lia. Qed.

#[local] Arguments total : simpl never.

(** The payload bytes forwarded and the bytes delivered. *)
Definition uploaded (a : Assoc U) : Z := total (λ x, byte_len x.2) (toDirect a) + total (λ x, payload_len x.2) (toRelay a).
Definition downloaded (a : Assoc U) : Z := total (λ x, byte_len x.1.2) (toClient a).

Definition held (a : Assoc U) : option token := match spp a with Some (_, tok) => tok | None => None end.

Record account (c0 : Collector) (i : Z) (L : option (list Z)) (a : Assoc U) : Prop := {
  ac_own : owns c0 i (uploaded a) (downloaded a) (st a);
  ac_sess : udpSess a = Some i;
  ac_reg : registry_ok (directSessions a);
  ac_load : load (release (held a) (st a)) = L;
}.

Record settled (c0 : Collector) (i : Z) (L : option (list Z)) (a : Assoc U) : Prop := {
  se_coll : ∃ c ss, coll (st a) = Some c ∧ closed_session c0 i (uploaded a) (downloaded a) c ss;
  se_load : load (st a) = L;
  se_spp : spp a = None;
  se_socks : closedSocks (directSessions a) = list_to_set (seq 0 (opened (directSessions a))) ∧
             Addr.sessions (directSessions a) = ∅;
}.

Lemma own_datagram c0 i ub db now h d n m c :
  0 ≤ n → 0 ≤ m → own c0 i ub db c → own c0 i (ub + n) (db + m) (AddDatagram now i h d n m c).
Proof.
  intros Hn Hm Ho. pose proof Ho as [_ _ _ (s & Hs & _)].
  destruct (AddDatagram_spec now i h d n m c s Hs Hn Hm) as [Ht Hb]. by apply (own_touched _ _ _ _ _ _ c _ Ht).
Qed.

Lemma up_load_eq tok (s s' : UState U) : up s = up s' → load (release tok s) = load (release tok s').
Proof. intros E. apply release_load. unfold load. by rewrite E. Qed.

Lemma session_up f sess (s : UState U) : up (on_session f sess s) = up s.
Proof. by destruct sess. Qed.

(** Accounting one datagram: [a'] is [a] with the bytes of one more datagram in
    its logs. *)
Lemma account_add c0 i L now h d n m (a a' : Assoc U) :
  0 ≤ n → 0 ≤ m → st a' = st a → spp a' = spp a → udpSess a' = udpSess a → registry_ok (directSessions a') →
  uploaded a' = uploaded a + n → downloaded a' = downloaded a + m →
  account c0 i L a → account c0 i L (AddDatagram_ now h d n m a').
Proof.
  intros Hn Hm Es Ep Eu Hr Eup Edn [K1 K2 K3 K4]. unfold AddDatagram_. split; cbn.
  - change (owns c0 i (uploaded a') (downloaded a') (on_session (λ i, AddDatagram now i h d n m) (udpSess a') (st a'))).
    rewrite Eu, K2, Es, Eup, Edn. eapply owns_session; [|exact K1]. intros c. by apply own_datagram.
  - by rewrite Eu.
  - done.
  - change (load (release (held a') (on_session (λ i, AddDatagram now i h d n m) (udpSess a') (st a'))) = L).
    rewrite <- K4. unfold held. rewrite Ep, Es. apply up_load_eq, session_up.
Qed.

(** The state changed without touching the collector or the upstream. *)
Lemma account_same c0 i L (a a' : Assoc U) :
  coll (st a') = coll (st a) → up (st a') = up (st a) → spp a' = spp a → udpSess a' = udpSess a →
  registry_ok (directSessions a') → uploaded a' = uploaded a → downloaded a' = downloaded a →
  account c0 i L a → account c0 i L a'.
Proof.
  intros Ec Eup Ep Eu Hr E1 E2 [K1 K2 K3 K4]. split; [|by rewrite Eu|done|].
  - rewrite E1, E2. by eapply owns_coll.
  - rewrite <- K4. unfold held. rewrite Ep. by apply up_load_eq.
Qed.

Lemma account_session c0 i L o (a a' : Assoc U) r :
  getOrCreateSPPUDPSession o a = (a', r) → account c0 i L a → account c0 i L a'.
Proof.
  intros E [K1 K2 K3 K4]. pose proof E as Ef. apply session_get in Ef as ((C & D & R) & Hd & _ & _ & _ & Hu & _).
  assert (uploaded a' = uploaded a ∧ downloaded a' = downloaded a) as [E1 E2] by (unfold uploaded, downloaded; by rewrite C, D, R).
  revert E. unfold getOrCreateSPPUDPSession. destruct (spp a) as [[t tok]|] eqn:Es; [by intros [= <- _]|].
  pose proof (pick_coll (st a)) as Epc. destruct (PickNode (st a)) as [s [[ad n] tok]] eqn:Ep. cbn [fst] in Epc. cbv zeta.
  set (s1 := if _ && _ then _ else s). assert (coll s1 = coll s ∧ up s1 = up s) as [Ec1 Eu1] by (unfold s1; by case_match).
  assert (load (release tok s1) = L) as El.
  { rewrite (up_load_eq tok s1 s Eu1), (pick_release_load _ _ _ _ _ Ep), <- K4. unfold held. by rewrite Es. }
  assert (owns c0 i (uploaded a) (downloaded a) s1) as Ho1 by (eapply owns_coll; [|exact K1]; congruence).
  destruct (open_relay o ad) as [t|e]; intros [= <- _]; split; cbn; rewrite ?E1, ?E2; try done.
  - unfold SetNode_. change (owns c0 i (uploaded a) (downloaded a) (if String.eqb n "" then s1 else on_session (λ i, SetNode i n) (udpSess a) s1)).
    case_match; [done|]. rewrite K2. eapply owns_session; [|exact Ho1]. intros c. apply own_setnode.
  - change (load (release tok (SetNode_ n (udpSess a) s1)) = L). rewrite <- El. apply up_load_eq. unfold SetNode_. case_match; [done|apply session_up].
  - change (owns c0 i (uploaded a) (downloaded a) (release tok s1)). eapply owns_coll; [|exact Ho1]. apply release_same.
  - unfold held. cbn. rewrite Es. done.
Qed.
Lemma account_error c0 i L now h msg (a : Assoc U) : account c0 i L a → account c0 i L (RecordError_ now h msg a).
Proof.
  intros [K1 K2 K3 K4]. split; [|done..|by rewrite <- K4; apply up_load_eq].
  unfold owns, RecordError_, RecordError in *. cbn -[recordErrorLocked]. destruct (coll (st a)) as [c|]; [|done].
  cbn -[recordErrorLocked]. eapply own_same; [apply recordError_ids|exact K1].
Qed.

Lemma total_snoc {A} (f : A → Z) l x : total f (l ++ [x]) = total f l + f x.
Proof. rewrite total_app. unfold total at 2. cbn. lia. Qed.

Lemma byte_len_pos s : 0 ≤ byte_len s.
Proof. unfold byte_len. lia. Qed.

Lemma dispatch_account c0 i L g pkt (a : Assoc U) : account c0 i L a → account c0 i L (dispatch router EnableIPv6 g pkt a).
Proof.
  intros Ha. unfold dispatch. destruct (Sock5UnpackUDP pkt) as [[[h p] payload]|] eqn:Eu; [|done]. case_match; [done|].
  destruct (routeDecision router (dgram_env (g_now g)) (canonicalHost h) (st a)) as [s [dec real]] eqn:Er. cbv zeta.
  apply route_frame in Er as (Ec & Eup & _ & _).
  assert (account c0 i L (a <| st := s |>)) as Hs by (apply (account_same c0 i L a); try done; apply Ha).
  clear Ha. revert Hs. generalize (a <| st := s |>). clear a Ec Eup. intros a Ha. destruct dec.
  - unfold send_direct. pose proof (get_ok (g_resolve g) (g_listen g) (joinDialAddr (canonicalHost h) p) _ (ac_reg _ _ _ _ Ha)) as Hr.
    destruct (get _ _ _ _) as [r [[sess fresh]|e]]; [|by apply (account_same c0 i L a)].
    apply (account_add c0 i L _ _ _ _ _ a); try done; [apply byte_len_pos|unfold uploaded; cbn; rewrite total_snoc; unfold byte_len; cbn; lia|].
    unfold downloaded. cbn. lia.
  - unfold send_proxied. case_match; [done|].
    destruct (getOrCreateSPPUDPSession (g_spp g) a) as [a' [t|e]] eqn:Es; apply (account_session c0 i L) in Es; try done.
    + destruct (g_write g); [|done]. apply (account_add c0 i L _ _ _ _ _ a'); try done; [apply byte_len_pos|apply Es| |unfold downloaded; cbn; lia].
      unfold uploaded. cbn. rewrite total_snoc. unfold payload_len at 2. cbn. rewrite Eu. unfold byte_len. lia.
    + by apply account_error.
Qed.

Lemma step_account c0 i L (a : Assoc U) e :
  over (stepE a e) = false → account c0 i L a → account c0 i L (stepE a e).
Proof.
  intros Ho Ha. unfold Udp.step in *. destruct (over a); [done|]. destruct e as [g src pkt|now from buf|now target from buf| |now].
  - destruct (assocClosed a); [done|]. unfold on_client. destruct (String.eqb pkt ""); [done|].
    destruct (activeClientUDP a); [destruct (sameUDPAddr _ _); [|done]|]; apply dispatch_account; [done|].
    apply (account_same c0 i L a); try done. apply Ha.
  - destruct (assocClosed a); [done|]. unfold on_relay. destruct (spp a) as [[t tok]|] eqn:Et; [|done].
    destruct (activeClientUDP a); [|done]. destruct (_ && _); [|done].
    apply (account_add c0 i L _ _ _ _ _ a); try done; [apply byte_len_pos|apply Ha|unfold uploaded; cbn; lia|].
    unfold downloaded. cbn. rewrite total_snoc. unfold byte_len. cbn. lia.
  - destruct (assocClosed a); [done|]. unfold on_direct. destruct (Addr.sessions _ !! target); [|done].
    destruct (activeClientUDP a); [|done]. destruct (_ && _); [|done]. destruct (Sock5PackUDP _ _ _); [|done].
    apply (account_add c0 i L _ _ _ _ _ a); try done; [apply byte_len_pos|apply Ha|unfold uploaded; cbn; lia|].
    unfold downloaded. cbn. rewrite total_snoc. unfold byte_len. cbn. lia.
  - apply (account_same c0 i L a); try done. apply Ha.
  - by destruct (assocClosed a).
Qed.

Lemma finish_settles c0 i L now (a : Assoc U) :
  i ∉ active c0 → account c0 i L a → settled c0 i L (finish_assoc now a) ∧ over (finish_assoc now a) = true.
Proof.
  intros Hf [K1 K2 K3 K4]. split; [|done]. destruct (finish_io now a) as [(C & D & R) _].
  assert (uploaded (finish_assoc now a) = uploaded a ∧ downloaded (finish_assoc now a) = downloaded a) as [Eup Edn]
    by (unfold uploaded, downloaded; by rewrite C, D, R).
  set (b := closeSPP (a <| directSessions ::= closeAll |>)).
  assert (coll (st b) = coll (st a) ∧ udpSess b = Some i ∧ spp b = None ∧ directSessions b = closeAll (directSessions a) ∧ load (st b) = L)
    as (Ec & Eu & Ep & Ed & El).
  { unfold b, closeSPP. cbn. rewrite <- K2, <- K4. unfold held. destruct (spp a) as [[t tok]|] eqn:Es; cbn; split_and!; try done. apply release_same. }
  assert (st (finish_assoc now a) = on_session (λ i0, End_ now i0 None) (Some i) (st b)) as Est by (by rewrite <- Eu).
  assert (owns c0 i (uploaded a) (downloaded a) (st b)) as Hb by by eapply owns_coll.
  destruct (end_owns c0 i _ _ now (st b) Hf Hb) as (c & ss & Ecc & Hc). split.
  - exists c, ss. by rewrite Est, Eup, Edn.
  - by rewrite Est, session_load.
  - exact Ep.
  - change (directSessions (finish_assoc now a)) with (directSessions b). rewrite Ed. split; [exact (closeAll_closes _ K3)|done].
Qed.

Lemma dispatch_over g pkt (a : Assoc U) : over (dispatch router EnableIPv6 g pkt a) = over a.
Proof.
  unfold dispatch. destruct (Sock5UnpackUDP pkt) as [[[h p] payload]|]; [|done]. case_match; [done|].
  destruct (routeDecision router (dgram_env (g_now g)) (canonicalHost h) (st a)) as [s [dec real]]. cbv zeta. destruct dec.
  - unfold send_direct. by destruct (get _ _ _ _) as [r [[sess fresh]|e]].
  - unfold send_proxied. case_match; [done|].
    destruct (getOrCreateSPPUDPSession _ _) as [a' [t|e]] eqn:Es; apply session_get in Es as (_ & _ & _ & _ & Hx & _); [|exact Hx].
    by destruct (g_write g).
Qed.

Lemma run_settles c0 i L l (a : Assoc U) :
  i ∉ active c0 → (over a = false ∧ account c0 i L a ∨ over a = true ∧ settled c0 i L a) →
  over (runE l a) = false ∧ account c0 i L (runE l a) ∨ over (runE l a) = true ∧ settled c0 i L (runE l a).
Proof.
  intros Hf. revert a. induction l as [|e l IH]; intros a Ha; [done|]. cbn. apply IH.
  destruct Ha as [[Ho Ha]|[Ho Ha]]; [|right; unfold Udp.step; by rewrite Ho].
  destruct (over (stepE a e)) eqn:E; [right|left; split; [done|by apply step_account]]. split; [done|].
  unfold Udp.step in *. rewrite Ho in *. destruct e as [g src pkt|now from buf|now target from buf| |now].
  - exfalso. destruct (assocClosed a); [congruence|]. unfold on_client in E. destruct (String.eqb pkt ""); [congruence|].
    destruct (activeClientUDP a); [destruct (sameUDPAddr _ _)|]; rewrite ?dispatch_over in E; cbn in E; congruence.
  - exfalso. destruct (assocClosed a); [congruence|]. unfold on_relay in E. repeat (case_match; try congruence). cbn in E. congruence.
  - exfalso. destruct (assocClosed a); [congruence|]. unfold on_direct in E. repeat (case_match; try congruence). cbn in E. congruence.
  - cbn in E. congruence.
  - destruct (assocClosed a); [|congruence]. by apply finish_settles.
Qed.

(** C22: an association leaves nothing behind.  Whatever datagrams crossed it and
    whatever the network did, once the client's TCP connection has died and the relay
    loop has returned: the statistics session is closed as one connection, with exactly
    the payload bytes forwarded and the bytes delivered; every node carries as many
    connections as before; and every direct socket ever opened is closed. *)
Theorem association_settles now client bnd s s' a0 l later c0 :
  opened_as now client bnd s s' a0 → coll s = Some c0 → registry c0 →
  let a := runE (l ++ [EvTCPClosed; EvExit later]) a0 in
  over a = true ∧ settled c0 (nextID c0 + 1) (load s) a.
Proof.
  unfold opened_as, associate. intros Ho Hc HR. cbv zeta. pose proof (registry_fresh c0 HR) as Hf.
  assert (over a0 = false ∧ account c0 (nextID c0 + 1) (load s) a0) as Ha.
  { cbn [coll reply] in Ho. change (coll (reply (0, bnd) s)) with (coll s) in Ho. rewrite Hc in Ho.
    cbn -[Begin] in Ho. pose proof (own_begin now ProtoUDP client "" 0 DecisionNone "" c0 HR) as Hb.
    unfold Begin in *. cbv zeta in *. injection Ho as _ <-. split; [done|]. split; [exact Hb|done|apply new_registry_ok|done]. }
  rewrite runE_app. set (b := runE l a0).
  pose proof (run_settles c0 (nextID c0 + 1) (load s) l a0 Hf (or_introl Ha)) as Hb. fold b in Hb.
  destruct (run_settles c0 (nextID c0 + 1) (load s) [EvTCPClosed; EvExit later] b Hf Hb) as [[E _]|?]; [|done].
  exfalso. revert E. change (over (stepE (stepE b EvTCPClosed) (EvExit later)) ≠ false).
  unfold Udp.step at 2. destruct (over b) eqn:Eb; unfold Udp.step; cbn -[finish_assoc]; rewrite Eb; [by rewrite Eb|done].
Qed.
End udp.

(** ** A concrete association

    Datagrams starting with ["d"] name a reserved address, the others a domain. *)

#[local] Instance udp_case : UnicodeCase := ascii_case.
#[local] Instance udp_router : RouterEnv := RouterProps.demo_env.
#[local] Instance udp_dns : Dns.DNSLib := DnsProps.demo_lib.
#[local] Instance udp_sort : GoSort := merge_GoSort.
#[local] Instance udp_format : TimeFormat := λ _, String.EmptyString.
#[local] Instance udp_spp : Spp.SppLib := SppProps.demo_lib.
#[local] Instance udp_upstream : SmartUpstream Spp.Manager :=
  SppUpstream.manager_upstream SppProps.demo_net 0 {| Spp.l_now := 0; Spp.l_client := false |}.
#[local] Instance udp_format_lib : SocksUDP := {|
  Sock5UnpackUDP s := match s with
                      | String "d" p => Some ("10.0.0.1", 53, p)
                      | String _ p => Some ("a.com", 443, p)
                      | _ => None
                      end;
  Sock5PackUDP _ _ b := Some (String "w" b) |}.

Definition demo_udp_state : UState Spp.Manager :=
  {| coll := Some demo_collector; up := Some SppProps.demo_manager; dnsS := None; out := []; dials := []; sent := [] |}.

Definition demo_assoc : UState Spp.Manager * option (Assoc Spp.Manager) :=
  associate (100 * second) "client" (Some "127.0.0.1:4000") true demo_udp_state.

Definition demo_fresh : Assoc Spp.Manager :=
  {| st := demo_assoc.1; udpSess := Some 1; assocClosed := false; over := false; activeClientUDP := None; spp := None;
     directSessions := newDirectUDPRegistry; toClient := []; toDirect := []; toRelay := [] |}.

Lemma demo_opened : opened_as (100 * second) "client" "127.0.0.1:4000" demo_udp_state demo_assoc.1 demo_fresh.
Proof. exact eq_refl. Defined.

Definition peer (b : Z) : UDPAddr := {| uIP := [10; 0; 0; b]; uPort := 53 |}.

Definition demo_dgram : Dgram := {|
  g_now := 101 * second; g_resolve _ := Ok (peer 1); g_listen _ := None;
  g_spp := {| o_resolve := None; o_dial := None; o_handshake := None; o_bnd := Ok "10.0.0.2:53"; o_split := "";
              o_remote := [10; 0; 0; 2]; o_listen := None |};
  g_write := true |}.

(** One datagram each way, and two that are dropped: from another source, and from
    another peer. *)
Definition demo_events : list event := [
  EvClient demo_dgram (peer 9) "dask"; EvClient demo_dgram (peer 8) "dspoof"; EvClient demo_dgram (peer 9) "proxied";
  EvDirect (102 * second) "10.0.0.1:53" (peer 1) "answer"; EvDirect (102 * second) "10.0.0.1:53" (peer 7) "forged";
  EvRelay (103 * second) (peer 2) "back"].

Definition demo_router : option Router := Some (NewRouterWithOptions RouterProps.demo_opts).

Definition demo_after : Assoc Spp.Manager := Udp.run demo_router false demo_events demo_fresh.

Lemma replies_authentic_witness :
  toClient demo_after = [(peer 9, "answer", "wanswer"); (peer 9, "back", "back")] ∧
  ∃ l1 e l2, demo_events = l1 ++ e :: l2 ∧
    reply_from (Udp.run demo_router false l1 demo_fresh) e (peer 9, "back", "back").
Proof.
  split; [vm_compute; reflexivity|].
  destruct (replies_authentic demo_router false _ _ _ _ _ _ demo_events (peer 9) "back" "back" demo_opened) as (l1 & e & l2 & E & Hr & _).
  { change (toClient _) with (toClient demo_after). vm_compute. right. left. }
  exact (ex_intro _ l1 (ex_intro _ e (ex_intro _ l2 (conj E Hr)))).
Defined.

Lemma forwarding_follows_route_witness :
  toDirect demo_after = [(0%nat, peer 1, "ask")] ∧ (uPort <$> (toRelay demo_after).*1, (toRelay demo_after).*2) = ([53], ["proxied"]) ∧
  ∀ x, x ∈ toRelay demo_after → ∃ l1 e l2, demo_events = l1 ++ e :: l2 ∧
    forwards_relay demo_router false (Udp.run demo_router false l1 demo_fresh) e x.
Proof.
  split; [vm_compute; reflexivity|]. split; [vm_compute; reflexivity|].
  exact (proj2 (forwarding_follows_route demo_router false _ _ _ _ _ _ demo_events demo_opened)).
Defined.

Lemma association_settles_witness :
  let a := Udp.run demo_router false (demo_events ++ [EvTCPClosed; EvExit (200 * second)]) demo_fresh in
  uploaded a = 9 ∧ downloaded a = 10 ∧ load (st a) = load demo_udp_state.
Proof.
  split; [vm_compute; reflexivity|]. split; [vm_compute; reflexivity|].
  exact (se_load _ _ _ _ (proj2 (association_settles demo_router false _ _ _ _ _ _ demo_events (200 * second) demo_collector
    demo_opened eq_refl demo_collector_registry))).
Defined.
End UdpProps.
