(* ===== verification/Relay.v ===== *)
(** * core/proxy: the relay of one connection (socks5.go, relayStreamsWithNode)

    Two pipes copy in opposite directions and share the time of the last activity,
    the number of pipes still open and whether a write has failed; a watchdog closes
    both sockets when the connection is idle.  A pipe is between two reads or inside
    a write; each read that returns and each write that ends is one event, with what
    it returned and the time read from the clock, so the two pipes and the watchdog
    interleave freely.  A relay's history is a sequence of events. *)

From S2P Require Import Prelude GoStrings.

Module Relay.

(** [Up] reads the client and writes the target, [Down] the reverse. *)
Inductive Dir := Up | Down.

Definition other (d : Dir) : Dir := match d with Up => Down | Down => Up end.
Definition is_up (d : Dir) : bool := match d with Up => true | Down => false end.

(** Where a pipe's loop is: in its read, in the write of a chunk that came with an
    error ([Some true] is a timeout) or without one, or past the loop. *)
Inductive Phase := Reading | Writing (data : string) (rerr : option bool) | Ended.

(** The read deadline of a pipe's source, the chunks it read and wrote, and whether
    it has shut the write side of its destination. *)
Record Pipe := { phase : Phase; deadline : option time; got : list string; put : list string; shut : bool }.
#[global] Instance Pipe_eta : Eta Pipe := λ p,
  {| phase := phase p; deadline := deadline p; got := got p; put := put p; shut := shut p |}.

(** [counts] is what the pipes reported to the session: when, whether it is upload,
    how many bytes. *)
Record Relay := {
  lastActivity : time; openPipes : Z; writeAborted : bool;
  p_up : Pipe; p_down : Pipe; socketsClosed : bool;
  counts : list (time * bool * Z);
}.
#[global] Instance Relay_eta : Eta Relay := λ r,
  {| lastActivity := lastActivity r; openPipes := openPipes r; writeAborted := writeAborted r;
     p_up := p_up r; p_down := p_down r; socketsClosed := socketsClosed r; counts := counts r |}.

Definition pipe (d : Dir) (r : Relay) : Pipe := match d with Up => p_up r | Down => p_down r end.

Definition on_pipe (d : Dir) (f : Pipe → Pipe) (r : Relay) : Relay :=
  match d with Up => r <| p_up ::= f |> | Down => r <| p_down ::= f |> end.

Definition new_pipe : Pipe := {| phase := Reading; deadline := None; got := []; put := []; shut := false |}.

Definition start (now : time) : Relay :=
  {| lastActivity := now; openPipes := 2; writeAborted := false; p_up := new_pipe; p_down := new_pipe;
     socketsClosed := false; counts := [] |}.

Definition relayCopyBufferSize : nat := Z.to_nat (32 * 1024).

Section relay.
Context (idle : duration).

(** The watchdog's period. *)
Definition interval : duration := let i := idle `quot` 4 in if i <? second then idle else i.

Definition grace : duration := if 15 * second <? idle then 15 * second else idle.

Definition set_deadline (d : Dir) (t : time) : Relay → Relay := on_pipe d (λ p, p <| deadline := Some t |>).

(** After the loop of pipe [d]: half-close the destination, bound both reads; the
    second pipe to end lets both sockets be closed. *)
Definition leave (d : Dir) (t : time) (r : Relay) : Relay :=
  let r := r <| openPipes ::= λ n, n - 1 |> in
  let r := on_pipe d (λ p, p <| phase := Ended |> <| shut := true |>) r in
  let r := set_deadline (other d) (t + grace) (set_deadline d (t + grace) r) in
  if openPipes r =? 0 then r <| socketsClosed := true |> else r.

(** A timed-out read goes on while the other direction is active. *)
Definition still_active (t : time) (r : Relay) : bool :=
  negb (writeAborted r) && (openPipes r =? 2) && (t - lastActivity r <? idle).

(** What follows the copying: the error of the read. *)
Definition on_error (d : Dir) (t : time) (rerr : option bool) (r : Relay) : Relay :=
  match rerr with
  | None => r
  | Some timeout => if timeout && still_active t r then set_deadline d (t + idle) r else leave d t r
  end.

(** A read of pipe [d] returns. *)
Definition on_read (d : Dir) (t : time) (data : string) (rerr : option bool) (r : Relay) : Relay :=
  match phase (pipe d r) with
  | Reading =>
      if String.eqb data "" then on_error d t rerr r
      else
        let r := r <| lastActivity := t |> in
        let r := if writeAborted r then r else set_deadline d (t + idle) r in
        let r := r <| counts ::= λ l, l ++ [(t, is_up d, Z.of_nat (String.length data))] |> in
        on_pipe d (λ p, p <| got ::= λ l, l ++ [data] |> <| phase := Writing data rerr |>) r
  | _ => r
  end.

(** A write of pipe [d] ends. *)
Definition on_write (d : Dir) (t : time) (ok : bool) (r : Relay) : Relay :=
  match phase (pipe d r) with
  | Writing data rerr =>
      if ok then
        let r := on_pipe d (λ p, p <| put ::= λ l, l ++ [data] |> <| phase := Reading |>) r in
        on_error d t rerr (r <| lastActivity := t |>)
      else leave d t (r <| writeAborted := true |>)
  | _ => r
  end.

(** A tick of the watchdog, which stops with the relay. *)
Definition watchdog (t : time) (r : Relay) : Relay :=
  if openPipes r =? 0 then r
  else if idle <? t - lastActivity r then r <| socketsClosed := true |> else r.

Inductive event :=
  | EvRead (d : Dir) (t : time) (data : string) (rerr : option bool)
  | EvWrote (d : Dir) (t : time) (ok : bool)
  | EvTick (t : time).

Definition step (r : Relay) (e : event) : Relay :=
  match e with
  | EvRead d t data rerr => on_read d t data rerr r
  | EvWrote d t ok => on_write d t ok r
  | EvTick t => watchdog t r
  end.

Definition run (l : list event) (r : Relay) : Relay := foldl step r l.

(** *** The client's side of an HTTP connection (http.go, prefixedReaderConn)

    The parser of the request may have read past it; [buffered] is what it holds of the
    bytes that follow, empty for SOCKS5, which reads no byte too many.  [taken] is what
    the reads of the socket itself returned. *)
Record Tunnel := { relay : Relay; buffered : string; taken : list string }.

Definition tunnel (br : string) (now : time) : Tunnel := {| relay := start now; buffered := br; taken := [] |}.

(** [prefixedReaderConn.Read], when the socket would give [data] and [rerr]: what it
    returns, what stays buffered. *)
Definition prefixed_read (data : string) (rerr : option bool) (br : string) : string * option bool * string :=
  if is_empty br then (data, rerr, br) else (stake relayCopyBufferSize br, None, sdrop relayCopyBufferSize br).

Definition tunnel_step (c : Tunnel) (e : event) : Tunnel :=
  match e, phase (p_up (relay c)) with
  | EvRead Up t data rerr, Reading =>
      let '(data', rerr', br) := prefixed_read data rerr (buffered c) in
      {| relay := on_read Up t data' rerr' (relay c); buffered := br;
         taken := if is_empty (buffered c) then taken c ++ [data] else taken c |}
  | _, _ => {| relay := step (relay c) e; buffered := buffered c; taken := taken c |}
  end.

Definition tunnel_run (l : list event) (c : Tunnel) : Tunnel := foldl tunnel_step c l.
End relay.
End Relay.
