(* ===== verification/RelayProps.v ===== *)
(** * core/proxy: what the relay guarantees

    Over every interleaving of the two pipes and the watchdog: the bytes and their
    accounting, the half-closes, and that an active connection is not cut. *)

From S2P Require Import Prelude GoStrings Relay.
Import Relay.

Module RelayProps.

(** ** The pipes' invariant *)

Definition ended (p : Pipe) : bool := match phase p with Ended => true | _ => false end.
Definition is_open (p : Pipe) : Z := if ended p then 0 else 1.

(** A pipe has written what it read, but for the chunk it is writing, or the one
    whose write failed, which ended it. *)
Definition faithful (aborted : bool) (p : Pipe) : Prop :=
  match phase p with
  | Reading => got p = put p
  | Writing data _ => got p = put p ++ [data]
  | Ended => got p = put p ∨ aborted = true ∧ ∃ last, got p = put p ++ [last]
  end.

Definition read_bytes (p : Pipe) : Z := foldr (λ s n, Z.of_nat (String.length s) + n) 0 (got p).

Definition counted (dir : bool) (l : list (time * bool * Z)) : Z :=
  foldr (λ ch n, (if Bool.eqb ch.1.2 dir then Z.max 0 ch.2 else 0) + n) 0 l.

Lemma counted_snoc dir l ch : counted dir (l ++ [ch]) = counted dir l + (if Bool.eqb ch.1.2 dir then Z.max 0 ch.2 else 0).
Proof. unfold counted. induction l as [|x l IH]; [cbn; lia|]. cbn in *. rewrite IH. lia. Qed.

Lemma read_bytes_snoc l s :
  foldr (λ s n, Z.of_nat (String.length s) + n) 0 (l ++ [s]) =
  foldr (λ s n, Z.of_nat (String.length s) + n) 0 l + Z.of_nat (String.length s).
Proof. induction l as [|x l IH]; [cbn; lia|]. cbn in *. rewrite IH. lia. Qed.

#[local] Arguments counted : simpl never.

(** What holds of one pipe, given the counters. *)
Record pipe_ok (r : Relay) (d : Dir) : Prop := {
  po_faithful : faithful (writeAborted r) (pipe d r);
  po_counts : counted (is_up d) (counts r) = read_bytes (pipe d r);
  po_shut : shut (pipe d r) = ended (pipe d r);
}.

Record sound (r : Relay) : Prop := {
  so_pipe : ∀ d, pipe_ok r d;
  so_open : openPipes r = is_open (p_up r) + is_open (p_down r);
  so_done : openPipes r = 0 → socketsClosed r = true;
}.

Lemma pipe_on_same d f r : pipe d (on_pipe d f r) = f (pipe d r).
Proof. by destruct d. Qed.
Lemma pipe_on_other d f r : pipe (other d) (on_pipe d f r) = pipe (other d) r.
Proof. by destruct d. Qed.
Lemma on_pipe_frame d f r :
  lastActivity (on_pipe d f r) = lastActivity r ∧ openPipes (on_pipe d f r) = openPipes r ∧
  writeAborted (on_pipe d f r) = writeAborted r ∧ socketsClosed (on_pipe d f r) = socketsClosed r ∧
  counts (on_pipe d f r) = counts r.
Proof. by destruct d. Qed.

Lemma dir_cases (P : Dir → Prop) d : P d → P (other d) → ∀ e, P e.
Proof. by destruct d; intros ? ? []. Qed.

Lemma faithful_abort b p : faithful b p → faithful true p.
Proof. unfold faithful. destruct (phase p); [done..|]. intros [?|[? ?]]; auto. Qed.

(** Fields a change keeps. *)
Definition same_pipe (p p' : Pipe) : Prop :=
  phase p' = phase p ∧ got p' = got p ∧ put p' = put p ∧ shut p' = shut p.

Lemma sound_same r r' :
  (∀ d, same_pipe (pipe d r) (pipe d r')) → openPipes r' = openPipes r → writeAborted r' = writeAborted r →
  counts r' = counts r → (socketsClosed r = true → socketsClosed r' = true) → sound r → sound r'.
Proof.
  intros Hp Eo Ea Ec Hc [S1 S2 S3]. split.
  - intros d. destruct (S1 d) as [P1 P2 P3], (Hp d) as (Q1 & Q2 & Q3 & Q4).
    split; unfold faithful, ended, read_bytes in *; rewrite ?Q1, ?Q2, ?Q3, ?Q4, ?Ea, ?Ec; done.
  - rewrite Eo, S2. destruct (Hp Up) as (Q1 & _), (Hp Down) as (Q2 & _). cbn in Q1, Q2. unfold is_open, ended. by rewrite Q1, Q2.
  - rewrite Eo. auto.
Qed.

Section proofs.
Context (idle : duration).

Lemma set_deadline_sound d t r : sound r → sound (set_deadline d t r).
Proof. apply sound_same; destruct d; try done; by intros []. Qed.

(** Leaving the loop of pipe [d]. *)
Lemma leave_sound d t r :
  pipe_ok r (other d) → counted (is_up d) (counts r) = read_bytes (pipe d r) → ended (pipe d r) = false →
  (got (pipe d r) = put (pipe d r) ∨ writeAborted r = true ∧ ∃ last, got (pipe d r) = put (pipe d r) ++ [last]) →
  openPipes r = is_open (p_up r) + is_open (p_down r) → sound (leave idle d t r).
Proof.
  intros Po Hc He Hf Ho. unfold leave. cbv zeta. set (r1 := on_pipe d _ _).
  assert (sound (r1 <| socketsClosed := (openPipes r1 =? 0) || socketsClosed r1 |>)) as Hs.
  { destruct Po as [P1 P2 P3]. unfold r1. split.
    - apply (dir_cases _ d); (split; destruct d; cbn in *; try done).
    - unfold is_open in *. destruct d; cbn in *; rewrite He in Ho; unfold ended in *; cbn; lia.
    - cbn. by intros ->. }
  revert Hs. apply sound_same; destruct (openPipes (set_deadline _ _ _) =? 0) eqn:E; destruct d; cbn in *; try done; try (by intros []);
    rewrite ?E; done.
Qed.

Lemma on_error_sound d t rerr r : phase (pipe d r) = Reading → sound r → sound (on_error idle d t rerr r).
Proof.
  intros Hp Hs. unfold on_error. destruct rerr as [timeout|]; [|done]. destruct (timeout && _); [by apply set_deadline_sound|].
  destruct Hs as [S1 S2 S3]. destruct (S1 d) as [P1 P2 P3]. unfold faithful in P1. rewrite Hp in P1.
  apply leave_sound; auto. unfold ended. by rewrite Hp.
Qed.

Lemma on_read_sound d t data rerr r : sound r → sound (on_read idle d t data rerr r).
Proof.
  intros Hs. unfold on_read. destruct (phase (pipe d r)) eqn:Hp; [|done..]. case_match; [by apply on_error_sound|]. cbv zeta.
  set (r1 := if writeAborted _ then _ else _).
  assert (sound r1 ∧ phase (pipe d r1) = Reading) as [[S1 S2 S3] Hp1].
  { assert (sound (r <| lastActivity := t |>)) as H1 by (revert Hs; by apply sound_same).
    unfold r1. destruct (writeAborted _); (split; [done || by apply set_deadline_sound|by destruct d]). }
  clearbody r1. destruct (S1 d) as [P1 P2 P3], (S1 (other d)) as [Q1 Q2 Q3]. unfold faithful in P1. rewrite Hp1 in P1. split.
  - apply (dir_cases _ d); split; destruct d; cbn in *; try done; rewrite ?counted_snoc; cbn; try (rewrite ?P1; done);
      try (unfold ended in *; cbn; by rewrite P3, Hp1); unfold read_bytes in *; cbn; rewrite ?read_bytes_snoc; lia.
  - destruct d; cbn in *; unfold is_open, ended in *; cbn; by rewrite Hp1 in S2.
  - by destruct d.
Qed.

Lemma on_write_sound d t ok r : sound r → sound (on_write idle d t ok r).
Proof.
  intros Hs. unfold on_write. destruct (phase (pipe d r)) as [|data rerr|] eqn:Hp; [done| |done].
  destruct Hs as [S1 S2 S3]. destruct (S1 d) as [P1 P2 P3], (S1 (other d)) as [Q1 Q2 Q3]. unfold faithful in P1. rewrite Hp in P1.
  assert (ended (pipe d r) = false) as He by (unfold ended; by rewrite Hp). destruct ok.
  - cbv zeta. apply on_error_sound; [by destruct d|]. split.
    + apply (dir_cases _ d); split; destruct d; cbn in *; try done; by rewrite P3, He.
    + destruct d; cbn in *; unfold is_open, ended in *; cbn; by rewrite Hp in S2.
    + by destruct d.
  - apply leave_sound; [|by destruct d|by destruct d| |by destruct d].
    + split; [apply faithful_abort in Q1; by destruct d|by destruct d|by destruct d].
    + right. split; [done|]. exists data. by destruct d.
Qed.

Lemma step_sound r e : sound r → sound (step idle r e).
Proof.
  intros Hs. destruct e as [d t data rerr|d t ok|t]; [by apply on_read_sound|by apply on_write_sound|].
  cbn. unfold watchdog. destruct (_ =? 0); [done|]. destruct (_ <? _); [|done]. revert Hs. by apply sound_same.
Qed.

Lemma run_sound l r : sound r → sound (run idle l r).
Proof. revert r. induction l as [|e l IH]; intros r Hs; [done|]. cbn. by apply IH, step_sound. Qed.

Lemma start_sound now : sound (start now).
Proof. by split; [intros []; split|..]. Qed.

(** *** The buffered bytes of the client *)

(** The client's bytes so far, in order: those the parser held, then the socket's. *)
Definition in_order (br : string) (c : Tunnel) : Prop :=
  joined (got (p_up (relay c))) +:+ buffered c = br +:+ joined (taken c) ∧ (taken c ≠ [] → buffered c = "").

Lemma on_read_got d t data rerr r :
  phase (pipe d r) = Reading →
  joined (got (pipe d (on_read idle d t data rerr r))) = joined (got (pipe d r)) +:+ data ∧
  got (pipe (other d) (on_read idle d t data rerr r)) = got (pipe (other d) r).
Proof.
  intros Hp. unfold on_read. rewrite Hp. destruct (String.eqb_spec data "") as [->|_].
  - rewrite sapp_nil_r. unfold on_error, leave. cbv zeta. destruct rerr; [|done]. repeat case_match; by destruct d.
  - cbv zeta. destruct (writeAborted _); destruct d; cbn; by rewrite joined_snoc.
Qed.

Lemma on_write_got d t ok r e : got (pipe e (on_write idle d t ok r)) = got (pipe e r).
Proof.
  unfold on_write. destruct (phase (pipe d r)) as [|data rerr|]; [done| |done]. unfold on_error, leave. cbv zeta.
  destruct ok; [destruct rerr|]; repeat case_match; by destruct d, e.
Qed.

Lemma tunnel_step_in_order br c e : in_order br c → in_order br (tunnel_step idle c e).
Proof.
  intros [H1 H2]. destruct e as [d t data rerr|d t ok|t].
  - destruct (phase (pipe d (relay c))) eqn:Hp; [|destruct d; unfold in_order, tunnel_step, step, on_read; cbn in *; by rewrite Hp..].
    destruct d; unfold in_order; cbn [tunnel_step].
    + cbn [pipe] in Hp. rewrite Hp. unfold prefixed_read. destruct (is_empty (buffered c)) eqn:Eb; cbn [relay buffered taken].
      * pose proof (proj1 (on_read_got Up t data rerr _ Hp)) as E. cbn [pipe] in E. rewrite E.
        apply is_empty_true in Eb. rewrite Eb, !sapp_nil_r in *. by rewrite H1, joined_snoc, sapp_assoc.
      * pose proof (proj1 (on_read_got Up t (stake relayCopyBufferSize (buffered c)) None _ Hp)) as E. cbn [pipe] in E.
        rewrite E, sapp_assoc, stake_sdrop. apply is_empty_false in Eb. split; [done|]. intros Ht. by destruct (Eb (H2 Ht)).
    + pose proof (proj2 (on_read_got Down t data rerr _ Hp)) as E. cbn [pipe other] in E. cbn [relay buffered taken step]. by rewrite E.
  - pose proof (on_write_got d t ok (relay c) Up) as E. cbn [pipe] in E. unfold in_order. cbn [tunnel_step step relay buffered taken]. by rewrite E.
  - unfold in_order, tunnel_step. cbn. unfold watchdog. by repeat case_match.
Qed.

Lemma tunnel_step_sound c e : sound (relay c) → sound (relay (tunnel_step idle c e)).
Proof.
  intros Hs. unfold tunnel_step. destruct e as [[] t data rerr| |]; try by apply step_sound.
  destruct (phase _); [|by apply step_sound..]. destruct (prefixed_read _ _ _) as [[? ?] ?]. by apply on_read_sound.
Qed.

Lemma tunnel_run_inv br now l :
  sound (relay (tunnel_run idle l (tunnel br now))) ∧ in_order br (tunnel_run idle l (tunnel br now)).
Proof.
  assert (∀ c, sound (relay c) ∧ in_order br c → sound (relay (tunnel_run idle l c)) ∧ in_order br (tunnel_run idle l c)) as Hl.
  { induction l as [|e l IH]; intros c Hc; [done|]. cbn. apply IH. destruct Hc. by split; [apply tunnel_step_sound|apply tunnel_step_in_order]. }
  apply Hl. split; [apply start_sound|]. split; [by rewrite sapp_nil_r|done].
Qed.

(** C11: the relay is faithful.  However the two directions, the watchdog and failures
    interleave: each side is sent, in order and without change, what the other side was
    read to say, all of it except a chunk still being written or one whose write
    failed; what the client is read to say begins with the bytes the request's parser
    had read ahead, none lost or repeated, and goes on with what its socket gives; the
    session is told exactly the bytes read in each direction; a pipe shuts the write
    side of its destination exactly when it ends; and once both have ended, both
    sockets are closed. *)
Theorem relay_faithful br now l :
  let c := tunnel_run idle l (tunnel br now) in
  let r := relay c in
  (∀ d, put (pipe d r) `prefix_of` got (pipe d r) ∧
        (writeAborted r = false → ended (pipe d r) = true → put (pipe d r) = got (pipe d r)) ∧
        counted (is_up d) (counts r) = read_bytes (pipe d r) ∧ shut (pipe d r) = ended (pipe d r)) ∧
  joined (got (p_up r)) +:+ buffered c = br +:+ joined (taken c) ∧ (taken c ≠ [] → buffered c = "") ∧
  openPipes r = is_open (p_up r) + is_open (p_down r) ∧
  (ended (p_up r) = true → ended (p_down r) = true → socketsClosed r = true).
Proof.
  intros c r. destruct (tunnel_run_inv br now l) as [[S1 S2 S3] [O1 O2]]. fold c in S1, S2, S3, O1, O2. fold r in S1, S2, S3, O1.
  split_and!; [|done..|intros Hu Hd; apply S3; rewrite S2; unfold is_open; by rewrite Hu, Hd].
  intros d. destruct (S1 d) as [P1 P2 P3]. unfold faithful, ended in *. split_and!; [|intros Ha He|done|done].
  - destruct (phase (pipe d r)); [by rewrite P1|rewrite P1; by apply prefix_app_r|]. destruct P1 as [->|[_ [x ->]]]; [done|by apply prefix_app_r].
  - destruct (phase (pipe d r)); [done..|]. destruct P1 as [->|[E _]]; [done|congruence].
Qed.

(** ** Time *)

Definition ev_time (e : event) : time := match e with EvRead _ t _ _ | EvWrote _ t _ | EvTick t => t end.

Fixpoint ordered (now : time) (l : list event) : Prop :=
  match l with [] => True | e :: l => now ≤ ev_time e ∧ ordered (ev_time e) l end.

(** When the relay began and when each chunk was read. *)
Definition active_times (now : time) (r : Relay) : list time := now :: ((λ ch, ch.1.1) <$> counts r).

Definition fresh (t0 : time) (now : time) (r : Relay) : Prop :=
  lastActivity r ≤ now ∧ Forall (λ t, t ≤ lastActivity r) (active_times t0 r).

Lemma leave_frame d t r : lastActivity (leave idle d t r) = lastActivity r ∧ counts (leave idle d t r) = counts r.
Proof. unfold leave. cbv zeta. destruct (_ =? 0); by destruct d. Qed.

Lemma on_error_frame d t rerr r :
  lastActivity (on_error idle d t rerr r) = lastActivity r ∧ counts (on_error idle d t rerr r) = counts r.
Proof. unfold on_error. destruct rerr; [|done]. destruct (_ && _); [by destruct d|apply leave_frame]. Qed.

Lemma fresh_same t0 now t r r' :
  now ≤ t → lastActivity r' = lastActivity r → counts r' = counts r → fresh t0 now r → fresh t0 t r'.
Proof. unfold fresh, active_times. intros Hn -> -> [? ?]. split; [lia|done]. Qed.

Lemma fresh_later t0 now t r r' l :
  now ≤ t → lastActivity r' = t → counts r' = counts r ++ l → Forall (λ ch, ch.1.1 ≤ t) l → fresh t0 now r → fresh t0 t r'.
Proof.
  unfold fresh, active_times. intros Hn -> -> Hl [? Hf]. split; [lia|]. apply Forall_cons in Hf as [? Hf].
  apply Forall_cons. split; [lia|]. rewrite fmap_app. apply Forall_app. split; [|by apply Forall_fmap].
  eapply Forall_impl; [exact Hf|]. cbn. intros. lia.
Qed.

Lemma step_fresh t0 now r e : now ≤ ev_time e → fresh t0 now r → fresh t0 (ev_time e) (step idle r e).
Proof.
  intros Hn Hf. destruct e as [d t data rerr|d t ok|t]; cbn [ev_time step] in *.
  - unfold on_read. destruct (phase (pipe d r)); [|by apply (fresh_same t0 now t r)..]. case_match.
    + destruct (on_error_frame d t rerr r) as [E1 E2]. by apply (fresh_same t0 now t r).
    + cbv zeta. apply (fresh_later t0 now t r _ [(t, is_up d, Z.of_nat (String.length data))]); try done;
        [destruct (writeAborted _); by destruct d..|by apply Forall_singleton].
  - unfold on_write. destruct (phase (pipe d r)) as [|data rerr|]; [by apply (fresh_same t0 now t r)| |by apply (fresh_same t0 now t r)].
    destruct ok; cbv zeta.
    + match goal with |- fresh _ _ (on_error _ _ _ _ ?x) => destruct (on_error_frame d t rerr x) as [E1 E2] end.
      apply (fresh_later t0 now t r _ []); [done|by rewrite E1; destruct d|rewrite E2, app_nil_r; by destruct d|by apply Forall_nil_2|done].
    + destruct (leave_frame d t (r <| writeAborted := true |>)) as [E1 E2]. by apply (fresh_same t0 now t r).
  - unfold watchdog. destruct (_ =? 0); [by apply (fresh_same t0 now t r)|]. destruct (_ <? _); by apply (fresh_same t0 now t r).
Qed.

Lemma run_fresh t0 now l r : ordered now l → fresh t0 now r → ∃ now', fresh t0 now' (run idle l r).
Proof.
  revert now r. induction l as [|e l IH]; intros now r Ho Hf; [by exists now|]. destruct Ho as [Hn Ho]. cbn.
  apply (IH (ev_time e)); [done|]. by apply (step_fresh t0 now).
Qed.

(** *** The half-closed connection *)

#[local] Instance Dir_eq_dec : EqDecision Dir.
Proof. solve_decision. Defined.

(** When pipe [d] last read something, in a part of the session's counts. *)
Definition last_read (d : Dir) (cs : list (time * bool * Z)) : option time :=
  last ((λ ch, ch.1.1) <$> filter (λ ch, ch.1.2 = is_up d) cs).

Lemma last_read_snoc d cs ch :
  last_read d (cs ++ [ch]) = if decide (ch.1.2 = is_up d) then Some ch.1.1 else last_read d cs.
Proof.
  unfold last_read. rewrite filter_app, fmap_app, filter_cons, filter_nil. case_decide; cbn [fmap list_fmap].
  - by rewrite last_snoc.
  - by rewrite app_nil_r.
Qed.

(** The read deadline of pipe [d] when the other one ended at [u] and [cs] was counted
    since: a read puts it off, unless a write has failed. *)
Definition left_until (d : Dir) (u : time) (aborted : bool) (cs : list (time * bool * Z)) : time :=
  match last_read d cs with
  | Some t => if aborted then u + grace idle else t + idle
  | None => u + grace idle
  end.

(** Pipe [d] alone is left, since [r0]. *)
Definition alone (d : Dir) (u : time) (r0 r : Relay) : Prop :=
  ended (pipe (other d) r) = true ∧
  (ended (pipe d r) = false →
   ∃ cs, counts r = counts r0 ++ cs ∧ deadline (pipe d r) = Some (left_until d u (writeAborted r) cs)).

Lemma leave_ends d t r :
  ended (pipe d (leave idle d t r)) = true ∧ ended (pipe (other d) (leave idle d t r)) = ended (pipe (other d) r) ∧
  deadline (pipe (other d) (leave idle d t r)) = Some (t + grace idle).
Proof. unfold leave. cbv zeta. case_match; by destruct d. Qed.

(** An event of pipe [d] does not end the other one. *)
Lemma on_error_other d t rerr r : ended (pipe (other d) (on_error idle d t rerr r)) = ended (pipe (other d) r).
Proof.
  unfold on_error. destruct rerr; [|done]. case_match; [by destruct d|]. apply leave_ends.
Qed.

Lemma on_read_other d t data rerr r : ended (pipe (other d) (on_read idle d t data rerr r)) = ended (pipe (other d) r).
Proof.
  unfold on_read. destruct (phase (pipe d r)); [|done..]. case_match; [apply on_error_other|].
  cbv zeta. case_match; by destruct d.
Qed.

Lemma on_write_other d t ok r : ended (pipe (other d) (on_write idle d t ok r)) = ended (pipe (other d) r).
Proof.
  unfold on_write. destruct (phase (pipe d r)); [done| |done]. destruct ok; cbv zeta; [rewrite on_error_other|];
    [|rewrite (proj1 (proj2 (leave_ends d t _)))]; by destruct d.
Qed.

Lemma watchdog_pipe d t r : pipe d (watchdog idle t r) = pipe d r ∧ counts (watchdog idle t r) = counts r ∧
  writeAborted (watchdog idle t r) = writeAborted r.
Proof. unfold watchdog. by repeat case_match; destruct d. Qed.

(** The event that ends a pipe bounds the other one's read. *)
Lemma on_error_ends d t rerr r :
  ended (pipe d r) = false → ended (pipe d (on_error idle d t rerr r)) = true →
  deadline (pipe (other d) (on_error idle d t rerr r)) = Some (t + grace idle).
Proof.
  intros H0. unfold on_error. destruct rerr; [|congruence]. case_match; [|intros _; apply leave_ends].
  unfold set_deadline. rewrite pipe_on_same. unfold ended in *. cbn. congruence.
Qed.

Lemma step_ends d r e :
  ended (pipe d r) = false → ended (pipe d (step idle r e)) = true →
  deadline (pipe (other d) (step idle r e)) = Some (ev_time e + grace idle).
Proof.
  intros H0. destruct e as [d' t data rerr|d' t ok|t]; cbn [step ev_time].
  - destruct (decide (d' = d)) as [->|Hd].
    + unfold on_read. destruct (phase (pipe d r)) eqn:Hp; [|congruence..]. case_match; [by apply on_error_ends|].
      cbv zeta. rewrite pipe_on_same. unfold ended. done.
    + assert (d = other d') as -> by by destruct d, d'. rewrite on_read_other. congruence.
  - destruct (decide (d' = d)) as [->|Hd].
    + unfold on_write. destruct (phase (pipe d r)) as [|data rerr|] eqn:Hp; [congruence| |congruence].
      destruct ok; cbv zeta; [|intros _; apply leave_ends]. apply on_error_ends. by destruct d.
    + assert (d = other d') as -> by by destruct d, d'. rewrite on_write_other. congruence.
  - destruct (watchdog_pipe d t r) as [-> _]. congruence.
Qed.

(** A pipe that is left alone is not spared: its read's error ends it. *)
Lemma alone_open d r : sound r → ended (pipe (other d) r) = true → openPipes r ≠ 2.
Proof. intros [_ S2 _] He. rewrite S2. unfold is_open. destruct d; cbn in He; rewrite He; by case_match. Qed.

Lemma alone_error d t timeout r : openPipes r ≠ 2 → on_error idle d t (Some timeout) r = leave idle d t r.
Proof.
  intros Ho. unfold on_error, still_active. assert ((openPipes r =? 2) = false) as -> by lia. by rewrite !andb_false_r.
Qed.

Lemma on_error_alone d u r0 t rerr r : openPipes r ≠ 2 → alone d u r0 r → alone d u r0 (on_error idle d t rerr r).
Proof.
  intros Hs Ha. destruct rerr as [timeout|]; [|done]. rewrite alone_error by done.
  destruct (leave_ends d t r) as (E1 & E2 & _). split; [rewrite E2; apply Ha|congruence].
Qed.

Lemma step_alone d u r0 r e : sound r → alone d u r0 r → alone d u r0 (step idle r e).
Proof.
  intros Hs Ha. pose proof Ha as [Ho Hd]. pose proof (alone_open d r Hs Ho) as Hn.
  destruct e as [d' t data rerr|d' t ok|t]; cbn [step].
  - destruct (decide (d' = d)) as [->|Hne].
    + unfold on_read. destruct (phase (pipe d r)) eqn:Hp; [|done..]. case_match; [by apply on_error_alone|].
      split; [cbv zeta; rewrite pipe_on_other; by destruct (writeAborted _), d|]. intros _.
      destruct Hd as (cs & Ec & Ed); [unfold ended; by rewrite Hp|]. exists (cs ++ [(t, is_up d, Z.of_nat (String.length data))]).
      split; [cbv zeta; rewrite app_assoc, <- Ec; by destruct (writeAborted _), d|].
      unfold left_until in *. rewrite last_read_snoc, decide_True by done. cbv zeta. rewrite pipe_on_same.
      destruct (writeAborted r) eqn:Ew; destruct d; cbn in *; rewrite ?Ew; try done; (etransitivity; [exact Ed|by case_match]).
    + assert (d' = other d) as -> by by destruct d, d'. unfold on_read, ended in *. by destruct (phase (pipe (other d) r)).
  - destruct (decide (d' = d)) as [->|Hne].
    + unfold on_write. destruct (phase (pipe d r)) as [|data rerr|] eqn:Hp; [done| |done]. destruct ok; cbv zeta.
      * apply on_error_alone; [by destruct d|]. split; [by destruct d|]. intros _.
        destruct Hd as (cs & Ec & Ed); [unfold ended; by rewrite Hp|]. exists cs. by destruct d.
      * destruct (leave_ends d t (r <| writeAborted := true |>)) as (E1 & E2 & _). split; [rewrite E2; by destruct d|congruence].
    + assert (d' = other d) as -> by by destruct d, d'. unfold on_write, ended in *. by destruct (phase (pipe (other d) r)).
  - unfold alone. destruct (watchdog_pipe d t r) as (-> & -> & ->), (watchdog_pipe (other d) t r) as (-> & _). done.
Qed.

Lemma run_alone d u r0 l r : sound r → alone d u r0 r → alone d u r0 (run idle l r).
Proof.
  revert r. induction l as [|e l IH]; intros r Hs Ha; [done|]. cbn. by apply IH; [apply step_sound|apply step_alone].
Qed.

(** From the end of one pipe on, the other one is alone. *)
Lemma ends_alone d r e l :
  sound r → ended (pipe (other d) r) = false → ended (pipe (other d) (step idle r e)) = true →
  alone d (ev_time e) (step idle r e) (run idle l (step idle r e)).
Proof.
  intros Hs H0 H1. apply run_alone; [by apply step_sound|]. split; [done|]. intros _. exists []. split; [by rewrite app_nil_r|].
  pose proof (step_ends (other d) r e H0 H1) as E. replace (other (other d)) with d in E by by destruct d. by rewrite E.
Qed.

(** C38: an active connection is not cut.  With a clock that does not go back: the
    watchdog closes the sockets only when nothing has been read in either direction for
    more than the idle time; and while both directions are open and no write has failed,
    a silent direction whose read times out is ended only when nothing has been read in
    the other one either for the idle time.  Once one direction has ended the other one
    is no longer spared: its read may wait until the grace time, at most fifteen seconds,
    after that end, or until the idle time after what it last read since then, unless a
    write has failed; and a read that times out ends it. *)
Theorem active_not_cut now l e :
  ordered now l →
  let r := run idle l (start now) in
  let r' := step idle r e in
  (∀ t, e = EvTick t → socketsClosed r = false → socketsClosed r' = true →
     Forall (λ u, u + idle < t) (active_times now r)) ∧
  (∀ d t, e = EvRead d t "" (Some true) → ended (pipe d r) = false → ended (pipe d r') = true →
     ended (pipe (other d) r) = false → writeAborted r = false →
     Forall (λ u, u + idle ≤ t) (active_times now r)) ∧
  (∀ d l1 e1 l2, l = l1 ++ e1 :: l2 →
     let r0 := run idle l1 (start now) in
     let r1 := step idle r0 e1 in
     ended (pipe (other d) r0) = false → ended (pipe (other d) r1) = true → ended (pipe d r) = false →
     (∃ cs, counts r = counts r1 ++ cs ∧
            deadline (pipe d r) = Some (left_until d (ev_time e1) (writeAborted r) cs)) ∧
     ∀ t, e = EvRead d t "" (Some true) → phase (pipe d r) = Reading → ended (pipe d r') = true).
Proof.
  intros Ho r r'. assert (fresh now now (start now)) as H0 by (split; cbn; [lia|by apply Forall_singleton]).
  destruct (run_fresh now now l (start now) Ho H0) as [now' [_ Hf]]. fold r in Hf.
  destruct (run_sound l (start now) (start_sound now)) as [_ S2 _]. fold r in S2. split_and!.
  - intros t -> Hc Hc'. unfold r' in Hc'. cbn in Hc'. unfold watchdog in Hc'. destruct (_ =? 0); [congruence|].
    destruct (Z.ltb_spec idle (t - lastActivity r)); [|congruence]. cbn. eapply Forall_impl; [exact Hf|]. cbn. intros. lia.
  - intros d t -> He He' Hoth Ha. unfold r' in He'. cbn in He'. unfold on_read in He'.
    destruct (phase (pipe d r)) eqn:Hp; [|unfold ended in *; rewrite Hp in *; done..]. unfold on_error in He'. cbn in He'.
    destruct (still_active idle t r) eqn:Es.
    { exfalso. unfold set_deadline in He'. rewrite pipe_on_same in He'. unfold ended in He'. cbn in He'. by rewrite Hp in He'. }
    unfold still_active in Es. rewrite Ha in Es. assert (openPipes r = 2) as E2.
    { rewrite S2. unfold is_open. destruct d; cbn in *; rewrite ?He, ?Hoth; done. }
    rewrite E2 in Es. cbn in Es. apply Z.ltb_ge in Es. cbn. eapply Forall_impl; [exact Hf|]. cbn. intros. lia.
  - intros d l1 e1 l2 -> r0 r1 Hb Hb' Hd. pose proof (run_sound l1 (start now) (start_sound now)) as Hs0. fold r0 in Hs0.
    assert (r = run idle l2 r1) as Er by (unfold r, run; by rewrite foldl_app).
    destruct (ends_alone d r0 e1 l2 Hs0 Hb Hb') as [Hoth Ha]. fold r1 in Hoth, Ha. rewrite <- Er in Hoth, Ha. split; [by apply Ha|].
    intros t -> Hp. unfold r'. cbn [step]. unfold on_read. rewrite Hp. cbn [String.eqb].
    rewrite alone_error; [apply leave_ends|]. apply (alone_open d); [|done].
    rewrite Er. by apply run_sound, step_sound.
Qed.
End proofs.

(** ** A concrete relay

    A long download over a silent client: the read of the client times out twice, the
    second time a minute after the last byte. *)

Definition demo_turns : list event := [
  EvRead Up 1 "GET" None; EvWrote Up 2 true; EvRead Down (40 * second) "data" None; EvWrote Down (41 * second) true;
  EvRead Up (61 * second) "" (Some true); EvTick (62 * second); EvRead Down (70 * second) "more" (Some false);
  EvWrote Down (71 * second) true].

Lemma active_not_cut_witness :
  let r := run (60 * second) demo_turns (start 0) in
  ended (p_up r) = false ∧ ended (p_down r) = true ∧ put (p_down r) = ["data"; "more"] ∧
  Forall (λ t, t + 60 * second < 200 * second) (active_times 0 r).
Proof.
  split; [vm_compute; reflexivity|]. split; [vm_compute; reflexivity|]. split; [vm_compute; reflexivity|].
  refine (proj1 (active_not_cut (60 * second) 0 demo_turns (EvTick (200 * second)) _) _ _ _ _);
    [cbn; unfold second; lia|reflexivity|vm_compute; reflexivity|vm_compute; reflexivity].
Defined.
End RelayProps.
