(* ===== verification/Api.v ===== *)
(** * core/api: access control and parameters of the statistics API (api.go)

    What stands between a request and a handler: the route table, the methods, the
    network gates, the forwarded client address, the tokens; then the parsing of the
    query parameters.  A request is the parts of the HTTP request the code reads.  The
    bodies of the handlers are in [ApiView]. *)

From S2P Require Import Prelude GoStrings GoNet.

Module Api.

Definition DefaultListenAddr : string := "127.0.0.1:9090".
Definition DefaultReadTimeout : duration := 15 * second.
Definition DefaultWriteTimeout : duration := 30 * second.
Definition DefaultIdleTimeout : duration := 60 * second.
Definition MaxLimit : Z := 1000.
Definition MaxDomainLimit : Z := 500.
Definition MaxErrorLimit : Z := 500.
Definition MaxPoints : Z := 720.

Record Config := {
  ListenAddr : string; Token : string; ReadonlyToken : string;
  AllowedCIDRs : list string; ClientCIDRs : list string; TrustedProxies : list string; AllowedOrigins : list string;
  Dashboard : bool; PProf : bool;
  ReadTimeout : duration; WriteTimeout : duration; IdleTimeout : duration;
}.
#[global] Instance Config_eta : Eta Config := λ c,
  {| ListenAddr := ListenAddr c; Token := Token c; ReadonlyToken := ReadonlyToken c; AllowedCIDRs := AllowedCIDRs c;
     ClientCIDRs := ClientCIDRs c; TrustedProxies := TrustedProxies c; AllowedOrigins := AllowedOrigins c;
     Dashboard := Dashboard c; PProf := PProf c; ReadTimeout := ReadTimeout c; WriteTimeout := WriteTimeout c;
     IdleTimeout := IdleTimeout c |}.

(** Access levels: [accessNone], [accessRead], [accessAdmin]. *)
Definition accessNone : Z := 0.
Definition accessRead : Z := 1.
Definition accessAdmin : Z := 2.

Record Server := {
  cfg : Config; allowedNets : list IPNet; clientNets : list IPNet; trustedNets : list IPNet; corsDisabled : bool;
  listening : bool; closed : bool;
}.
#[global] Instance Server_eta : Eta Server := λ s,
  {| cfg := cfg s; allowedNets := allowedNets s; clientNets := clientNets s; trustedNets := trustedNets s;
     corsDisabled := corsDisabled s; listening := listening s; closed := closed s |}.

(** The headers read are those named; an absent header is empty. *)
Record Request := {
  Method : string; Path : string; RemoteAddr : string;
  Authorization : string; XAPIToken : string; tokenParam : string;
  XForwardedFor : string; XRealIP : string; Origin : string;
}.

(** ** Addresses *)

Definition parseIPFromAddr (addr : string) : IP :=
  let host := match SplitHostPort addr with Some (h, _) => h | None => addr end in
  let ip := ParseIP host in
  let v4 := To4 ip in if is_nil v4 then ip else v4.

Definition inNets (ip : IP) (nets : list IPNet) : bool :=
  if is_nil ip then false
  else let v4 := To4 ip in
       let ip := if is_nil v4 then ip else v4 in
       existsb (λ n, net_contains n ip) nets.

Definition cidr_of (raw : string) : result string IPNet :=
  let host := negb (Contains raw "/") in
  if host && is_nil (ParseIP raw) then Err ("invalid address " +:+ raw)
  else
    let raw := if host then
                 let r := raw +:+ "/32" in
                 if Contains r ":" then TrimSuffix r "/32" +:+ "/128" else r
               else raw in
    match ParseCIDR raw with
    | Some n => Ok n
    | None => Err ("invalid CIDR " +:+ raw)
    end.

Fixpoint parseCIDRs (l : list string) : result string (list IPNet) :=
  match l with
  | [] => Ok []
  | raw :: l =>
      let raw := TrimSpace raw in
      if String.eqb raw "" then parseCIDRs l
      else match cidr_of raw with
           | Err e => Err e
           | Ok n => match parseCIDRs l with Ok out => Ok (n :: out) | Err e => Err e end
           end
  end.

(** The hops of the chain that parse, in order. *)
Definition hops (xff : string) : list IP := filter (λ ip, is_nil ip = false) ((λ p, ParseIP (TrimSpace p)) <$> Split xff ",").

Definition first_hop (p : IP → bool) (l : list IP) : option IP := head (filter (λ ip, p ip = true) l).

Definition or_ip (a b : option IP) : option IP := match a with Some _ => a | None => b end.

Definition clientIP (s : Server) (r : Request) : IP :=
  let remote := parseIPFromAddr (RemoteAddr r) in
  if (length (trustedNets s) =? 0)%nat || is_nil remote || negb (inNets remote (trustedNets s)) then remote
  else
    let chain := if String.eqb (XForwardedFor r) "" then [] else hops (XForwardedFor r) in
    let untrusted := first_hop (λ ip, negb (inNets ip (trustedNets s))) (reverse chain) in
    let real := let ip := ParseIP (TrimSpace (XRealIP r)) in
                if String.eqb (XRealIP r) "" || is_nil ip then None else Some ip in
    default remote (or_ip untrusted (or_ip (head chain) real)).

(** The reason of a rejection. *)
Definition addressRejected (s : Server) (r : Request) : string * IP :=
  let peer := parseIPFromAddr (RemoteAddr r) in
  if (0 <? length (allowedNets s))%nat && negb (inNets peer (allowedNets s))
  then ("peer not in api_allowed_cidrs", peer)
  else if (0 <? length (clientNets s))%nat then
    let client := clientIP s r in
    if negb (inNets client (clientNets s)) then ("client not in api_client_cidrs", client) else ("", peer)
  else ("", peer).

Section api.
Context `{UnicodeCase}.

(** ** Tokens *)

Definition requestToken (r : Request) : string :=
  let h := Authorization r in
  if negb (String.eqb h "") && (7 <? String.length h)%nat && EqualFold (stake 7 h) "bearer "
  then TrimSpace (sdrop 7 h)
  else
    let v := TrimSpace (XAPIToken r) in
    if String.eqb v "" then tokenParam r else v.

Definition accessLevel (s : Server) (r : Request) : Z :=
  let tok := requestToken r in
  if String.eqb tok "" then accessNone
  else if String.eqb tok (Token (cfg s)) then accessAdmin
  else if negb (String.eqb (ReadonlyToken (cfg s)) "") && String.eqb tok (ReadonlyToken (cfg s)) then accessRead
  else accessNone.

Definition authorized (s : Server) (r : Request) : bool :=
  let given := requestToken r in negb (String.eqb given "") && String.eqb given (Token (cfg s)).

(** ** The server *)

(** [rand]: the 16 bytes of [rand.Read], or its failure. *)
Definition randomToken (rand : option string) (now : time) : string :=
  match rand with None => show_hex now | Some buf => HexEncode buf end.

(** [token] is what [randomToken] returns. *)
Definition New (token : string) (c : Config) : result string Server :=
  let c := c <| ListenAddr ::= λ s, if String.eqb s "" then DefaultListenAddr else s |>
             <| ReadTimeout ::= λ d, if d <=? 0 then DefaultReadTimeout else d |>
             <| WriteTimeout ::= λ d, if d <=? 0 then DefaultWriteTimeout else d |>
             <| IdleTimeout ::= λ d, if d <=? 0 then DefaultIdleTimeout else d |>
             <| AllowedOrigins ::= λ l, match l with [] => ["*"] | _ => l end |>
             <| Token ::= λ s, if String.eqb s "" then token else s |> in
  match parseCIDRs (AllowedCIDRs c) with
  | Err e => Err ("api_allowed_cidrs: " +:+ e)
  | Ok a =>
  match parseCIDRs (ClientCIDRs c) with
  | Err e => Err ("api_client_cidrs: " +:+ e)
  | Ok cl =>
  match parseCIDRs (TrustedProxies c) with
  | Err e => Err ("api_trusted_proxies: " +:+ e)
  | Ok tr =>
      Ok {| cfg := c; allowedNets := a; clientNets := cl; trustedNets := tr;
            corsDisabled := existsb (λ o, EqualFold (TrimSpace o) "none") (AllowedOrigins c);
            listening := false; closed := false |}
  end
  end
  end.

(** [bind]: the error of binding the port. *)
Definition Start (bind : option string) (s : Server) : Server * option string :=
  if listening s then (s, None)
  else match bind with
       | Some e => (s, Some ("api listen " +:+ ListenAddr (cfg s) +:+ ": " +:+ e))
       | None => (s <| listening := true |> <| closed := false |>, None)
       end.

Definition Stop (s : Server) : Server :=
  if closed s then s else s <| closed := true |> <| listening := false |>.

(** The allowed origin of the answer: the last entry looked at decides. *)
Fixpoint origin_for (origins : list string) (origin allowed : string) : string :=
  match origins with
  | [] => allowed
  | o :: l => if String.eqb o "*" then "*" else if EqualFold o origin then origin else origin_for l origin ""
  end.

(** The Access-Control-Allow-Origin header, when one is written. *)
Definition applyCORS (s : Server) (r : Request) : option string :=
  if corsDisabled s then None
  else let allowed := origin_for (AllowedOrigins (cfg s)) (Origin r) "*" in
       if negb (String.eqb allowed "") && negb (String.eqb (Origin r) "") then Some allowed else None.

(** ** Routes *)

Inductive Handler :=
  | HDashboard | HNotFound | HHealth | HStatus | HOverview | HConnections | HTraffic | HDomains | HRoutes | HDNS
  | HErrors | HNodes | HSnapshot | HReset | HPProf (name : string).

(** An answer without the handler, [ServeMux]'s redirect to another path, or the handler. *)
Inductive Outcome := Status (code : Z) | Redirect (to : string) | Run (h : Handler).

Definition route (s : Server) (need : Z) (next : Handler) (methods : list string) (r : Request) : Outcome :=
  if String.eqb (Method r) "OPTIONS" then Status 204
  else if negb (existsb (String.eqb (Method r)) methods) then Status 405
  else if negb (String.eqb (addressRejected s r).1 "") then Status 403
  else
    let got := accessLevel s r in
    if got <? need then Status (if got =? accessNone then 401 else 403) else Run next.

Definition handleDashboard (r : Request) : Outcome :=
  if String.eqb (Method r) "GET" || String.eqb (Method r) "HEAD" then Run HDashboard else Status 405.

(** The guarded routes: path, level, handler, methods. *)
Definition api_routes : list (string * (Z * Handler * list string)) := [
  ("/api/v1/health", (accessNone, HHealth, ["GET"; "HEAD"]));
  ("/api/v1/status", (accessRead, HStatus, ["GET"]));
  ("/api/v1/overview", (accessRead, HOverview, ["GET"]));
  ("/api/v1/connections", (accessRead, HConnections, ["GET"]));
  ("/api/v1/traffic", (accessRead, HTraffic, ["GET"]));
  ("/api/v1/domains", (accessRead, HDomains, ["GET"]));
  ("/api/v1/routes", (accessRead, HRoutes, ["GET"]));
  ("/api/v1/dns", (accessRead, HDNS, ["GET"]));
  ("/api/v1/errors", (accessRead, HErrors, ["GET"]));
  ("/api/v1/nodes", (accessRead, HNodes, ["GET"]));
  ("/api/v1/snapshot", (accessRead, HSnapshot, ["GET"]));
  ("/api/v1/reset", (accessAdmin, HReset, ["POST"]))].

Definition pprof_routes : list (string * (Z * Handler * list string)) :=
  (λ n, ("/debug/pprof/" +:+ n, (accessAdmin, HPProf n, ["GET"]))) <$> ["cmdline"; "profile"; "symbol"; "trace"].

(** [ServeMux] on a clean path: an exact pattern, or the longest pattern ending in a
    slash that begins the path. *)
Definition find_route (path : string) (l : list (string * (Z * Handler * list string))) :
    option (Z * Handler * list string) := snd <$> find (λ e, String.eqb e.1 path) l.

(** The paths that are only a slash short of a registered subtree: [ServeMux] redirects
    them to it. *)
Definition slash_missing (s : Server) (path : string) : bool :=
  String.eqb path "/api" || (PProf (cfg s) && String.eqb path "/debug/pprof").

Definition handler (s : Server) (r : Request) : Outcome :=
  match find_route (Path r) (api_routes ++ (if PProf (cfg s) then pprof_routes else [])) with
  | Some (need, h, methods) => route s need h methods r
  | None =>
      if slash_missing s (Path r) then Redirect (Path r +:+ "/")
      else if PProf (cfg s) && HasPrefix (Path r) "/debug/pprof/" then route s accessAdmin (HPProf "") ["GET"] r
      else if HasPrefix (Path r) "/api/" then Run HNotFound
      else if Dashboard (cfg s) then handleDashboard r
      else Run HNotFound
  end.

(** ** Query parameters *)

Definition intParam (raw : string) (def min max : Z) : Z :=
  if String.eqb raw "" then def
  else match Atoi raw with
       | None => def
       | Some v => if v <? min then min else if max <? v then max else v
       end.

(** [time.ParseDuration]. *)
Context (ParseDuration : string → option duration).

(** A product of 64-bit durations. *)
Definition int64 (z : Z) : Z := (z + 2 ^ 63) `mod` 2 ^ 64 - 2 ^ 63.

Definition scaled (s suffix : string) (mult : duration) : option duration :=
  v ← Atoi (TrimSuffix s suffix); Some (int64 (v * mult)).

Definition parseDuration (raw : string) : option duration :=
  let s := TrimSpace (ToLower raw) in
  if String.eqb s "" then None
  else match Atoi s with
       | Some v => Some (int64 (v * second))
       | None =>
           if HasSuffix s "d" then scaled s "d" (24 * hour)
           else if HasSuffix s "h" then scaled s "h" hour
           else if HasSuffix s "m" then scaled s "m" minute
           else if HasSuffix s "s" then scaled s "s" second
           else ParseDuration s
       end.

Definition year : duration := 365 * 24 * hour.

Definition parseSpan (raw : string) (def : duration) : duration :=
  if String.eqb raw "" then def
  else match parseDuration raw with
       | Some d => if d <=? 0 then def else if year <? d then year else d
       | None => def
       end.

Definition default_steps : list duration := [minute; 5 * minute; 15 * minute; hour; 6 * hour; 24 * hour].

Definition parseStep (raw : string) (span : duration) : duration :=
  let auto := default (24 * hour) (find (λ s, span `quot` s <=? 240) default_steps) in
  if String.eqb raw "" then auto
  else match parseDuration raw with
       | Some d => if 0 <? d then d else auto
       | None => auto
       end.
End api.
End Api.
