(* ===== verification/ApiProps.v ===== *)
(** * core/api: what the API guarantees

    Who may reach which handler, that a client cannot forge its address, and the
    bounds of the query parameters. *)

From S2P Require Import Prelude GoStrings GoNet Stats Router Api.
Import Api.

Module ApiProps.

(** The level a handler is guarded by: the public ones are 0. *)
Definition guard (h : Handler) : Z :=
  match h with HDashboard | HNotFound | HHealth => accessNone | HReset | HPProf _ => accessAdmin | _ => accessRead end.

Definition verb (h : Handler) : string := match h with HReset => "POST" | _ => "GET" end.

(** The network gates. *)
Definition admitted (s : Server) (r : Request) : Prop :=
  (allowedNets s ≠ [] → inNets (parseIPFromAddr (RemoteAddr r)) (allowedNets s) = true) ∧
  (clientNets s ≠ [] → inNets (clientIP s r) (clientNets s) = true).

Lemma addressRejected_admitted s r : (addressRejected s r).1 = "" ↔ admitted s r.
Proof.
  unfold addressRejected, admitted. cbv zeta.
  destruct (allowedNets s) as [|a l], (clientNets s) as [|b l']; cbn [length Nat.ltb Nat.leb andb];
    repeat (destruct (inNets _ _); cbn [negb fst]); split; try done; try (intros [K1 K2]);
    try (by specialize (K1 ltac:(done))); try (by specialize (K2 ltac:(done))).
Qed.

Section api.
Context `{UnicodeCase}.

Lemma route_run s need next methods r h :
  route s need next methods r = Run h ↔
  h = next ∧ Method r ≠ "OPTIONS" ∧ existsb (String.eqb (Method r)) methods = true ∧ admitted s r ∧ need ≤ accessLevel s r.
Proof.
  rewrite <- addressRejected_admitted. unfold route. cbv zeta.
  destruct (String.eqb_spec (Method r) "OPTIONS"); [split; [done|by intros (_ & ? & _)]|].
  destruct (existsb _ _); cbn [negb]; [|split; [done|by intros (_ & _ & ? & _)]].
  destruct (String.eqb_spec (addressRejected s r).1 ""); cbn [negb]; [|split; [done|by intros (_ & _ & _ & ? & _)]].
  destruct (Z.ltb_spec (accessLevel s r) need); split; try done; [intros (_ & _ & _ & _ & ?); lia|by intros [= <-]|by intros (-> & _)].
Qed.

(** A handler is reached under its own guard and verb. *)
Lemma find_route_In path l x : find_route path l = Some x → (path, x) ∈ l.
Proof.
  unfold find_route. destruct (find _ l) as [[p y]|] eqn:E; [|done]. intros [= <-]. apply find_some in E as [Hi Hp].
  cbn in Hp. apply String.eqb_eq in Hp as ->. by apply list_elem_of_In.
Qed.

Lemma routes_table path need h methods pp :
  (path, (need, h, methods)) ∈ api_routes ++ (if pp : bool then pprof_routes else []) →
  need = guard h ∧ (guard h ≠ accessNone → methods = [verb h]) ∧ (h = HReset → path = "/api/v1/reset").
Proof.
  intros Hin. assert (Forall (λ e, e.2.1.1 = guard e.2.1.2 ∧ (guard e.2.1.2 ≠ accessNone → e.2.2 = [verb e.2.1.2]) ∧
    (e.2.1.2 = HReset → e.1 = "/api/v1/reset")) (api_routes ++ (if pp then pprof_routes else []))) as Hf.
  { apply Forall_app. split; [|destruct pp; [|apply Forall_nil_2]]; unfold api_routes, pprof_routes; csimpl;
      repeat (apply Forall_cons; split; [by split_and!|]); apply Forall_nil_2. }
  rewrite Forall_forall in Hf. exact (Hf _ Hin).
Qed.

Lemma handler_guarded s r h :
  handler s r = Run h → guard h ≠ accessNone →
  admitted s r ∧ guard h ≤ accessLevel s r ∧ Method r = verb h ∧ (h = HReset → Path r = "/api/v1/reset").
Proof.
  intros Hh Hg. unfold handler in Hh. destruct (find_route _ _) as [[[need h'] methods]|] eqn:Ef.
  - apply find_route_In, routes_table in Ef as (-> & Hm & Hp). apply route_run in Hh as (-> & _ & Hv & Ha & Hl).
    specialize (Hm Hg). rewrite Hm in Hv. cbn in Hv. rewrite orb_false_r in Hv. apply String.eqb_eq in Hv. auto.
  - destruct (slash_missing _ _); [done|]. destruct (PProf (cfg s) && _).
    { apply route_run in Hh as (-> & _ & Hv & Ha & Hl). cbn in Hv. rewrite orb_false_r in Hv. by apply String.eqb_eq in Hv. }
    destruct (HasPrefix _ _); [by injection Hh as <-|]. destruct (Dashboard _); [|by injection Hh as <-].
    unfold handleDashboard in Hh. destruct (_ || _); [by injection Hh as <-|done].
Qed.

Lemma accessLevel_read s r :
  accessRead ≤ accessLevel s r ↔
  requestToken r ≠ "" ∧ (requestToken r = Token (cfg s) ∨ ReadonlyToken (cfg s) ≠ "" ∧ requestToken r = ReadonlyToken (cfg s)).
Proof.
  unfold accessLevel. cbv zeta. unfold accessRead, accessAdmin, accessNone.
  destruct (String.eqb_spec (requestToken r) ""); [split; [lia|by intros [? _]]|].
  destruct (String.eqb_spec (requestToken r) (Token (cfg s))); [split; [auto|lia]|].
  destruct (String.eqb_spec (ReadonlyToken (cfg s)) ""), (String.eqb_spec (requestToken r) (ReadonlyToken (cfg s)));
    cbn [negb andb]; split; auto; try lia; by intros [_ [?|[? ?]]].
Qed.

Lemma accessLevel_admin s r : accessAdmin ≤ accessLevel s r ↔ requestToken r ≠ "" ∧ requestToken r = Token (cfg s).
Proof.
  unfold accessLevel. cbv zeta. unfold accessRead, accessAdmin, accessNone.
  destruct (String.eqb_spec (requestToken r) ""); [split; [lia|by intros [? _]]|].
  destruct (String.eqb_spec (requestToken r) (Token (cfg s))); [by split|].
  destruct (_ && _); split; try lia; by intros [_ ?].
Qed.

Lemma entitled s r h :
  guard h ≠ accessNone → guard h ≤ accessLevel s r →
  requestToken r ≠ "" ∧
  (requestToken r = Token (cfg s) ∨
   guard h = accessRead ∧ ReadonlyToken (cfg s) ≠ "" ∧ requestToken r = ReadonlyToken (cfg s)).
Proof.
  intros Hg Hl. assert (accessRead ≤ accessLevel s r) as Hr.
  { revert Hl Hg. unfold guard, accessRead, accessAdmin, accessNone. destruct h; lia. }
  apply accessLevel_read in Hr as [Hn Ht]. split; [done|].
  destruct Ht as [?|Ht]; [by left|]. destruct (decide (guard h = accessRead)) as [Eg|Ne]; [by right|].
  left. apply (accessLevel_admin s r). revert Hl Hg Ne. unfold guard, accessRead, accessAdmin, accessNone. destruct h; cbn; lia.
Qed.

(** Whatever the configuration and the random source, the server has a token; a
    generated one spells the random bytes, two digits each. *)
Lemma served_with_token rand now c s :
  match rand with Some buf => String.length buf = 16%nat | None => True end →
  New (randomToken rand now) c = Ok s →
  Token (cfg s) ≠ "" ∧
  (Token c ≠ "" → Token (cfg s) = Token c) ∧
  (∀ buf, Token c = "" → rand = Some buf → Token (cfg s) = HexEncode buf ∧ String.length (Token (cfg s)) = 32%nat).
Proof.
  intros Hr Hn. assert (Token (cfg s) = if String.eqb (Token c) "" then randomToken rand now else Token c) as ->.
  { revert Hn. unfold New. cbv zeta. destruct (parseCIDRs _); [|done]. destruct (parseCIDRs _); [|done]. destruct (parseCIDRs _); [|done]. by intros [= <-]. }
  destruct (String.eqb_spec (Token c) "") as [E|Ne]; [|split_and!; [done..|intros ? E; by destruct (Ne E)]]. split_and!; [|done|].
  - destruct rand as [buf|]; cbn; [|apply show_hex_nonempty].
    intros E0. apply (f_equal String.length) in E0. rewrite (proj1 (HexEncode_spec buf)), Hr in E0. done.
  - intros buf _ ->. cbn [randomToken]. split; [done|]. rewrite (proj1 (HexEncode_spec buf)), Hr. done.
Qed.

(** C12: only the entitled reach a handler.  A request served by a handler that reads
    statistics comes from an admitted address, by GET, with the admin or the read-only
    token; profiling asks for the admin token; and a reset is a POST to its endpoint
    with the admin token. *)
Theorem access_control s r h :
  handler s r = Run h → guard h ≠ accessNone →
  admitted s r ∧ Method r = verb h ∧ requestToken r ≠ "" ∧
  (requestToken r = Token (cfg s) ∨
   guard h = accessRead ∧ ReadonlyToken (cfg s) ≠ "" ∧ requestToken r = ReadonlyToken (cfg s)) ∧
  (h = HReset → Path r = "/api/v1/reset" ∧ Method r = "POST" ∧ requestToken r = Token (cfg s)).
Proof.
  intros Hh Hg. destruct (handler_guarded s r h Hh Hg) as (Ha & Hl & Hv & Hp). split; [done|]. split; [done|].
  destruct (entitled s r h Hg Hl) as [Hn Ht]. split; [done|]. split; [done|].
  intros ->. split_and!; [auto|done|]. by destruct Ht as [?|[? _]].
Qed.
End api.

(** ** The forwarded client address *)

Lemma Split_app s c t : Split (s +:+ String c t) c = Split s c ++ Split t c.
Proof.
  induction s as [|d s IH]; cbn.
  - by rewrite Ascii.eqb_refl.
  - destruct (Ascii.eqb d c); [by rewrite IH|]. rewrite IH. destruct (Split s c) as [|f fs] eqn:E; [|done].
    exfalso. destruct s as [|e s]; cbn in E; [done|]. destruct (Ascii.eqb e c); [done|]. by destruct (Split s c).
Qed.

Lemma hops_app a b : hops (a +:+ "," +:+ b) = hops a ++ hops b.
Proof. unfold hops. change ("," +:+ b) with (String "," b). by rewrite Split_app, fmap_app, filter_app. Qed.

Lemma first_hop_app p l l' : first_hop p (l ++ l') = or_ip (first_hop p l) (first_hop p l').
Proof. unfold first_hop. rewrite filter_app. by destruct (filter (λ ip, p ip = true) l). Qed.

Lemma first_hop_none p l : Forall (λ ip, p ip = false) l → first_hop p l = None.
Proof.
  unfold first_hop. induction 1 as [|x l Hx _ IH]; [done|]. rewrite filter_cons, decide_False; [done|congruence].
Qed.

Definition trusts (s : Server) (ip : IP) : bool := inNets ip (trustedNets s).

(** C40: a client cannot forge its address.  From a peer that is no trusted proxy the
    forwarding headers have no effect at all.  From a trusted one, whatever the client
    wrote in front of the part of the chain that ends with the nearest untrusted hop has
    none either, and that hop is the address used. *)
Theorem client_ip_unforgeable s r r' own claimed pre hop post :
  RemoteAddr r' = RemoteAddr r →
  (trusts s (parseIPFromAddr (RemoteAddr r)) = false → clientIP s r' = clientIP s r) ∧
  (trusts s (parseIPFromAddr (RemoteAddr r)) = true →
   hops own = pre ++ hop :: post → trusts s hop = false → Forall (λ ip, trusts s ip = true) post →
   XForwardedFor r' = claimed +:+ "," +:+ own → clientIP s r' = hop).
Proof.
  intros Er. unfold trusts. split.
  - intros Ht. unfold clientIP. cbv zeta. rewrite Er, Ht. by rewrite !orb_true_r.
  - intros Ht Ho Hu Hp Ex. unfold clientIP. cbv zeta. rewrite Er, Ht.
    destruct (is_nil (parseIPFromAddr (RemoteAddr r))) eqn:En; [unfold inNets in Ht; by rewrite En in Ht|].
    assert ((length (trustedNets s) =? 0)%nat = false) as ->.
    { destruct (trustedNets s); [|done]. unfold inNets in Ht. by rewrite En in Ht. }
    cbn [orb negb]. rewrite Ex. destruct (String.eqb_spec (claimed +:+ "," +:+ own) "") as [E|_]; [by destruct claimed|].
    rewrite hops_app, Ho, reverse_app, first_hop_app, reverse_app, reverse_cons, !first_hop_app.
    rewrite (first_hop_none _ (reverse post)).
    2:{ apply Forall_reverse. eapply Forall_impl; [exact Hp|]. cbn. by intros ip ->. }
    assert (first_hop (λ ip, negb (inNets ip (trustedNets s))) [hop] = Some hop) as -> by (unfold first_hop; cbn; by rewrite Hu).
    done.
Qed.

(** ** Query parameters *)

Section params.
Context `{UnicodeCase} (ParseDuration : string → option duration).

Lemma default_step_pos span d : find (λ s, span `quot` s <=? 240) default_steps = Some d → minute ≤ d ∧ span `quot` d ≤ 240.
Proof.
  intros E. apply find_some in E as [Hi Hq]. split; [|by apply Z.leb_le].
  unfold default_steps in Hi. cbn [In] in Hi. unfold minute, hour, second in *. by destruct Hi as [<-|[<-|[<-|[<-|[<-|[<-|[]]]]]]].
Qed.

(** query parameters are bounded.  A limit is within its bounds or the default;
    a span is positive and at most a year, given a default that is; a step is positive,
    and the step chosen when none is given cuts a span of at most a year into at most
    365 points. *)
Theorem parameters_bounded raw def lo hi dspan step span :
  lo ≤ hi → 0 < dspan ≤ year →
  (intParam raw def lo hi = def ∨ lo ≤ intParam raw def lo hi ≤ hi) ∧
  0 < parseSpan ParseDuration raw dspan ≤ year ∧
  0 < parseStep ParseDuration step span ∧
  (0 < span ≤ year → step = "" → span `quot` parseStep ParseDuration step span ≤ 365).
Proof.
  intros Hl Hd. assert (0 < year) as Hy by (unfold year, hour, minute, second; lia). split_and!.
  - unfold intParam. case_match; [by left|]. case_match; [|by left]. right.
    destruct (Z.ltb_spec z lo); [lia|]. destruct (Z.ltb_spec hi z); lia.
  - unfold parseSpan. repeat (case_match; try lia).
  - unfold parseSpan. repeat (case_match; try lia).
  - unfold parseStep. cbv zeta.
    assert (0 < default (24 * hour) (find (λ s, span `quot` s <=? 240) default_steps)) as Ha.
    { destruct (find _ _) as [d|] eqn:E; [|cbn; unfold hour, minute, second; lia].
      apply default_step_pos in E as [E _]. cbn. unfold minute, second in E. lia. }
    case_match; [done|]. case_match; [|done]. case_match; [lia|done].
  - intros Hs ->. unfold parseStep. cbn [String.eqb]. destruct (find _ _) as [d|] eqn:E.
    + apply default_step_pos in E as [_ E]. cbn. lia.
    + cbn. unfold year in Hs. apply Z.quot_le_upper_bound; unfold hour, minute, second in *. lia. lia.
Qed.

(** A span of more than a year is not always clamped to one: the product of the number
    and its unit wraps around 64 bits, and 213504 days become 25 minutes. *)
Theorem span_wraps :
  parseSpan ParseDuration "213504d" hour = 1526290448384 ∧ 1526290448384 < 26 * minute.
Proof. by split; [vm_compute|]. Qed.

(** Go's duration strings are not accepted, beyond a whole number with one unit of
    d, h, m or s. *)
Theorem duration_strings_rejected :
  parseDuration ParseDuration "1h30m" = None ∧ parseDuration ParseDuration "1.5h" = None ∧
  parseDuration ParseDuration "500ms" = None ∧ parseDuration ParseDuration "90s" = Some (90 * second).
Proof. by split_and!; vm_compute. Qed.
End params.

(** ** A concrete server *)

#[local] Instance api_case : UnicodeCase := ascii_case.

Definition demo_config : Config :=
  {| ListenAddr := ""; Token := "admin"; ReadonlyToken := "reader"; AllowedCIDRs := ["10.0.0.0/8"]; ClientCIDRs := [];
     TrustedProxies := ["10.0.0.1"]; AllowedOrigins := []; Dashboard := true; PProf := false; ReadTimeout := 0;
     WriteTimeout := 0; IdleTimeout := 0 |}.

Definition demo_server : Server :=
  match New "random" demo_config with
  | Ok s => s
  | Err _ => {| cfg := demo_config; allowedNets := []; clientNets := []; trustedNets := []; corsDisabled := false;
                listening := false; closed := false |}
  end.

Definition demo_request (method path token xff : string) : Request :=
  {| Method := method; Path := path; RemoteAddr := "10.0.0.1:4000"; Authorization := "Bearer " +:+ token; XAPIToken := "";
     tokenParam := ""; XForwardedFor := xff; XRealIP := ""; Origin := "" |}.

Lemma access_control_witness :
  handler demo_server (demo_request "POST" "/api/v1/reset" "reader" "") = Status 403 ∧
  handler demo_server (demo_request "POST" "/api/v1/reset" "admin" "") = Run HReset ∧
  requestToken (demo_request "POST" "/api/v1/reset" "admin" "") ≠ "".
Proof.
  split; [vm_compute; reflexivity|]. split; [vm_compute; reflexivity|].
  refine (proj1 (proj2 (proj2 (access_control demo_server (demo_request "POST" "/api/v1/reset" "admin" "") HReset _ _)))); [vm_compute; reflexivity|by intros [=]].
Defined.

Lemma client_ip_unforgeable_witness :
  clientIP demo_server (demo_request "GET" "/" "" "127.0.0.1, 1.2.3.4, 10.0.0.1") = ParseIP "1.2.3.4".
Proof.
  refine (proj2 (client_ip_unforgeable demo_server (demo_request "GET" "/" "" "")
    (demo_request "GET" "/" "" "127.0.0.1, 1.2.3.4, 10.0.0.1") " 1.2.3.4, 10.0.0.1" "127.0.0.1" [] (ParseIP "1.2.3.4")
    [ParseIP "10.0.0.1"] eq_refl) _ _ _ _ _); try (vm_compute; reflexivity).
  apply Forall_singleton. vm_compute. reflexivity.
Defined.

Lemma parameters_bounded_witness : 0 < parseSpan (λ _, None) "7d" hour ≤ year.
Proof.
  refine (proj1 (proj2 (parameters_bounded (λ _, None) "7d" 1 1 2 hour "" hour _ _))); [lia|].
  unfold year, hour, minute, second. lia.
Defined.
End ApiProps.
