(* ===== verification/ApiView.v ===== *)
(** * core/api: what the handlers answer (api.go, types.go)

    The bodies of the handlers over the collector's views, as values of the payload
    types; [serve] is the whole server, from the request to the payload.  A handler
    reads the clock several times: [clk i] is its [i]-th reading.  The query is the
    function that gives a parameter's value, empty when absent; the engine is the
    interface [InfoProvider].  Writing the payload as JSON is [net/http]'s and
    [encoding/json]'s. *)

From Stdlib Require Import SpecFloat.
From S2P Require Import Prelude GoStrings GoNet Stats StatsView Spp Api.
Import Stats StatsView Api.

Module ApiView.

(** ** Payloads *)

Record Listeners := { lDNS : string; lDoH : string; lDoT : string; lSocks5 : string; lHTTP : string; lAPI : string }.

Record RouterInfo := { riDirectDomains : Z; riProxyDomains : Z; riDirectCIDRs : Z; riGeoIP : bool; riSkipCountry : string }.

Record NodeInfo := {
  niName : string; niServer : string; niProto : string; niPriority : Z; niBandwidth : Z; niRTTMs : Z;
  niAlive : bool; niActive : bool; niActiveConns : Z; niConns : Z; niUpload : Z; niDownload : Z;
}.
#[global] Instance NodeInfo_eta : Eta NodeInfo := λ n,
  {| niName := niName n; niServer := niServer n; niProto := niProto n; niPriority := niPriority n;
     niBandwidth := niBandwidth n; niRTTMs := niRTTMs n; niAlive := niAlive n; niActive := niActive n;
     niActiveConns := niActiveConns n; niConns := niConns n; niUpload := niUpload n; niDownload := niDownload n |}.

Record HistoryInfo := { hBucketSeconds : Z; hRetentionBucket : Z; hOldest : Z; hNewest : Z; hPersistFile : string }.

Record SystemInfo := {
  siVersion : string; siRunning : bool; siIPv6 : bool; siListeners : Listeners; siRouter : RouterInfo;
  siNodes : list NodeInfo;
}.
#[global] Instance SystemInfo_eta : Eta SystemInfo := λ s,
  {| siVersion := siVersion s; siRunning := siRunning s; siIPv6 := siIPv6 s; siListeners := siListeners s;
     siRouter := siRouter s; siNodes := siNodes s |}.

(** [SystemInfo{Version: v}] *)
Definition bareInfo (v : string) : SystemInfo :=
  {| siVersion := v; siRunning := false; siIPv6 := false;
     siListeners := {| lDNS := ""; lDoH := ""; lDoT := ""; lSocks5 := ""; lHTTP := ""; lAPI := "" |};
     siRouter := {| riDirectDomains := 0; riProxyDomains := 0; riDirectCIDRs := 0; riGeoIP := false; riSkipCountry := "" |};
     siNodes := [] |}.

Record StatusResponse := { srInfo : SystemInfo; srNow : Z; srUptime : Z; srStarted : Z; srHistory : HistoryInfo }.
Record ConnectionsResponse := { crNow : Z; crCount : Z; crConnections : list SessionView }.
Record TrafficResponse := { trRange : string; trStepSecond : Z; trFrom : Z; trTo : Z; trPoints : list SeriesPoint }.
Record DomainsResponse := { drNow : Z; drCount : Z; drDomains : list DomainStat }.
Record RoutesResponse := {
  rrNow : Z; rrTotals : Counters; rrDirect : Counters; rrProxy : Counters;
  rrDirectConnRatio : Spp.float64; rrProxyConnRatio : Spp.float64;
  rrDirectBytesRatio : Spp.float64; rrProxyBytesRatio : Spp.float64;
  rrTopDirectDomains : list DomainStat; rrTopProxyDomains : list DomainStat;
}.
Record NodesResponse := { nrNow : Z; nrCount : Z; nrNodes : list NodeInfo }.
Record ErrorsResponse := { erNow : Z; erCount : Z; erErrors : list ErrorEntry }.
Record OverviewResponse := { ovOverview : OverviewView; ovVersion : string }.
Record HealthResponse := { heVersion : string; heNow : Z; heUptime : Z }.
Record SnapshotResponse := {
  ssStatus : StatusResponse; ssOverview : OverviewView; ssTraffic : TrafficResponse; ssDomains : list DomainStat;
  ssRoutes : RoutesResponse; ssNodes : list NodeInfo; ssErrors : list ErrorEntry; ssConnections : list SessionView;
  ssDNS : DNSView; ssGeneratedAt : time;
}.

(** What [APIInfo] returns when it is called. *)
Class InfoProvider (E : Type) := APIInfo : E → SystemInfo.

(** The dependencies; [Info] is [None] when there is no provider. *)
Record Deps := { Info : option SystemInfo; Version : string; started : time }.

Inductive Payload :=
  | PEmpty | PError (msg : string) | PPage | PProfile (name : string)
  | PHealth (r : HealthResponse) | PStatus (r : StatusResponse) | POverview (r : OverviewResponse)
  | PConnections (r : ConnectionsResponse) | PTraffic (r : TrafficResponse) | PDomains (r : DomainsResponse)
  | PRoutes (r : RoutesResponse) | PDNS (r : DNSView) | PErrors (r : ErrorsResponse) | PNodes (r : NodesResponse)
  | PSnapshot (r : SnapshotResponse) | PReset (now : Z).

(** The status of [ServeMux]'s redirects: 301, or 307 in later releases of [net/http]. *)
Class MuxRedirect := redirect_status : Z.

Section view.
Context `{UnicodeCase, GoSort, TimeFormat, MuxRedirect} (ParseDuration : string → option duration).

(** ** Helpers of the handlers *)

(** Merge the nodes' traffic into the node list. *)
Definition by_name (traffic : list NodeStat) : gmap string NodeStat :=
  foldl (λ m n, <[nName n := n]> m) ∅ traffic.

Definition merge_node (m : gmap string NodeStat) (n : NodeInfo) : NodeInfo :=
  match m !! niName n with
  | Some t => n <| niConns := nConns t |> <| niUpload := nUpload t |> <| niDownload := nDownload t |>
  | None => n
  end.

Definition merge_traffic (c : Collector) (info : SystemInfo) : SystemInfo :=
  info <| siNodes ::= fmap (merge_node (by_name (Nodes c))) |>.

Definition history_info (now : time) (c : Collector) : HistoryInfo :=
  let '(oldest, newest) := HistoryWindow now c in
  {| hBucketSeconds := BucketInterval (Stats.cfg c) `quot` second; hRetentionBucket := HistoryMinutes (Stats.cfg c);
     hOldest := unix oldest; hNewest := unix newest; hPersistFile := File (Stats.cfg c) |}.

(** [points[len(points)-MaxPoints:]] when there are more. *)
Definition newest_points (l : list SeriesPoint) : list SeriesPoint :=
  if MaxPoints <? Z.of_nat (length l) then drop (length l - Z.to_nat MaxPoints) l else l.

Definition traffic_of (now : time) (span step : duration) (points : list SeriesPoint) : TrafficResponse :=
  {| trRange := Itoa (span `quot` second) +:+ "s"; trStepSecond := step `quot` second;
     trFrom := unix (now - span); trTo := unix now; trPoints := newest_points points |}.

(** [float64(a) / float64(n)] when [n > 0], else 0. *)
Definition ratio (a n : Z) : Spp.float64 :=
  if 0 <? n then Spp.fdiv (Spp.of_int a) (Spp.of_int n) else Spp.of_int 0.

Definition routes_of (now : time) (top : Z) (ov : OverviewView) (c : Collector) : RoutesResponse :=
  let d := oDirect ov in
  let p := oProxy ov in
  let conns := cConns d + cConns p in
  let bytes := Counters_Total d + Counters_Total p in
  {| rrNow := unix now; rrTotals := oTotals ov; rrDirect := d; rrProxy := p;
     rrDirectConnRatio := ratio (cConns d) conns; rrProxyConnRatio := ratio (cConns p) conns;
     rrDirectBytesRatio := ratio (Counters_Total d) bytes; rrProxyBytesRatio := ratio (Counters_Total p) bytes;
     rrTopDirectDomains := TopDomainsByDecision top DecisionDirect "bytes" c;
     rrTopProxyDomains := TopDomainsByDecision top DecisionProxy "bytes" c |}.

(** ** Handlers *)

Abbreviation query := (string → string) (only parsing).
Abbreviation clock := (nat → time) (only parsing).

Definition handleHealth (clk : clock) (d : Deps) : Payload :=
  PHealth {| heVersion := Version d; heNow := unix (clk 0%nat); heUptime := (clk 1%nat - started d) `quot` second |}.

Definition handleStatus (clk : clock) (d : Deps) (c : Collector) : Payload :=
  let info := match Info d with
              | Some i => if String.eqb (siVersion i) "" then i <| siVersion := Version d |> else i
              | None => bareInfo (Version d)
              end in
  let h := history_info (clk 0%nat) c in
  PStatus {| srInfo := merge_traffic c info; srNow := unix (clk 1%nat);
             srUptime := (clk 2%nat - StartTime c) `quot` second; srStarted := unix (StartTime c); srHistory := h |}.

Definition handleOverview (clk : clock) (d : Deps) (c : Collector) : Collector * Payload :=
  let '(c, o) := Overview (clk 0%nat) c in (c, POverview {| ovOverview := o; ovVersion := Version d |}).

Definition handleConnections (clk : clock) (q : query) (c : Collector) : Collector * Payload :=
  let opt := {| aLimit := intParam (q "limit") 100 1 MaxLimit; aProto := q "proto"; aDecision := q "decision";
                aHost := q "host" |} in
  let '(c, conns) := ActiveSessions (clk 0%nat) opt c in
  (c, PConnections {| crNow := unix (clk 1%nat); crCount := Z.of_nat (length conns); crConnections := conns |}).

Definition handleTraffic (clk : clock) (q : query) (c : Collector) : Collector * Payload :=
  let span := parseSpan ParseDuration (q "range") hour in
  let step := parseStep ParseDuration (q "step") span in
  let now := clk 0%nat in
  let '(c, points) := Series (clk 1%nat) (now - span) step c in
  (c, PTraffic (traffic_of now span step (default [] points))).

Definition handleDomains (clk : clock) (q : query) (c : Collector) : Payload :=
  let limit := intParam (q "limit") 50 1 MaxDomainLimit in
  let order := if negb (String.eqb (q "order") "conns") && negb (String.eqb (q "order") "bytes") then "bytes" else q "order" in
  let ds := Domains limit order c in
  PDomains {| drNow := unix (clk 0%nat); drCount := Z.of_nat (length ds); drDomains := ds |}.

Definition handleRoutes (clk : clock) (q : query) (c : Collector) : Collector * Payload :=
  let top := intParam (q "limit") 10 1 MaxDomainLimit in
  let '(c, ov) := Overview (clk 0%nat) c in
  (c, PRoutes (routes_of (clk 1%nat) top ov c)).

Definition handleDNS (q : query) (c : Collector) : Payload :=
  PDNS (DNSStats (intParam (q "limit") 20 1 MaxDomainLimit) c).

Definition in_scope (scope : string) (e : ErrorEntry) : bool := EqualFold (eScope e) scope.

(** [all[len(all)-limit:]] when there are more. *)
Definition last_entries (limit : Z) (l : list ErrorEntry) : list ErrorEntry :=
  if limit <? Z.of_nat (length l) then drop (length l - Z.to_nat limit) l else l.

Definition handleErrors (clk : clock) (q : query) (c : Collector) : Payload :=
  let limit := intParam (q "limit") 100 1 MaxErrorLimit in
  let scope := ToLower (q "scope") in
  let all := Errors DefaultErrorLimit c in
  let all := if String.eqb scope "" then all else filter (λ e, in_scope scope e = true) all in
  let all := last_entries limit all in
  PErrors {| erNow := unix (clk 0%nat); erCount := Z.of_nat (length all); erErrors := all |}.

Definition handleNodes (clk : clock) (d : Deps) (c : Collector) : Payload :=
  let info := merge_traffic c (default (bareInfo (Version d)) (Info d)) in
  PNodes {| nrNow := unix (clk 0%nat); nrCount := Z.of_nat (length (siNodes info)); nrNodes := siNodes info |}.

Definition handleSnapshot (clk : clock) (d : Deps) (q : query) (c : Collector) : Collector * Payload :=
  let span := parseSpan ParseDuration (q "range") (24 * hour) in
  let step := parseStep ParseDuration (q "step") span in
  let now := clk 0%nat in
  let '(c, points) := Series (clk 1%nat) (now - span) step c in
  let '(c, ov) := Overview (clk 2%nat) c in
  let ds := Domains 200 "bytes" c in
  let es := Errors 100 c in
  let '(c, conns) := ActiveSessions (clk 3%nat) {| aLimit := 200; aProto := ""; aDecision := ""; aHost := "" |} c in
  let dn := DNSStats 50 c in
  let info := default (bareInfo (Version d)) (Info d) in
  let status := {| srInfo := info; srNow := unix now; srUptime := (now - StartTime c) `quot` second;
                   srStarted := unix (StartTime c); srHistory := history_info (clk 4%nat) c |} in
  (c, PSnapshot {| ssStatus := status; ssOverview := ov;
                   ssTraffic := traffic_of now span step (default [] points);
                   ssDomains := ds; ssRoutes := routes_of now 20 ov c; ssNodes := siNodes info; ssErrors := es;
                   ssConnections := conns; ssDNS := dn; ssGeneratedAt := now |}).

Definition handleReset (clk : clock) (c : Collector) : Collector * Payload :=
  (Stats.Reset (clk 0%nat) c, PReset (unix (clk 1%nat))).

Definition handleNotFound (r : Request) : Payload := PError ("unknown endpoint " +:+ Path r).

(** ** The server *)

(** The handler's status code, answer and effect. *)
Definition respond (clk : clock) (d : Deps) (q : query) (r : Request) (h : Handler) (c : Collector) :
    Collector * (Z * Payload) :=
  let ok (cp : Collector * Payload) := (cp.1, (200, cp.2)) in
  match h with
  | HDashboard => ok (c, PPage)
  | HNotFound => (c, (404, handleNotFound r))
  | HHealth => ok (c, handleHealth clk d)
  | HStatus => ok (c, handleStatus clk d c)
  | HOverview => ok (handleOverview clk d c)
  | HConnections => ok (handleConnections clk q c)
  | HTraffic => ok (handleTraffic clk q c)
  | HDomains => ok (c, handleDomains clk q c)
  | HRoutes => ok (handleRoutes clk q c)
  | HDNS => ok (c, handleDNS q c)
  | HErrors => ok (c, handleErrors clk q c)
  | HNodes => ok (c, handleNodes clk d c)
  | HSnapshot => ok (handleSnapshot clk d q c)
  | HReset => ok (handleReset clk c)
  | HPProf name => ok (c, PProfile name)
  end.

Definition serve (s : Server) (clk : clock) (d : Deps) (q : query) (r : Request) (c : Collector) :
    Collector * (Z * Payload) :=
  match handler s r with
  | Status code => (c, (code, PEmpty))
  | Redirect _ => (c, (redirect_status, PEmpty))
  | Run h => respond clk d q r h c
  end.
End view.
End ApiView.
