(* ===== verification/ApiViewProps.v ===== *)
(** * core/api: what the answers guarantee

    Reading never changes the statistics, the answers stay within their caps, and the
    node list carries each node's own traffic. *)

From S2P Require Import Prelude GoStrings GoNet Router Stats StatsProps StatsTime StatsView StatsViewProps StatsPersist StatsPersistProps Spp Api ApiProps ApiView.
Import Stats StatsProps StatsTime StatsView StatsViewProps StatsPersistProps Api ApiProps ApiView.

Module ApiViewProps.
Section view.
Context `{UnicodeCase, GoSort, TimeFormat, MuxRedirect} (ParseDuration : string → option duration).

(** ** Reading *)

(** What reading leaves alone: everything but the history's rotation and the rate
    samples. *)
Record same_statistics (c c' : Collector) : Prop := {
  ss_cfg : Stats.cfg c' = Stats.cfg c;
  ss_start : cstart c' = cstart c;
  ss_active : active c' = active c ∧ nextID c' = nextID c;
  ss_sessions : ∀ i, frozen <$> sessions c' !! i = frozen <$> sessions c !! i;
  ss_totals : totals c' = totals c;
  ss_direct : direct c' = direct c;
  ss_proxy : proxy c' = proxy c;
  ss_dns : dns c' = dns c ∧ dnsNames c' = dnsNames c;
  ss_domains : domains c' = domains c;
  ss_nodes : nodes c' = nodes c;
  ss_errs : errs c' = errs c;
  ss_rates : (rateSec c', rateUp c', rateDown c', peakUp c', peakDown c') =
             (rateSec c, rateUp c, rateDown c, peakUp c, peakDown c);
}.

#[local] Instance same_statistics_refl : Reflexive same_statistics.
Proof. by split. Qed.

#[local] Instance same_statistics_trans : Transitive same_statistics.
Proof.
  intros x y z [? ? [] ? ? ? ? [] ? ? ? ?] [? ? [] ? ? ? ? [] ? ? ? ?].
  split; try congruence; try (split; congruence).
  all: intros i; congruence.
Qed.

Lemma rotate_same now c : same_statistics c (rotateLocked now c).
Proof.
  split; try split; try by apply rotate_frame.
  - intros i. by rewrite rotate_sessions.
  - by apply (rotate_frame (λ c, (rateSec c, rateUp c, rateDown c, peakUp c, peakDown c))).
Qed.

Lemma rotate_registry now c : registry c → registry (rotateLocked now c).
Proof. intros [R1 R2 R3]. split; by autorewrite with stats. Qed.

Lemma Series_same now since step c : (Series now since step c).1 = rotateLocked now c.
Proof. unfold Series. cbv zeta. destruct (_ <? _); [done|]. by destruct (series_window _ _ _). Qed.

Lemma ActiveSessions_same now opt c : registry c → same_statistics c (ActiveSessions now opt c).1.
Proof.
  intros Hr. pose proof (ActiveSessions_effect now opt c Hr) as [Hs E].
  destruct (ActiveSessions now opt c) as [c' views]. cbn [fst] in *.
  destruct c, c'. cbn in E. injection E as. subst. by split.
Qed.

Lemma Series_same' now since step c : same_statistics c (Series now since step c).1.
Proof. rewrite Series_same. apply rotate_same. Qed.

Lemma respond_same clk d q r h c :
  registry c → h ≠ HReset → same_statistics c (respond ParseDuration clk d q r h c).1.
Proof.
  intros Hr Hne. destruct h; try done; cbn [respond fst].
  - apply rotate_same.
  - unfold handleConnections. pose proof (ActiveSessions_same (clk 0%nat)
      {| aLimit := intParam (q "limit") 100 1 MaxLimit; aProto := q "proto"; aDecision := q "decision"; aHost := q "host" |} c Hr).
    by destruct (ActiveSessions _ _ _).
  - unfold handleTraffic. pose proof (Series_same' (clk 1%nat) (clk 0%nat - parseSpan ParseDuration (q "range") hour)
      (parseStep ParseDuration (q "step") (parseSpan ParseDuration (q "range") hour)) c). by destruct (Series _ _ _ _).
  - apply rotate_same.
  - unfold handleSnapshot. cbv zeta. set (span := parseSpan _ _ _). set (step := parseStep _ _ _).
    pose proof (Series_same (clk 1%nat) (clk 0%nat - span) step c) as E.
    destruct (Series _ _ _ _) as [c1 points]. cbn [fst] in E. subst c1. unfold Overview. cbv zeta.
    set (c1 := rotateLocked (clk 1%nat) c). set (c2 := rotateLocked (clk 2%nat) c1).
    assert (registry c2) as Hr2 by by apply rotate_registry, rotate_registry.
    assert (same_statistics c c2) as Hs2 by (transitivity c1; apply rotate_same).
    pose proof (ActiveSessions_same (clk 3%nat) {| aLimit := 200; aProto := ""; aDecision := ""; aHost := "" |} c2 Hr2) as Hs3.
    destruct (ActiveSessions _ _ _) as [c3 conns]. by transitivity c2.
Qed.

(** C19: reading changes no statistics.  For every request and any history of calls,
    serving it leaves every counter, table, log and session of the collector as it
    was (the history may be rotated to the current time and rate samples taken) or is a
    reset, which came by POST to its endpoint, from an admitted address, with the admin
    token. *)
Theorem reads_change_nothing now0 config log s clk d q r :
  Forall sizes_ok log →
  let c := run log (Stats.New now0 config) in
  let c' := (serve ParseDuration s clk d q r c).1 in
  same_statistics c c' ∨
  handler s r = Run HReset ∧ admitted s r ∧ Path r = "/api/v1/reset" ∧ Method r = "POST" ∧
  requestToken r ≠ "" ∧ requestToken r = Token (Api.cfg s).
Proof.
  intros Hok c c'. pose proof (run_registry now0 config log Hok) as Hr. fold c in Hr.
  unfold c', serve. destruct (handler s r) as [code|to|h] eqn:Eh; [by left..|].
  assert (h = HReset ∨ h ≠ HReset) as [->|Hne] by (destruct h; first [by left|by right]).
  - right. destruct (handler_guarded s r HReset Eh) as (Ha & Hl & Hv & Hp); [done|].
    destruct (entitled s r HReset ltac:(done) Hl) as [Hn Ht]. split_and!; [done|done|auto|done|done|].
    by destruct Ht as [?|[? _]].
  - left. by apply respond_same.
Qed.

(** ** Sizes *)

Lemma intParam_between raw def lo hi : lo ≤ def ≤ hi → lo ≤ intParam raw def lo hi ≤ hi.
Proof.
  intros Hd. unfold intParam. case_match; [done|]. case_match; [|done].
  destruct (Z.ltb_spec z lo); [lia|]. destruct (Z.ltb_spec hi z); lia.
Qed.

Lemma cut_length {A} limit (l : list A) : 0 ≤ limit → Z.of_nat (length (cut limit l)) ≤ limit.
Proof. intros Hl. rewrite cut_take by done. rewrite length_take. lia. Qed.

Lemma last_entries_length limit l : 0 ≤ limit → Z.of_nat (length (last_entries limit l)) ≤ limit.
Proof.
  intros Hl. unfold last_entries. destruct (Z.ltb_spec limit (Z.of_nat (length l))); [rewrite length_drop|]; lia.
Qed.

Lemma newest_points_spec l :
  ∃ old, l = old ++ newest_points l ∧ Z.of_nat (length (newest_points l)) = Z.min MaxPoints (Z.of_nat (length l)).
Proof.
  unfold newest_points. destruct (Z.ltb_spec MaxPoints (Z.of_nat (length l))).
  - exists (take (length l - Z.to_nat MaxPoints) l). rewrite take_drop, length_drop. unfold MaxPoints in *. split; [done|lia].
  - exists []. split; [done|]. lia.
Qed.

Lemma ActiveSessions_length now opt c :
  Z.of_nat (length (ActiveSessions now opt c).2) ≤ active_limit opt.
Proof.
  destruct (shown_sessions now opt c) as (chosen & rest & shown & sampled & -> & Hshown & _ & _ & Hlen & _). cbn [snd].
  rewrite !length_fmap. destruct Hshown as [->| ->]; rewrite ?length_fmap; lia.
Qed.

Lemma Errors_length limit c : 0 < limit → Z.of_nat (length (Errors limit c)) ≤ limit.
Proof.
  intros Hl. destruct (Errors_suffix limit c) as (old & _ & ->). destruct (Z.leb_spec limit 0); lia.
Qed.

(** At most [cap] rows. *)
Definition rows_within {A} (cap : Z) (l : list A) : Prop := Z.of_nat (length l) ≤ cap.

Definition overview_within (o : OverviewView) : Prop :=
  rows_within 10 (oTopDomains o) ∧ rows_within 10 (dvTopDomains (oDNS o)).

Definition routes_within (top : Z) (r : RoutesResponse) : Prop :=
  rows_within top (rrTopDirectDomains r) ∧ rows_within top (rrTopProxyDomains r).

(** Every list of every payload, with its cap, [given] being the number of nodes the
    engine is configured with; a count that is announced is the length. *)
Definition within (given : Z) (p : Payload) : Prop :=
  match p with
  | PEmpty | PError _ | PPage | PProfile _ | PHealth _ | PReset _ => True
  | PStatus r => rows_within given (siNodes (srInfo r))
  | POverview r => overview_within (ovOverview r)
  | PConnections r => crCount r = Z.of_nat (length (crConnections r)) ∧ rows_within MaxLimit (crConnections r)
  | PTraffic r => rows_within MaxPoints (trPoints r)
  | PDomains r => drCount r = Z.of_nat (length (drDomains r)) ∧ rows_within MaxDomainLimit (drDomains r)
  | PRoutes r => routes_within MaxDomainLimit r
  | PDNS r => rows_within MaxDomainLimit (dvTopDomains r)
  | PErrors r => erCount r = Z.of_nat (length (erErrors r)) ∧ rows_within DefaultErrorLimit (erErrors r) ∧
                 rows_within MaxErrorLimit (erErrors r)
  | PNodes r => nrCount r = Z.of_nat (length (nrNodes r)) ∧ rows_within given (nrNodes r)
  | PSnapshot r =>
      rows_within given (siNodes (srInfo (ssStatus r))) ∧ overview_within (ssOverview r) ∧
      rows_within MaxPoints (trPoints (ssTraffic r)) ∧ rows_within 200 (ssDomains r) ∧
      routes_within 20 (ssRoutes r) ∧ rows_within given (ssNodes r) ∧ rows_within 100 (ssErrors r) ∧
      rows_within 200 (ssConnections r) ∧ rows_within 50 (dvTopDomains (ssDNS r))
  end.

Lemma traffic_of_within now span step points : rows_within MaxPoints (trPoints (traffic_of now span step points)).
Proof. unfold rows_within. destruct (newest_points_spec points) as (old & _ & E). cbn. rewrite E. lia. Qed.

Lemma routes_of_within now top ov c : 0 < top → routes_within top (routes_of now top ov c).
Proof.
  intros Ht. unfold routes_within, rows_within. cbn. unfold TopDomainsByDecision. destruct (Z.ltb_spec 0 top); [|lia].
  split; apply cut_length; lia.
Qed.

Lemma Domains_length limit order c : 0 < limit → Z.of_nat (length (Domains limit order c)) ≤ limit.
Proof.
  intros Hl. unfold Domains, topDomainsLocked. destruct (Z.leb_spec limit 0); [lia|]. apply cut_length. lia.
Qed.

Lemma DNSStats_length top c : 0 < top → Z.of_nat (length (dvTopDomains (DNSStats top c))) ≤ top.
Proof.
  intros Ht. unfold DNSStats, dnsSnapshotLocked. cbn. destruct (Z.ltb_spec 0 top); [|lia].
  unfold topFromLocked. apply cut_length. lia.
Qed.

(** A limit parameter is positive and at most its cap. *)
Lemma limit_between raw def hi : 1 ≤ def ≤ hi → 1 ≤ intParam raw def 1 hi ≤ hi.
Proof. apply intParam_between. Qed.

Lemma Overview_within now c : overview_within (Overview now c).2.
Proof.
  unfold Overview. cbv zeta. cbn [snd]. unfold overview_within. cbn [oTopDomains oDNS].
  split; [apply (Domains_length 10 "bytes" (rotateLocked now c))|apply (DNSStats_length 10 (rotateLocked now c))]; lia.
Qed.

Lemma errors_within n clk q c : within n (handleErrors clk q c).
Proof.
  unfold handleErrors, within, rows_within. cbv zeta. cbn [erCount erErrors].
  pose proof (limit_between (q "limit") 100 MaxErrorLimit ltac:(unfold MaxErrorLimit; lia)) as Hl.
  set (limit := intParam _ _ _ _) in *. set (all := if String.eqb _ _ then _ else _).
  assert (Z.of_nat (length all) ≤ DefaultErrorLimit) as Ha.
  { pose proof (Errors_length DefaultErrorLimit c ltac:(unfold DefaultErrorLimit; lia)) as He. unfold all.
    case_match; [done|]. etransitivity; [apply Nat2Z.inj_le, length_filter|done]. }
  pose proof (last_entries_length limit all ltac:(lia)). split; [done|].
  split; [|unfold MaxErrorLimit in *; lia].
  unfold last_entries. destruct (Z.ltb_spec limit (Z.of_nat (length all))); [rewrite length_drop|]; lia.
Qed.

(** C33: no query makes the server build a huge answer.  For every request, with any
    parameters, every list of the answer is within its cap, and an announced count is
    the list's length; the node lists have as many rows as the engine is configured with
    nodes.  The error log answers at most 200 entries, whatever limit up to the
    documented 500 is asked for. *)
Theorem answers_bounded s clk d q r c :
  let given := siNodes (default (bareInfo (Version d)) (Info d)) in
  within (Z.of_nat (length given)) (serve ParseDuration s clk d q r c).2.2.
Proof.
  intros given. unfold serve. destruct (handler s r) as [code|to|h]; [done..|]. destruct h; try done; cbn [respond snd].
  - cbn. unfold rows_within. rewrite length_fmap. unfold given. destruct (Info d) as [i|]; [|done].
    cbn [default]. by destruct (String.eqb _ _).
  - unfold handleOverview. pose proof (Overview_within (clk 0%nat) c) as Ho. by destruct (Overview _ _) as [c' ov].
  - unfold handleConnections. set (opt := {| aLimit := _ |}).
    pose proof (ActiveSessions_length (clk 0%nat) opt c) as Hl.
    pose proof (limit_between (q "limit") 100 MaxLimit ltac:(unfold MaxLimit; lia)) as Hq.
    assert (active_limit opt = intParam (q "limit") 100 1 MaxLimit) as E.
    { unfold active_limit, opt. cbn [aLimit]. destruct (Z.leb_spec (intParam (q "limit") 100 1 MaxLimit) 0); [lia|done]. }
    destruct (ActiveSessions _ _ _) as [c' conns]. unfold within, rows_within. cbn in *. split; [done|lia].
  - unfold handleTraffic. destruct (Series _ _ _ _) as [c' points]. apply traffic_of_within.
  - unfold handleDomains, within, rows_within. cbn.
    pose proof (limit_between (q "limit") 50 MaxDomainLimit ltac:(unfold MaxDomainLimit; lia)) as Hq.
    split; [done|]. etransitivity; [apply Domains_length; lia|lia].
  - unfold handleRoutes. pose proof (limit_between (q "limit") 10 MaxDomainLimit ltac:(unfold MaxDomainLimit; lia)) as Hq.
    destruct (Overview _ _) as [c' ov]. cbn [snd within].
    destruct (routes_of_within (clk 1%nat) (intParam (q "limit") 10 1 MaxDomainLimit) ov c'); [lia|].
    unfold routes_within, rows_within in *. lia.
  - unfold handleDNS. pose proof (limit_between (q "limit") 20 MaxDomainLimit ltac:(unfold MaxDomainLimit; lia)) as Hq.
    cbn [within]. unfold rows_within. etransitivity; [apply DNSStats_length; lia|lia].
  - apply errors_within.
  - unfold handleNodes, within, rows_within. cbn. rewrite length_fmap. done.
  - unfold handleSnapshot. cbv zeta. destruct (Series _ _ _ _) as [c1 points].
    pose proof (Overview_within (clk 2%nat) c1) as Ho. destruct (Overview _ _) as [c2 ov].
    pose proof (ActiveSessions_length (clk 3%nat) {| aLimit := 200; aProto := ""; aDecision := ""; aHost := "" |} c2) as Hl.
    destruct (ActiveSessions _ _ _) as [c3 conns]. cbn [snd within ssStatus srInfo ssOverview ssTraffic ssDomains ssRoutes ssNodes ssErrors ssConnections ssDNS].
    split_and!; [apply Z.le_refl|exact Ho|apply traffic_of_within|apply Domains_length; lia|apply routes_of_within; lia|apply Z.le_refl|
                 apply Errors_length; lia|exact Hl|apply DNSStats_length; lia].
Qed.

(** ** The node list *)

Lemma by_name_nodes c : named nName (nodes c) → by_name (Nodes c) = nodes c.
Proof.
  intros Hn. rewrite <- (load_rows_table nName (Nodes c) (nodes c) Hn) by apply sort_slice_perm.
  unfold by_name, StatsPersist.StatsPersist.load_rows.
  assert (Forall (λ n, nName n ≠ "") (Nodes c)) as Hall.
  { apply Forall_forall. intros n Hin. unfold Nodes in Hin. rewrite sort_slice_perm in Hin.
    apply list_elem_of_fmap in Hin as ([k x] & -> & Hx). apply elem_of_map_to_list in Hx. cbn. by destruct (Hn _ _ Hx) as [-> ?]. }
  generalize (∅ : gmap string NodeStat). induction Hall as [|n l Hne _ IH]; intros m; [done|]. cbn.
  destruct (String.eqb_spec (nName n) ""); [done|]. apply IH.
Qed.

(** The node as configured, with the traffic recorded under its name. *)
Definition with_traffic (c : Collector) (n : NodeInfo) : NodeInfo :=
  match nodes c !! niName n with
  | Some t => n <| niConns := nConns t |> <| niUpload := nUpload t |> <| niDownload := nDownload t |>
  | None => n
  end.

(** each node is served with its own traffic.  After any sequence of calls the
    status and the node list name the configured nodes, in their order, each with the
    connections and bytes recorded under its name; nodes that are not configured are not
    listed.  The snapshot serves the same nodes without any of it. *)
Theorem nodes_served now0 config log clk d q :
  let c := run log (Stats.New now0 config) in
  let given := siNodes (default (bareInfo (Version d)) (Info d)) in
  (∃ r, handleNodes clk d c = PNodes r ∧ nrNodes r = with_traffic c <$> given ∧ nrCount r = Z.of_nat (length given)) ∧
  (∃ r, handleStatus clk d c = PStatus r ∧ siNodes (srInfo r) = with_traffic c <$> given) ∧
  (∃ r, (handleSnapshot ParseDuration clk d q c).2 = PSnapshot r ∧ ssNodes r = given).
Proof.
  intros c given. pose proof (run_named now0 config log) as [_ _ Hn]. fold c in Hn.
  assert (∀ info, siNodes (merge_traffic c info) = with_traffic c <$> siNodes info) as Hm.
  { intros info. unfold merge_traffic. rewrite by_name_nodes by done. done. }
  split_and!.
  - eexists. split; [done|]. cbn [nrNodes nrCount]. rewrite Hm. split; [done|by rewrite length_fmap].
  - eexists. split; [done|]. cbn [srInfo]. rewrite Hm. unfold given. destruct (Info d) as [i|]; [|done].
    cbn [default]. by destruct (String.eqb _ _).
  - unfold handleSnapshot. cbv zeta. destruct (Series _ _ _ _) as [c1 points], (Overview _ _) as [c2 ov],
      (ActiveSessions _ _ _) as [c3 conns]. by eexists.
Qed.
End view.

(** ** Witnesses *)

#[local] Instance api_sort : GoSort := merge_GoSort.
#[local] Instance api_format : TimeFormat := λ _, String.EmptyString.
#[local] Instance api_mux : MuxRedirect := 301.
#[local] Instance api_case : UnicodeCase := ascii_case.

Lemma reads_change_nothing_witness :
  let c := run demo_log (Stats.New (90 * second) StatsProps.demo_config) in
  let c' := (serve (λ _, None) demo_server (λ _, 200 * second) {| Info := None; Version := "v"; started := 0 |} (λ _, "")
               (demo_request "GET" "/api/v1/snapshot" "reader" "") c).1 in
  domains c' = domains c.
Proof.
  destruct (reads_change_nothing (λ _, None) (90 * second) StatsProps.demo_config demo_log demo_server (λ _, 200 * second)
    {| Info := None; Version := "v"; started := 0 |} (λ _, "") (demo_request "GET" "/api/v1/snapshot" "reader" "") demo_sizes)
    as [Hs|Hr]; [exact (ss_domains _ _ Hs)|].
  exfalso. destruct Hr as (_ & _ & _ & Hm & _). discriminate Hm.
Defined.
End ApiViewProps.
