(* ===== verification/Launch.v ===== *)
(** * core/launch: a writable working directory (launch.go)

    The log library opens its files in the working directory and panics when it cannot.
    [Host] answers the operating system's calls; [Proc] is what they change: the working
    directory, the directories made and the probe files present. *)

From S2P Require Import Prelude GoStrings.

Module Launch.

(** ** path/filepath *)

(** One element of a path; [stack] is reversed. *)
Definition clean_step (rooted : bool) (stack : list string) (part : string) : list string :=
  if String.eqb part "" || String.eqb part "." then stack
  else if String.eqb part ".." then
    match stack with
    | x :: rest => if String.eqb x ".." then part :: stack else rest
    | [] => if rooted then [] else [part]
    end
  else part :: stack.

Definition Clean (path : string) : string :=
  if String.eqb path "" then "."
  else
    let rooted := HasPrefix path "/" in
    let parts := rev (foldl (clean_step rooted) [] (Split path "/")) in
    let out := (if rooted then "/" else "") +:+ String.concat "/" parts in
    if String.eqb out "" then "." else out.

(** [filepath.Join]: leading empty elements are dropped. *)
Fixpoint Join (elems : list string) : string :=
  match elems with
  | [] => ""
  | e :: rest => if String.eqb e "" then Join rest else Clean (String.concat "/" elems)
  end.

(** ** The operating system *)

Record Host := {
  Getwd : option string;
  UserConfigDir : option string; UserCacheDir : option string; UserHomeDir : option string; TempDir : string;
  MkdirAll : string → bool; OpenFile : string → bool; Remove : string → bool; Chdir : string → bool;
}.

Record Proc := { cwd : option string; made : list string; files : gset string }.
#[global] Instance Proc_eta : Eta Proc := λ p, {| cwd := cwd p; made := made p; files := files p |}.

Definition probe_of (dir : string) : string := Join [dir; ".yellowsocks-write-test"].

(** [O_CREATE] makes the probe file; removing it may fail unnoticed. *)
Definition dirWritable (h : Host) (dir : string) (p : Proc) : Proc * bool :=
  let probe := probe_of dir in
  if OpenFile h probe then
    (p <| files ::= λ f, if Remove h probe then ({[probe]} ∪ f) ∖ {[probe]} else {[probe]} ∪ f |>, true)
  else (p, false).

(** The application's directory under a base directory the system names. *)
Definition app_dir (base : option string) (sub : list string) : list string :=
  match base with
  | Some d => if String.eqb d "" then [] else [Join (d :: sub)]
  | None => []
  end.

Definition candidates (h : Host) : list string :=
  app_dir (UserConfigDir h) ["YellowSocks"] ++ app_dir (UserCacheDir h) ["YellowSocks"] ++
  app_dir (UserHomeDir h) ["Documents"; "YellowSocks"] ++ app_dir (Some (TempDir h)) ["YellowSocks"].

(** One turn of the loop over the candidates: whether it returned. *)
Definition try_dir (h : Host) (dir : string) (p : Proc) : Proc * bool :=
  if MkdirAll h dir then
    match dirWritable h dir (p <| made ::= λ l, l ++ [dir] |>) with
    | (p, true) => if Chdir h dir then (p <| cwd := Some dir |>, true) else (p, false)
    | (p, false) => (p, false)
    end
  else (p, false).

Fixpoint try_dirs (h : Host) (l : list string) (p : Proc) : Proc * bool :=
  match l with
  | [] => (p, false)
  | dir :: l => match try_dir h dir p with (p, true) => (p, true) | (p, false) => try_dirs h l p end
  end.

Definition EnsureWritableWorkDir (h : Host) (p : Proc) : Proc * bool :=
  match (match Getwd h with Some d => dirWritable h d p | None => (p, false) end) with
  | (p, true) => (p, true)
  | (p, false) => try_dirs h (candidates h) p
  end.

(** ** Properties *)

(** A candidate the program can move to. *)
Definition usable (h : Host) (dir : string) : bool := MkdirAll h dir && OpenFile h (probe_of dir) && Chdir h dir.

(** The current directory is writable. *)
Definition cwd_writable (h : Host) : bool :=
  match Getwd h with Some d => OpenFile h (probe_of d) | None => false end.

Definition unlittered (h : Host) (p q : Proc) : Prop := (∀ f, Remove h f = true) → files q ⊆ files p.

#[local] Instance unlittered_refl h : Reflexive (unlittered h).
Proof. by intros p _. Qed.
#[local] Instance unlittered_trans h : Transitive (unlittered h).
Proof. intros p q r H1 H2 Hr. etrans; [by apply H2|by apply H1]. Qed.

Lemma dirWritable_spec h dir p :
  let '(q, b) := dirWritable h dir p in
  b = OpenFile h (probe_of dir) ∧ cwd q = cwd p ∧ made q = made p ∧ unlittered h p q.
Proof.
  unfold dirWritable. destruct (OpenFile h _); [split_and!; try done|by split_and!].
  intros Hr. cbn. rewrite Hr. set_solver.
Qed.

Lemma try_dir_spec h dir p :
  let '(q, b) := try_dir h dir p in
  b = usable h dir ∧ cwd q = (if b then Some dir else cwd p) ∧ unlittered h p q.
Proof.
  unfold try_dir, usable. destruct (MkdirAll h dir); [|by split_and!].
  pose proof (dirWritable_spec h dir (p <| made ::= λ l, l ++ [dir] |>)) as Hw.
  destruct (dirWritable _ _ _) as [q b]. destruct Hw as (-> & H1 & _ & H2). cbn [andb].
  destruct (OpenFile h _); [|by split_and!]. by destruct (Chdir h dir); split_and!.
Qed.

Lemma try_dirs_spec h l p :
  let '(q, b) := try_dirs h l p in
  b = existsb (usable h) l ∧ unlittered h p q ∧
  cwd q = (match list_find (λ d, usable h d = true) l with Some (_, d) => Some d | None => cwd p end).
Proof.
  revert p. induction l as [|d l IH]; intros p; [done|]. cbn [try_dirs existsb list_find].
  pose proof (try_dir_spec h d p) as Hd. destruct (try_dir h d p) as [q b]. destruct Hd as (-> & H1 & H2).
  destruct (usable h d); cbn [orb].
  - by rewrite decide_True.
  - rewrite decide_False by done. specialize (IH q). destruct (try_dirs h l q) as [r b]. destruct IH as (-> & H3 & H4).
    split; [done|]. split; [by etrans|]. rewrite H4. destruct (list_find _ l) as [[i x]|]; done.
Qed.

(** C18: the working directory.  The program ends in a directory in which files can be
    created whenever there is one among the current directory and its candidates, and says
    so exactly then: a writable current directory is kept, otherwise the first
    usable candidate is entered, and without one nothing is entered and the log files
    are turned off.  The probe files are gone afterwards. *)
Theorem work_dir_writable h p :
  let '(q, b) := EnsureWritableWorkDir h p in
  b = cwd_writable h || existsb (usable h) (candidates h) ∧
  cwd q = (if cwd_writable h then cwd p
           else match list_find (λ d, usable h d = true) (candidates h) with Some (_, d) => Some d | None => cwd p end) ∧
  ((∀ f, Remove h f = true) → files q ⊆ files p) ∧
  (cwd p = Getwd h → b = true → ∃ d, cwd q = Some d ∧ OpenFile h (probe_of d) = true).
Proof.
  unfold EnsureWritableWorkDir, cwd_writable.
  assert (∀ q0, cwd q0 = cwd p → unlittered h p q0 →
    (match Getwd h with Some d => OpenFile h (probe_of d) | None => false end) = false →
    let '(q, b) := try_dirs h (candidates h) q0 in
    b = existsb (usable h) (candidates h) ∧
    cwd q = match list_find (λ d, usable h d = true) (candidates h) with Some (_, d) => Some d | None => cwd p end ∧
    unlittered h p q ∧ (b = true → ∃ d, cwd q = Some d ∧ OpenFile h (probe_of d) = true)) as Htry.
  { intros q0 Hc Hu _. pose proof (try_dirs_spec h (candidates h) q0) as Ht. destruct (try_dirs _ _ _) as [q b].
    destruct Ht as (-> & H1 & H2). rewrite <- Hc. split; [done|]. split; [done|]. split; [by etrans|]. intros Hb. rewrite H2.
    apply existsb_exists in Hb as (d & Hd%list_elem_of_In & Hd2).
    destruct (list_find_elem_of (λ d, usable h d = true) (candidates h) d Hd Hd2) as [[i d'] E]. rewrite E.
    apply list_find_Some in E as (_ & E & _). exists d'. split; [done|]. unfold usable in E.
    by apply andb_true_iff in E as [[_ E]%andb_true_iff _]. }
  destruct (Getwd h) as [d|] eqn:Eg.
  - pose proof (dirWritable_spec h d p) as Hw. destruct (dirWritable h d p) as [q0 b0]. destruct Hw as (-> & H1 & _ & H2).
    destruct (OpenFile h (probe_of d)) eqn:Eo.
    + split; [done|]. split; [done|]. split; [exact H2|]. intros Hp _. exists d. by rewrite H1, Hp.
    + specialize (Htry q0 H1 H2 eq_refl). destruct (try_dirs _ _ _) as [q b]. destruct Htry as (T1 & T2 & T3 & T4). by split_and!.
  - specialize (Htry p eq_refl (λ _, reflexivity _) eq_refl). destruct (try_dirs _ _ _) as [q b].
    destruct Htry as (T1 & T2 & T3 & T4). by split_and!.
Qed.

(** A read-only current directory: the first candidate that works is entered. *)
Definition demo_host : Host := {|
  Getwd := Some "/usr/bin"; UserConfigDir := Some "/root/.config"; UserCacheDir := None; UserHomeDir := Some "/root";
  TempDir := "/tmp/"; MkdirAll d := negb (String.eqb d "/root/.config/YellowSocks");
  OpenFile f := HasPrefix f "/root" || HasPrefix f "/tmp"; Remove _ := true; Chdir _ := true |}.

Example demo_candidates :
  candidates demo_host = ["/root/.config/YellowSocks"; "/root/Documents/YellowSocks"; "/tmp/YellowSocks"].
Proof. reflexivity. Qed.

Lemma work_dir_writable_witness :
  let q := (EnsureWritableWorkDir demo_host {| cwd := Some "/usr/bin"; made := []; files := ∅ |}).1 in
  cwd q = Some "/root/Documents/YellowSocks" ∧ files q ⊆ ∅.
Proof.
  pose proof (work_dir_writable demo_host {| cwd := Some "/usr/bin"; made := []; files := ∅ |}) as H.
  split; [reflexivity|]. exact (proj1 (proj2 (proj2 H)) (λ _, eq_refl)).
Defined.
End Launch.
