(* ===== verification/Flag.v ===== *)
(** * flag: Go's command line parser

    [FlagSet.Parse] of the standard library for the two kinds of flags the command line
    uses, strings and booleans.  The values are a map from the flag's name; a flag that
    is not set has its default.  The parser consumes one flag at a time ([parseOne]) and
    stops at the first argument that is not one; every turn drops at least one argument,
    so the number of arguments bounds the turns. *)

From S2P Require Import Prelude GoStrings.

Module Flag.

Inductive Value := VString (s : string) | VBool (b : bool).

#[export] Instance Value_eq_dec : EqDecision Value.
Proof. solve_decision. Defined.

Inductive Error :=
  | BadSyntax (arg : string)
  | NotDefined (name : string)
  | Help
  | InvalidBool (value name : string)
  | NeedsArgument (name : string).

(** The declared flags with their values. *)
Abbreviation Values := (gmap string Value) (only parsing).

Record FlagSet := { values : Values; args : list string }.
#[global] Instance FlagSet_eta : Eta FlagSet := λ f, {| values := values f; args := args f |}.

(** [strconv.ParseBool] *)
Definition ParseBool (s : string) : option bool :=
  if bool_decide (s ∈ ["1"; "t"; "T"; "TRUE"; "true"; "True"]) then Some true
  else if bool_decide (s ∈ ["0"; "f"; "F"; "FALSE"; "false"; "False"]) then Some false
  else None.

(** The name of a flag and the value attached with [=]. *)
Definition split_name (name : string) : string * option string :=
  match Cut name "=" with Some (n, v) => (n, Some v) | None => (name, None) end.

(** What an argument is to the parser. *)
Inductive Shape := Operand | Terminator | Malformed | Flagged (name : string).

Definition shape (s : string) : Shape :=
  match s with
  | String "-" (String c rest) =>
      if Ascii.eqb c "-" && is_empty rest then Terminator
      else
        let name := if Ascii.eqb c "-" then rest else String c rest in
        match name with
        | String d _ => if Ascii.eqb d "-" || Ascii.eqb d "=" then Malformed else Flagged name
        | EmptyString => Malformed
        end
  | _ => Operand
  end.

(** A flag and the arguments after it: [true] when there may be more. *)
Definition set_flag (name : string) (value : option string) (f : FlagSet) : FlagSet * result Error bool :=
  match values f !! name with
  | None => (f, Err (if String.eqb name "help" || String.eqb name "h" then Help else NotDefined name))
  | Some (VBool _) =>
      match value with
      | None => (f <| values ::= <[name := VBool true]> |>, Ok true)
      | Some v =>
          match ParseBool v with
          | Some b => (f <| values ::= <[name := VBool b]> |>, Ok true)
          | None => (f <| values ::= <[name := VBool false]> |>, Err (InvalidBool v name))
          end
      end
  | Some (VString _) =>
      match value with
      | Some v => (f <| values ::= <[name := VString v]> |>, Ok true)
      | None =>
          match args f with
          | v :: rest => (f <| values ::= <[name := VString v]> |> <| args := rest |>, Ok true)
          | [] => (f, Err (NeedsArgument name))
          end
      end
  end.

Definition parseOne (f : FlagSet) : FlagSet * result Error bool :=
  match args f with
  | [] => (f, Ok false)
  | s :: rest =>
      match shape s with
      | Operand => (f, Ok false)
      | Terminator => (f <| args := rest |>, Ok false)
      | Malformed => (f, Err (BadSyntax s))
      | Flagged name => let '(name, value) := split_name name in set_flag name value (f <| args := rest |>)
      end
  end.

Fixpoint parse_loop (fuel : nat) (f : FlagSet) : FlagSet * option Error :=
  match fuel with
  | O => (f, None)
  | S fuel =>
      match parseOne f with
      | (f, Ok true) => parse_loop fuel f
      | (f, Ok false) => (f, None)
      | (f, Err e) => (f, Some e)
      end
  end.

(** [Parse]: the values, the arguments left over and the error. *)
Definition Parse (declared : Values) (arguments : list string) : FlagSet * option Error :=
  parse_loop (S (length arguments)) {| values := declared; args := arguments |}.

(** ** Termination *)

Lemma set_flag_shrinks name value f : (length (args (set_flag name value f).1) ≤ length (args f))%nat.
Proof.
  unfold set_flag. destruct (values f !! name) as [[s|b]|]; [|destruct value as [v|]; [destruct (ParseBool v)|]|]; try (cbn; lia).
  destruct value; [cbn; lia|]. destruct (args f) as [|v rest] eqn:E; cbn; rewrite ?E; cbn; lia.
Qed.

Lemma parseOne_shrinks f f' : parseOne f = (f', Ok true) → (length (args f') < length (args f))%nat.
Proof.
  unfold parseOne. destruct (args f) as [|s rest] eqn:E; [done|]. destruct (shape s); try done.
  destruct (split_name name) as [n v]. intros Hs. pose proof (set_flag_shrinks n v (f <| args := rest |>)) as Hl.
  rewrite Hs in Hl. cbn in *. lia.
Qed.

(** More turns than arguments change nothing. *)
Lemma parse_loop_fuel n m f : (length (args f) < n)%nat → (length (args f) < m)%nat → parse_loop n f = parse_loop m f.
Proof.
  revert m f. induction n as [|n IH]; intros m f Hn Hm; [lia|]. destruct m as [|m]; [lia|]. cbn [parse_loop].
  destruct (parseOne f) as [f' [[]|e]] eqn:E; [|done..].
  pose proof (parseOne_shrinks f f' E). apply IH; lia.
Qed.

Lemma Parse_step declared arguments f :
  parseOne {| values := declared; args := arguments |} = (f, Ok true) → Parse declared arguments = Parse (values f) (args f).
Proof.
  intros E. pose proof (parseOne_shrinks _ _ E) as Hl. cbn in Hl. unfold Parse at 1. cbn [parse_loop]. rewrite E.
  unfold Parse. destruct f as [v a]. apply parse_loop_fuel; cbn in *; lia.
Qed.

(** ** Writing flags *)

(** The ways to write a flag: with a value, or bare, which a boolean one may be. *)
Inductive Style := Attached | DoubleAttached | Separate | DoubleSeparate | Bare | DoubleBare.

Record Setting := { style : Style; sname : string; sval : string }.

Definition render (s : Setting) : list string :=
  match style s with
  | Attached => ["-" +:+ sname s +:+ "=" +:+ sval s]
  | DoubleAttached => ["--" +:+ sname s +:+ "=" +:+ sval s]
  | Separate => ["-" +:+ sname s; sval s]
  | DoubleSeparate => ["--" +:+ sname s; sval s]
  | Bare => ["-" +:+ sname s]
  | DoubleBare => ["--" +:+ sname s]
  end.

(** The value a setting gives to a flag of [v]'s kind, if it is a way to write one. *)
Definition value_of (v : option Value) (s : Setting) : option Value :=
  match v, style s with
  | Some (VString _), (Attached | DoubleAttached | Separate | DoubleSeparate) => Some (VString (sval s))
  | Some (VBool _), (Attached | DoubleAttached) => VBool <$> ParseBool (sval s)
  | Some (VBool _), (Bare | DoubleBare) => Some (VBool true)
  | _, _ => None
  end.

Definition same_kind (v w : option Value) : Prop :=
  match v, w with Some (VString _), Some (VString _) | Some (VBool _), Some (VBool _) | None, None => True | _, _ => False end.

Lemma value_of_kind v w s : same_kind v w → value_of v s = value_of w s.
Proof. unfold value_of. by destruct v as [[]|], w as [[]|]. Qed.

Lemma value_of_same v s x : value_of v s = Some x → same_kind (Some x) v.
Proof. unfold value_of. destruct v as [[]|], (style s); try done; try (by intros [= <-]); destruct (ParseBool _); cbn; by intros [= <-]. Qed.

(** A name the parser can read back. *)
Definition plain_name (n : string) : bool :=
  no_byte "=" n && match n with String c _ => negb (Ascii.eqb c "-") | EmptyString => false end.

Lemma shape_flag n : plain_name n = true → ∀ v, shape ("-" +:+ n +:+ v) = Flagged (n +:+ v) ∧ shape ("--" +:+ n +:+ v) = Flagged (n +:+ v).
Proof.
  unfold plain_name. destruct n as [|c n]; [by rewrite andb_false_r|]. rewrite andb_true_iff. intros [He Hc] v.
  cbn in He. apply andb_true_iff in He as [He _]. rewrite negb_true_iff in Hc, He.
  cbn [String.append]. unfold shape at 1 2. cbn. rewrite ?Hc, ?He. cbn. done.
Qed.

Lemma split_plain n v : no_byte "=" n = true → split_name (n +:+ "=" +:+ v) = (n, Some v) ∧ split_name n = (n, None).
Proof.
  intros Hn. change ("=" +:+ v) with (String "=" v). unfold split_name, Cut.
  rewrite IndexByte_app_no by done. rewrite (proj2 (IndexByte_None n "=") Hn), stake_app.
  replace (S (String.length n)) with (String.length n + 1)%nat by lia. by rewrite <- sdrop_sdrop, sdrop_app.
Qed.

(** One written flag is read back as its name and value. *)
Lemma parse_setting s declared rest v : plain_name (sname s) = true → value_of (declared !! sname s) s = Some v →
  Parse declared (render s ++ rest) = Parse (<[sname s := v]> declared) rest.
Proof.
  destruct s as [st n x]. cbn [sname]. intros Hn Hv.
  assert (no_byte "=" n = true) as Hne by by apply andb_true_iff in Hn as [? _].
  destruct (split_plain n x Hne) as [Es1 Es2].
  pose proof (shape_flag n Hn ("=" +:+ x)) as [F1 F2]. pose proof (shape_flag n Hn "") as [F3 F4]. rewrite !sapp_nil_r in F3, F4.
  refine (Parse_step declared _ {| values := <[n := v]> declared; args := rest |} _). unfold value_of in Hv. cbn [style sval] in Hv.
  destruct st; unfold parseOne; cbn [args render style sname sval app];
    rewrite ?F1, ?F2, ?F3, ?F4, ?Es1, ?Es2; unfold set_flag; cbn -[lookup insert ParseBool]; destruct (declared !! n) as [[y|y]|]; try done;
    first [by injection Hv as <-|destruct (ParseBool x); [|done]; by injection Hv as <-].
Qed.

(** A list of written flags: each has the value written last. *)
Definition assign (m : Values) (s : Setting) : Values :=
  match value_of (m !! sname s) s with Some v => <[sname s := v]> m | None => m end.

(** The last value written for a name. *)
Definition last_value (declared : Values) (n : string) (l : list Setting) : option Value :=
  last (omap (λ s, if decide (sname s = n) then value_of (declared !! n) s else None) l).

Lemma assign_lookup n l declared :
  foldl assign declared l !! n = match last_value declared n l with Some v => Some v | None => declared !! n end ∧
  same_kind (foldl assign declared l !! n) (declared !! n).
Proof.
  assert (∀ v, same_kind v v) as Hrefl by by intros [[]|].
  unfold last_value. induction l as [|s l [IH1 IH2]] using rev_ind; [done|].
  rewrite foldl_snoc, omap_app. unfold assign at 1 3. csimpl. destruct (decide (sname s = n)) as [E|Hne].
  - rewrite E, (value_of_kind _ _ s IH2). destruct (value_of (declared !! n) s) as [v|] eqn:Ev; cbn.
    + rewrite last_snoc, lookup_insert_eq. split; [done|]. by eapply value_of_same.
    + by rewrite app_nil_r.
  - rewrite app_nil_r. destruct (value_of _ s); [by rewrite lookup_insert_ne|done].
Qed.

Lemma parse_settings l declared rest :
  Forall (λ s, plain_name (sname s) = true ∧ is_Some (value_of (declared !! sname s) s)) l →
  Parse declared (concat (render <$> l) ++ rest) = Parse (foldl assign declared l) rest.
Proof.
  revert declared. induction l as [|s l IH]; intros declared Hl; [done|]. apply Forall_cons in Hl as [[Hn [v Hv]] Hl].
  csimpl. rewrite <- app_assoc, (parse_setting s declared _ v) by done.
  assert (assign declared s = <[sname s := v]> declared) as Ea by (unfold assign; by rewrite Hv). rewrite Ea. apply IH.
  eapply Forall_impl; [exact Hl|]. intros s' [? [v' Hs']]. split; [done|]. exists v'. rewrite <- Hs'. apply value_of_kind. rewrite <- Ea.
  exact (proj2 (assign_lookup (sname s') [s] declared)).
Qed.
End Flag.
