(* ===== verification/Config.v ===== *)
(** * core: the engine's configuration and its file (engine.go, config/config.go)

    [EngineConfig] is the command line's baseline; [FileConfig] is what the JSON or
    YAML library decoded from the configuration file, an absent value being empty, 0
    or nil as Go leaves it. *)

From S2P Require Import Prelude GoStrings Spp.

Module Config.

Record EngineConfig := {
  SPPServer : string; SPPProto : string; SPPKey : string; SPPEncrypt : string; SPPCompress : Z;
  SPPRdnsDomain : string; SPPRdnsUpstream : string; SPPRdnsPsk : string; SPPRdnsQueryType : string;
  SPPNodes : list Spp.Node; LocalSocks5 : string;
  DNSListen : string; DoHListen : string; DoTListen : string; TLSCertFile : string; TLSKeyFile : string;
  DirectDNS : string; RemoteDoH : string;
  Socks5Listen : string; HTTPListen : string; ProxyUsername : string; ProxyPassword : string;
  EnableIPv6 : bool;
  DirectDomains : list string; DirectCIDRs : list string; GeoIPFile : string; ChinaDomainsFile : string;
  GFWDomainsFile : string; SkipCountry : string;
  APIListen : string; APIToken : string; APIReadonlyToken : string; APIAllowedCIDRs : list string;
  APIClientCIDRs : list string; APITrustedProxies : list string; APIOrigins : list string;
  APIDashboard : bool; APIPProf : bool;
  StatsFile : string; StatsHistoryHours : Z;
}.
#[global] Instance EngineConfig_eta : Eta EngineConfig := λ c,
  {| SPPServer := SPPServer c; SPPProto := SPPProto c; SPPKey := SPPKey c; SPPEncrypt := SPPEncrypt c; SPPCompress
     := SPPCompress c; SPPRdnsDomain := SPPRdnsDomain c; SPPRdnsUpstream := SPPRdnsUpstream c; SPPRdnsPsk :=
     SPPRdnsPsk c; SPPRdnsQueryType := SPPRdnsQueryType c; SPPNodes := SPPNodes c; LocalSocks5 := LocalSocks5 c;
     DNSListen := DNSListen c; DoHListen := DoHListen c; DoTListen := DoTListen c; TLSCertFile := TLSCertFile c;
     TLSKeyFile := TLSKeyFile c; DirectDNS := DirectDNS c; RemoteDoH := RemoteDoH c; Socks5Listen := Socks5Listen c;
     HTTPListen := HTTPListen c; ProxyUsername := ProxyUsername c; ProxyPassword := ProxyPassword c; EnableIPv6 :=
     EnableIPv6 c; DirectDomains := DirectDomains c; DirectCIDRs := DirectCIDRs c; GeoIPFile := GeoIPFile c;
     ChinaDomainsFile := ChinaDomainsFile c; GFWDomainsFile := GFWDomainsFile c; SkipCountry := SkipCountry c;
     APIListen := APIListen c; APIToken := APIToken c; APIReadonlyToken := APIReadonlyToken c; APIAllowedCIDRs :=
     APIAllowedCIDRs c; APIClientCIDRs := APIClientCIDRs c; APITrustedProxies := APITrustedProxies c; APIOrigins :=
     APIOrigins c; APIDashboard := APIDashboard c; APIPProf := APIPProf c; StatsFile := StatsFile c;
     StatsHistoryHours := StatsHistoryHours c |}.

(** The file's fields; pointers are options. *)
Record FileConfig := {
  fSPPServer : string; fSPPProto : string; fSPPKey : string; fSPPEncrypt : string; fSPPCompress : option Z;
  fSPPRdnsDomain : string; fRdnsDomain : string; fSPPRdnsUpstream : string; fRdnsUpstream : string;
  fSPPRdnsPsk : string; fRdnsPsk : string; fSPPRdnsQueryType : string; fRdnsQueryType : string;
  fSPPNodes : list Spp.Node;
  fDNSListen : string; fDoHListen : string; fDoTListen : string; fTLSCertFile : string; fTLSKeyFile : string;
  fDirectDNS : string; fRemoteDoH : string;
  fSocks5Listen : string; fHTTPListen : string; fProxyUsername : string; fProxyPassword : string;
  fIPv6 : option bool;
  fDirectDomains : list string; fDirectCIDRs : list string; fGeoIPFile : string; fChinaDomainsFile : string;
  fGFWDomainsFile : string; fSkipCountry : string;
  fAPIListen : string; fAPIToken : string; fAPIReadonlyToken : string; fAPIOrigins : list string;
  fAPIAllowedCIDRs : list string; fAPIClientCIDRs : list string; fAPITrustedProxies : list string;
  fAPIDashboard : option bool; fAPIPProf : option bool;
  fStatsFile : string; fStatsHistoryHours : Z; fLogLevel : string;
}.
#[global] Instance FileConfig_eta : Eta FileConfig := λ f,
  {| fSPPServer := fSPPServer f; fSPPProto := fSPPProto f; fSPPKey := fSPPKey f; fSPPEncrypt := fSPPEncrypt f;
     fSPPCompress := fSPPCompress f; fSPPRdnsDomain := fSPPRdnsDomain f; fRdnsDomain := fRdnsDomain f;
     fSPPRdnsUpstream := fSPPRdnsUpstream f; fRdnsUpstream := fRdnsUpstream f; fSPPRdnsPsk := fSPPRdnsPsk f;
     fRdnsPsk := fRdnsPsk f; fSPPRdnsQueryType := fSPPRdnsQueryType f; fRdnsQueryType := fRdnsQueryType f;
     fSPPNodes := fSPPNodes f; fDNSListen := fDNSListen f; fDoHListen := fDoHListen f; fDoTListen := fDoTListen f;
     fTLSCertFile := fTLSCertFile f; fTLSKeyFile := fTLSKeyFile f; fDirectDNS := fDirectDNS f;
     fRemoteDoH := fRemoteDoH f; fSocks5Listen := fSocks5Listen f; fHTTPListen := fHTTPListen f;
     fProxyUsername := fProxyUsername f; fProxyPassword := fProxyPassword f; fIPv6 := fIPv6 f;
     fDirectDomains := fDirectDomains f; fDirectCIDRs := fDirectCIDRs f; fGeoIPFile := fGeoIPFile f;
     fChinaDomainsFile := fChinaDomainsFile f; fGFWDomainsFile := fGFWDomainsFile f;
     fSkipCountry := fSkipCountry f; fAPIListen := fAPIListen f; fAPIToken := fAPIToken f;
     fAPIReadonlyToken := fAPIReadonlyToken f; fAPIOrigins := fAPIOrigins f;
     fAPIAllowedCIDRs := fAPIAllowedCIDRs f; fAPIClientCIDRs := fAPIClientCIDRs f;
     fAPITrustedProxies := fAPITrustedProxies f; fAPIDashboard := fAPIDashboard f; fAPIPProf := fAPIPProf f;
     fStatsFile := fStatsFile f; fStatsHistoryHours := fStatsHistoryHours f; fLogLevel := fLogLevel f |}.

(** Overlays: a value present in the file wins. *)
Definition str (file base : string) : string := if String.eqb file "" then base else file.
Definition lst {A} (file base : list A) : list A := match file with [] => base | _ => file end.
Definition ptr {A} (file : option A) (base : A) : A := default base file.

(** A value with an older name. *)
Definition alias (file old base : string) : string := str file (str old base).

Definition MergeWithEngineConfig (f : FileConfig) (base : EngineConfig) : EngineConfig := {|
  SPPServer := str (fSPPServer f) (SPPServer base);
  SPPProto := str (fSPPProto f) (SPPProto base);
  SPPKey := str (fSPPKey f) (SPPKey base);
  SPPEncrypt := str (fSPPEncrypt f) (SPPEncrypt base);
  SPPCompress := ptr (fSPPCompress f) (SPPCompress base);
  SPPRdnsDomain := alias (fSPPRdnsDomain f) (fRdnsDomain f) (SPPRdnsDomain base);
  SPPRdnsUpstream := alias (fSPPRdnsUpstream f) (fRdnsUpstream f) (SPPRdnsUpstream base);
  SPPRdnsPsk := alias (fSPPRdnsPsk f) (fRdnsPsk f) (SPPRdnsPsk base);
  SPPRdnsQueryType := alias (fSPPRdnsQueryType f) (fRdnsQueryType f) (SPPRdnsQueryType base);
  SPPNodes := lst (fSPPNodes f) (SPPNodes base);
  LocalSocks5 := LocalSocks5 base;
  DNSListen := str (fDNSListen f) (DNSListen base);
  DoHListen := str (fDoHListen f) (DoHListen base);
  DoTListen := str (fDoTListen f) (DoTListen base);
  TLSCertFile := str (fTLSCertFile f) (TLSCertFile base);
  TLSKeyFile := str (fTLSKeyFile f) (TLSKeyFile base);
  DirectDNS := str (fDirectDNS f) (DirectDNS base);
  RemoteDoH := str (fRemoteDoH f) (RemoteDoH base);
  Socks5Listen := str (fSocks5Listen f) (Socks5Listen base);
  HTTPListen := str (fHTTPListen f) (HTTPListen base);
  ProxyUsername := str (fProxyUsername f) (ProxyUsername base);
  ProxyPassword := str (fProxyPassword f) (ProxyPassword base);
  EnableIPv6 := ptr (fIPv6 f) (EnableIPv6 base);
  DirectDomains := lst (fDirectDomains f) (DirectDomains base);
  DirectCIDRs := lst (fDirectCIDRs f) (DirectCIDRs base);
  GeoIPFile := str (fGeoIPFile f) (GeoIPFile base);
  ChinaDomainsFile := str (fChinaDomainsFile f) (ChinaDomainsFile base);
  GFWDomainsFile := str (fGFWDomainsFile f) (GFWDomainsFile base);
  SkipCountry := str (fSkipCountry f) (SkipCountry base);
  APIListen := str (fAPIListen f) (APIListen base);
  APIToken := str (fAPIToken f) (APIToken base);
  APIReadonlyToken := str (fAPIReadonlyToken f) (APIReadonlyToken base);
  APIAllowedCIDRs := lst (fAPIAllowedCIDRs f) (APIAllowedCIDRs base);
  APIClientCIDRs := lst (fAPIClientCIDRs f) (APIClientCIDRs base);
  APITrustedProxies := lst (fAPITrustedProxies f) (APITrustedProxies base);
  APIOrigins := lst (fAPIOrigins f) (APIOrigins base);
  APIDashboard := ptr (fAPIDashboard f) (APIDashboard base);
  APIPProf := ptr (fAPIPProf f) (APIPProf base);
  StatsFile := str (fStatsFile f) (StatsFile base);
  StatsHistoryHours := if 0 <? fStatsHistoryHours f then fStatsHistoryHours f else StatsHistoryHours base
|}.

(** ** Properties *)

Definition emptyFile : FileConfig := {|
  fSPPServer := ""; fSPPProto := ""; fSPPKey := ""; fSPPEncrypt := ""; fSPPCompress := None; fSPPRdnsDomain := "";
  fRdnsDomain := ""; fSPPRdnsUpstream := ""; fRdnsUpstream := ""; fSPPRdnsPsk := ""; fRdnsPsk := "";
  fSPPRdnsQueryType := ""; fRdnsQueryType := ""; fSPPNodes := []; fDNSListen := ""; fDoHListen := ""; fDoTListen := "";
  fTLSCertFile := ""; fTLSKeyFile := ""; fDirectDNS := ""; fRemoteDoH := ""; fSocks5Listen := ""; fHTTPListen := "";
  fProxyUsername := ""; fProxyPassword := ""; fIPv6 := None; fDirectDomains := []; fDirectCIDRs := []; fGeoIPFile := "";
  fChinaDomainsFile := ""; fGFWDomainsFile := ""; fSkipCountry := ""; fAPIListen := ""; fAPIToken := "";
  fAPIReadonlyToken := ""; fAPIOrigins := []; fAPIAllowedCIDRs := []; fAPIClientCIDRs := []; fAPITrustedProxies := [];
  fAPIDashboard := None; fAPIPProf := None; fStatsFile := ""; fStatsHistoryHours := 0; fLogLevel := ""
|}.

Lemma str_band a b c : str a (str b (str a c)) = str a (str b c).
Proof. unfold str. by destruct (String.eqb a ""), (String.eqb b ""). Qed.
Lemma lst_band {A} (a b c : list A) : lst a (lst b (lst a c)) = lst a (lst b c).
Proof. by destruct a, b. Qed.
Lemma ptr_band {A} (a b : option A) c : ptr a (ptr b (ptr a c)) = ptr a (ptr b c).
Proof. by destruct a, b. Qed.
Lemma alias_band a o b p c : alias a o (alias b p (alias a o c)) = alias a o (alias b p c).
Proof. unfold alias, str. by destruct (String.eqb a ""), (String.eqb o ""), (String.eqb b ""), (String.eqb p ""). Qed.

(** the file is an overlay on the command line.  A file that sets nothing changes
    nothing, and what a file sets it decides: applying it earlier as well, under another
    file, makes no difference; in particular applying a file twice is applying it
    once. *)
Theorem merge_overlays f g base :
  MergeWithEngineConfig emptyFile base = base ∧
  MergeWithEngineConfig f (MergeWithEngineConfig g (MergeWithEngineConfig f base)) =
    MergeWithEngineConfig f (MergeWithEngineConfig g base) ∧
  MergeWithEngineConfig f (MergeWithEngineConfig f base) = MergeWithEngineConfig f base.
Proof.
  assert (∀ g, MergeWithEngineConfig f (MergeWithEngineConfig g (MergeWithEngineConfig f base)) =
    MergeWithEngineConfig f (MergeWithEngineConfig g base)) as Hband.
  { intros h. unfold MergeWithEngineConfig. cbn -[str lst ptr alias].
    rewrite !str_band, !lst_band, !ptr_band, !alias_band. do 2 f_equal.
    repeat (match goal with |- context [0 <? ?x] => destruct (0 <? x) end; try done). }
  assert (MergeWithEngineConfig emptyFile base = base) as Hempty by by destruct base.
  assert (MergeWithEngineConfig emptyFile (MergeWithEngineConfig f base) = MergeWithEngineConfig f base) as Hempty'
    by by destruct (MergeWithEngineConfig f base).
  split_and!; [done|apply Hband|]. rewrite <- Hempty' at 1. rewrite Hband. by rewrite Hempty.
Qed.

(** The older names of the rdns settings are read when the newer ones are absent. *)
Example rdns_alias base :
  SPPRdnsDomain (MergeWithEngineConfig emptyFile base) = SPPRdnsDomain base ∧
  alias "" "old.example" "base.example" = "old.example" ∧ alias "new.example" "old.example" "" = "new.example".
Proof. by destruct base. Qed.
End Config.
