(* ===== verification/ConfigFile.v ===== *)
(** * core/config: the configuration file (config.go)

    [json.Unmarshal] into the file's structure: members are stored one by one, a member of
    the wrong kind is skipped, the error is kept and decoding goes on, so what a
    failed decoding leaves is what the YAML decoder starts from.  The YAML library is the
    parameter [YamlLib]; the text of a document is [JSONText].  A node may be [null], which
    Go decodes to a nil pointer. *)

From S2P Require Import Prelude GoStrings Json Spp Config.
Import Json Config.

Module ConfigFile.

(** ** Decoding into a value *)

(** The value afterwards, and whether an error was recorded. *)
Definition Decoder (A : Type) : Type := Json → A → A * bool.

Definition into_string : Decoder string := λ j old,
  match j with JStr s => (s, false) | JNull => (old, false) | _ => (old, true) end.
Definition into_int : Decoder Z := λ j old,
  match j with JNum z => if in_int64 z then (z, false) else (old, true) | JNull => (old, false) | _ => (old, true) end.
Definition into_bool : Decoder bool := λ j old,
  match j with JBool b => (b, false) | JNull => (old, false) | _ => (old, true) end.

(** A pointer: [null] makes it nil, anything else allocates what it points to. *)
Definition into_ptr {A} (zero : A) (d : Decoder A) : Decoder (option A) := λ j old,
  match j with
  | JNull => (None, false)
  | _ => let '(v, e) := d j (default zero old) in (Some v, e)
  end.

(** A slice: elements it already has are decoded into. *)
Definition into_list {A} (zero : A) (d : Decoder A) : Decoder (list A) := λ j old,
  match j with
  | JNull => ([], false)
  | JArr l => let rs := imap (λ i x, d x (default zero (old !! i))) l in (rs.*1, existsb snd rs)
  | _ => (old, true)
  end.

(** A field of a structure. *)
Record member (R : Type) := { mname : string; minto : Decoder R }.
Arguments mname {R}. Arguments minto {R}.

Definition mk {R A} (name : string) (d : Decoder A) (get : R → A) (set : A → R → R) : member R :=
  {| mname := name; minto j r := let '(v, e) := d j (get r) in (set v r, e) |}.

Section struct.
Context `{UnicodeCase} {R : Type} (ms : list (member R)).

(** The field a name selects: the one with that name, or with that name up to case. *)
Definition select (k : string) : option (member R) :=
  match find (λ m, String.eqb (mname m) k) ms with
  | Some m => Some m
  | None => find (λ m, EqualFold (mname m) k) ms
  end.

Definition store (acc : R * bool) (kv : string * Json) : R * bool :=
  match select kv.1 with
  | Some m => let '(r, e) := minto m kv.2 acc.1 in (r, acc.2 || e)
  | None => acc
  end.

Definition into_struct : Decoder R := λ j old,
  match j with JNull => (old, false) | JObj l => foldl store (old, false) l | _ => (old, true) end.
End struct.

(** ** The structures *)

Definition zero_node : Spp.Node := {|
  Spp.Name := ""; Spp.Server := ""; Spp.ServerProto := ""; Spp.Key := ""; Spp.Encrypt := ""; Spp.Compress := 0;
  Spp.Priority := 0; Spp.Bandwidth := 0; Spp.KcpFecData := 0; Spp.KcpFecParity := 0; Spp.RdnsDomain := "";
  Spp.RdnsUpstream := ""; Spp.RdnsPsk := ""; Spp.RdnsQueryType := ""; Spp.nodeAlive := false |}.

Definition node_members : list (member Spp.Node) := [
  mk "name" into_string Spp.Name (λ v n, n <| Spp.Name := v |>);
  mk "server" into_string Spp.Server (λ v n, n <| Spp.Server := v |>);
  mk "server_proto" into_string Spp.ServerProto (λ v n, n <| Spp.ServerProto := v |>);
  mk "key" into_string Spp.Key (λ v n, n <| Spp.Key := v |>);
  mk "encrypt" into_string Spp.Encrypt (λ v n, n <| Spp.Encrypt := v |>);
  mk "compress" into_int Spp.Compress (λ v n, n <| Spp.Compress := v |>);
  mk "priority" into_int Spp.Priority (λ v n, n <| Spp.Priority := v |>);
  mk "bandwidth" into_int Spp.Bandwidth (λ v n, n <| Spp.Bandwidth := v |>);
  mk "kcpfecdata" into_int Spp.KcpFecData (λ v n, n <| Spp.KcpFecData := v |>);
  mk "kcpfecparity" into_int Spp.KcpFecParity (λ v n, n <| Spp.KcpFecParity := v |>);
  mk "rdnsdomain" into_string Spp.RdnsDomain (λ v n, n <| Spp.RdnsDomain := v |>);
  mk "rdnsupstream" into_string Spp.RdnsUpstream (λ v n, n <| Spp.RdnsUpstream := v |>);
  mk "rdnspsk" into_string Spp.RdnsPsk (λ v n, n <| Spp.RdnsPsk := v |>);
  mk "rdnsquerytype" into_string Spp.RdnsQueryType (λ v n, n <| Spp.RdnsQueryType := v |>);
  mk "alive" into_bool Spp.nodeAlive (λ v n, n <| Spp.nodeAlive := v |>)
].

(** The decoded file; its nodes are pointers. *)
Record Decoded := { file : FileConfig; nodes : list (option Spp.Node) }.
#[global] Instance Decoded_eta : Eta Decoded := λ d, {| file := file d; nodes := nodes d |}.

Definition zero_file : Decoded := {| file := emptyFile; nodes := [] |}.

(** Fields of the file by kind. *)
Definition text (name : string) (get : FileConfig → string) (set : string → FileConfig → FileConfig) : member Decoded :=
  mk name into_string (λ d, get (file d)) (λ v d, d <| file ::= set v |>).
Definition texts (name : string) (get : FileConfig → list string) (set : list string → FileConfig → FileConfig) : member Decoded :=
  mk name (into_list "" into_string) (λ d, get (file d)) (λ v d, d <| file ::= set v |>).
Definition flag (name : string) (get : FileConfig → option bool) (set : option bool → FileConfig → FileConfig) : member Decoded :=
  mk name (into_ptr false into_bool) (λ d, get (file d)) (λ v d, d <| file ::= set v |>).

Section file.
Context `{UnicodeCase}.

Definition file_members : list (member Decoded) := [
  text "spp_server" fSPPServer (λ v f, f <| fSPPServer := v |>);
  text "spp_proto" fSPPProto (λ v f, f <| fSPPProto := v |>);
  text "spp_key" fSPPKey (λ v f, f <| fSPPKey := v |>);
  text "spp_encrypt" fSPPEncrypt (λ v f, f <| fSPPEncrypt := v |>);
  mk "spp_compress" (into_ptr 0 into_int) (λ d, fSPPCompress (file d)) (λ v d, d <| file ::= λ f, f <| fSPPCompress := v |> |>);
  text "spp_rdnsdomain" fSPPRdnsDomain (λ v f, f <| fSPPRdnsDomain := v |>);
  text "rdnsdomain" fRdnsDomain (λ v f, f <| fRdnsDomain := v |>);
  text "spp_rdnsupstream" fSPPRdnsUpstream (λ v f, f <| fSPPRdnsUpstream := v |>);
  text "rdnsupstream" fRdnsUpstream (λ v f, f <| fRdnsUpstream := v |>);
  text "spp_rdnspsk" fSPPRdnsPsk (λ v f, f <| fSPPRdnsPsk := v |>);
  text "rdnspsk" fRdnsPsk (λ v f, f <| fRdnsPsk := v |>);
  text "spp_rdnsquerytype" fSPPRdnsQueryType (λ v f, f <| fSPPRdnsQueryType := v |>);
  text "rdnsquerytype" fRdnsQueryType (λ v f, f <| fRdnsQueryType := v |>);
  mk "nodes" (into_list None (into_ptr zero_node (into_struct node_members))) nodes (λ v d, d <| nodes := v |>);
  text "dns_listen" fDNSListen (λ v f, f <| fDNSListen := v |>);
  text "doh_listen" fDoHListen (λ v f, f <| fDoHListen := v |>);
  text "dot_listen" fDoTListen (λ v f, f <| fDoTListen := v |>);
  text "tls_cert" fTLSCertFile (λ v f, f <| fTLSCertFile := v |>);
  text "tls_key" fTLSKeyFile (λ v f, f <| fTLSKeyFile := v |>);
  text "direct_dns" fDirectDNS (λ v f, f <| fDirectDNS := v |>);
  text "doh_url" fRemoteDoH (λ v f, f <| fRemoteDoH := v |>);
  text "socks5_listen" fSocks5Listen (λ v f, f <| fSocks5Listen := v |>);
  text "http_listen" fHTTPListen (λ v f, f <| fHTTPListen := v |>);
  text "proxy_username" fProxyUsername (λ v f, f <| fProxyUsername := v |>);
  text "proxy_password" fProxyPassword (λ v f, f <| fProxyPassword := v |>);
  flag "ipv6" fIPv6 (λ v f, f <| fIPv6 := v |>);
  texts "direct_domains" fDirectDomains (λ v f, f <| fDirectDomains := v |>);
  texts "direct_cidrs" fDirectCIDRs (λ v f, f <| fDirectCIDRs := v |>);
  text "geoip_file" fGeoIPFile (λ v f, f <| fGeoIPFile := v |>);
  text "china_domains" fChinaDomainsFile (λ v f, f <| fChinaDomainsFile := v |>);
  text "gfw_domains" fGFWDomainsFile (λ v f, f <| fGFWDomainsFile := v |>);
  text "skip_country" fSkipCountry (λ v f, f <| fSkipCountry := v |>);
  text "api_listen" fAPIListen (λ v f, f <| fAPIListen := v |>);
  text "api_token" fAPIToken (λ v f, f <| fAPIToken := v |>);
  text "api_readonly_token" fAPIReadonlyToken (λ v f, f <| fAPIReadonlyToken := v |>);
  texts "api_origins" fAPIOrigins (λ v f, f <| fAPIOrigins := v |>);
  texts "api_allowed_cidrs" fAPIAllowedCIDRs (λ v f, f <| fAPIAllowedCIDRs := v |>);
  texts "api_client_cidrs" fAPIClientCIDRs (λ v f, f <| fAPIClientCIDRs := v |>);
  texts "api_trusted_proxies" fAPITrustedProxies (λ v f, f <| fAPITrustedProxies := v |>);
  flag "api_dashboard" fAPIDashboard (λ v f, f <| fAPIDashboard := v |>);
  flag "api_pprof" fAPIPProf (λ v f, f <| fAPIPProf := v |>);
  text "stats_file" fStatsFile (λ v f, f <| fStatsFile := v |>);
  mk "stats_history_hours" into_int (λ d, fStatsHistoryHours (file d)) (λ v d, d <| file ::= λ f, f <| fStatsHistoryHours := v |> |>);
  text "loglevel" fLogLevel (λ v f, f <| fLogLevel := v |>)
].
End file.

(** ** Reading the file *)

(** gopkg.in/yaml.v3's [Unmarshal] into a configuration that may hold values already. *)
Class YamlLib := { yaml_Unmarshal : string → Decoded → result string Decoded }.

Inductive JSONError := Syntax (e : string) | Mismatch.
Inductive ConfigError := ReadFailed (path err : string) | InvalidFormat (json : JSONError) (yaml : string).

Section load.
Context `{UnicodeCase, JSONText, YamlLib}.

(** A text that is not JSON stores nothing. *)
Definition Unmarshal (data : string) (cfg : Decoded) : Decoded * option JSONError :=
  match json_parse data with
  | Err e => (cfg, Some (Syntax e))
  | Ok j => let '(cfg, e) := into_struct file_members j cfg in (cfg, if e then Some Mismatch else None)
  end.

Definition ParseConfigContent (data : string) : result ConfigError Decoded :=
  match Unmarshal data zero_file with
  | (cfg, None) => Ok cfg
  | (cfg, Some err) =>
      match yaml_Unmarshal data cfg with
      | Ok cfg => Ok cfg
      | Err yamlErr => Err (InvalidFormat err yamlErr)
      end
  end.

Definition LoadConfigFile (ReadFile : string → result string string) (path : string) : result ConfigError Decoded :=
  match ReadFile path with
  | Err err => Err (ReadFailed path err)
  | Ok data => ParseConfigContent data
  end.
End load.

(** The configuration, when no node is a nil pointer. *)
Definition whole (d : Decoded) : option FileConfig :=
  l ← mapM id (nodes d); Some ((file d) <| fSPPNodes := l |>).
End ConfigFile.
