(* ===== verification/Listener.v ===== *)
(** * core/proxy: the two proxy servers' listeners (socks5.go, http.go)

    [Socks5Server] and [HTTPServer] share one shape: a listener, its accept loop, and a
    goroutine per accepted connection.  A socket is named by its position in [sockets];
    the accept loop of a socket holds that socket, whatever the server does later.
    [Stop] marks the server under its lock and closes the socket after it has released
    the lock, so the two are separate steps of a history. *)

From S2P Require Import Prelude GoStrings.

Module Listener.

(** A bound socket: whether it is still open, and whether its [acceptLoop] runs. *)
Record Socket := { open : bool; looping : bool }.
#[global] Instance Socket_eta : Eta Socket := λ s, {| open := open s; looping := looping s |}.

(** [listener] is nil or one of the sockets; [stopCh] tells whether the channel is
    closed; [handlers] are the connections whose [handleClient] runs. *)
Record ProxyServer := {
  pListen : string; pFailure : string;
  listener : option nat; pClosed : bool; stopCh : bool;
  sockets : list Socket; handlers : list nat;
}.
#[global] Instance ProxyServer_eta : Eta ProxyServer := λ p,
  {| pListen := pListen p; pFailure := pFailure p; listener := listener p; pClosed := pClosed p;
     stopCh := stopCh p; sockets := sockets p; handlers := handlers p |}.

Definition new_proxy (listen dflt failure : string) : ProxyServer :=
  {| pListen := if String.eqb listen "" then dflt else listen; pFailure := failure;
     listener := None; pClosed := false; stopCh := false; sockets := []; handlers := [] |}.

Definition NewSocks5Server (listen : string) : ProxyServer := new_proxy listen "127.0.0.1:1080" "socks5 listen failed: ".
Definition NewHTTPServer (listen : string) : ProxyServer := new_proxy listen "127.0.0.1:8080" "http proxy listen failed: ".

(** [Start]; [bind] is the error of [net.Listen], if any. *)
Definition proxy_start (bind : option string) (p : ProxyServer) : ProxyServer * option string :=
  match listener p with
  | Some _ => (p, None)
  | None =>
      match bind with
      | Some e => (p, Some (pFailure p +:+ e))
      | None => (p <| sockets ::= λ l, l ++ [{| open := true; looping := true |}] |>
                   <| listener := Some (length (sockets p)) |> <| pClosed := false |>, None)
      end
  end.

(** [Addr]: the server has an address while it listens. *)
Definition pListening (p : ProxyServer) : bool := match listener p with Some _ => true | None => false end.

(** [Stop] under the lock: the socket left to close. *)
Definition stop_mark (p : ProxyServer) : ProxyServer * option nat :=
  if pClosed p then (p, None)
  else (p <| pClosed := true |> <| stopCh := true |> <| listener := None |>, listener p).

(** Closing a socket; closing it again is an error that is dropped. *)
Definition close_socket (i : nat) (p : ProxyServer) : ProxyServer :=
  p <| sockets ::= alter (λ s, s <| open := false |>) i |>.

(** [Stop] as a whole. *)
Definition proxy_stop (p : ProxyServer) : ProxyServer :=
  match stop_mark p with (p, Some i) => close_socket i p | (p, None) => p end.

(** One turn of the [acceptLoop] of socket [i]: what [Accept] returned.  A closed socket
    accepts nothing. *)
Definition acceptLoop (i : nat) (conn : option nat) (p : ProxyServer) : ProxyServer :=
  match sockets p !! i with
  | Some s =>
      if looping s then
        match (if open s then conn else None) with
        | Some c => p <| handlers ::= λ l, l ++ [c] |>
        | None => if stopCh p then p <| sockets ::= alter (λ s, s <| looping := false |>) i |> else p
        end
      else p
  | None => p
  end.

(** ** Histories *)

(** [closing] are the sockets a [Stop] has marked and not yet closed. *)
Record Server := { srv : ProxyServer; closing : list nat }.
#[global] Instance Server_eta : Eta Server := λ s, {| srv := srv s; closing := closing s |}.

Inductive event :=
  | EvStart (bind : option string)
  | EvStop
  | EvClose (k : nat)                         (* the [k]-th pending close *)
  | EvAccept (i : nat) (conn : option nat)
  | EvDone (c : nat).                         (* [handleClient] returned *)

Definition apply (s : Server) (e : event) : Server :=
  match e with
  | EvStart bind => s <| srv := (proxy_start bind (srv s)).1 |>
  | EvStop => let '(p, i) := stop_mark (srv s) in {| srv := p; closing := closing s ++ option_list i |}
  | EvClose k => match closing s !! k with
                 | Some i => {| srv := close_socket i (srv s); closing := delete k (closing s) |}
                 | None => s
                 end
  | EvAccept i conn => s <| srv := acceptLoop i conn (srv s) |>
  | EvDone c => s <| srv ::= λ p, p <| handlers ::= filter (λ d, d ≠ c) |> |>
  end.

Definition run (l : list event) (s : Server) : Server := foldl apply s l.

Definition fresh (p : ProxyServer) : Server := {| srv := p; closing := [] |}.
End Listener.
