(* ===== verification/ListenerProps.v ===== *)
(** * core/proxy: what the proxy servers' listeners guarantee

    Over every interleaving of starts, stops, accept loops and handlers. *)

From S2P Require Import Prelude GoStrings Listener.
Import Listener.

Module ListenerProps.

(** The invariant of a server's histories. *)
Record sound (s : Server) : Prop := {
  so_open : ∀ i k, sockets (srv s) !! i = Some k → open k = true → listener (srv s) = Some i ∨ i ∈ closing s;
  so_listener : ∀ i, listener (srv s) = Some i → ∃ k, sockets (srv s) !! i = Some k ∧ open k = true;
  so_pending : ∀ i, i ∈ closing s → ∃ k, sockets (srv s) !! i = Some k ∧ open k = true;
  so_distinct : NoDup (option_list (listener (srv s)) ++ closing s);
  so_running : stopCh (srv s) = false →
    closing s = [] ∧ ∀ i k, sockets (srv s) !! i = Some k → looping k = true ∧ open k = true;
}.

Lemma fresh_sound p : listener p = None → sockets p = [] → sound (fresh p).
Proof.
  intros Hl Hs. split; cbn; rewrite ?Hl, ?Hs; try done; [by intros i Hi%elem_of_nil|apply NoDup_nil_2].
Qed.

Lemma alter_socket (f : Socket → Socket) i j k (l : list Socket) :
  alter f i l !! j = Some k → ∃ k0, l !! j = Some k0 ∧ (k = k0 ∧ i ≠ j ∨ k = f k0 ∧ i = j).
Proof.
  destruct (decide (i = j)) as [->|Hne].
  - rewrite list_lookup_alter, decide_True by done. intros (k0 & H0 & ->)%fmap_Some. eauto 6.
  - rewrite list_lookup_alter_ne by done. eauto.
Qed.

Lemma alter_socket_back (f : Socket → Socket) i j k0 (l : list Socket) :
  l !! j = Some k0 → ∃ k, alter f i l !! j = Some k ∧ (i ≠ j → k = k0) ∧ (i = j → k = f k0).
Proof.
  intros H0. destruct (decide (i = j)) as [->|Hne].
  - exists (f k0). by rewrite list_lookup_alter, decide_True, H0.
  - exists k0. by rewrite list_lookup_alter_ne.
Qed.

Lemma alter_noop (f : Socket → Socket) i (l : list Socket) :
  (∀ k, l !! i = Some k → f k = k) → alter f i l = l.
Proof.
  intros Hf. apply list_eq. intros j. rewrite list_lookup_alter. case_decide; [|done]. subst j.
  destruct (l !! i) as [k|]; [|done]. cbn. by rewrite Hf.
Qed.

Lemma bind_sound bind s : sound s → sound (s <| srv := (proxy_start bind (srv s)).1 |>).
Proof.
  destruct s as [p cl]. intros [S1 S2 S3 S4 S5]. cbn in *. unfold proxy_start. destruct (listener p) as [i0|] eqn:El; [by split; cbn; rewrite ?El|].
  destruct bind as [e|]; [by split; cbn; rewrite ?El|]. split; cbn.
  - intros i k Hi Ho. apply lookup_app_Some in Hi as [Hi|[Hi Hk]].
    + destruct (S1 i k Hi Ho) as [|]; [done|by right].
    + left. apply list_lookup_singleton_Some in Hk as [Hk _]. f_equal. lia.
  - intros i [= <-]. eexists. by rewrite lookup_app_r, Nat.sub_diag by lia.
  - intros i Hi. destruct (S3 i Hi) as (k & Hk & Ho). exists k. split; [by apply lookup_app_l_Some|done].
  - apply NoDup_cons. split; [|by cbn in S4]. intros Hi. destruct (S3 _ Hi) as (k & Hk%lookup_lt_Some & _). lia.
  - intros Hs. destruct (S5 Hs) as [E1 E2]. split; [done|]. intros i k Hi. apply lookup_app_Some in Hi as [Hi|[_ Hi]]; [by eapply E2|].
    by apply list_lookup_singleton_Some in Hi as [_ <-].
Qed.

Lemma stop_sound s : sound s → sound (apply s EvStop).
Proof.
  destruct s as [p cl]. intros [S1 S2 S3 S4 S5]. unfold apply, stop_mark. cbn in *. destruct (pClosed p).
  { cbn. rewrite app_nil_r. by split. }
  split; cbn; try done.
  - intros i k Hi Ho. right. rewrite elem_of_app. destruct (S1 i k Hi Ho) as [->|Hc]; [right; cbn; by apply list_elem_of_here|by left].
  - intros i. rewrite elem_of_app. intros [Hi|Hi]; [by apply S3|]. apply S2. destruct (listener p); [|by apply elem_of_nil in Hi].
    by apply list_elem_of_singleton in Hi as ->.
  - by rewrite (Permutation_app_comm cl).
Qed.

Lemma close_sound k s : sound s → sound (apply s (EvClose k)).
Proof.
  destruct s as [p cl]. intros [S1 S2 S3 S4 S5]. unfold apply. cbn in *. destruct (cl !! k) as [i|] eqn:Ek; [|by split].
  assert (cl ≡ₚ i :: delete k cl) as Hp by by apply delete_Permutation.
  assert (NoDup (option_list (listener p) ++ i :: delete k cl)) as Hnd by by rewrite <- Hp.
  assert (i ∉ option_list (listener p) ++ delete k cl) as Hi.
  { rewrite <- Permutation_middle in Hnd. by apply NoDup_cons in Hnd as [? _]. }
  rewrite not_elem_of_app in Hi. destruct Hi as [Hi1 Hi2]. split; cbn.
  - intros j x Hj Ho. apply alter_socket in Hj as (x0 & Hj & [[-> Hne]|[-> ->]]); [|done].
    destruct (S1 j x0 Hj Ho) as [|Hc]; [by left|right]. rewrite Hp in Hc. by apply elem_of_cons in Hc as [->|].
  - intros j Hj. destruct (S2 j Hj) as (x & Hx & Ho). destruct (alter_socket_back (λ s, s <| open := false |>) i j x _ Hx) as (x' & Hx' & E & _).
    exists x'. split; [done|]. rewrite E; [done|]. intros ->. apply Hi1. rewrite Hj. by apply list_elem_of_here.
  - intros j Hj. destruct (S3 j) as (x & Hx & Ho); [rewrite Hp; by apply list_elem_of_further|].
    destruct (alter_socket_back (λ s, s <| open := false |>) i j x _ Hx) as (x' & Hx' & E & _). exists x'. split; [done|]. rewrite E; [done|].
    by intros ->.
  - rewrite <- Permutation_middle in Hnd. by apply NoDup_cons in Hnd as [_ ?].
  - intros Hs. destruct (S5 Hs) as [-> _]. done.
Qed.

Lemma accept_sound i conn s : sound s → sound (apply s (EvAccept i conn)).
Proof.
  destruct s as [p cl]. intros Hs. unfold apply, acceptLoop. cbn. destruct (sockets p !! i) as [k|] eqn:Ek; [|done].
  destruct (looping k); [|done]. destruct (if open k then conn else None) as [c|].
  { destruct Hs as [S1 S2 S3 S4 S5]. by split. }
  destruct (stopCh p) eqn:Es; [|done]. destruct Hs as [S1 S2 S3 S4 S5]. cbn in *.
  assert (∀ j x, sockets p !! j = Some x → open x = true →
    ∃ x', alter (λ s, s <| looping := false |>) i (sockets p) !! j = Some x' ∧ open x' = true) as Hkeep.
  { intros j x Hx Ho. destruct (alter_socket_back (λ s, s <| looping := false |>) i j x _ Hx) as (x' & Hx' & E1 & E2). exists x'. split; [done|].
    destruct (decide (i = j)) as [->|Hne]; [by rewrite E2|by rewrite E1]. }
  split; cbn.
  - intros j x Hj Ho. apply alter_socket in Hj as (x0 & Hj & [[-> _]|[-> ->]]); by eapply S1.
  - intros j Hj. destruct (S2 j Hj) as (x & Hx & Ho). by eapply Hkeep.
  - intros j Hj. destruct (S3 j Hj) as (x & Hx & Ho). by eapply Hkeep.
  - done.
  - intros; congruence.
Qed.

Lemma apply_sound s e : sound s → sound (apply s e).
Proof.
  intros Hs. destruct e; [by apply bind_sound|by apply stop_sound|by apply close_sound|by apply accept_sound|].
  destruct Hs as [S1 S2 S3 S4 S5]. by split.
Qed.

Lemma history_sound l s : sound s → sound (run l s).
Proof. revert s. induction l as [|e l IH]; intros s Hs; [done|]. cbn. by apply IH, apply_sound. Qed.

(** ** Stopping *)

(** A stopped server does not listen and has closed its channel. *)
Definition stopped_ok (p : ProxyServer) : Prop := pClosed p = true → listener p = None ∧ stopCh p = true.

Lemma apply_stops s e : stopped_ok (srv s) →
  stopped_ok (srv (apply s e)) ∧ (stopCh (srv (apply s e)) = true ↔ stopCh (srv s) = true ∨ e = EvStop).
Proof.
  destruct s as [p cl]. unfold stopped_ok. intros Hp. destruct e as [bind| |k|i conn|c]; cbn in *.
  - unfold proxy_start. destruct (listener p) eqn:El; [cbn; rewrite El; intuition congruence|].
    destruct bind; cbn; rewrite ?El; intuition congruence.
  - unfold stop_mark. destruct (pClosed p) eqn:Ec; cbn; [|by intuition]. destruct (Hp eq_refl) as [-> ->]. rewrite Ec. by intuition.
  - destruct (cl !! k); cbn; intuition congruence.
  - unfold acceptLoop. repeat case_match; cbn; intuition congruence.
  - intuition congruence.
Qed.

(** The channel is closed exactly when there has been a stop. *)
Lemma history_stops l s : stopped_ok (srv s) →
  stopped_ok (srv (run l s)) ∧ (stopCh (srv (run l s)) = true ↔ stopCh (srv s) = true ∨ EvStop ∈ l).
Proof.
  revert s. induction l as [|e l IH]; intros s Hs; cbn; [split; [done|]; rewrite elem_of_nil; intuition|].
  destruct (apply_stops s e Hs) as [Hs' E]. destruct (IH _ Hs') as [H1 H2]. split; [done|].
  unfold run in H2. rewrite H2, E, elem_of_cons. intuition congruence.
Qed.

(** ** Shutdown *)

(** Once the server is marked, a loop whose [Accept] fails ends. *)
Lemma acceptLoop_stopped j p : stopCh p = true →
  acceptLoop j None p = p <| sockets ::= alter (λ s, s <| looping := false |>) j |>.
Proof.
  destruct p as [pl pf li pc sc so ha]. cbn. intros ->. unfold acceptLoop. cbn. destruct (so !! j) as [x|] eqn:Ej.
  - destruct (looping x) eqn:El; [by destruct (open x)|]. unfold set_with. cbn. f_equal. symmetry. apply alter_noop.
    intros y [= <-]%(eq_trans (eq_sym Ej)). destruct x; cbn in *. by subst.
  - unfold set_with. cbn. f_equal. symmetry. apply alter_noop. congruence.
Qed.

(** One more turn of the accept loops in [l]. *)
Definition drain (l : list nat) (p : ProxyServer) : ProxyServer := foldl (λ p i, acceptLoop i None p) p l.

Lemma drain_ends l p : stopCh p = true →
  handlers (drain l p) = handlers p ∧ listener (drain l p) = listener p ∧
  ∀ i k, sockets (drain l p) !! i = Some k →
    ∃ k0, sockets p !! i = Some k0 ∧ open k = open k0 ∧ (i ∈ l → looping k = false) ∧ (looping k0 = false → looping k = false).
Proof.
  revert p. induction l as [|j l IH]; intros p Hs.
  { split_and!; [done|done|]. intros i k Hi. exists k. split_and!; try done. by intros ?%elem_of_nil. }
  cbn [drain foldl]. fold (drain l (acceptLoop j None p)). pose proof (acceptLoop_stopped j p Hs) as E.
  destruct (IH (acceptLoop j None p)) as (K1 & K2 & K3); [by rewrite E|]. rewrite K1, K2. rewrite E in K3 |- *. split_and!; [done|done|]. intros i k Hi. destruct (K3 i k Hi) as (k1 & Hk & Ho & Hl & Hn). cbn in Hk.
  apply alter_socket in Hk as (k0 & Hk0 & [[-> Hne]|[-> ->]]); exists k0; (split; [done|]); (split; [done|]).
  - split; [|exact Hn]. intros [->|Hin]%elem_of_cons; [done|by apply Hl].
  - by split; intros _; apply Hn.
Qed.

(** ** The listener *)

(** C17: the proxies' listeners.  After any sequence of starts, stops, connections and
    failed accepts, in any interleaving: at most the current listener is open, apart from
    sockets a stop is about to close; a stop leaves the server without a listener, and the
    socket it had among those to close; as long as nobody has stopped the server, the
    accept loop of the listening socket gives every connection a handler and survives a
    failed [Accept]; and when it has been stopped, the closes are done and it has not been
    started again, no socket is open, one more [Accept] ends every accept loop, nothing
    more is accepted and the connections being handled go on. *)
Theorem accept_loops listen dflt failure l :
  let s := run l (fresh (new_proxy listen dflt failure)) in
  let p := srv s in
  (∀ i k, sockets p !! i = Some k → open k = true → listener p = Some i ∨ i ∈ closing s) ∧
  (let s1 := apply s EvStop in
   listener (srv s1) = None ∧ closing s1 = closing s ++ option_list (listener p)) ∧
  (EvStop ∉ l → ∀ i, listener p = Some i →
     acceptLoop i None p = p ∧
     ∀ c, acceptLoop i (Some c) p = p <| handlers ::= λ l, l ++ [c] |>) ∧
  (EvStop ∈ l → closing s = [] → listener p = None →
     let q := drain (seq 0 (length (sockets p))) p in
     handlers q = handlers p ∧
     (∀ i k, sockets q !! i = Some k → open k = false ∧ looping k = false) ∧
     ∀ i c, handlers (acceptLoop i c p) = handlers p).
Proof.
  intros s p. destruct (history_sound l (fresh (new_proxy listen dflt failure))) as [S1 S2 S3 S4 S5]; [by apply fresh_sound|].
  destruct (history_stops l (fresh (new_proxy listen dflt failure))) as [Hok Hst]; [done|].
  fold s p in S1, S2, S3, S4, S5, Hok, Hst. split; [exact S1|]. split; [|split].
  - cbn. unfold stop_mark. fold p. destruct (pClosed p) eqn:Ec; [|done]. destruct (Hok Ec) as [El _]. cbn. by rewrite El.
  - intros Hs i Hi. assert (stopCh p = false) as Hs'.
    { apply not_true_is_false. rewrite Hst. by intros [|?]. }
    destruct (S2 i Hi) as (k & Hk & Ho). destruct (proj2 (S5 Hs') i k Hk) as [Hl _].
    unfold acceptLoop. by rewrite Hk, Hl, Ho, Hs'.
  - intros Hin Hc Hn q. assert (stopCh p = true) as Hs by (apply Hst; by right).
    destruct (drain_ends (seq 0 (length (sockets p))) p Hs) as (K1 & _ & K3).
    assert (∀ i k, sockets p !! i = Some k → open k = false) as Hclosed.
    { intros i k Hi. apply not_true_is_false. intros Ho. destruct (S1 i k Hi Ho) as [|Hx]; [congruence|].
      rewrite Hc in Hx. by apply elem_of_nil in Hx. }
    split; [exact K1|]. split.
    + intros i k Hi. destruct (K3 i k Hi) as (k0 & Hk0 & -> & Hl & _). split; [by eapply Hclosed|]. apply Hl.
      apply elem_of_seq. apply lookup_lt_Some in Hk0. lia.
    + intros i c. unfold acceptLoop. destruct (sockets p !! i) as [k|] eqn:Ek; [|done]. rewrite (Hclosed i k Ek), Hs.
      by destruct (looping k).
Qed.

(** A server that has been stopped once and started again: its socket is open, and the
    first failed [Accept] ends its accept loop, since [stopCh] stays closed. *)
Example restart_deaf :
  let p := srv (run [EvStart None; EvStop; EvClose 0; EvStart None; EvAccept 1 None] (fresh (NewSocks5Server ""))) in
  pListening p = true ∧ sockets p !! 1%nat = Some {| open := true; looping := false |} ∧
  handlers (acceptLoop 1 (Some 7%nat) p) = [].
Proof. vm_compute. auto. Qed.

(** [Stop] closes the listener only: a connection being handled is still handled. *)
Example stop_leaves_sessions :
  handlers (srv (run [EvStart None; EvAccept 0 (Some 7%nat); EvStop; EvClose 0; EvAccept 0 None] (fresh (NewHTTPServer "")))) = [7%nat].
Proof. reflexivity. Qed.

Lemma accept_loops_witness :
  let s := run [EvStart None; EvAccept 0 (Some 7%nat); EvStop; EvClose 0] (fresh (NewSocks5Server "")) in
  closing s = [] ∧ listener (srv s) = None ∧
  ∀ i c, handlers (acceptLoop i c (srv s)) = [7%nat].
Proof.
  split; [reflexivity|]. split; [reflexivity|].
  refine (proj2 (proj2 (proj2 (proj2 (proj2 (accept_loops "" "127.0.0.1:1080" "socks5 listen failed: "
    [EvStart None; EvAccept 0 (Some 7%nat); EvStop; EvClose 0]))) _ eq_refl eq_refl))).
  apply list_elem_of_further, list_elem_of_further, list_elem_of_here.
Defined.
End ListenerProps.
