(* ===== verification/Engine.v ===== *)
(** * core: the engine (engine.go)

    [Start] builds the components in order and, when one of them fails, releases what
    it has acquired; [Stop] releases everything.  A component that is let go is kept in
    [gone] in the state it was left in, so that leaks can be stated.  The network and
    the clock are the [Outcomes] of one [Start].  The router is shared with the DNS
    server and the proxies: a rule added to it is seen by all of them. *)

From S2P Require Import Prelude GoStrings GoNet Router Stats StatsPersist Json Dns Spp Api ApiView Config Listener.
Import Config Listener.

Module Engine.

Section engine.
Context `{UnicodeCase, Router.RouterEnv, Dns.DNSLib, GoSort, Stats.TimeFormat, Spp.SppLib, Json.JSONText, Json.TimeJSON, StatsPersist.GoAppend}.

(** A component that was let go. *)
Inductive Gone :=
  | GRouter (r : Router.Router.Router) | GCollector (c : Stats.Collector) (s : StatsPersist.Saver) | GManager (m : Spp.Manager)
  | GDns (s : Dns.Server) | GProxy (p : ProxyServer) | GApi (a : Api.Server).

Record Engine := {
  ecfg : EngineConfig;
  router : option Router.Router.Router; collector : option Stats.Collector; sppManager : option Spp.Manager;
  dnsServer : option Dns.Server; socks5Server : option ProxyServer; httpServer : option ProxyServer;
  apiServer : option Api.Server; running : bool; gone : list Gone;
  saver : StatsPersist.Saver;
}.
#[global] Instance Engine_eta : Eta Engine := λ e,
  {| ecfg := ecfg e; router := router e; collector := collector e; sppManager := sppManager e;
     dnsServer := dnsServer e; socks5Server := socks5Server e; httpServer := httpServer e;
     apiServer := apiServer e; running := running e; gone := gone e; saver := saver e |}.

Definition NewEngine (cfg : EngineConfig) : Engine :=
  {| ecfg := cfg <| LocalSocks5 ::= λ s, str s "127.0.0.1:10808" |> <| DNSListen ::= λ s, str s "127.0.0.1:53" |>
                 <| DirectDNS ::= λ s, str s "1.1.1.1:53" |> <| RemoteDoH ::= λ s, str s "https://1.1.1.1/dns-query" |>
                 <| SPPProto ::= λ s, str s "tcp" |>;
     router := None; collector := None; sppManager := None; dnsServer := None; socks5Server := None;
     httpServer := None; apiServer := None; running := false; gone := [];
     saver := {| StatsPersist.sv_started := false; StatsPersist.sv_stopCh := false |} |}.

Definition drop (g : Gone) (e : Engine) : Engine := e <| gone ::= λ l, l ++ [g] |>.

(** The parts of [cleanupServices].  Closing the collector stops its saver ([saver] is the
    one of the engine's collector) and saves once more, which is [stop_disk] below. *)
Definition stop_api (e : Engine) : Engine :=
  match apiServer e with Some a => drop (GApi (Api.Stop a)) e <| apiServer := None |> | None => e end.
Definition stop_socks5 (e : Engine) : Engine :=
  match socks5Server e with Some p => drop (GProxy (proxy_stop p)) e <| socks5Server := None |> | None => e end.
Definition stop_http (e : Engine) : Engine :=
  match httpServer e with Some p => drop (GProxy (proxy_stop p)) e <| httpServer := None |> | None => e end.
Definition stop_dns (e : Engine) : Engine :=
  match dnsServer e with Some s => drop (GDns (Dns.Stop s)) e <| dnsServer := None |> | None => e end.
Definition stop_manager (e : Engine) : Engine :=
  match sppManager e with Some m => drop (GManager (Spp.Close m)) e <| sppManager := None |> | None => e end.
Definition stop_router (e : Engine) : Engine :=
  match router e with Some r => drop (GRouter (Router.Router.Close r)) e <| router := None |> | None => e end.
Definition stop_collector (e : Engine) : Engine :=
  match collector e with Some c => drop (GCollector c (StatsPersist.stop_saver (saver e))) e <| collector := None |> <| saver ::= StatsPersist.stop_saver |>
                       | None => e end.

Definition cleanupServices (e : Engine) : Engine :=
  stop_collector (stop_router (stop_manager (stop_dns (stop_http (stop_socks5 (stop_api e)))))).

(** ** Starting *)

(** What one [Start] meets: the clock, the statistics file, the network of the nodes,
    the ports ([None] binds), the random source. *)
Record Outcomes := {
  o_now : time; o_load : time; o_read : option string; o_disk : gmap string string;
  o_net : Spp.Net; o_looks : nat → Spp.Look * Spp.Look; o_dns : Dns.Binds;
  o_socks5 : option string; o_http : option string; o_rand : option string; o_api : option string;
}.

Definition historyMinutes (hours : Z) : Z :=
  if hours <=? 0 then Stats.DefaultHistoryMinutes else (if 24 * 30 <? hours then 24 * 30 else hours) * 60.

Definition sppHost (server : string) : string :=
  let host := match SplitHostPort server with
              | Some (h, _) => if String.eqb h "" then server else h
              | None => server
              end in
  ToLower (Trim is_dot host).

Definition start_nodes (c : EngineConfig) : list Spp.Node :=
  match SPPNodes c with
  | [] => if String.eqb (SPPServer c) "" then []
          else [{| Spp.Name := "default_node"; Spp.Server := SPPServer c; Spp.ServerProto := SPPProto c;
                   Spp.Key := SPPKey c; Spp.Encrypt := SPPEncrypt c; Spp.Compress := SPPCompress c; Spp.Priority := 0;
                   Spp.Bandwidth := 0; Spp.KcpFecData := 0; Spp.KcpFecParity := 0; Spp.RdnsDomain := SPPRdnsDomain c;
                   Spp.RdnsUpstream := SPPRdnsUpstream c; Spp.RdnsPsk := SPPRdnsPsk c;
                   Spp.RdnsQueryType := SPPRdnsQueryType c; Spp.nodeAlive := false |}]
  | l => l
  end.

Definition file_list (f : string) : list string := if String.eqb f "" then [] else [f].

Definition router_options (c : EngineConfig) : Router.Router.Options :=
  {| Router.Router.DirectDomains := DirectDomains c; Router.Router.ProxyDomains := [];
     Router.Router.DirectCIDRs := DirectCIDRs c; Router.Router.DisableBuiltin := false;
     Router.Router.GeoIPFile := GeoIPFile c; Router.Router.ChinaDomainFiles := file_list (ChinaDomainsFile c);
     Router.Router.GFWDomainFiles := file_list (GFWDomainsFile c); Router.Router.SkipCountry := SkipCountry c |}.

(** The nodes' host names resolve and connect directly. *)
Definition add_host (r : Router.Router.Router) (n : Spp.Node) : Router.Router.Router :=
  let host := sppHost (Spp.Server n) in
  if negb (String.eqb host "") && is_nil (ParseIP host) then Router.Router.AddDirectDomain r host else r.

Definition dns_config (c : EngineConfig) (r : Router.Router.Router) (socks5 : string) (st : Stats.Collector) : Dns.Config :=
  {| Dns.ListenAddr := DNSListen c; Dns.DoHListenAddr := DoHListen c; Dns.DoTListenAddr := DoTListen c;
     Dns.TLSCertFile := TLSCertFile c; Dns.TLSKeyFile := TLSKeyFile c; Dns.DoHURL := RemoteDoH c;
     Dns.DirectDNS := DirectDNS c; Dns.Socks5Addr := socks5; Dns.cRouter := Some r;
     Dns.EnableIPv6 := EnableIPv6 c; Dns.cStats := Some st |}.

Definition stats_config (c : EngineConfig) : Stats.Config :=
  {| Stats.HistoryMinutes := historyMinutes (StatsHistoryHours c); Stats.BucketInterval := 0; Stats.File := StatsFile c;
     Stats.SaveInterval := Stats.DefaultSaveInterval; Stats.DomainLimit := 0; Stats.ErrorLimit := 0 |}.

Definition api_config (c : EngineConfig) : Api.Config :=
  {| Api.ListenAddr := APIListen c; Api.Token := APIToken c; Api.ReadonlyToken := APIReadonlyToken c;
     Api.AllowedCIDRs := APIAllowedCIDRs c; Api.ClientCIDRs := APIClientCIDRs c;
     Api.TrustedProxies := APITrustedProxies c; Api.AllowedOrigins := APIOrigins c; Api.Dashboard := APIDashboard c;
     Api.PProf := APIPProf c; Api.ReadTimeout := 0; Api.WriteTimeout := 0; Api.IdleTimeout := 0 |}.

Definition fail (msg : string) (e : Engine) : Engine * option string := (cleanupServices e, Some msg).

Definition start_socks5 (o : Outcomes) (e : Engine) : Engine * option string :=
  if String.eqb (Socks5Listen (ecfg e)) "" then (e, None)
  else match proxy_start (o_socks5 o) (NewSocks5Server (Socks5Listen (ecfg e))) with
       | (p, Some err) => fail ("start SOCKS5: " +:+ err) (drop (GProxy p) e)
       | (p, None) => (e <| socks5Server := Some p |>, None)
       end.

Definition start_http (o : Outcomes) (e : Engine) : Engine * option string :=
  if String.eqb (HTTPListen (ecfg e)) "" then (e, None)
  else match proxy_start (o_http o) (NewHTTPServer (HTTPListen (ecfg e))) with
       | (p, Some err) => fail ("start HTTP proxy: " +:+ err) (drop (GProxy p) e)
       | (p, None) => (e <| httpServer := Some p |>, None)
       end.

Definition start_api (o : Outcomes) (e : Engine) : Engine * option string :=
  if String.eqb (APIListen (ecfg e)) "" then (e, None)
  else match Api.New (Api.randomToken (o_rand o) (o_now o)) (api_config (ecfg e)) with
       | Err err => fail ("init statistics API: " +:+ err) e
       | Ok a =>
           match Api.Start (o_api o) a with
           | (a, Some err) => fail ("start statistics API: " +:+ err) (drop (GApi (Api.Stop a)) e)
           | (a, None) => (e <| apiServer := Some a |>, None)
           end
       end.

(** Continuing only without an error. *)
Definition and_then (r : Engine * option string) (k : Engine → Engine * option string) : Engine * option string :=
  match r with (e, None) => k e | _ => r end.

Definition start_dns (o : Outcomes) (nodes : list Spp.Node) (r : Router.Router.Router) (c : Stats.Collector)
    (m : Spp.Manager) (e : Engine) : Engine * option string :=
  let '(m, addr) := Spp.Socks5Addr (o_net o) m in
  let e := e <| sppManager := Some m |> in
  match Dns.NewServer (dns_config (ecfg e) r addr c) with
  | Err err => fail ("failed to init DNS server: " +:+ err) e
  | Ok s =>
      let r := foldl add_host r nodes in
      let e := e <| router := Some r |> in
      let s := s <| Dns.conf ::= λ cf, cf <| Dns.cRouter := Some r |> |> in
      match Dns.Start (o_dns o) s with
      | (s, Some err) =>
          fail ((if Contains err "address already in use" then "DNS 端口已被占用: " else "failed to run DNS server: ") +:+ err)
            (drop (GDns (Dns.Stop s)) e)
      | (s, None) => (e <| dnsServer := Some s |>, None)
      end
  end.

Definition start_services (o : Outcomes) (nodes : list Spp.Node) (r : Router.Router.Router) (c : Stats.Collector)
    (m : Spp.Manager) (e : Engine) : Engine * option string :=
  and_then (start_dns o nodes r c m e) (λ e, and_then (start_socks5 o e) (λ e, and_then (start_http o e) (start_api o))).

Definition Start (o : Outcomes) (e : Engine) : Engine * option string :=
  if running e then (e, None)
  else
    let r := Router.Router.NewRouterWithOptions (router_options (ecfg e)) in
    let e := e <| router := Some r |> in
    let nodes := start_nodes (ecfg e) in
    match nodes with
    | [] => fail "no SPP servers or nodes specified" e
    | _ =>
        let c := StatsPersist.NewCollector (o_now o) (o_load o) (stats_config (ecfg e)) (o_read o) (o_disk o) in
        let e := e <| collector := Some c |> <| saver := StatsPersist.new_saver (stats_config (ecfg e)) |> in
        match Spp.NewManager (o_net o) (o_looks o) nodes (LocalSocks5 (ecfg e)) with
        | Err err => fail ("failed to init SPP manager: " +:+ err) e
        | Ok m => and_then (start_services o nodes r c m (e <| sppManager := Some m |>)) (λ e, (e <| running := true |>, None))
        end
    end.

Definition Stop (e : Engine) : Engine :=
  if running e then cleanupServices (e <| running := false |>) else e.

Definition activeNodeName (e : Engine) : string :=
  match sppManager e with Some m => Spp.ActiveNodeName m | None => "" end.

(** ** What the engine tells the API *)

(** [APIInfo]; [version] is the version string. *)
Definition node_info (n : Spp.NodeStatus) : ApiView.NodeInfo :=
  {| ApiView.niName := Spp.sName n; ApiView.niServer := Spp.sServer n; ApiView.niProto := Spp.sProto n;
     ApiView.niPriority := Spp.sPriority n; ApiView.niBandwidth := Spp.sBandwidth n; ApiView.niRTTMs := Spp.sRTTMs n;
     ApiView.niAlive := Spp.sAlive n; ApiView.niActive := Spp.sActive n; ApiView.niActiveConns := Spp.sActiveConns n;
     ApiView.niConns := 0; ApiView.niUpload := 0; ApiView.niDownload := 0 |}.

Definition router_info (r : Router.Router.Router) : ApiView.RouterInfo :=
  let i := Router.Router.router_Info r in
  {| ApiView.riDirectDomains := Router.Router.info_DirectDomains i; ApiView.riProxyDomains := Router.Router.info_ProxyDomains i;
     ApiView.riDirectCIDRs := Router.Router.info_DirectCIDRs i; ApiView.riGeoIP := Router.Router.info_GeoIP i;
     ApiView.riSkipCountry := Router.Router.info_SkipCountry i |}.

Definition APIInfo (version : string) (e : Engine) : ApiView.SystemInfo :=
  {| ApiView.siVersion := version; ApiView.siRunning := running e; ApiView.siIPv6 := EnableIPv6 (ecfg e);
     ApiView.siListeners := {| ApiView.lDNS := DNSListen (ecfg e); ApiView.lDoH := DoHListen (ecfg e);
       ApiView.lDoT := DoTListen (ecfg e); ApiView.lSocks5 := Socks5Listen (ecfg e);
       ApiView.lHTTP := HTTPListen (ecfg e); ApiView.lAPI := APIListen (ecfg e) |};
     ApiView.siRouter := match router e with
                         | Some r => router_info r
                         | None => ApiView.siRouter (ApiView.bareInfo version)
                         end;
     ApiView.siNodes := match sppManager e with Some m => node_info <$> Spp.NodeStatuses m | None => [] end |}.

#[export] Instance engine_info (version : string) : ApiView.InfoProvider Engine := APIInfo version.

(** The dependencies [Start] hands to the API. *)
Definition api_deps (version : string) (started : time) (e : Engine) : ApiView.Deps :=
  {| ApiView.Info := Some (ApiView.APIInfo (InfoProvider := engine_info version) e); ApiView.Version := version;
     ApiView.started := started |}.

(** The disk after [Stop]'s [collector.Close()]. *)
Definition stop_disk (io : StatsPersist.SaveIO) (now : time) (e : Engine) (fs : gmap string string) : gmap string string :=
  match collector e with
  | Some c => StatsPersist.default_last fs (StatsPersist.Close io now c fs)
  | None => fs
  end.

(** ** Histories of an engine *)

Inductive Op := OpStart (o : Outcomes) | OpStop.

Definition apply (e : Engine) (op : Op) : Engine :=
  match op with OpStart o => (Start o e).1 | OpStop => Stop e end.

Definition run (l : list Op) (e : Engine) : Engine := foldl apply e l.
End engine.
End Engine.
