(* ===== verification/EngineProps.v ===== *)
(** * core: what the engine guarantees

    Over every sequence of starts and stops: nothing is left behind, and a running
    engine has everything its configuration asks for. *)

From S2P Require Import Prelude GoStrings GoNet Router Stats StatsProps Json StatsView StatsPersist StatsPersistProps Dns DnsProps Spp SppProps Api ApiView Config Listener ListenerProps Engine.
Import Json Config Listener StatsPersistProps.StatsPersistProps Engine.

Module EngineProps.
Section engine.
Context `{UnicodeCase, Router.RouterEnv, Dns.DNSLib, GoSort, Stats.TimeFormat, Spp.SppLib, Json.JSONText, Json.TimeJSON, StatsPersist.GoAppend}.

(** A component that was let go holds nothing. *)
Definition quiet (g : Gone) : Prop :=
  match g with
  | GRouter r => ∃ r0, r = Router.Router.Close r0
  | GCollector _ s => StatsPersist.saver_runs s = false
  | GManager m => Spp.closed m = true ∧ Forall (λ rt, Spp.running rt = false) (Spp.runtimes m)
  | GDns s => DnsProps.holds s = (false, false, false, false) ∧ Dns.janitor s = false
  | GProxy p => pListening p = false ∧ Forall (λ k, open k = false) (sockets p)
  | GApi a => Api.listening a = false
  end.

(** An engine that has no component. *)
Definition idle (e : Engine) : Prop :=
  router e = None ∧ collector e = None ∧ sppManager e = None ∧ dnsServer e = None ∧ socks5Server e = None ∧
  httpServer e = None ∧ apiServer e = None ∧ running e = false ∧ StatsPersist.saver_runs (saver e) = false.

(** A proxy's server that has not been stopped, and has no socket but its listener. *)
Definition ready (p : ProxyServer) : Prop :=
  pClosed p = false ∧ ∀ i k, sockets p !! i = Some k → open k = true → listener p = Some i.

(** The components held can all be shut down. *)
Record sane (e : Engine) : Prop := {
  sa_mgr : ∀ m, sppManager e = Some m → Spp.closed m = false;
  sa_dns : ∀ s, dnsServer e = Some s → Dns.stopped s = false;
  sa_socks5 : ∀ p, socks5Server e = Some p → ready p;
  sa_http : ∀ p, httpServer e = Some p → ready p;
  sa_api : ∀ a, apiServer e = Some a → Api.closed a = false;
  sa_gone : Forall quiet (gone e);
  sa_saver : collector e = None → StatsPersist.saver_runs (saver e) = false;
}.

Lemma stop_saver_ends s : StatsPersist.saver_runs (StatsPersist.stop_saver s) = false.
Proof. unfold StatsPersist.saver_runs. apply andb_false_r. Qed.

Lemma close_quiet m : Spp.closed m = false → quiet (GManager (Spp.Close m)).
Proof.
  intros Hc. unfold Spp.Close. rewrite Hc. split; [done|]. cbn. apply Forall_fmap. apply Forall_forall. done.
Qed.

Lemma dns_stop_quiet s : Dns.stopped s = false → quiet (GDns (Dns.Stop s)).
Proof. intros Hs. unfold Dns.Stop. by rewrite Hs. Qed.

Lemma proxy_stop_quiet p : ready p → quiet (GProxy (proxy_stop p)).
Proof.
  intros [Hc Ho]. unfold proxy_stop, stop_mark. rewrite Hc. destruct (listener p) as [i|] eqn:El; (split; [done|]); cbn;
    apply Forall_lookup_2; intros j k Hj.
  - apply ListenerProps.alter_socket in Hj as (k0 & Hj & [[-> Hne]|[-> _]]); [|done].
    apply not_true_is_false. intros Hk. specialize (Ho j k0 Hj Hk). congruence.
  - apply not_true_is_false. intros Hk. by specialize (Ho j k Hj Hk).
Qed.

(** What a first start leaves: a server that can be stopped, or one that holds nothing. *)
Lemma proxy_start_new listen dflt failure bind :
  let '(p, err) := proxy_start bind (new_proxy listen dflt failure) in
  match err with Some _ => quiet (GProxy p) | None => ready p ∧ pListening p = true end.
Proof.
  unfold proxy_start. cbn. destruct bind; [by repeat constructor|]. split; [|done]. split; [done|].
  intros i k Hi _. cbn in Hi. apply list_lookup_singleton_Some in Hi as [-> _]. done.
Qed.

Lemma api_stop_quiet a : Api.closed a = false → quiet (GApi (Api.Stop a)).
Proof. intros Ha. unfold Api.Stop. by rewrite Ha. Qed.

Lemma sane_drop g e : quiet g → sane e → sane (drop g e).
Proof.
  intros Hg [S1 S2 S3 S4 S5 S6 S7]. split; [exact S1|exact S2|exact S3|exact S4|exact S5| |exact S7].
  apply (proj2 (Forall_app _ _ _)). split; [exact S6|]. apply (proj2 (Forall_singleton _ _)). exact Hg.
Qed.

(** Letting one component go. *)
Definition stops : list (Engine → Engine) :=
  [stop_api; stop_socks5; stop_http; stop_dns; stop_manager; stop_router; stop_collector].

(** The components as a vector of presences. *)
Definition has {A} (o : option A) : bool := match o with Some _ => true | None => false end.
Definition present (e : Engine) : list bool :=
  [has (apiServer e); has (socks5Server e); has (httpServer e); has (dnsServer e); has (sppManager e); has (router e);
   has (collector e); running e].

Lemma stop_sane f i e : stops !! i = Some f → sane e → sane (f e) ∧ present (f e) = <[i := false]> (present e).
Proof.
  intros Hf [S1 S2 S3 S4 S5 S6 S7]. destruct e as [cf r c m d s5 h a rn g sv]. cbn in S1, S2, S3, S4, S5, S6, S7.
  assert (∀ x, quiet x → Forall quiet (g ++ [x])) as Hg by (intros x Hx; apply Forall_app; split; [exact S6|by apply Forall_singleton]).
  destruct i as [|[|[|[|[|[|[|i]]]]]]]; [injection Hf as <-..|done].
  - destruct a as [a|]; (split; [split|..]); cbn; try assumption; try reflexivity; [by intros ?|apply Hg, api_stop_quiet, S5; done].
  - destruct s5 as [p|]; (split; [split|..]); cbn; try assumption; try reflexivity; [by intros ?|apply Hg, proxy_stop_quiet, S3; done].
  - destruct h as [p|]; (split; [split|..]); cbn; try assumption; try reflexivity; [by intros ?|apply Hg, proxy_stop_quiet, S4; done].
  - destruct d as [s|]; (split; [split|..]); cbn; try assumption; try reflexivity; [by intros ?|apply Hg, dns_stop_quiet, S2; done].
  - destruct m as [m|]; (split; [split|..]); cbn; try assumption; try reflexivity; [by intros ?|apply Hg, close_quiet, S1; done].
  - destruct r as [r|]; (split; [split|..]); cbn; try assumption; try reflexivity. apply Hg. by exists r.
  - destruct c as [c|]; (split; [split|..]); cbn; try assumption; try reflexivity; [apply Hg|intros _]; apply stop_saver_ends.
Qed.

Lemma cleanup_clean e : sane e → running e = false → idle (cleanupServices e) ∧ Forall quiet (gone (cleanupServices e)).
Proof.
  intros Hs Hr. unfold cleanupServices.
  destruct (stop_sane stop_api 0 e eq_refl Hs) as [S1 E1]. destruct (stop_sane stop_socks5 1 _ eq_refl S1) as [S2 E2].
  destruct (stop_sane stop_http 2 _ eq_refl S2) as [S3 E3]. destruct (stop_sane stop_dns 3 _ eq_refl S3) as [S4 E4].
  destruct (stop_sane stop_manager 4 _ eq_refl S4) as [S5 E5]. destruct (stop_sane stop_router 5 _ eq_refl S5) as [S6 E6].
  destruct (stop_sane stop_collector 6 _ eq_refl S6) as [S7 E7]. split; [|apply S7].
  rewrite E6, E5, E4, E3, E2, E1 in E7. pose proof (sa_saver _ S7) as Hsv. clear -E7 Hr Hsv.
  set (x := stop_collector _) in *. clearbody x. unfold present in E7. rewrite Hr in E7. cbn [insert list_insert] in E7.
  injection E7 as A1 A2 A3 A4 A5 A6 A7 A8. unfold idle.
  assert (∀ A (o : option A), has o = false → o = None) as Hn by by intros A [].
  split_and!; first [by apply Hn|exact A8|by apply Hsv, Hn].
Qed.

(** ** Starting *)

Lemma fail_clean msg e : sane e → running e = false → idle (fail msg e).1 ∧ Forall quiet (gone (fail msg e).1).
Proof. apply cleanup_clean. Qed.

(** A stage of [Start]: on an error the engine is empty; otherwise [P] holds of it. *)
Definition stage (cfg : EngineConfig) (P : Engine → Prop) (r : Engine * option string) : Prop :=
  ecfg r.1 = cfg ∧
  match r.2 with
  | Some _ => idle r.1 ∧ Forall quiet (gone r.1)
  | None => sane r.1 ∧ running r.1 = false ∧ P r.1
  end.

Lemma cleanup_ecfg e : ecfg (cleanupServices e) = ecfg e.
Proof.
  assert (∀ i f e, stops !! i = Some f → ecfg (f e) = ecfg e) as Hf.
  { intros i f e0 Hi. destruct i as [|[|[|[|[|[|[|i]]]]]]]; [injection Hi as <-..|done]; destruct e0 as [cf r c m d s5 h a rn g sv];
      [destruct a|destruct s5|destruct h|destruct d|destruct m|destruct r|destruct c]; reflexivity. }
  unfold cleanupServices.
  by rewrite (Hf 6%nat _ _ eq_refl), (Hf 5%nat _ _ eq_refl), (Hf 4%nat _ _ eq_refl), (Hf 3%nat _ _ eq_refl),
    (Hf 2%nat _ _ eq_refl), (Hf 1%nat _ _ eq_refl), (Hf 0%nat _ _ eq_refl).
Qed.

Lemma fail_stage cfg P msg e : sane e → running e = false → ecfg e = cfg → stage cfg P (fail msg e).
Proof. intros Hs Hr Hc. split; [cbn; by rewrite cleanup_ecfg|]. by apply cleanup_clean. Qed.

Lemma and_then_stage cfg P Q r k :
  stage cfg P r → (∀ e, ecfg e = cfg → sane e → running e = false → P e → stage cfg Q (k e)) → stage cfg Q (and_then r k).
Proof. destruct r as [e [msg|]]; intros [K1 K2] Hk; [by split|]. destruct K2 as (K2 & K3 & K4). by apply Hk. Qed.

(** What a running engine has. *)
Definition hosts_direct (e : Engine) : Prop :=
  ∃ r s, router e = Some r ∧ dnsServer e = Some s ∧ Dns.cRouter (Dns.conf s) = Some r ∧
  ∀ n, n ∈ start_nodes (ecfg e) → let h := sppHost (Spp.Server n) in
    ParseIP h = nilIP → Router.HostSet.norm h ≠ "" → Router.Router.ShouldDirectDomain r h = true.

(** DoH queries go through the nodes' local SOCKS5 listener. *)
Definition doh_tunnelled (s : Dns.Server) : Prop :=
  ∃ addr, addr ≠ "" ∧ ∀ SOCKS5 c, SOCKS5 addr = Some c → Dns.setupDoHClient SOCKS5 s = Dns.DialSocks5 addr c.

Definition dns_up (e : Engine) : Prop :=
  is_Some (collector e) ∧ StatsPersist.saver_runs (saver e) = negb (String.eqb (StatsFile (ecfg e)) "") ∧
  is_Some (sppManager e) ∧ hosts_direct e ∧
  ∃ s, doh_tunnelled s ∧ dnsServer e = Some s ∧ Dns.janitor s = true ∧
    DnsProps.holds s = (true, true, negb (String.eqb (DoHListen (ecfg e)) ""), negb (String.eqb (DoTListen (ecfg e)) "")).

Definition proxy_up (listen : string) (p : option ProxyServer) : Prop :=
  match p with Some p => listen ≠ "" ∧ pListening p = true | None => listen = "" end.

Definition socks5_up (e : Engine) : Prop := dns_up e ∧ proxy_up (Socks5Listen (ecfg e)) (socks5Server e).
Definition http_up (e : Engine) : Prop := socks5_up e ∧ proxy_up (HTTPListen (ecfg e)) (httpServer e).
Definition all_up (e : Engine) : Prop :=
  http_up e ∧ match apiServer e with Some a => APIListen (ecfg e) ≠ "" ∧ Api.listening a = true | None => APIListen (ecfg e) = "" end.

Lemma start_socks5_stage o cfg e :
  ecfg e = cfg → sane e → running e = false → dns_up e ∧ socks5Server e = None ∧ httpServer e = None ∧ apiServer e = None →
  stage cfg (λ e, socks5_up e ∧ httpServer e = None ∧ apiServer e = None) (start_socks5 o e).
Proof.
  intros Hc Hs Hr (Hd & Hn & N2 & N3). unfold start_socks5. destruct (String.eqb_spec (Socks5Listen (ecfg e)) "") as [E|E].
  - split; [done|]. split; [done|]. split; [done|]. split; [|by cbn]. split; [done|]. unfold proxy_up. cbn. by rewrite Hn.
  - pose proof (proxy_start_new (Socks5Listen (ecfg e)) _ _ (o_socks5 o) : let '(p, err) := proxy_start _ (NewSocks5Server _) in _) as Hp.
    destruct (proxy_start _ _) as [p [err|]].
    + apply fail_stage; [by apply sane_drop|done|done].
    + destruct e as [cf r c m d s5 h a rn g sv]. split; [exact Hc|]. destruct Hs as [S1 S2 S3 S4 S5 S6 S7].
      split; [split; cbn; try assumption; intros ? [= <-]; apply Hp|]. split; [exact Hr|]. split; [|by split]. split; [exact Hd|]. split; [done|apply Hp].
Qed.

Lemma start_http_stage o cfg e :
  ecfg e = cfg → sane e → running e = false → socks5_up e ∧ httpServer e = None ∧ apiServer e = None →
  stage cfg (λ e, http_up e ∧ apiServer e = None) (start_http o e).
Proof.
  intros Hc Hs Hr (Hd & Hn & N3). unfold start_http. destruct (String.eqb_spec (HTTPListen (ecfg e)) "") as [E|E].
  - split; [done|]. split; [done|]. split; [done|]. split; [|by cbn]. split; [done|]. unfold proxy_up. cbn. by rewrite Hn.
  - pose proof (proxy_start_new (HTTPListen (ecfg e)) _ _ (o_http o) : let '(p, err) := proxy_start _ (NewHTTPServer _) in _) as Hp.
    destruct (proxy_start _ _) as [p [err|]].
    + apply fail_stage; [by apply sane_drop|done|done].
    + destruct e as [cf r c m d s5 h a rn g sv]. split; [exact Hc|]. destruct Hs as [S1 S2 S3 S4 S5 S6 S7].
      split; [split; cbn; try assumption; intros ? [= <-]; apply Hp|]. split; [exact Hr|]. split; [|done]. split; [exact Hd|]. split; [done|apply Hp].
Qed.

Lemma api_new_fresh token c a : Api.New token c = Ok a → Api.listening a = false ∧ Api.closed a = false.
Proof. unfold Api.New. cbv zeta. repeat (case_match; try done). by intros [= <-]. Qed.

Lemma start_api_stage o cfg e :
  ecfg e = cfg → sane e → running e = false → http_up e ∧ apiServer e = None → stage cfg all_up (start_api o e).
Proof.
  intros Hc Hs Hr (Hd & Hn). unfold start_api. destruct (String.eqb_spec (APIListen (ecfg e)) "") as [E|E].
  - split; [done|]. split; [done|]. split; [done|]. split; [done|]. cbn. by rewrite Hn.
  - destruct (Api.New _ _) as [a|err] eqn:En; [|by apply fail_stage]. apply api_new_fresh in En as [Hl Hcl].
    unfold Api.Start. rewrite Hl. destruct (o_api o) as [err|].
    + apply fail_stage; [|done|done]. apply sane_drop; [|done]. by apply api_stop_quiet.
    + destruct e as [cf r c m d s5 h a0 rn g sv]. split; [exact Hc|]. destruct Hs as [S1 S2 S3 S4 S5 S6 S7].
      split; [split; cbn; try assumption; by intros p [= <-]|]. split; [exact Hr|]. split; [exact Hd|]. by split.
Qed.

(** ** The DNS stage *)

Lemma add_host_keeps r n d : d ∈ Router.HostSet.rule (Router.Router.directHosts r) →
  d ∈ Router.HostSet.rule (Router.Router.directHosts (add_host r n)).
Proof.
  intros Hd. unfold add_host. case_match; [|done]. cbn. unfold Router.HostSet.add. apply Router.HostSet.rule_addAll. by left.
Qed.

Lemma add_hosts_keep l r d : d ∈ Router.HostSet.rule (Router.Router.directHosts r) →
  d ∈ Router.HostSet.rule (Router.Router.directHosts (foldl add_host r l)).
Proof. revert r. induction l as [|m l IH]; intros r Hd; [done|]. cbn. by apply IH, add_host_keeps. Qed.

Lemma add_hosts_direct nodes r n :
  n ∈ nodes → ParseIP (sppHost (Spp.Server n)) = nilIP → Router.HostSet.norm (sppHost (Spp.Server n)) ≠ "" →
  Router.Router.ShouldDirectDomain (foldl add_host r nodes) (sppHost (Spp.Server n)) = true.
Proof.
  intros Hn Hip Hne. unfold Router.Router.ShouldDirectDomain. apply Router.HostSet.matchListed_listed.
  exists (Router.HostSet.norm (sppHost (Spp.Server n))). split; [done|]. split; [|by left].
  revert r. induction nodes as [|m l IH]; intros r; [by apply elem_of_nil in Hn|]. apply elem_of_cons in Hn as [<-|Hn]; cbn; [|by apply IH].
  apply add_hosts_keep. unfold add_host. rewrite Hip. destruct (String.eqb_spec (sppHost (Spp.Server n)) "") as [E|_].
  { by rewrite E, Router.Router.norm_empty in Hne. }
  cbn. unfold Router.HostSet.add. apply Router.HostSet.rule_addAll. right. split; [done|]. exists (sppHost (Spp.Server n)).
  split; [by left|done].
Qed.

Lemma newManager_fit net looks nodes addr iv m :
  Spp.newManager net looks nodes addr iv = Ok m → Spp.closed m = false ∧ Spp.mLocalSocks5 m ≠ "".
Proof.
  unfold Spp.newManager. destruct nodes as [|n l]; [done|]. cbv zeta. intros [= <-].
  match goal with |- context [Spp.probeAllNodes net looks ?x] => set (m0 := Spp.probeAllNodes net looks x) end.
  assert (Spp.closed m0 = false) as Hm0 by done.
  assert (Spp.mLocalSocks5 m0 ≠ "") as Hl0.
  { change (Spp.mLocalSocks5 m0) with (Spp.or_else addr "127.0.0.1:10808"). unfold Spp.or_else. by destruct (String.eqb_spec addr ""). }
  clearbody m0. destruct (Spp.getActiveTierCandidatesLocked m0) as [|c cs].
  - cbn. rewrite SppProps.ensure_closed. split; [done|]. by rewrite SppProps.ensure_local.
  - destruct (Spp.pickCandidateLocked _ _); (split; [exact (eq_trans (SppProps.ensure_all_closed _ _ _) Hm0)|]);
      cbn -[Spp.ensure_all]; by rewrite SppProps.ensure_all_local.
Qed.

Lemma Socks5Addr_named net m : Spp.mLocalSocks5 m ≠ "" → (Spp.Socks5Addr net m).2 ≠ "".
Proof.
  unfold Spp.Socks5Addr. rewrite <- (SppProps.PickNode_local net m). destruct (Spp.PickNode net m) as [m' [[addr name] rel]].
  cbn [fst snd]. destruct (String.eqb_spec addr ""); [|done]. by destruct rel.
Qed.

Lemma PickNode_closed net m : Spp.closed (Spp.PickNode net m).1 = Spp.closed m.
Proof.
  unfold Spp.PickNode. destruct (Spp.closed m) eqn:Ec; [done|].
  destruct (Spp.getActiveTierCandidatesLocked m) as [|c cs]; [done|]. cbv zeta.
  case_match; exact (eq_trans (SppProps.ensure_closed net _ m) Ec).
Qed.

Lemma Socks5Addr_closed net m : Spp.closed (Spp.Socks5Addr net m).1 = Spp.closed m.
Proof.
  unfold Spp.Socks5Addr. rewrite <- (PickNode_closed net m). destruct (Spp.PickNode net m) as [m' [[addr name] [i|]]]; done.
Qed.

Lemma NewServer_fresh c s :
  Dns.NewServer c = Ok s → DnsProps.holds s = (false, false, false, false) ∧ Dns.janitor s = false ∧ Dns.stopped s = false ∧
  Dns.DoHListenAddr (Dns.conf s) = Dns.DoHListenAddr c ∧ Dns.DoTListenAddr (Dns.conf s) = Dns.DoTListenAddr c ∧
  Dns.Socks5Addr (Dns.conf s) = Dns.Socks5Addr c.
Proof. unfold Dns.NewServer. cbv zeta. case_match; [done|]. by intros [= <-]. Qed.

Lemma dns_start_keeps b s s' : Dns.Start b s = (s', None) → Dns.conf s' = Dns.conf s ∧ Dns.stopped s' = Dns.stopped s.
Proof.
  unfold Dns.Start. destruct (Dns.b_udp b); [done|]. destruct (Dns.b_tcp b); [done|]. cbv zeta.
  destruct (String.eqb _ ""); [|destruct (Dns.b_doh b)]; try done;
    (destruct (String.eqb _ ""); [|destruct (Dns.b_cert b); [|destruct (Dns.b_dot b)]]); try done; by intros [= <-].
Qed.

Lemma start_dns_stage o cfg r c m e :
  ecfg e = cfg → Spp.closed m = false ∧ Spp.mLocalSocks5 m ≠ "" → sane e → running e = false → is_Some (collector e) →
  StatsPersist.saver_runs (saver e) = negb (String.eqb (StatsFile cfg) "") → socks5Server e = None → httpServer e = None → apiServer e = None →
  stage cfg (λ e, dns_up e ∧ socks5Server e = None ∧ httpServer e = None ∧ apiServer e = None)
    (start_dns o (start_nodes cfg) r c m e).
Proof.
  intros Hc [Hm Hln] Hs Hr Hcol Hsv N1 N2 N3. unfold start_dns. pose proof (Socks5Addr_closed (o_net o) m) as Hm'. rewrite Hm in Hm'.
  pose proof (Socks5Addr_named (o_net o) m Hln) as Haddr.
  destruct (Spp.Socks5Addr (o_net o) m) as [m' addr]. cbn [fst snd] in Hm', Haddr. cbv zeta.
  assert (∀ r, let e' := e <| sppManager := Some m' |> in sane e' ∧ sane (e' <| router := Some r |>)) as Hsane.
  { destruct Hs as [S1 S2 S3 S4 S5 S6 S7]. intros r1. split; split; try assumption; by intros m1 [= <-]. }
  set (e1 := e <| sppManager := Some m' |>) in *.
  assert (ecfg e1 = cfg ∧ running e1 = false ∧ is_Some (sppManager e1) ∧ is_Some (collector e1) ∧ socks5Server e1 = None ∧
    httpServer e1 = None ∧ apiServer e1 = None ∧ StatsPersist.saver_runs (saver e1) = negb (String.eqb (StatsFile cfg) ""))
    as (C1 & C2 & C3 & C4 & C5 & C6 & C7 & C8) by (split_and!; try assumption; by exists m').
  clearbody e1. clear Hs Hr Hcol Hsv N1 N2 N3 Hm'. destruct (Hsane r) as [Hs1 _].
  destruct (Dns.NewServer _) as [s|err] eqn:En; [|by apply fail_stage]. rewrite C1 in En.
  apply NewServer_fresh in En as (K1 & K2 & K3 & E1 & E2 & E3).
  set (r1 := foldl add_host r (start_nodes cfg)). set (s1 := s <| Dns.conf ::= λ cf, cf <| Dns.cRouter := Some r1 |> |>).
  destruct (Hsane r1) as [_ Hs2]. set (e2 := e1 <| router := Some r1 |>) in *.
  destruct (Dns.Start (o_dns o) s1) as [s2 [err|]] eqn:Es.
  - apply fail_stage; [|exact C2|exact C1]. apply sane_drop; [|exact Hs2].
    destruct (DnsProps.Start_spec (o_dns o) s1 s2 (Some err) K1 K2 K3 Es) as (_ & J1 & J2 & _). by split.
  - destruct (DnsProps.Start_spec (o_dns o) s1 s2 None K1 K2 K3 Es) as ((J1 & J2) & _).
    apply dns_start_keeps in Es as [Econf Estop]. split; [exact C1|]. split.
    { destruct Hs2 as [S1 S2 S3 S4 S5 S6 S7]. split; try assumption. intros s3 [= <-]. by rewrite Estop. }
    split; [exact C2|]. split; [|done]. split; [exact C4|].
    split; [etransitivity; [exact C8|by rewrite <- C1]|]. split; [exact C3|]. split.
    + exists r1, s2. split; [done|]. split; [done|]. split; [by rewrite Econf|]. intros n Hn. apply add_hosts_direct.
      change (n ∈ start_nodes (ecfg e1)) in Hn. by rewrite C1 in Hn.
    + exists s2. split; [|split; [done|split; [done|]]].
      { exists addr. split; [done|]. intros SOCKS5 c0 Ec. unfold Dns.setupDoHClient.
        replace (Dns.Socks5Addr (Dns.conf s2)) with addr by (rewrite Econf; symmetry; exact E3).
        destruct (String.eqb_spec addr ""); [done|]. cbn [negb]. by rewrite Ec. }
      rewrite J1.
      cbn [fst]. replace (ecfg (e2 <| dnsServer := Some s2 |>)) with cfg by (symmetry; exact C1).
      change (Dns.DoHListenAddr (Dns.conf s1)) with (Dns.DoHListenAddr (Dns.conf s)).
      change (Dns.DoTListenAddr (Dns.conf s1)) with (Dns.DoTListenAddr (Dns.conf s)). by rewrite E1, E2.
Qed.

(** ** Histories *)

Lemma idle_sane e : idle e → Forall quiet (gone e) → sane e.
Proof. intros (E1 & E2 & E3 & E4 & E5 & E6 & E7 & E8 & E9) Hg. split; try assumption; try done; intros ? E; congruence. Qed.

Definition outcome (cfg : EngineConfig) (r : Engine * option string) : Prop :=
  ecfg r.1 = cfg ∧
  match r.2 with
  | Some _ => idle r.1 ∧ Forall quiet (gone r.1)
  | None => sane r.1 ∧ running r.1 = true ∧ all_up r.1
  end.

Lemma Start_outcome o e : idle e → Forall quiet (gone e) → outcome (ecfg e) (Start o e).
Proof.
  intros Hi Hg. pose proof (idle_sane e Hi Hg) as Hs. unfold Start.
  destruct e as [cf r0 c0 m0 d s5 h a rn g sv]. destruct Hi as (E1 & E2 & E3 & E4 & E5 & E6 & E7 & E8 & E9). cbn in *.
  subst. cbn [ecfg].
  assert (∀ r c m x, (∀ m', m = Some m' → Spp.closed m' = false) → (c = None → StatsPersist.saver_runs x = false) →
    sane {| ecfg := cf; router := r; collector := c; sppManager := m; dnsServer := None; socks5Server := None;
            httpServer := None; apiServer := None; running := false; gone := g; saver := x |}) as Hsane.
  { intros r c m x Hm Hx. split; cbn; try assumption; by intros ?. }
  assert (∀ msg r c x, (c = None → StatsPersist.saver_runs x = false) →
    outcome cf (fail msg {| ecfg := cf; router := r; collector := c; sppManager := None; dnsServer := None; socks5Server := None;
                            httpServer := None; apiServer := None; running := false; gone := g; saver := x |})) as Hfail.
  { intros msg r c x Hx. destruct (fail_stage cf (λ _, True) msg _ (Hsane r c None x ltac:(by intros ?) Hx) eq_refl eq_refl). by split. }
  destruct (start_nodes cf) as [|n l] eqn:En; [by apply Hfail|]. rewrite <- En. cbv zeta.
  destruct (Spp.NewManager _ _ _ _) as [m|err] eqn:Em; [|by apply Hfail]. apply newManager_fit in Em.
  match goal with |- outcome _ (and_then (start_services ?o ?nodes ?r ?c ?m ?e) _) => set (e1 := e); set (c1 := c); set (r1 := r) end.
  assert (stage cf all_up (start_services o (start_nodes cf) r1 c1 m e1)) as Hst.
  { unfold start_services. eapply and_then_stage.
    - apply start_dns_stage; [done|exact Em|apply Hsane; [intros m' [= <-]; apply Em|done]|done|by exists c1| |done..].
      unfold StatsPersist.saver_runs, StatsPersist.new_saver. cbn. by destruct (String.eqb (StatsFile cf) "").
    - intros e2 C2 S2 R2 P2. eapply and_then_stage; [by apply start_socks5_stage|].
      intros e3 C3 S3 R3 P3. eapply and_then_stage; [by apply start_http_stage|].
      intros e4 C4 S4 R4 P4. by apply start_api_stage. }
  destruct (start_services _ _ _ _ _ _) as [e2 [err|]]; destruct Hst as [Hc Hst]; [by split|].
  cbn [and_then]. split; [exact Hc|]. destruct Hst as ([S1 S2 S3 S4 S5 S6 S7] & _ & Hu). split; [by split|]. split; [done|exact Hu].
Qed.

Lemma Stop_outcome e : sane e → running e = true → idle (Stop e) ∧ Forall quiet (gone (Stop e)) ∧ ecfg (Stop e) = ecfg e.
Proof.
  intros [S1 S2 S3 S4 S5 S6 S7] Hr. unfold Stop. rewrite Hr. rewrite cleanup_ecfg.
  destruct (cleanup_clean (e <| running := false |>)) as [K1 K2]; [by split|done|]. by split_and!.
Qed.

(** C13: the engine leaks nothing.  After any sequence of starts, whatever the network
    and the ports do during each, and stops: every component that was let go holds
    nothing (no listener, no running client, no reaper, no saver); an engine that is not
    running has no component at all; and one that is running has the router, the collector
    with its saver when there is a statistics file, the node manager and every listener its
    configuration asks for, connects the nodes' own names directly, and sends DNS over
    HTTPS through the nodes. *)
Theorem engine_lifecycle cfg ops :
  let e := Engine.run ops (NewEngine cfg) in
  Forall quiet (gone e) ∧ (if running e then all_up e else idle e).
Proof.
  assert (∀ e, ecfg e = ecfg (NewEngine cfg) → (if running e then sane e ∧ all_up e else idle e ∧ Forall quiet (gone e)) →
    let e' := Engine.run ops e in
    ecfg e' = ecfg (NewEngine cfg) ∧ (if running e' then sane e' ∧ all_up e' else idle e' ∧ Forall quiet (gone e'))) as Hrun.
  { induction ops as [|op ops IH]; intros e Hc He; [done|]. cbn [Engine.run foldl]. apply IH; clear IH.
    - destruct op as [o|]; cbn [apply].
      + unfold Start at 1. destruct (running e) eqn:Er; [done|]. destruct He as [Hi Hg].
        destruct (Start_outcome o e Hi Hg) as [E _]. unfold Start in E. rewrite Er in E. by rewrite E.
      + destruct (running e) eqn:Er; [|unfold Stop; by rewrite Er]. destruct He as [Hs _]. by rewrite (proj2 (proj2 (Stop_outcome e Hs Er))).
    - destruct op as [o|]; cbn [apply].
      + destruct (running e) eqn:Er; [unfold Start; rewrite Er; cbn; by rewrite Er|]. destruct He as [Hi Hg].
        destruct (Start_outcome o e Hi Hg) as [_ K]. destruct (Start o e) as [e' [err|]]; cbn in *.
        * assert (running e' = false) as -> by apply K. done.
        * destruct K as (K1 & -> & K3). done.
      + destruct (running e) eqn:Er; [|unfold Stop; by rewrite Er, Er]. destruct He as [Hs _].
        destruct (Stop_outcome e Hs Er) as (K1 & K2 & _). assert (running (Stop e) = false) as -> by apply K1. done. }
  intros e. destruct (Hrun (NewEngine cfg) eq_refl) as [_ K]; [split; [by repeat split|apply Forall_nil_2]|].
  fold e in K. destruct (running e); destruct K as [K1 K2]; [|done]. split; [apply K1|done].
Qed.
(** ** The statistics across restarts *)

(** A stage that leaves the collector alone unless it fails. *)
Definition keeps_collector (e : Engine) (r : Engine * option string) : Prop :=
  r.2 = None → collector r.1 = collector e.

Lemma and_then_collector e r k :
  keeps_collector e r → (∀ e', keeps_collector e' (k e')) → keeps_collector e (and_then r k).
Proof. destruct r as [e' [err|]]; intros Hr Hk; [done|]. intros Hn. cbn in *. rewrite (Hk e' Hn). by apply Hr. Qed.

Lemma start_dns_collector o nodes r c m e : keeps_collector e (start_dns o nodes r c m e).
Proof.
  unfold start_dns. destruct (Spp.Socks5Addr _ _) as [m' addr]. cbv zeta. destruct (Dns.NewServer _); [|done].
  by destruct (Dns.Start _ _) as [s [err|]].
Qed.

Lemma start_socks5_collector o e : keeps_collector e (start_socks5 o e).
Proof. unfold start_socks5. case_match; [done|]. by destruct (proxy_start _ _) as [p [err|]]. Qed.

Lemma start_http_collector o e : keeps_collector e (start_http o e).
Proof. unfold start_http. case_match; [done|]. by destruct (proxy_start _ _) as [p [err|]]. Qed.

Lemma start_api_collector o e : keeps_collector e (start_api o e).
Proof.
  unfold start_api. case_match; [done|]. destruct (Api.New _ _); [|done]. by destruct (Api.Start _ _) as [? [err|]].
Qed.

(** The collector of an engine that has started. *)
Lemma Start_collector o e e' : running e = false → Start o e = (e', None) →
  collector e' = Some (StatsPersist.NewCollector (o_now o) (o_load o) (stats_config (ecfg e)) (o_read o) (o_disk o)).
Proof.
  intros Hr. unfold Start. rewrite Hr. cbv zeta. cbn [ecfg set_with eta]. destruct (start_nodes _) as [|n l] eqn:En; [done|]. rewrite <- En.
  destruct (Spp.NewManager _ _ _ _) as [m|err]; [|done].
  match goal with |- and_then (start_services ?o ?nodes ?r ?c ?m ?e) _ = _ → _ => set (e1 := e); set (c1 := c); set (r1 := r) end.
  assert (keeps_collector e1 (start_services o (start_nodes (ecfg e)) r1 c1 m e1)) as Hk.
  { unfold start_services. apply and_then_collector; [apply start_dns_collector|]. intros e2.
    apply and_then_collector; [apply start_socks5_collector|]. intros e3.
    apply and_then_collector; [apply start_http_collector|]. intros e4. apply start_api_collector. }
  destruct (start_services _ _ _ _ _ _) as [e2 [err|]]; [done|]. intros [= <-]. exact (Hk eq_refl).
Qed.
(** C14: the engine keeps its statistics.  An engine runs over a disk with no statistics or
    with saved ones, its services make any calls on its collector, and it is stopped; the
    end of the collector saves the snapshot.  When it then starts again with the same
    configuration, whatever its network and ports do, the collector it runs with has
    every counter, table, log and peak of the one it stopped with, and its history as far
    as it is not too old. *)
Theorem engine_restart cfg o1 e1 log io tsave fs o2 e2 :
  Start o1 (NewEngine cfg) = (e1, None) → disk_settled (stats_config cfg) (o_disk o1) →
  let e := e1 <| collector ::= fmap (StatsProps.run log) |> in
  o_read o2 = None → o_disk o2 = stop_disk io tsave e fs → Start o2 (Stop e) = (e2, None) →
  ∃ c c2, collector e = Some c ∧ collector e2 = Some c2 ∧
    (json_ok (@enc _ StatsPersist.snapshot_codec (StatsPersist.take_snapshot tsave c)) = true →
     (StatsPersist.Save io tsave c fs).1 = Ok tt → restored (o_load o2) c c2).
Proof.
  intros Hst1 Hd e Hr2 Hd2 Hst2.
  destruct (Start_outcome o1 (NewEngine cfg)) as [Ecfg Ho]; [by repeat split|apply Forall_nil_2|].
  pose proof (Start_collector o1 (NewEngine cfg) e1 eq_refl Hst1) as Hc. rewrite Hst1 in Ecfg, Ho. destruct Ho as (Hs & Hrun & _).
  cbn [fst] in Ecfg, Hs, Hrun.
  change (stats_config (ecfg (NewEngine cfg))) with (stats_config cfg) in Hc.
  set (c1 := StatsPersist.NewCollector _ _ _ _ _) in Hc. assert (fit (stats_config cfg) c1) as Hf1 by by apply NewCollector_fit.
  assert (collector e = Some (StatsProps.run log c1)) as Hce by (unfold e; cbn; by rewrite Hc).
  assert (sane e ∧ running e = true ∧ ecfg e = ecfg (NewEngine cfg)) as (Hse & Hre & Hee).
  { split; [|split; [exact Hrun|exact Ecfg]]. destruct Hs. split; try done. by rewrite Hce. }
  clearbody e. destruct (Stop_outcome e Hse Hre) as (Hi & _ & Es). assert (running (Stop e) = false) as Hrs by apply Hi.
  exists (StatsProps.run log c1). eexists. split; [done|]. split; [by apply (Start_collector o2 (Stop e))|].
  rewrite Es, Hee, Hr2, Hd2. change (stats_config (ecfg (NewEngine cfg))) with (stats_config cfg).
  intros Hok Hsave. unfold stop_disk. rewrite Hce. assert (fit (stats_config cfg) (StatsProps.run log c1)) as Hf by by apply run_fit.
  destruct (Save_ok_file io tsave _ fs Hsave) as (data & Hm & Hp & Hfile). rewrite (File_cfg _ _ Hf) in Hp, Hfile.
  eapply restart_from. split; [done|]. split; [done|]. exists tsave, data. split; [done|]. split; [done|].
  unfold StatsPersist.Close. rewrite (File_cfg _ _ Hf). by destruct (String.eqb_spec (Stats.File (stats_config cfg)) "").
Qed.
End engine.

(** ** Witness *)

#[local] Instance engine_case : UnicodeCase := ascii_case.
#[local] Instance engine_router : Router.RouterEnv := RouterProps.demo_env.
#[local] Instance engine_dns : Dns.DNSLib := DnsProps.demo_lib.
#[local] Instance engine_sort : GoSort := merge_GoSort.
#[local] Instance engine_format : Stats.TimeFormat := λ _, String.EmptyString.
#[local] Instance engine_spp : Spp.SppLib := SppProps.demo_lib.
#[local] Existing Instances bits_JSON digits_time double_append.

Definition demo_cfg : EngineConfig := MergeWithEngineConfig
  (emptyFile <| fSPPServer := "spp.example:8888" |> <| fSocks5Listen := "127.0.0.1:1080" |> <| fStatsFile := "s.json" |>)
  {| SPPServer := ""; SPPProto := ""; SPPKey := "k"; SPPEncrypt := ""; SPPCompress := 0; SPPRdnsDomain := "";
     SPPRdnsUpstream := ""; SPPRdnsPsk := ""; SPPRdnsQueryType := ""; SPPNodes := []; LocalSocks5 := ""; DNSListen := "";
     DoHListen := ""; DoTListen := ""; TLSCertFile := ""; TLSKeyFile := ""; DirectDNS := ""; RemoteDoH := "";
     Socks5Listen := ""; HTTPListen := ""; ProxyUsername := ""; ProxyPassword := ""; EnableIPv6 := false;
     DirectDomains := []; DirectCIDRs := []; GeoIPFile := ""; ChinaDomainsFile := ""; GFWDomainsFile := ""; SkipCountry := "";
     APIListen := ""; APIToken := ""; APIReadonlyToken := ""; APIAllowedCIDRs := []; APIClientCIDRs := [];
     APITrustedProxies := []; APIOrigins := []; APIDashboard := false; APIPProf := false; StatsFile := ""; StatsHistoryHours := 0 |}.

(** A machine on which everything works, with a given disk. *)
Definition demo_outcomes (now : time) (d : gmap string string) : Outcomes := {|
  o_now := now; o_load := now; o_read := None; o_disk := d; o_net := SppProps.demo_net;
  o_looks _ := ({| Spp.l_now := now; Spp.l_client := false |}, {| Spp.l_now := now; Spp.l_client := false |});
  o_dns := {| Dns.b_udp := None; Dns.b_tcp := None; Dns.b_doh := None; Dns.b_cert := None; Dns.b_dot := None |};
  o_socks5 := None; o_http := None; o_rand := Some "0123456789abcdef"; o_api := None |}.

Definition demo_first : Engine := (Start (demo_outcomes (90 * second) ∅) (NewEngine demo_cfg)).1.
Definition demo_stopped : Engine := demo_first <| collector ::= fmap (StatsProps.run StatsProps.demo_log) |>.
Definition demo_saved : gmap string string := stop_disk good_io (210 * second) demo_stopped ∅.

Lemma demo_started o e : (Start o e).2 = None → Start o e = ((Start o e).1, None).
Proof. by destruct (Start o e) as [e' [err|]]. Qed.

Lemma engine_restart_witness :
  ∃ c c2, collector demo_stopped = Some c ∧
    collector (Start (demo_outcomes (300 * second) demo_saved) (Stop demo_stopped)).1 = Some c2 ∧
    Stats.cUpload (Stats.totals c) = 510 ∧ Stats.totals c2 = Stats.totals c.
Proof.
  destruct (engine_restart demo_cfg (demo_outcomes (90 * second) ∅) demo_first StatsProps.demo_log good_io (210 * second) ∅
    (demo_outcomes (300 * second) demo_saved) (Start (demo_outcomes (300 * second) demo_saved) (Stop demo_stopped)).1)
    as (c & c2 & Hc & Hc2 & Hk); [apply demo_started; vm_compute; reflexivity|by left|reflexivity|reflexivity|
      apply demo_started; vm_compute; reflexivity|].
  exists c, c2. split; [exact Hc|]. split; [exact Hc2|].
  assert (Stats.cUpload (Stats.totals c) = 510 ∧
    json_ok (@enc _ StatsPersist.snapshot_codec (StatsPersist.take_snapshot (210 * second) c)) = true ∧
    (StatsPersist.Save good_io (210 * second) c ∅).1 = Ok tt) as (K1 & K2 & K3).
  { assert (∃ c0, collector demo_stopped = Some c0 ∧ Stats.cUpload (Stats.totals c0) = 510 ∧
      json_ok (@enc _ StatsPersist.snapshot_codec (StatsPersist.take_snapshot (210 * second) c0)) = true ∧
      (StatsPersist.Save good_io (210 * second) c0 ∅).1 = Ok tt) as (c0 & Ec & Hx) by (eexists; split; [vm_compute; reflexivity|vm_compute; auto]).
    change (collector demo_stopped = Some c) in Hc. rewrite Ec in Hc. by injection Hc as <-. }
  split; [exact K1|]. exact (rs_totals _ _ _ (Hk K2 K3)).
Defined.
End EngineProps.
