(* ===== verification/Cli.v ===== *)
(** * cmd/yellowsocks-cli: the program (main.go), with its version (version.go)

    [run] goes from the arguments to the exit code: flags, version, configuration file,
    logging, the working directory, the engine until a signal stops it.  The log library
    is the parameter [LogLib].  What is written to the standard output is a list of
    lines.  A nil node makes the first probe dereference it on a goroutine of its own,
    which ends the process. *)

From S2P Require Import Prelude GoStrings GoNet Router Stats StatsPersist Json Dns Spp Api ApiView Config ConfigFile Launch Flag Listener Engine.
Import Config ConfigFile Launch Flag.

Module Cli.

(** ** Version *)

(** The variables set at link time, and the toolchain's constants. *)
Record Build := { Version : string; GitCommit : string; BuildTime : string; GoVersion : string; GOOS : string; GOARCH : string }.

Definition version_String (b : Build) : string :=
  "YellowSocks " +:+ Version b +:+ " (commit: " +:+ GitCommit b +:+ ", built at: " +:+ BuildTime b +:+ ", " +:+
  GOOS b +:+ "/" +:+ GOARCH b +:+ ", " +:+ GoVersion b +:+ ")".

(** [GetInfo], as the document [JSON] marshals. *)
Definition GetInfo (b : Build) : Json.Json := Json.JObj [
  ("version", Json.JStr (Version b)); ("git_commit", Json.JStr (GitCommit b)); ("build_time", Json.JStr (BuildTime b));
  ("go_version", Json.JStr (GoVersion b)); ("os", Json.JStr (GOOS b)); ("arch", Json.JStr (GOARCH b))].

Definition version_JSON `{Json.JSONText} (b : Build) : string := Json.json_print (GetInfo b).

(** ** Flags *)

Definition flags : list (string * Value) := [
  ("config", VString ""); ("spp-server", VString ""); ("spp-proto", VString "tcp"); ("spp-key", VString "123456");
  ("spp-rdnsdomain", VString ""); ("spp-rdnsupstream", VString ""); ("spp-rdnspsk", VString "");
  ("spp-rdnsquerytype", VString ""); ("socks5", VString "127.0.0.1:1080"); ("http", VString "127.0.0.1:8080");
  ("dns", VString "127.0.0.1:53"); ("doh", VString "127.0.0.1:8053"); ("dot", VString ""); ("tls-cert", VString "");
  ("tls-key", VString ""); ("china-domains", VString ""); ("gfw-domains", VString ""); ("geoip", VString "");
  ("skip-country", VString "CN"); ("api", VString ""); ("api-token", VString ""); ("stats-file", VString "");
  ("api-pprof", VBool false); ("loglevel", VString "info"); ("v", VBool false); ("version", VBool false)
].

Definition declared : gmap string Value := list_to_map flags.

Definition str_of (vals : gmap string Value) (name : string) : string :=
  match vals !! name with Some (VString s) => s | _ => "" end.
Definition bool_of (vals : gmap string Value) (name : string) : bool :=
  match vals !! name with Some (VBool b) => b | _ => false end.

(** The baseline the configuration file overlays. *)
Definition cli_config (vals : gmap string Value) : EngineConfig :=
  let s := str_of vals in {|
  SPPServer := s "spp-server"; SPPProto := s "spp-proto"; SPPKey := s "spp-key"; SPPEncrypt := "default";
  SPPCompress := 128; SPPRdnsDomain := s "spp-rdnsdomain"; SPPRdnsUpstream := s "spp-rdnsupstream";
  SPPRdnsPsk := s "spp-rdnspsk"; SPPRdnsQueryType := s "spp-rdnsquerytype"; SPPNodes := []; LocalSocks5 := "";
  DNSListen := s "dns"; DoHListen := s "doh"; DoTListen := s "dot"; TLSCertFile := s "tls-cert"; TLSKeyFile := s "tls-key";
  DirectDNS := "1.1.1.1:53"; RemoteDoH := "https://1.1.1.1/dns-query"; Socks5Listen := s "socks5"; HTTPListen := s "http";
  ProxyUsername := ""; ProxyPassword := ""; EnableIPv6 := false; DirectDomains := []; DirectCIDRs := [];
  GeoIPFile := s "geoip"; ChinaDomainsFile := s "china-domains"; GFWDomainsFile := s "gfw-domains";
  SkipCountry := s "skip-country"; APIListen := s "api"; APIToken := s "api-token"; APIReadonlyToken := "";
  APIAllowedCIDRs := []; APIClientCIDRs := []; APITrustedProxies := []; APIOrigins := []; APIDashboard := true;
  APIPProf := bool_of vals "api-pprof"; StatsFile := s "stats-file"; StatsHistoryHours := 0 |}.

(** The history is kept in a file once the API shows it. *)
Definition stats_default (cfg : EngineConfig) : EngineConfig :=
  if negb (String.eqb (APIListen cfg) "") && String.eqb (StatsFile cfg) "" then cfg <| StatsFile := "stats.json" |> else cfg.

(** ** The program *)

(** github.com/esrrhs/gohome/loggo: level names; a negative level is an unknown name. *)
Class LogLib := { LEVEL_INFO : Z; NameToLevel : string → Z }.

Definition log_level `{LogLib} (fromFile fromFlag : string) : Z :=
  if negb (String.eqb fromFile "") && (0 <=? NameToLevel fromFile) then NameToLevel fromFile
  else if 0 <=? NameToLevel fromFlag then NameToLevel fromFlag
  else LEVEL_INFO.

Inductive Line := FlagLine (e : Flag.Error) | VersionLine (s : string) | LoadLine (e : ConfigError) | UsageLine.

Inductive Exit := Exited (code : Z) | Crashed.

Section cli.
Context `{UnicodeCase, Router.RouterEnv, Dns.DNSLib, GoSort, Stats.TimeFormat, Spp.SppLib, Json.JSONText, Json.TimeJSON, StatsPersist.GoAppend, LogLib, YamlLib}.

(** What the program meets. *)
Record World := {
  w_build : Build; w_read : string → result string string; w_host : Host; w_proc : Proc; w_engine : Engine.Outcomes;
}.

(** What it did: [logging] are the level and whether log files are off, [serving] the
    engine while the program waits for the signal, [final] the engine at the end. *)
Record Ran := {
  exit : Exit; stdout : list Line; logging : option (Z * bool); proc : Proc;
  serving : option Engine.Engine; final : option Engine.Engine;
}.

Definition ended (w : World) (code : Z) (out : list Line) : Ran :=
  {| exit := Exited code; stdout := out; logging := None; proc := w_proc w; serving := None; final := None |}.

(** From the moment the configuration is known. *)
Definition run_engine (w : World) (logs : Z * bool) (p : Proc) (cfg : EngineConfig) : Ran :=
  if String.eqb (SPPServer cfg) "" && (length (SPPNodes cfg) =? 0)%nat then
    {| exit := Exited 0; stdout := [UsageLine]; logging := Some logs; proc := p; serving := None; final := None |}
  else
    match Engine.Start (w_engine w) (Engine.NewEngine cfg) with
    | (e, Some _) => {| exit := Exited 1; stdout := []; logging := Some logs; proc := p; serving := None; final := Some e |}
    | (e, None) => {| exit := Exited 0; stdout := []; logging := Some logs; proc := p; serving := Some e; final := Some (Engine.Stop e) |}
    end.

(** Logging, the working directory and the configuration. *)
Definition run_config (w : World) (vals : gmap string Value) (fileCfg : option Decoded) : Ran :=
  let level := log_level (match fileCfg with Some d => fLogLevel (file d) | None => "" end) (str_of vals "loglevel") in
  let '(p, ok) := EnsureWritableWorkDir (w_host w) (w_proc w) in
  let logs := (level, negb ok) in
  let base := cli_config vals in
  match fileCfg with
  | None => run_engine w logs p (stats_default base)
  | Some d =>
      match whole d with
      | Some f => run_engine w logs p (stats_default (MergeWithEngineConfig f base))
      | None => {| exit := Crashed; stdout := []; logging := Some logs; proc := p; serving := None; final := None |}
      end
  end.

Definition run (w : World) (args : list string) : Ran :=
  let '(fs, err) := Parse declared args in
  match err with
  | Some e => ended w 2 [FlagLine e]
  | None =>
      let vals := values fs in
      if bool_of vals "v" || bool_of vals "version" then ended w 0 [VersionLine (version_String (w_build w))]
      else if negb (String.eqb (str_of vals "config") "") then
        match LoadConfigFile (w_read w) (str_of vals "config") with
        | Err e => ended w 1 [LoadLine e]
        | Ok d => run_config w vals (Some d)
        end
      else run_config w vals None
  end.
End cli.
End Cli.
