(* ===== verification/CliProps.v ===== *)
(** * cmd/yellowsocks-cli: what the program guarantees

    How settings travel from the command line and the file to the engine, and how the
    program ends. *)

From S2P Require Import Prelude GoStrings GoNet Router Stats StatsPersist StatsPersistProps Json Dns DnsProps Spp SppProps Api ApiView Config ConfigFile Launch Flag Listener Engine EngineProps Cli.
Import Json Config ConfigFile Launch Flag Cli.

Module CliProps.

(** ** Decoding the file's fields *)

Lemma mk_stores {R A} n (d : Decoder A) (g : R → A) s j r : (minto (mk n d g s) j r).1 = s (d j (g r)).1 r.
Proof. cbn. by destruct (d j (g r)). Qed.

(** The version document reads back as it is, when the build's texts are UTF-8. *)
Lemma version_JSON_reads `{JSONText} b :
  forallb utf8_valid [Version b; GitCommit b; BuildTime b; GoVersion b; GOOS b; GOARCH b] = true →
  json_parse (version_JSON b) = Ok (GetInfo b).
Proof.
  intros Hb. apply json_parse_print. cbn [forallb] in Hb. unfold GetInfo. cbn [json_ok forallb fst snd].
  repeat (apply andb_true_iff in Hb as [-> Hb]). reflexivity.
Qed.

Section decode.
Context `{UnicodeCase}.

(** What a document says of the field [k]: the values of the members that select it. *)
Definition says (k : string) (kv : string * Json) : option Json :=
  match select file_members kv.1 with
  | Some m => if String.eqb (mname m) k then Some kv.2 else None
  | None => None
  end.

Definition members_of (k : string) (doc : list (string * Json)) : list Json := omap (says k) doc.

(** A field read from its own members alone, in order. *)
Definition field_of {A} (d : Decoder A) (zero : A) (k : string) (doc : list (string * Json)) : A :=
  foldl (λ v j, (d j v).1) zero (members_of k doc).

(** A text: the last member that is one. *)
Definition text_of (k : string) (doc : list (string * Json)) : string :=
  default "" (last (omap (λ j, match j with JStr s => Some s | _ => None end) (members_of k doc))).

Definition texts_of : string → list (string * Json) → list string := field_of (into_list "" into_string) [].
Definition flag_of : string → list (string * Json) → option bool := field_of (into_ptr false into_bool) None.

Lemma field_text k doc : field_of into_string "" k doc = text_of k doc.
Proof.
  unfold field_of, text_of. induction (members_of k doc) as [|j l IH] using rev_ind; [done|].
  rewrite foldl_snoc, IH, omap_app. destruct j; csimpl; rewrite ?app_nil_r, ?last_snoc; done.
Qed.

(** The members of the file's structure store the field [g] by [d], the one named [k] only. *)
Definition stores {A} (k : string) (d : Decoder A) (g : Decoded → A) : Prop :=
  Forall (λ m, ∀ j r, g (minto m j r).1 = if String.eqb (mname m) k then (d j (g r)).1 else g r) file_members.

Lemma select_in {R} (ms : list (member R)) k m : select ms k = Some m → m ∈ ms.
Proof.
  unfold select. destruct (find _ ms) as [m'|] eqn:E; [intros [= <-]|intros E']; apply list_elem_of_In;
    by eapply find_some.
Qed.

Lemma stored {A} k (d : Decoder A) g doc acc : stores k d g →
  g (foldl (store file_members) acc doc).1 = foldl (λ v j, (d j v).1) (g acc.1) (members_of k doc).
Proof.
  intros Hall. unfold members_of. induction doc as [|kv doc IH] using rev_ind; [done|]. rewrite foldl_snoc, omap_app, foldl_app, <- IH.
  unfold store at 1. csimpl. unfold says. destruct (select file_members kv.1) as [m|] eqn:Em; [|done].
  pose proof (proj1 (Forall_forall _ _) Hall m (select_in file_members kv.1 m Em) kv.2 (foldl (store file_members) acc doc).1) as Hm.
  destruct (minto m kv.2 _) as [r e]. cbn [fst] in *. rewrite Hm. by destruct (String.eqb (mname m) k).
Qed.

(** The file a document describes, field by field. *)
Definition file_of (doc : list (string * Json)) : FileConfig :=
  let t k := text_of k doc in let l k := texts_of k doc in let b k := flag_of k doc in {|
  fSPPServer := t "spp_server"; fSPPProto := t "spp_proto"; fSPPKey := t "spp_key"; fSPPEncrypt := t "spp_encrypt";
  fSPPCompress := field_of (into_ptr 0 into_int) None "spp_compress" doc;
  fSPPRdnsDomain := t "spp_rdnsdomain"; fRdnsDomain := t "rdnsdomain"; fSPPRdnsUpstream := t "spp_rdnsupstream";
  fRdnsUpstream := t "rdnsupstream"; fSPPRdnsPsk := t "spp_rdnspsk"; fRdnsPsk := t "rdnspsk";
  fSPPRdnsQueryType := t "spp_rdnsquerytype"; fRdnsQueryType := t "rdnsquerytype";
  fSPPNodes := omap id (field_of (into_list None (into_ptr zero_node (into_struct node_members))) [] "nodes" doc);
  fDNSListen := t "dns_listen"; fDoHListen := t "doh_listen"; fDoTListen := t "dot_listen"; fTLSCertFile := t "tls_cert";
  fTLSKeyFile := t "tls_key"; fDirectDNS := t "direct_dns"; fRemoteDoH := t "doh_url"; fSocks5Listen := t "socks5_listen";
  fHTTPListen := t "http_listen"; fProxyUsername := t "proxy_username"; fProxyPassword := t "proxy_password";
  fIPv6 := b "ipv6"; fDirectDomains := l "direct_domains"; fDirectCIDRs := l "direct_cidrs"; fGeoIPFile := t "geoip_file";
  fChinaDomainsFile := t "china_domains"; fGFWDomainsFile := t "gfw_domains"; fSkipCountry := t "skip_country";
  fAPIListen := t "api_listen"; fAPIToken := t "api_token"; fAPIReadonlyToken := t "api_readonly_token";
  fAPIOrigins := l "api_origins"; fAPIAllowedCIDRs := l "api_allowed_cidrs"; fAPIClientCIDRs := l "api_client_cidrs";
  fAPITrustedProxies := l "api_trusted_proxies"; fAPIDashboard := b "api_dashboard"; fAPIPProf := b "api_pprof";
  fStatsFile := t "stats_file"; fStatsHistoryHours := field_of into_int 0 "stats_history_hours" doc; fLogLevel := t "loglevel" |}.

Lemma mapM_omap {A} (l : list (option A)) l' : mapM id l = Some l' → omap id l = l'.
Proof.
  intros Hl. apply mapM_Some in Hl. induction Hl as [|x y l l' Hx _ IH]; [done|]. csimpl. cbn in Hx. subst x. cbn. by rewrite IH.
Qed.

End decode.

Ltac touch_members :=
  repeat (apply Forall_cons_2;
    [intros j r; cbv beta; first [etrans; [apply f_equal, f_equal, mk_stores|reflexivity]|etrans; [apply f_equal, mk_stores|reflexivity]]|]);
  apply Forall_nil_2.

Ltac read_by k d g doc :=
  let E := fresh "E" in
  pose proof (stored k d g doc (zero_file, false)) as E; cbv beta in E; etrans; [apply E; clear E; touch_members|clear E].

Ltac read_field :=
  lazymatch goal with
  | |- ?g (file (foldl _ _ ?doc).1) = text_of ?k ?doc => read_by k into_string (λ x, g (file x)) doc; exact (field_text k doc)
  | |- ?g (file (foldl _ _ ?doc).1) = texts_of ?k ?doc => read_by k (into_list "" into_string) (λ x, g (file x)) doc; reflexivity
  | |- ?g (file (foldl _ _ ?doc).1) = flag_of ?k ?doc => read_by k (into_ptr false into_bool) (λ x, g (file x)) doc; reflexivity
  | |- ?g (file (foldl _ _ ?doc).1) = field_of ?d ?z ?k ?doc => read_by k d (λ x, g (file x)) doc; reflexivity
  | |- omap id (nodes (foldl _ _ ?doc).1) = omap id (field_of ?d ?z ?k ?doc) =>
      apply (f_equal (omap id)); read_by k d nodes doc; reflexivity
  end.

Section decoded.
Context `{UnicodeCase}.

Lemma decoded_file doc f : whole (foldl (store file_members) (zero_file, false) doc).1 = Some f → f = file_of doc.
Proof.
  unfold whole. destruct (mapM id _) as [l|] eqn:El; [|done]. intros [= <-]. apply mapM_omap in El. subst l.
  unfold file_of, set_with. cbv beta zeta.
  f_equal; read_field.
Qed.
End decoded.

(** ** The settings *)

(** The settings a command line is written with. *)
Definition written (l : list Setting) : list string := concat (render <$> l).
Definition writable (l : list Setting) : Prop :=
  Forall (λ s, plain_name (sname s) = true ∧ is_Some (value_of (declared !! sname s) s)) l.

(** A text flag's last value, and a boolean one's. *)
Definition given (l : list Setting) (n dflt : string) : string :=
  match last_value declared n l with Some (VString s) => s | _ => dflt end.
Definition set_on (l : list Setting) (n : string) : bool :=
  match last_value declared n l with Some (VBool b) => b | _ => false end.

(** The first text that is not empty. *)
Definition first_text (vs : list string) (base : string) : string := default base (find (λ s, negb (is_empty s)) vs).

(** The engine's configuration for a command line and a document, setting by setting: the
    file's names for it, the flag and the flag's default. *)
Definition settled `{UnicodeCase} (l : list Setting) (doc : list (string * Json)) : EngineConfig :=
  let t ks n d := first_text ((λ k, text_of k doc) <$> ks) (given l n d) in
  let f k d := first_text [text_of k doc] d in
  let api := t ["api_listen"] "api" "" in
  let stats := t ["stats_file"] "stats-file" "" in {|
  SPPServer := t ["spp_server"] "spp-server" ""; SPPProto := t ["spp_proto"] "spp-proto" "tcp";
  SPPKey := t ["spp_key"] "spp-key" "123456"; SPPEncrypt := f "spp_encrypt" "default";
  SPPCompress := default 128 (field_of (into_ptr 0 into_int) None "spp_compress" doc);
  SPPRdnsDomain := t ["spp_rdnsdomain"; "rdnsdomain"] "spp-rdnsdomain" "";
  SPPRdnsUpstream := t ["spp_rdnsupstream"; "rdnsupstream"] "spp-rdnsupstream" "";
  SPPRdnsPsk := t ["spp_rdnspsk"; "rdnspsk"] "spp-rdnspsk" "";
  SPPRdnsQueryType := t ["spp_rdnsquerytype"; "rdnsquerytype"] "spp-rdnsquerytype" "";
  SPPNodes := omap id (field_of (into_list None (into_ptr zero_node (into_struct node_members))) [] "nodes" doc);
  LocalSocks5 := "";
  DNSListen := t ["dns_listen"] "dns" "127.0.0.1:53"; DoHListen := t ["doh_listen"] "doh" "127.0.0.1:8053";
  DoTListen := t ["dot_listen"] "dot" ""; TLSCertFile := t ["tls_cert"] "tls-cert" ""; TLSKeyFile := t ["tls_key"] "tls-key" "";
  DirectDNS := f "direct_dns" "1.1.1.1:53"; RemoteDoH := f "doh_url" "https://1.1.1.1/dns-query";
  Socks5Listen := t ["socks5_listen"] "socks5" "127.0.0.1:1080"; HTTPListen := t ["http_listen"] "http" "127.0.0.1:8080";
  ProxyUsername := text_of "proxy_username" doc; ProxyPassword := text_of "proxy_password" doc;
  EnableIPv6 := default false (flag_of "ipv6" doc);
  DirectDomains := texts_of "direct_domains" doc; DirectCIDRs := texts_of "direct_cidrs" doc;
  GeoIPFile := t ["geoip_file"] "geoip" ""; ChinaDomainsFile := t ["china_domains"] "china-domains" "";
  GFWDomainsFile := t ["gfw_domains"] "gfw-domains" ""; SkipCountry := t ["skip_country"] "skip-country" "CN";
  APIListen := api; APIToken := t ["api_token"] "api-token" ""; APIReadonlyToken := text_of "api_readonly_token" doc;
  APIAllowedCIDRs := texts_of "api_allowed_cidrs" doc; APIClientCIDRs := texts_of "api_client_cidrs" doc;
  APITrustedProxies := texts_of "api_trusted_proxies" doc; APIOrigins := texts_of "api_origins" doc;
  APIDashboard := default true (flag_of "api_dashboard" doc);
  APIPProf := default (set_on l "api-pprof") (flag_of "api_pprof" doc);
  StatsFile := if negb (is_empty api) && is_empty stats then "stats.json" else stats;
  StatsHistoryHours := Z.max 0 (field_of into_int 0 "stats_history_hours" doc) |}.

Lemma parse_written l : writable l →
  Parse declared (written l) = ({| values := foldl assign declared l; args := [] |}, None).
Proof.
  intros Hl. unfold written. rewrite <- (app_nil_r (concat _)), parse_settings by done. unfold Parse. cbn. by destruct (foldl _ _ _).
Qed.

Lemma given_str l n d : declared !! n = Some (VString d) → str_of (foldl assign declared l) n = given l n d.
Proof.
  intros Hn. unfold str_of, given. destruct (assign_lookup n l declared) as [E K]. rewrite E in K |- *. rewrite Hn in K |- *.
  by destruct (last_value declared n l) as [[]|].
Qed.

Lemma set_bool l n : declared !! n = Some (VBool false) → bool_of (foldl assign declared l) n = set_on l n.
Proof.
  intros Hn. unfold bool_of, set_on. destruct (assign_lookup n l declared) as [E K]. rewrite E in K |- *. rewrite Hn in K |- *.
  by destruct (last_value declared n l) as [[]|].
Qed.

Lemma eqb_empty s : String.eqb s "" = is_empty s.
Proof. by destruct s. Qed.
Lemma str_first a b : str a b = first_text [a] b.
Proof. by destruct a. Qed.
Lemma alias_first a o b : alias a o b = first_text [a; o] b.
Proof. by destruct a, o. Qed.
Lemma first_text_nil a : first_text [a] "" = a.
Proof. by destruct a. Qed.
Lemma lst_nil {A} (a : list A) : lst a [] = a.
Proof. by destruct a. Qed.

Section settle.
Context `{UnicodeCase}.

Lemma merged_settled l doc :
  stats_default (MergeWithEngineConfig (file_of doc) (cli_config (foldl assign declared l))) = settled l doc.
Proof.
  set (c := MergeWithEngineConfig _ _).
  assert (APIListen c = first_text [text_of "api_listen" doc] (given l "api" "") ∧
    StatsFile c = first_text [text_of "stats_file" doc] (given l "stats-file" "")) as [Ea Es].
  { unfold c. cbn -[str str_of]. by rewrite !str_first, !(given_str l _ "") by reflexivity. }
  assert (stats_default c = c <| StatsFile := if negb (is_empty (APIListen c)) && is_empty (StatsFile c) then "stats.json" else StatsFile c |>) as ->.
  { clear. clearbody c. unfold stats_default. rewrite !eqb_empty. destruct (_ && _); [done|by destruct c]. }
  rewrite Ea, Es. unfold c, settled, set_with, MergeWithEngineConfig, cli_config, file_of, ptr. cbv beta zeta.
  cbn -[str alias lst first_text str_of bool_of given set_on Z.ltb Z.max find declared foldl].
  rewrite !str_first, !alias_first, !lst_nil, !first_text_nil, (set_bool l "api-pprof") by reflexivity.
  f_equal; try (f_equal; by apply given_str).
  destruct (Z.ltb_spec 0 (field_of into_int 0 "stats_history_hours" doc)); lia.
Qed.
End settle.

Section cli.
Context `{UnicodeCase, Router.RouterEnv, Dns.DNSLib, GoSort, Stats.TimeFormat, Spp.SppLib, Json.JSONText, Json.TimeJSON, StatsPersist.GoAppend, LogLib, YamlLib}.

(** The document the command line names: none without a file; otherwise the file is read, is
    an object whose members have the right kinds, and names no null node. *)
Definition document (w : World) (l : list Setting) (doc : list (string * Json)) : Prop :=
  let path := given l "config" "" in
  if is_empty path then doc = []
  else ∃ data f, w_read w path = Ok data ∧ json_parse data = Ok (JObj doc) ∧
    (foldl (store file_members) (zero_file, false) doc).2 = false ∧
    whole (foldl (store file_members) (zero_file, false) doc).1 = Some f.

(** C15: settings reach the engine.  For every command line of declared flags, text ones in
    any of the four ways to write them and boolean ones bare or with a value, that does not
    ask for the version, and every JSON configuration file it names: the program goes on to
    the engine with the configuration [settled] describes.  Every one of its settings, the
    texts, lists, switches and numbers of the file and the nodes, is what the file's own
    members say, else the last value on the command line, else the default; an older name in
    the file counts where the newer one is empty; and the statistics file is named once the
    API is on.  The log level is the file's, else the flag's.  The YAML decoder is not
    asked. *)
Theorem settings_reach_engine w l doc :
  writable l → set_on l "v" = false → set_on l "version" = false → document w l doc →
  let '(p, ok) := EnsureWritableWorkDir (w_host w) (w_proc w) in
  run w (written l) =
    run_engine w (log_level (text_of "loglevel" doc) (given l "loglevel" "info"), negb ok) p (settled l doc).
Proof.
  intros Hl Hv Hv' Hdoc. unfold run. rewrite parse_written by done. cbv beta iota zeta. cbn [values].
  rewrite (set_bool l "v"), (set_bool l "version"), Hv, Hv' by reflexivity. cbn [orb].
  rewrite (given_str l "config" "") by reflexivity. unfold document in Hdoc. cbv zeta in Hdoc. rewrite eqb_empty. unfold run_config.
  rewrite (given_str l "loglevel" "info") by reflexivity.
  destruct (is_empty (given l "config" "")); cbn [negb].
  - subst doc. destruct (EnsureWritableWorkDir _ _) as [p ok]. rewrite <- merged_settled.
    change (file_of []) with emptyFile. by rewrite (proj1 (merge_overlays emptyFile emptyFile (cli_config (foldl assign declared l)))).
  - destruct Hdoc as (data & f & Hr & Hp & He & Hw). unfold LoadConfigFile, ParseConfigContent, Unmarshal. rewrite Hr, Hp.
    cbn [into_struct]. pose proof (decoded_file doc f Hw) as ->.
    assert (fLogLevel (file (foldl (store file_members) (zero_file, false) doc).1) = text_of "loglevel" doc) as El.
    { revert Hw. unfold whole. destruct (mapM id _) as [x|]; [|done]. cbn [mbind option_bind]. intros E%(inj Some)%(f_equal fLogLevel). exact E. }
    destruct (foldl _ _ doc) as [d e] eqn:Ed. cbn [fst snd] in *. subst e. rewrite El, Hw. destruct (EnsureWritableWorkDir _ _) as [p ok].
    by rewrite merged_settled.
Qed.

(** ** How the program ends *)

(** An engine that was started and one that failed to start. *)
Lemma engine_outcome o cfg : EngineProps.outcome (Engine.ecfg (Engine.NewEngine cfg)) (Engine.Start o (Engine.NewEngine cfg)).
Proof. apply EngineProps.Start_outcome; [by repeat split|apply Forall_nil_2]. Qed.

(** The configuration the flags and the file come to. *)
Definition configured (w : World) (vals : gmap string Value) (cfg : EngineConfig) : Prop :=
  if is_empty (str_of vals "config") then cfg = stats_default (cli_config vals)
  else ∃ d f, LoadConfigFile (w_read w) (str_of vals "config") = Ok d ∧ whole d = Some f ∧
         cfg = stats_default (MergeWithEngineConfig f (cli_config vals)).

Definition no_server (cfg : EngineConfig) : Prop := SPPServer cfg = "" ∧ SPPNodes cfg = [].

(** The flags are read and do not ask for the version. *)
Definition proceeds (args : list string) (fs : FlagSet) : Prop :=
  Parse declared args = (fs, None) ∧ bool_of (values fs) "v" = false ∧ bool_of (values fs) "version" = false.

(** Why the program ends. *)
Inductive Reason :=
  | BadFlags (e : Flag.Error) | VersionAsked | BadFile (e : ConfigError) | NullNode | NoServer
  | StartFailed (e : Engine.Engine) | Served (e : Engine.Engine).

Inductive because (w : World) (args : list string) : Reason → Prop :=
  | be_flags fs e : Parse declared args = (fs, Some e) → because w args (BadFlags e)
  | be_version fs : Parse declared args = (fs, None) → bool_of (values fs) "v" = true ∨ bool_of (values fs) "version" = true →
      because w args VersionAsked
  | be_file fs e : proceeds args fs → str_of (values fs) "config" ≠ "" →
      LoadConfigFile (w_read w) (str_of (values fs) "config") = Err e → because w args (BadFile e)
  | be_null fs d : proceeds args fs → str_of (values fs) "config" ≠ "" →
      LoadConfigFile (w_read w) (str_of (values fs) "config") = Ok d → whole d = None → because w args NullNode
  | be_usage fs cfg : proceeds args fs → configured w (values fs) cfg → no_server cfg → because w args NoServer
  | be_failed fs cfg e msg : proceeds args fs → configured w (values fs) cfg → ¬ no_server cfg →
      Engine.Start (w_engine w) (Engine.NewEngine cfg) = (e, Some msg) → because w args (StartFailed e)
  | be_served fs cfg e : proceeds args fs → configured w (values fs) cfg → ¬ no_server cfg →
      Engine.Start (w_engine w) (Engine.NewEngine cfg) = (e, None) → because w args (Served e).

Definition code_of (why : Reason) : Exit :=
  match why with
  | BadFlags _ => Exited 2
  | BadFile _ | StartFailed _ => Exited 1
  | VersionAsked | NoServer | Served _ => Exited 0
  | NullNode => Crashed
  end.

Definition said (w : World) (why : Reason) : list Line :=
  match why with
  | BadFlags e => [FlagLine e]
  | VersionAsked => [VersionLine (version_String (w_build w))]
  | BadFile e => [LoadLine e]
  | NoServer => [UsageLine]
  | NullNode | StartFailed _ | Served _ => []
  end.

Definition served (why : Reason) : option Engine.Engine := match why with Served e => Some e | _ => None end.
Definition left_behind (why : Reason) : option Engine.Engine :=
  match why with StartFailed e => Some e | Served e => Some (Engine.Stop e) | _ => None end.

(** The reasons exclude each other, and there is always one. *)
Definition config_of (w : World) (vals : gmap string Value) : Reason + EngineConfig :=
  if is_empty (str_of vals "config") then inr (stats_default (cli_config vals))
  else match LoadConfigFile (w_read w) (str_of vals "config") with
       | Err e => inl (BadFile e)
       | Ok d => match whole d with
                 | Some f => inr (stats_default (MergeWithEngineConfig f (cli_config vals)))
                 | None => inl NullNode
                 end
       end.

Definition engine_reason (w : World) (cfg : EngineConfig) : Reason :=
  if String.eqb (SPPServer cfg) "" && (length (SPPNodes cfg) =? 0)%nat then NoServer
  else match Engine.Start (w_engine w) (Engine.NewEngine cfg) with
       | (e, Some _) => StartFailed e
       | (e, None) => Served e
       end.

Definition reason (w : World) (args : list string) : Reason :=
  let '(fs, err) := Parse declared args in
  match err with
  | Some e => BadFlags e
  | None => if bool_of (values fs) "v" || bool_of (values fs) "version" then VersionAsked
            else match config_of w (values fs) with inl why => why | inr cfg => engine_reason w cfg end
  end.

Lemma no_server_eqb cfg : String.eqb (SPPServer cfg) "" && (length (SPPNodes cfg) =? 0)%nat = true ↔ no_server cfg.
Proof. unfold no_server. rewrite andb_true_iff, String.eqb_eq, Nat.eqb_eq, length_zero_iff_nil. done. Qed.

Lemma configured_spec w vals cfg : configured w vals cfg ↔ config_of w vals = inr cfg.
Proof.
  unfold configured, config_of. destruct (is_empty _); [naive_solver|].
  destruct (LoadConfigFile _ _) as [d|e]; [|naive_solver]. destruct (whole d) as [f|] eqn:Ew; naive_solver.
Qed.

Lemma because_reason w args why : because w args why → why = reason w args.
Proof.
  assert (∀ fs, proceeds args fs →
    reason w args = match config_of w (values fs) with inl why => why | inr cfg => engine_reason w cfg end) as Hp.
  { intros fs (E & Ev & Ev'). unfold reason. by rewrite E, Ev, Ev'. }
  intros [fs e E|fs E Hv|fs e Hf Hc E|fs d Hf Hc E Ew|fs cfg Hf Hc Hn|fs cfg e msg Hf Hc Hn E|fs cfg e Hf Hc Hn E].
  - unfold reason. by rewrite E.
  - unfold reason. rewrite E. destruct Hv as [->| ->]; [done|by rewrite orb_true_r].
  - rewrite (Hp fs Hf). unfold config_of. rewrite (proj2 (is_empty_false _) Hc), E. done.
  - rewrite (Hp fs Hf). unfold config_of. rewrite (proj2 (is_empty_false _) Hc), E, Ew. done.
  - rewrite (Hp fs Hf). apply configured_spec in Hc. rewrite Hc. unfold engine_reason. by rewrite (proj2 (no_server_eqb cfg) Hn).
  - rewrite (Hp fs Hf). apply configured_spec in Hc. rewrite Hc. unfold engine_reason. rewrite <- no_server_eqb in Hn.
    apply not_true_is_false in Hn. by rewrite Hn, E.
  - rewrite (Hp fs Hf). apply configured_spec in Hc. rewrite Hc. unfold engine_reason. rewrite <- no_server_eqb in Hn.
    apply not_true_is_false in Hn. by rewrite Hn, E.
Qed.

Lemma reason_because w args : because w args (reason w args).
Proof.
  unfold reason. destruct (Parse declared args) as [fs [e|]] eqn:E; [by apply (be_flags _ _ fs)|].
  destruct (bool_of (values fs) "v" || _) eqn:Ev; [by apply (be_version _ _ fs); [|apply orb_true_iff]|].
  apply orb_false_iff in Ev as [Ev Ev']. assert (proceeds args fs) as Hf by done.
  destruct (config_of w (values fs)) as [why|cfg] eqn:Ec.
  - unfold config_of in Ec. destruct (is_empty (str_of (values fs) "config")) eqn:Ei; [done|]. apply is_empty_false in Ei.
    destruct (LoadConfigFile _ _) as [d|e] eqn:El; [destruct (whole d) eqn:Ew; [done|]|]; injection Ec as <-.
    + by apply (be_null _ _ fs d).
    + by apply (be_file _ _ fs).
  - apply configured_spec in Ec. unfold engine_reason. destruct (_ && _) eqn:En.
    + apply no_server_eqb in En. by apply (be_usage _ _ fs cfg).
    + assert (¬ no_server cfg) as Hn by (rewrite <- no_server_eqb; by rewrite En).
      destruct (Engine.Start _ _) as [e [msg|]] eqn:Es; [by apply (be_failed _ _ fs cfg e msg)|by apply (be_served _ _ fs cfg)].
Qed.

(** What a run comes to, for a reason. *)
Record ends (w : World) (why : Reason) (r : Ran) : Prop := {
  en_exit : exit r = code_of why;
  en_said : stdout r = said w why;
  en_serving : serving r = served why;
  en_final : final r = left_behind why;
  en_up : ∀ e, served why = Some e → Engine.running e = true ∧ EngineProps.all_up e;
  en_idle : ∀ e, left_behind why = Some e → EngineProps.idle e ∧ Forall EngineProps.quiet (Engine.gone e);
  en_logging : ∀ lv off, logging r = Some (lv, off) → off = negb (EnsureWritableWorkDir (w_host w) (w_proc w)).2;
}.

Lemma run_engine_ends w lv off p cfg : off = negb (EnsureWritableWorkDir (w_host w) (w_proc w)).2 →
  ends w (engine_reason w cfg) (run_engine w (lv, off) p cfg).
Proof.
  intros Hoff. unfold run_engine, engine_reason. destruct (_ && _); [split; try done; naive_solver|].
  pose proof (engine_outcome (w_engine w) cfg) as [_ Ho]. destruct (Engine.Start _ _) as [e [err|]]; cbn in Ho.
  - split; try done; [by intros ? [= <-]|naive_solver].
  - destruct Ho as (Hs & Hr & Hu). destruct (EngineProps.Stop_outcome e Hs Hr) as (Hi & Hq & _).
    split; try done; [by intros ? [= <-]|by intros ? [= <-]|naive_solver].
Qed.

Lemma run_config_ends w vals d : 
  match d with None => is_empty (str_of vals "config") = true
             | Some d => is_empty (str_of vals "config") = false ∧ LoadConfigFile (w_read w) (str_of vals "config") = Ok d end →
  ends w (match config_of w vals with inl why => why | inr cfg => engine_reason w cfg end) (run_config w vals d).
Proof.
  intros Hd. unfold run_config, config_of. destruct (EnsureWritableWorkDir _ _) as [p ok] eqn:E.
  assert (negb ok = negb (EnsureWritableWorkDir (w_host w) (w_proc w)).2) as Hok by by rewrite E.
  destruct d as [d|]; [destruct Hd as [-> ->]|rewrite Hd; by apply run_engine_ends].
  destruct (whole d) as [f|]; [by apply run_engine_ends|]. split; try done; naive_solver.
Qed.

(** C16: how the program ends.  Whatever the arguments, the file, the machine and the
    network do, there is exactly one reason the program ends for: bad flags (code 2),
    the version asked for (0), a file that cannot be loaded (1), a null node (a crash), no
    server configured (0, with the usage), an engine that fails to start (1), or a signal
    while it serves (0); and it ends with that code and says that.  While it serves, the
    engine runs with everything its configuration asks for; what a failed start or the end
    leaves has no component, and every one that was ever built has been released.  Log
    files are off exactly when there is no writable directory. *)
Theorem run_ends_clean w args :
  ∃ why, (∀ why', because w args why' ↔ why' = why) ∧ ends w why (run w args).
Proof.
  exists (reason w args). split; [intros why; split; [apply because_reason|intros ->; apply reason_because]|].
  unfold run, reason. destruct (Parse declared args) as [fs [e|]]; [split; try done; naive_solver|].
  destruct (bool_of _ "v" || _); [split; try done; naive_solver|]. rewrite eqb_empty.
  destruct (is_empty (str_of (values fs) "config")) eqn:Ei; cbn [negb]; [by apply (run_config_ends w (values fs) None)|].
  destruct (LoadConfigFile _ _) as [d|e] eqn:El; [by apply (run_config_ends w (values fs) (Some d))|].
  unfold config_of. rewrite Ei, El. split; try done; naive_solver.
Qed.
End cli.

(** ** Witnesses *)

#[local] Instance cli_case : UnicodeCase := ascii_case.
#[local] Instance cli_router : RouterEnv := RouterProps.demo_env.
#[local] Instance cli_dns : Dns.DNSLib := DnsProps.DnsProps.demo_lib.
#[local] Instance cli_sort : GoSort := merge_GoSort.
#[local] Instance cli_format : Stats.TimeFormat := λ _, "".
#[local] Instance cli_spp : Spp.SppLib := SppProps.SppProps.demo_lib.
#[local] Existing Instances StatsPersistProps.StatsPersistProps.bits_JSON StatsPersistProps.StatsPersistProps.digits_time
  StatsPersistProps.StatsPersistProps.double_append.
#[local] Instance cli_log : LogLib := {| LEVEL_INFO := 1; NameToLevel s := if String.eqb s "debug" then 0 else -1 |}.
#[local] Instance cli_yaml : YamlLib := {| yaml_Unmarshal _ _ := Err "not yaml" |}.

(** A machine on which nothing can be reached and no port is free. *)
Definition dead_net : Spp.Net := {|
  Spp.n_tcp _ := None; Spp.n_new_conn _ := false; Spp.n_dial _ _ _ := None; Spp.n_ping _ := None;
  Spp.n_client _ := Some "refused"; Spp.n_ping_client _ := Some "refused" |}.

Definition dead_engine : Engine.Outcomes := {|
  Engine.o_now := 0; Engine.o_load := 0; Engine.o_read := None; Engine.o_disk := ∅; Engine.o_net := dead_net;
  Engine.o_looks _ := ({| Spp.l_now := 0; Spp.l_client := false |}, {| Spp.l_now := 0; Spp.l_client := false |});
  Engine.o_dns := {| Dns.b_udp := Some "in use"; Dns.b_tcp := None; Dns.b_doh := None; Dns.b_cert := None; Dns.b_dot := None |};
  Engine.o_socks5 := None; Engine.o_http := None; Engine.o_rand := Some "0123456789abcdef"; Engine.o_api := None |}.

Definition demo_world (data : string) : World := {|
  w_build := {| Version := "2.0.0"; GitCommit := "unknown"; BuildTime := "unknown"; GoVersion := "go"; GOOS := "linux"; GOARCH := "amd64" |};
  w_read path := if String.eqb path "c.json" then Ok data else Err "no such file"; w_host := demo_host;
  w_proc := {| cwd := Some "/usr/bin"; made := []; files := ∅ |}; w_engine := dead_engine |}.

Definition demo_doc : list (string * Json) :=
  [("spp_server", JStr "old:1"); ("SPP_Server", JStr "spp.example:8888"); ("socks5_listen", JStr ""); ("rdnsdomain", JStr "t.example");
   ("api_allowed_cidrs", JArr [JStr "10.0.0.0/8"])].

Definition demo_settings : list Setting :=
  [{| style := Attached; sname := "spp-server"; sval := "flag:1" |};
   {| style := DoubleSeparate; sname := "config"; sval := "c.json" |};
   {| style := Bare; sname := "api-pprof"; sval := "" |};
   {| style := Separate; sname := "socks5"; sval := "127.0.0.1:9999" |}].

Lemma settings_reach_engine_witness :
  let doc := demo_doc in
  (∃ p, run (demo_world (json_print (JObj doc))) (written demo_settings) =
    run_engine (demo_world (json_print (JObj doc))) (1, false) p (settled demo_settings doc)) ∧
  SPPServer (settled demo_settings doc) = "spp.example:8888" ∧ Socks5Listen (settled demo_settings doc) = "127.0.0.1:9999" ∧
  SPPRdnsDomain (settled demo_settings doc) = "t.example" ∧ HTTPListen (settled demo_settings doc) = "127.0.0.1:8080" ∧
  APIPProf (settled demo_settings doc) = true ∧ APIAllowedCIDRs (settled demo_settings doc) = ["10.0.0.0/8"].
Proof.
  split.
  - eexists. refine (settings_reach_engine (demo_world (json_print (JObj demo_doc))) demo_settings demo_doc _ _ _ _).
    + repeat (apply Forall_cons_2; [split; [reflexivity|eexists; vm_compute; reflexivity]|]). apply Forall_nil_2.
    + vm_compute. reflexivity.
    + vm_compute. reflexivity.
    + unfold document. assert (given demo_settings "config" "" = "c.json") as -> by (vm_compute; reflexivity).
      exists (json_print (JObj demo_doc)), (default emptyFile (whole (foldl (store file_members) (zero_file, false) demo_doc).1)).
      split; [reflexivity|]. split; [apply json_parse_print; reflexivity|]. split; vm_compute; reflexivity.
  - split_and!; vm_compute; reflexivity.
Defined.

(** A node that is [null] in the file passes every check and ends the process. *)
Example null_node_crashes :
  exit (run (demo_world (json_print (JObj [("nodes", JArr [JNull])]))) ["-config"; "c.json"]) = Crashed.
Proof. vm_compute. reflexivity. Qed.

Example help_is_an_error : exit (run (demo_world "") ["-h"]) = Exited 2.
Proof. vm_compute. reflexivity. Qed.

Example no_server_prints_usage : stdout (run (demo_world "") ["-loglevel=debug"]) = [UsageLine].
Proof. vm_compute. reflexivity. Qed.
End CliProps.
